(* ===== verification/_CoqProject ===== *)
-Q . S2P
Prelude.v
Sdk.v
SdkRef.v
SdkFees.v
Core.v
Pagination.v
OracleBallot.v
OracleTypes.v
OracleKeeper.v
OracleTally.v
OracleVotes.v
OracleTallyFacts.v
OracleRef.v
OracleDeterminism.v
OracleEndBlock.v
OracleMisses.v
OracleRewards.v
OracleHandlers.v
OracleCommands.v
OracleGenesis.v
OracleMachine.v
OracleFindings.v
Market.v
MarketFacts.v
MarketSwap.v
MarketOracle.v
TreasuryTypes.v
Treasury.v
TreasuryFacts.v
TreasuryEpoch.v
TreasuryGenesis.v
TreasuryCommands.v
TreasuryOracle.v
TaxExemption.v
TaxExemptionFacts.v
Tax.v
TaxFacts.v
TaxCharge.v
Ante.v
TaxRef.v
TaxSend.v
TaxMarket.v
AnteTax.v
AnteFee.v
TxRun.v
AnteChecks.v
Dyncomm.v
DyncommFacts.v
DyncommRef.v
Vesting.v
VestingFacts.v
Simulation.v
SimAccounts.v
Mempool.v
MempoolFacts.v
FeeEstimate.v
FeeEstimateFacts.v
TransferCommands.v
WasmCommands.v
CommandFees.v
Wasm.v
WasmFacts.v
GenAccounts.v
CustomSdk.v
TxChain.v
AppBlock.v
Upgrades.v
AppExport.v
LegacyGenesis.v
LegacyWasm.v
ExemptionMsgs.v
AppWiring.v
AppKeepers.v
AppGenesis.v
AppInit.v
AppServices.v
