(* ===== verification/Prelude.v ===== *)
(** * Terra Classic core (columbus-core): a verification library

    The program is a Cosmos SDK application: a deterministic state machine that
    every validator of the chain runs.  Its own modules are an exchange-rate
    oracle fed by validators ([x/oracle]), a swap market that trades at the
    oracle's rates ([x/market]), a treasury that watches taxes and seigniorage and
    adjusts tax and reward policies by epoch ([x/treasury]), a burn tax on
    transfers with its exemption zones ([x/tax], [x/taxexemption]), dynamic
    minimal commissions of validators ([x/dyncomm]) and graded vesting accounts
    ([x/vesting]).  Around them are the checks that transactions pass before and
    after their messages run ([custom/auth/ante], [x/tax/post], [x/dyncomm/ante],
    [x/dyncomm/post]), the bindings for contracts ([wasmbinding], [custom/wasm]),
    changed SDK modules ([custom/staking], [custom/bank]), the fee estimates of
    the command line ([custom/auth/client/utils]) and the mempool that orders
    transactions for a block proposal ([app/mempool]).  The application ([app])
    puts them together: it chains the checks of a transaction, runs the modules at
    the end of a block and at genesis in a fixed order, upgrades and forks the
    running chain, and exports its state; the commands of [cmd/terrad] and
    [app/legacy] prepare and migrate genesis files.

    ** How the code is modelled

    Go code becomes executable definitions under its own names.  [res] is the
    result of code without effects: a value, an error or a panic; [M S] adds the
    state [S], of which an error keeps the writes made so far.  Integers are [Z]:
    Go's [int64] and [uint64] are written out ([int64], [uint64]) where the code
    converts or may overflow; [sdk.Int] and [sdk.Dec] are [Z] behind operations
    that panic outside of their bit width.  Stores are [gmap]s, and their
    iteration is in key order ([kv_iter]).  Loops are folds over the lists they
    range over; recursion over nested messages is structural.

    The SDK, CometBFT, wasmd, bech32, protobuf and JSON are not part of the
    repository: their operations are classes ([SdkMath], [SdkCoins],
    [BankKeeper], [Bech32], [CLists], ...), each with a class of laws that state
    documented behaviour, and [SdkRef.v], [SdkFees.v], [OracleRef.v], [TaxRef.v]
    and [DyncommRef.v] build concrete instances that satisfy all laws, on which
    the witnesses run.  What Go leaves open, the order of a [range] over a map and
    the result of an unstable sort, is the class [GoRuntime].

    ** Files

    - [Prelude]: results, effects, machine integers, store iteration, sums.
      [Sdk], [SdkRef], [SdkFees]: the SDK as an interface, and its reference.
      [Core]: denoms and periods ([types/assets], [types/util]).
    - Oracle.  [OracleBallot], [OracleTypes] ([x/oracle/types]), [OracleKeeper]
      ([x/oracle/keeper]), [OracleTally] ([x/oracle/tally.go], [abci.go]),
      [OracleGenesis] ([genesis.go], [querier.go]) and [OracleMachine]
      ([handler.go] and the steps of the module) hold the model.  [OracleVotes],
      [OracleTallyFacts], [OracleDeterminism], [OracleEndBlock], [OracleMisses],
      [OracleRewards] and [OracleHandlers] hold the proofs, [OracleFindings] the
      states in which the end blocker halts, and a run that keeps a delisted denom.
    - Market.  [Market] ([x/market]) over the interface [OracleReader];
      [MarketFacts], [MarketSwap]; [MarketOracle] proves that the oracle's store
      implements the interface.
    - Treasury.  [TreasuryTypes], [Treasury] ([x/treasury]); [TreasuryFacts],
      [TreasuryEpoch], [TreasuryGenesis]; [TreasuryOracle] puts market and oracle
      behind it.
    - Taxes.  [TaxExemption] ([x/taxexemption]) with [TaxExemptionFacts]; [Tax]
      ([x/tax/keeper], [x/tax/handlers]) with [TaxFacts], [TaxCharge], [TaxSend],
      and [TaxMarket], where the market implements the wrapped server.
    - Transactions.  [Ante] ([custom/auth/ante], [x/tax/post], [app/helper]) with
      [AnteTax], [AnteFee], [AnteChecks]; [TxRun] runs ante handler, messages and
      post handler one after the other; [FeeEstimate] (the client's side) with
      [FeeEstimateFacts].
    - Commands.  [OracleCommands] ([x/oracle/client/cli/tx.go]), [TreasuryCommands]
      ([x/treasury/client/cli/gov_tx.go], and the list query over [Pagination]),
      [TransferCommands] ([custom/bank/client/cli/tx.go],
      [x/market/client/cli/tx.go]) and [WasmCommands]
      ([custom/wasm/client/cli/tx.go], [custom/authz/client/cli/tx.go]): the messages
      that are signed and sent; [CommandFees] takes them to the node.
    - [Dyncomm] with [DyncommFacts], [DyncommRef]; [Vesting] with [VestingFacts];
      [Mempool] with [MempoolFacts]; [Wasm] with [WasmFacts]; [CustomSdk]
      ([custom/staking/hook.go], [custom/bank/keeper], [server/middleware.go],
      [x/tax/handlers/wasm_msg_server.go]); [LegacyWasm]
      ([custom/wasm/types/legacy]); [ExemptionMsgs] (constructors, proposals and
      paginated lists of [x/taxexemption]).
    - The application.  [TxChain] ([custom/auth/ante/ante.go],
      [custom/auth/post], [custom/auth/tx]) chains the decorators; [AppBlock] runs
      the end blockers in the order of [app/modules.go], and the forks; [AppGenesis]
      imports and exports all modules; [Upgrades] ([app/upgrades]), [AppExport]
      ([app/export.go]), [AppWiring] ([app/app.go], [app/modules.go],
      [app/keepers/routers.go]), [AppKeepers] ([app/keepers/keepers.go]),
      [AppServices] (the servers and migrations that the modules register) and
      [AppInit] (the default genesis and the chain that starts from it).
      [LegacyGenesis] ([app/legacy]) and [GenAccounts] ([cmd/terrad]) work on
      genesis files.
    - [Simulation] and [SimAccounts] ([x/*/simulation/genesis.go],
      [custom/{auth,bank}/simulation/genesis.go]): the random genesis of a simulation.

    ** What the theorems show

    - Consensus: the end blocker of the whole application computes the same state,
      payments and slashing under every map order and unstable sort ([AppBlock],
      from [OracleDeterminism]).
    - Composition: what a transaction that passes the whole chain of checks
      guarantees, when each decorator of another project does no more than it
      documents ([TxChain]); the
      oracle's new rates are those that the treasury uses in the same block
      ([AppBlock]); a chain that starts from the default genesis satisfies the
      invariants from its first block on ([AppInit]); every message has one server,
      and every module version a migration ([AppServices]); export and import restore the
      application, and no module of it refuses its own export ([AppGenesis]); the
      export for a fresh start resets what it should and nothing else
      ([AppExport]).
    - Commands: running the prevote and the vote command with the same arguments
      casts the vote; exemption proposals do what was typed; a split transfer is
      balanced and never sends more than was given; salts and code ids are read as
      written ([WasmCommands]); what any command signs with an estimated fee passes
      the node's fee check ([CommandFees]).
    - Upgrades and genesis files: the exemption list becomes a zone with the same
      meaning, the treasury's tax ends for good, given the documented
      behaviour of the module manager, and the fork stops Luna swaps ([Upgrades]); a new account keeps supply and balances in step
      ([GenAccounts]); consensus keys are replaced everywhere at once, and denom
      metadata are well-formed exactly for micro denoms ([LegacyGenesis]).
    - Oracle: which rates, misses, slashes and rewards a vote period produces,
      that rewards are covered by the pool, that votes are committed before they
      are revealed and cannot be changed afterwards, that the median is the
      weighted median and out of reach of a minority, and the invariant of the
      store along every run.
      A vote period in which two ballots pass without a common voter halts.
    - Market and treasury: what a swap moves, mints and burns, the spread of the
      constant-product curve and its bounds, pools that recover; policies within their bounds, the books of an
      epoch, settled seigniorage; export and import.
    - Taxes and fees: the tax of a transaction equals a reference over its
      flattened messages; the gas fee is always collected and the tax charged
      exactly once, by the post handler or by the messages ([TxRun]); a transaction of transfers
      is accounted for from its ante handler to its post handler, to the last coin
      ([TxRun]); reverse-charged transfers,
      swaps and contract sends cost the sender the amount and the receiver the
      tax; splits never exceed the tax; exemption zones mean what they say.
    - Commissions, vesting and mempool: bounds and monotonicity of the minimal
      commission and the weekly update; vested and vesting coins of every
      account that validates add up, or the rounded check let too much pass; the
      mempool refines two FIFO queues, and its iteration ends.
    - Simulation: whatever the random source yields, the drawn oracle and market
      states validate, the treasury's unless its windows clash, the accounts are
      valid and the supply is what they hold.

    ** Bounds and fuel

    Few definitions take fuel.  Trimming a string ([OracleTypes.trim_left],
    [trim_right]) takes its length.  [Treasury.indicator_loop] runs at most the number
    of epochs passed plus one rounds, and [TreasuryFacts.indicators_correct]
    proves that they are enough.  [Mempool.drain], the client's loop over an
    iterator, gets one test more than the pool has transactions, and
    [MempoolFacts.iteration_terminates] proves that it always ends by then.
    Amounts are bounded by [2 ^ 255] (of vesting accounts [2 ^ 254]) where a theorem says that code returns.

    ** Not modelled

    Encoding and codecs, API routes, the command root, query commands, keys and config
    files of test networks, the random operations of the simulator, which sign
    transactions with test keys, and generated protobuf and gateway code: glue and
    I/O.  Queries that return a stored record
    as it is.  Gas metering, logs and telemetry.  The decorators, modules and
    migrations of other projects are parameters.  Slashing may write staking, bank
    and distribution state ([SlashKeeper]); a decorator writes what it documents
    ([TxChain.documented]); other modules leave this repository's stores alone at
    genesis ([GenesisManagerLaws]); [RunMigrations] runs the registered migrations
    of a recorded module and initialises a new one ([Upgrades.MigrationLaws]).  Of [app/keepers/keepers.go] the order and the reads of the
    construction are modelled, not the constructors of other projects.  Concurrent
    calls into the mempool. *)

From stdpp Require Export base tactics gmap strings sorting numbers list.

Open Scope Z_scope.

(** ** Errors, results and effects *)

(** A Go [error]: either one registered by a module with
    [errorsmod.Register(codespace, code, _)], a named error of the SDK, or a
    plain [fmt.Errorf] / [errors.New].  Wrapping keeps the identity of the
    wrapped error, so the wrap text is not recorded. *)
Inductive error :=
  | Registered (codespace : string) (code : Z)
  | SdkError (name : string)
  | Errorf (msg : string).

#[export] Instance error_eq_dec : EqDecision error.
Proof. solve_decision. Defined.

(** The result of Go code that touches no state: a value, an error value, or a
    run-time panic. *)
Inductive res (A : Type) :=
  | Ok (a : A)
  | Err (e : error)
  | Panic.
Arguments Ok {A} a.
Arguments Err {A} e.
Arguments Panic {A}.

Definition rbind {A B} (c : res A) (k : A -> res B) : res B :=
  match c with Ok a => k a | Err e => Err e | Panic => Panic end.

(** The result of code that reads and writes the state [S].  An error keeps the
    writes made before it (the SDK rolls them back per transaction, outside of
    this code); a panic keeps nothing. *)
Inductive out (S A : Type) :=
  | Ret (a : A) (s : S)
  | Fail (e : error) (s : S)
  | Halt.
Arguments Ret {S A} a s.
Arguments Fail {S A} e s.
Arguments Halt {S A}.

Definition M (S A : Type) : Type := S -> out S A.

Definition ret {S A} (a : A) : M S A := fun s => Ret a s.
Definition fail {S A} (e : error) : M S A := fun s => Fail e s.
Definition panic {S A} : M S A := fun _ => Halt.
Definition bind {S A B} (c : M S A) (k : A -> M S B) : M S B := fun s =>
  match c s with Ret a s' => k a s' | Fail e s' => Fail e s' | Halt => Halt end.
Definition gets {S A} (f : S -> A) : M S A := fun s => Ret (f s) s.
Definition modify {S} (f : S -> S) : M S unit := fun s => Ret tt (f s).
Definition lift {S A} (r : res A) : M S A := fun s =>
  match r with Ok a => Ret a s | Err e => Fail e s | Panic => Halt end.

(** Run an operation on a part of the state, through its getter and setter. *)
Definition zoom {S T A} (get : S -> T) (set : T -> S -> S) (c : M T A) : M S A := fun s =>
  match c (get s) with
  | Ret a t => Ret a (set t s)
  | Fail e t => Fail e (set t s)
  | Halt => Halt
  end.

(** [if err != nil { panic(err) }] *)
Definition must {S A} (c : M S A) : M S A := fun s =>
  match c s with Fail _ _ => Halt | o => o end.

Declare Scope go_scope.
Delimit Scope go_scope with go.
Open Scope go_scope.

Notation "'let!' x := c 'in' k" := (rbind c (fun x => k))
  (at level 10, x pattern, c at level 100, k at level 200) : go_scope.
Notation "'let*' x := c 'in' k" := (bind c (fun x => k))
  (at level 10, x pattern, c at level 100, k at level 200) : go_scope.
Notation "'do*' c 'in' k" := (bind c (fun _ => k))
  (at level 10, c at level 100, k at level 200) : go_scope.

(** [for _, x := range l { acc = f acc x }] without and with state. *)
Fixpoint rfold {A B} (f : B -> A -> res B) (acc : B) (l : list A) : res B :=
  match l with
  | [] => Ok acc
  | x :: l' => let! acc' := f acc x in rfold f acc' l'
  end.

Fixpoint mfold {S A B} (f : B -> A -> M S B) (acc : B) (l : list A) : M S B :=
  match l with
  | [] => ret acc
  | x :: l' => let* acc' := f acc x in mfold f acc' l'
  end.

Fixpoint mfor {S A} (l : list A) (f : A -> M S unit) : M S unit :=
  match l with
  | [] => ret tt
  | x :: l' => do* f x in mfor l' f
  end.

Lemma mfold_ext {S A B} (f g : B -> A -> M S B) b l s :
  (forall b x s, x ∈ l -> f b x s = g b x s) -> mfold f b l s = mfold g b l s.
Proof.
  revert b s. induction l as [|x l IH]; intros b s E; [done|]. simpl. unfold bind.
  rewrite E by left. destruct (g b x s); [|done..]. apply IH. intros. apply E. by right.
Qed.

(** ** Machine integers *)

(** Go's [int64(z)] and [uint64(z)] conversions. *)
Definition int64 (z : Z) : Z := (z + 2^63) mod 2^64 - 2^63.
Definition uint64 (z : Z) : Z := z mod 2^64.
Definition MaxInt64 : Z := 2^63 - 1.

Definition is_int64 (z : Z) : bool := (- 2^63 <=? z) && (z <? 2^63).
Definition is_uint64 (z : Z) : bool := (0 <=? z) && (z <? 2^64).

Lemma int64_id (z : Z) : - 2^63 <= z < 2^63 -> int64 z = z.
Proof. intros H. unfold int64. rewrite Z.mod_small; lia. Qed.

Lemma uint64_id (z : Z) : 0 <= z < 2^64 -> uint64 z = z.
Proof. intros H. unfold uint64. by rewrite Z.mod_small. Qed.

Lemma int64_range (z : Z) : - 2^63 <= int64 z < 2^63.
Proof. unfold int64. pose proof (Z.mod_pos_bound (z + 2^63) (2^64)). lia. Qed.

Lemma uint64_range (z : Z) : 0 <= uint64 z < 2^64.
Proof. unfold uint64. pose proof (Z.mod_pos_bound z (2^64)). lia. Qed.

(** [a += b] on int64 loses nothing when it is repeated: only the final sum is
    wrapped. *)
Lemma int64_add_l (a b : Z) : int64 (int64 a + b) = int64 (a + b).
Proof.
  unfold int64. f_equal.
  replace ((a + 2^63) `mod` 2^64 - 2^63 + b + 2^63)
    with ((a + 2^63) `mod` 2^64 + b) by lia.
  rewrite Z.add_mod_idemp_l by lia. f_equal. lia.
Qed.

Lemma uint64_add_l (a b : Z) : uint64 (uint64 a + b) = uint64 (a + b).
Proof. unfold uint64. by rewrite Z.add_mod_idemp_l by lia. Qed.

(** [lia] with truncating and flooring division by constants. *)
Ltac zlia := Z.to_euclidean_division_equations; lia.
Ltac znia := Z.to_euclidean_division_equations; nia.

(** ** Inversion and simplification of effectful code *)

Lemma rbind_Ok {A B} (c : res A) (k : A -> res B) b :
  rbind c k = Ok b <-> exists a, c = Ok a /\ k a = Ok b.
Proof. split; [destruct c; naive_solver|by intros (a & -> & ?)]. Qed.

Lemma rbind_ext {A B} (c : res A) (k1 k2 : A -> res B) :
  (forall a, k1 a = k2 a) -> rbind c k1 = rbind c k2.
Proof. intros E. destruct c; simpl; auto. Qed.

Lemma bind_Ret {S A B} (c : M S A) (k : A -> M S B) s b s' :
  bind c k s = Ret b s' <-> exists a s1, c s = Ret a s1 /\ k a s1 = Ret b s'.
Proof.
  unfold bind. split; [destruct (c s); naive_solver|].
  by intros (a & s1 & -> & ?).
Qed.

Lemma lift_Ret {S A} (r : res A) (s s' : S) a :
  lift r s = Ret a s' <-> r = Ok a /\ s' = s.
Proof. unfold lift. destruct r; naive_solver. Qed.

Lemma zoom_Ret {S T A} (get : S -> T) set (c : M T A) s a s' :
  zoom get set c s = Ret a s' <-> exists t, c (get s) = Ret a t /\ s' = set t s.
Proof. unfold zoom. destruct (c (get s)); naive_solver. Qed.

Lemma must_Ret {S A} (c : M S A) s a s' : must c s = Ret a s' <-> c s = Ret a s'.
Proof. unfold must. destruct (c s); naive_solver. Qed.

(** Walk through a run that returned: every [bind] in a hypothesis is split
    into the run of its first part and the run of the rest. *)
Ltac go_step :=
  match goal with
  | H : rbind _ _ = Ok _ |- _ => let H1 := fresh H in let H2 := fresh H in
      apply rbind_Ok in H; destruct H as (? & H1 & H2)
  | H : bind _ _ _ = Ret _ _ |- _ => let H1 := fresh H in let H2 := fresh H in
      apply bind_Ret in H; destruct H as (? & ? & H1 & H2)
  | H : lift _ _ = Ret _ _ |- _ => apply lift_Ret in H as [? ?]
  | H : zoom _ _ _ _ = Ret _ _ |- _ => apply zoom_Ret in H as (? & ? & ?)
  | H : must _ _ = Ret _ _ |- _ => rewrite must_Ret in H
  | H : gets _ _ = Ret _ _ |- _ => unfold gets in H
  | H : modify _ _ = Ret _ _ |- _ => unfold modify in H
  | H : ret _ _ = Ret _ _ |- _ => unfold ret in H
  | H : fail _ _ = Ret _ _ |- _ => discriminate H
  | H : panic _ = Ret _ _ |- _ => discriminate H
  | H : context [let (_, _) := ?p in _] |- _ => is_var p; destruct p
  | H : Err _ = Ok _ |- _ => discriminate H
  | H : Panic = Ok _ |- _ => discriminate H
  end; simplify_eq/=.
Ltac go_inv := repeat go_step.

Lemma rfold_fmap {A B C} (f : B -> A -> res B) (g : C -> A) acc l :
  rfold f acc (g <$> l) = rfold (fun b x => f b (g x)) acc l.
Proof.
  revert acc. induction l as [|x l IH]; intros acc; [done|]. simpl.
  by destruct (f acc (g x)); simpl.
Qed.

(** The final state of a run that returns. *)
Definition returned {S A} (o : out S A) : bool :=
  match o with Ret _ _ => true | _ => false end.
Definition final {S A} (o : out S A) (s0 : S) : S := match o with Ret _ s => s | _ => s0 end.

Lemma returned_final {S} (o : out S unit) s0 : returned o = true -> o = Ret tt (final o s0).
Proof. by destruct o as [[] s| |]. Qed.

(** The value of a computation that succeeds. *)
Definition value {A} (r : res A) (a0 : A) : A := match r with Ok a => a | _ => a0 end.
Definition succeeded {A} (r : res A) : bool := match r with Ok _ => true | _ => false end.

Lemma succeeded_value {A} (r : res A) a0 : succeeded r = true -> r = Ok (value r a0).
Proof. by destruct r. Qed.

(** ** Loops over collections whose order Go does not fix *)

(** Two outcomes agree up to a relation on values and one on states. *)
Definition orel {S A} (RA : relation A) (RS : relation S) (o1 o2 : out S A) : Prop :=
  match o1, o2 with
  | Ret a1 s1, Ret a2 s2 => RA a1 a2 /\ RS s1 s2
  | Fail e1 s1, Fail e2 s2 => e1 = e2 /\ RS s1 s2
  | Halt, Halt => True
  | _, _ => False
  end.

#[export] Instance orel_trans {S A} (RA : relation A) (RS : relation S)
  `{!Transitive RA, !Transitive RS} : Transitive (orel RA RS).
Proof.
  intros [] [] []; simpl; try tauto; intros [? ?] [? ?]; split; etrans; eauto.
Qed.

Lemma bind_orel {S A B} (RA : relation A) (RB : relation B) (RS : relation S)
    (c1 c2 : M S A) (k1 k2 : A -> M S B) s1 s2 :
  orel RA RS (c1 s1) (c2 s2) ->
  (forall a1 a2 t1 t2, RA a1 a2 -> RS t1 t2 -> orel RB RS (k1 a1 t1) (k2 a2 t2)) ->
  orel RB RS (bind c1 k1 s1) (bind c2 k2 s2).
Proof. unfold bind. destruct (c1 s1), (c2 s2); simpl; naive_solver. Qed.

(** The same, knowing that the values come from the two runs. *)
Lemma bind_orel_run {S A B} (RA : relation A) (RB : relation B) (RS : relation S)
    (c1 c2 : M S A) (k1 k2 : A -> M S B) s1 s2 :
  orel RA RS (c1 s1) (c2 s2) ->
  (forall a1 a2 t1 t2, c1 s1 = Ret a1 t1 -> c2 s2 = Ret a2 t2 -> RA a1 a2 -> RS t1 t2 ->
     orel RB RS (k1 a1 t1) (k2 a2 t2)) ->
  orel RB RS (bind c1 k1 s1) (bind c2 k2 s2).
Proof. unfold bind. destruct (c1 s1), (c2 s2); simpl; naive_solver. Qed.

(** Equality of values that satisfy an invariant. *)
#[export] Instance eq_with_sym {A} (P : A -> Prop) : Symmetric (fun a b : A => a = b /\ P a).
Proof. by intros a b [-> ?]. Qed.
#[export] Instance eq_with_trans {A} (P : A -> Prop) : Transitive (fun a b : A => a = b /\ P a).
Proof. by intros a b c [-> ?] [-> ?]. Qed.

Lemma ForallOrdPairs_perm {A} (C : relation A) (l1 l2 : list A) :
  (forall x y, C x y -> C y x) ->
  ForallOrdPairs C l1 -> l1 ≡ₚ l2 -> ForallOrdPairs C l2.
Proof.
  intros Csym HC Hp. induction Hp.
  - constructor.
  - inversion HC; subst. constructor; [|by apply IHHp].
    eapply Permutation_Forall; eauto.
  - inversion HC as [|? ? Hy HC']; subst. inversion HC'; subst.
    inversion Hy; subst. repeat constructor; auto.
  - by apply IHHp2, IHHp1.
Qed.

Lemma ForallOrdPairs_keys {A} (key : A -> string) (l : list A) :
  NoDup (key <$> l) -> ForallOrdPairs (fun x y => key x <> key y) l.
Proof.
  induction l as [|x l IH]; intros Hnd; [constructor|].
  apply NoDup_cons in Hnd as [Hni Hnd]. constructor; [|by apply IH].
  apply Forall_forall. intros y Hy E. apply Hni. rewrite E. apply list_elem_of_fmap. by exists y.
Qed.

Lemma ForallOrdPairs_True {A} (l : list A) : ForallOrdPairs (fun _ _ => True) l.
Proof. induction l; constructor; [by apply Forall_true|done]. Qed.

Section permuted_loop.
Context {S A B : Type} (RB : relation B) (RS : relation S).
Context `{!Symmetric RB, !Transitive RB, !Symmetric RS, !Transitive RS}.
Context (f : B -> A -> M S B).
(** [C x y]: the iterations for [x] and [y] may be exchanged. *)
Context (C : relation A).

Definition step_proper (x : A) : Prop := forall b1 b2 s1 s2,
  RB b1 b2 -> RS s1 s2 -> orel RB RS (f b1 x s1) (f b2 x s2).
Definition step_commute (x y : A) : Prop := forall b s, RB b b -> RS s s ->
  orel RB RS ((let* b' := f b x in f b' y) s) ((let* b' := f b y in f b' x) s).

Lemma mfold_proper l b1 b2 s1 s2 :
  Forall step_proper l -> RB b1 b2 -> RS s1 s2 ->
  orel RB RS (mfold f b1 l s1) (mfold f b2 l s2).
Proof using Type.
  intros Hl. revert b1 b2 s1 s2.
  induction Hl as [|x l Hx _ IH]; intros; simpl; [by split|].
  eapply bind_orel; [by apply Hx|]. intros; by apply IH.
Qed.

(** The result of a loop does not depend on the order of the iterations
    when the iterations respect the equivalence and commute pairwise. *)
Lemma mfold_perm l1 l2 b1 b2 s1 s2 :
  (forall x y, C x y -> C y x) ->
  (forall x, x ∈ l1 -> step_proper x) ->
  (forall x y, x ∈ l1 -> y ∈ l1 -> C x y -> step_commute x y) ->
  ForallOrdPairs C l1 -> l1 ≡ₚ l2 -> RB b1 b2 -> RS s1 s2 ->
  orel RB RS (mfold f b1 l1 s1) (mfold f b2 l2 s2).
Proof using Type*.
  intros Csym Hproper Hcomm HC Hperm. revert b1 b2 s1 s2 Hproper Hcomm HC.
  induction Hperm as [|x l1 l2 Hp IH|x y l|l1 l2 l3 Hp1 IH1 Hp2 IH2];
    intros b1 b2 s1 s2 Hproper Hcomm HC Hb Hs.
  - by split.
  - simpl. inversion HC as [|? ? Hx HC']; subst.
    eapply bind_orel; [apply Hproper; [left|done|done]|].
    intros. apply IH; try done.
    + intros z Hz. apply Hproper. rewrite elem_of_cons; auto.
    + intros z z' Hz Hz'. apply Hcomm; rewrite elem_of_cons; auto.
  - assert (Forall step_proper l) as Hl.
    { apply Forall_forall. intros z Hz. apply Hproper. rewrite !elem_of_cons; auto. }
    simpl. trans ((let* b' := f b2 y in let* b'' := f b' x in mfold f b'' l) s2).
    + eapply bind_orel; [apply Hproper; [left|done|done]|]. intros a1 a2 t1 t2 Ha Ht.
      eapply bind_orel; [apply Hproper; [rewrite !elem_of_cons; auto|done|done]|].
      intros. by apply mfold_proper.
    + inversion HC as [|? ? Hy HC']; subst. inversion Hy as [|? ? Hyx _]; subst.
      assert (y ∈ y :: x :: l) as Hy' by left.
      assert (x ∈ y :: x :: l) as Hx' by (rewrite !elem_of_cons; auto).
      assert (RB b2 b2) as Hb2 by (trans b1; [symmetry|]; done).
      assert (RS s2 s2) as Hs2 by (trans s1; [symmetry|]; done).
      pose proof (Hcomm y x Hy' Hx' Hyx b2 s2 Hb2 Hs2) as Hyx'.
      eapply (bind_orel _ RB _ _ _ (fun b => mfold f b l) (fun b => mfold f b l)) in Hyx';
        [|intros; by apply mfold_proper].
      revert Hyx'. unfold bind.
      by destruct (f b2 y s2) as [? ?| |], (f b2 x s2) as [? ?| |].
  - assert (RB b2 b2) as Hb2 by (trans b1; [symmetry|]; done).
    assert (RS s2 s2) as Hs2 by (trans s1; [symmetry|]; done).
    trans (mfold f b2 l2 s2); [by apply IH1|].
    apply IH2; try done.
    + intros x Hx. apply Hproper. by rewrite Hp1.
    + intros x y Hx Hy. apply Hcomm; by rewrite Hp1.
    + by eapply ForallOrdPairs_perm.
Qed.
End permuted_loop.

(** [for] over a list of results: all the values, or the first failure. *)
Fixpoint rmap {A B} (f : A -> res B) (l : list A) : res (list B) :=
  match l with
  | [] => Ok []
  | x :: l' => let! y := f x in let! ys := rmap f l' in Ok (y :: ys)
  end.

Lemma rfold_rmap {A B} (f : A -> res B) acc l :
  rfold (fun acc x => let! y := f x in Ok (acc ++ [y])) acc l =
  (let! ys := rmap f l in Ok (acc ++ ys)).
Proof.
  revert acc. induction l as [|x l IH]; intros acc; simpl; [by rewrite app_nil_r|].
  destruct (f x); simpl; [|done..]. rewrite IH. destruct (rmap f l); simpl; [|done..].
  by rewrite <- app_assoc.
Qed.

Lemma rmap_Forall2 {A B} (f : A -> res B) l ys :
  rmap f l = Ok ys -> Forall2 (fun x y => f x = Ok y) l ys.
Proof.
  revert ys. induction l as [|x l IH]; intros ys; simpl; [intros [= <-]; constructor|].
  intros (y & Hy & (ys' & Hys & [= <-])%rbind_Ok)%rbind_Ok. constructor; [done|by apply IH].
Qed.

(** The same for loops without state. *)
Definition no_err {A} (r : res A) : Prop := forall e, r <> Err e.

Lemma no_err_bind {A B} (c : res A) (k : A -> res B) :
  no_err c -> (forall a, no_err (k a)) -> no_err (rbind c k).
Proof. intros Hc Hk e. destruct c; simpl; [apply Hk|destruct (Hc e0); done|done]. Qed.

Lemma rfold_no_err {A B} (f : B -> A -> res B) b l :
  (forall b x, no_err (f b x)) -> no_err (rfold f b l).
Proof.
  intros Hf. revert b. induction l as [|x l IH]; intros b; [done|].
  by apply no_err_bind.
Qed.

Lemma rfold_app {A B} (f : B -> A -> res B) b l1 l2 :
  rfold f b (l1 ++ l2) = (let! b' := rfold f b l1 in rfold f b' l2).
Proof.
  revert b. induction l1 as [|x l1 IH]; intros b; [done|]. simpl.
  destruct (f b x); simpl; [apply IH|done|done].
Qed.

Lemma rfold_perm {A B} (f : B -> A -> res B) b l1 l2 :
  (forall b x y, (let! b' := f b x in f b' y) = (let! b' := f b y in f b' x)) ->
  l1 ≡ₚ l2 -> rfold f b l1 = rfold f b l2.
Proof.
  intros Hf Hp. revert b. induction Hp as [|x l1 l2 Hp IH|x y l|l1 l2 l3 Hp1 IH1 Hp2 IH2];
    intros b; simpl.
  - done.
  - destruct (f b x); simpl; [apply IH|done|done].
  - specialize (Hf b y x). destruct (f b y) as [b1| |], (f b x) as [b2| |]; simpl in *;
      first [by rewrite Hf | by rewrite <- Hf | congruence].
  - by rewrite IH1, IH2.
Qed.

Lemma rmap_perm {A B} (f : A -> res B) l1 l2 : (forall x, no_err (f x)) -> l1 ≡ₚ l2 ->
  (rmap f l1 = Panic /\ rmap f l2 = Panic) \/
  exists y1 y2, rmap f l1 = Ok y1 /\ rmap f l2 = Ok y2 /\ y1 ≡ₚ y2.
Proof.
  intros Hf Hp.
  induction Hp as [|x l1 l2 Hp IH|x y l|l1 l2 l3 Hp1 IH1 Hp2 IH2]; simpl.
  - right. by exists [], [].
  - pose proof (Hf x) as Hx. destruct (f x) as [z|e|]; [|by destruct (Hx e)|by left]. simpl.
    destruct IH as [[-> ->]|(y1 & y2 & -> & -> & E)]; [by left|right].
    exists (z :: y1), (z :: y2). split_and!; [done|done|by constructor].
  - pose proof (Hf x) as Hx. pose proof (Hf y) as Hy.
    assert (no_err (rmap f l)) as Hl.
    { clear -Hf. induction l; [done|]. simpl. apply no_err_bind; [apply Hf|]. intros.
      by apply no_err_bind. }
    destruct (f x) as [zx|e|]; [|by destruct (Hx e)|];
      (destruct (f y) as [zy|e|]; [|by destruct (Hy e)|]); simpl; try by left.
    destruct (rmap f l) as [zs|e|]; [|by destruct (Hl e)|]; simpl; [right|by left].
    exists (zy :: zx :: zs), (zx :: zy :: zs). split_and!; [done|done|apply Permutation_swap].
  - destruct IH1 as [[E1 E2]|(y1 & y2 & E1 & E2 & P1)], IH2 as [[E3 E4]|(y3 & y4 & E3 & E4 & P2)];
      try congruence; [by left|right].
    assert (y2 = y3) as -> by congruence. exists y1, y4. split_and!; [done|done|by etrans].
Qed.

Lemma foldl_perm {A B} (f : B -> A -> B) b l1 l2 :
  (forall b x y, f (f b x) y = f (f b y) x) -> l1 ≡ₚ l2 -> foldl f b l1 = foldl f b l2.
Proof.
  intros Hf Hp. revert b. induction Hp; intros b; simpl; [done|done|by rewrite Hf|].
  by rewrite IHHp1, IHHp2.
Qed.

Lemma mfor_mfold {S A} (l : list A) (f : A -> M S unit) s :
  mfor l f s = mfold (fun _ x => f x) tt l s.
Proof.
  revert s. induction l as [|x l IH]; intros s; [done|]. simpl. unfold bind.
  destruct (f x s) as [[] s'| |]; [apply IH|done|done].
Qed.

(** ** Byte strings in store order *)

(** Go compares strings, and the KV store orders keys, byte by byte. *)
Definition str_le (a b : string) : Prop := String.leb a b = true.

#[export] Instance str_le_dec : RelDecision str_le.
Proof. intros a b. unfold str_le. apply _. Defined.

Lemma str_compare_cons c d a b :
  String.compare (String c a) (String d b) =
  match Ascii.compare c d with Eq => String.compare a b | o => o end.
Proof. done. Qed.

Lemma ascii_compare_N c d :
  Ascii.compare c d = N.compare (Ascii.N_of_ascii c) (Ascii.N_of_ascii d).
Proof. done. Qed.

Lemma str_le_cons c d a b :
  str_le (String c a) (String d b) <->
  (Ascii.N_of_ascii c < Ascii.N_of_ascii d)%N \/ c = d /\ str_le a b.
Proof.
  unfold str_le, String.leb. rewrite str_compare_cons, ascii_compare_N.
  destruct (N.compare_spec (Ascii.N_of_ascii c) (Ascii.N_of_ascii d)) as [E|E|E].
  - apply (f_equal Ascii.ascii_of_N) in E. rewrite !Ascii.ascii_N_embedding in E.
    subst. split; [by right|]. intros [|[_ ?]]; [lia|done].
  - split; [by left|done].
  - split; [done|]. intros [|[-> _]]; lia.
Qed.

#[export] Instance str_le_trans : Transitive str_le.
Proof.
  intros a. induction a as [|c a IH]; intros [|d b] [|e z]; try done.
  rewrite !str_le_cons. intros [H1|[-> H1]] [H2|[-> H2]];
    [left; lia|by left|by left|right; split; [done|by eapply IH]].
Qed.

#[export] Instance str_le_antisymm : AntiSymm (=) str_le.
Proof. intros a b. apply String.leb_antisym. Qed.

#[export] Instance str_le_total : Total str_le.
Proof. intros a b. apply String.leb_total. Qed.

#[export] Instance str_le_refl : Reflexive str_le.
Proof. intros a. by destruct (str_le_total a a). Qed.

(** [a > b] on Go strings. *)
Definition str_gt (a b : string) : bool := negb (String.leb a b).

(** A prefix of a KV store as a finite map; [kv_iter enc m] is what
    [sdk.KVStorePrefixIterator] yields: the entries in the order of their store
    keys, [enc k] being the key the code writes entry [k] under. *)
Definition kv_le {V} (enc : string -> string) (p q : string * V) : Prop :=
  str_le (enc p.1) (enc q.1).

#[export] Instance kv_le_dec {V} enc : RelDecision (@kv_le V enc).
Proof. intros p q. unfold kv_le. apply _. Defined.

Definition kv_iter {V} (enc : string -> string) (m : gmap string V) : list (string * V) :=
  merge_sort (kv_le enc) (map_to_list m).

Lemma kv_iter_perm {V} enc (m : gmap string V) : kv_iter enc m ≡ₚ map_to_list m.
Proof. apply merge_sort_Permutation. Qed.

Lemma elem_of_kv_iter {V} enc (m : gmap string V) k v :
  (k, v) ∈ kv_iter enc m <-> m !! k = Some v.
Proof. by rewrite kv_iter_perm, elem_of_map_to_list. Qed.

Lemma kv_iter_NoDup {V} enc (m : gmap string V) : NoDup (kv_iter enc m).*1.
Proof. rewrite kv_iter_perm. apply NoDup_fst_map_to_list. Qed.

(** Writing back every entry of an iteration rebuilds the map. *)
Lemma list_to_map_kv_iter {V} enc (m : gmap string V) : list_to_map (kv_iter enc m) = m.
Proof.
  rewrite <- (list_to_map_to_list m) at 2.
  apply list_to_map_proper; [apply kv_iter_NoDup|apply kv_iter_perm].
Qed.

Lemma StronglySorted_fmap {A B} (R : relation B) (f : A -> B) (l : list A) :
  StronglySorted (fun x y => R (f x) (f y)) l -> StronglySorted R (f <$> l).
Proof. induction 1; simpl; constructor; [done|]. by apply Forall_fmap. Qed.

#[export] Instance kv_le_trans {V} enc : Transitive (@kv_le V enc).
Proof. intros p q r. unfold kv_le. apply str_le_trans. Qed.
#[export] Instance kv_le_total {V} enc : Total (@kv_le V enc).
Proof. intros p q. unfold kv_le. apply str_le_total. Qed.

Lemma kv_iter_sorted {V} enc (m : gmap string V) : StronglySorted (kv_le enc) (kv_iter enc m).
Proof. apply StronglySorted_merge_sort; apply _. Qed.

(** [a < b] on Go strings. *)
Definition str_lt (a b : string) : Prop := str_le a b /\ a <> b.

Lemma sorted_strict (l : list string) :
  StronglySorted str_le l -> NoDup l -> StronglySorted str_lt l.
Proof.
  induction 1 as [|x l Hs IH Hx]; intros Hnd; constructor.
  - apply IH. by apply NoDup_cons in Hnd as [_ ?].
  - apply NoDup_cons in Hnd as [Hni _]. apply Forall_forall. intros y Hy.
    split; [by apply (proj1 (Forall_forall _ _) Hx)|]. by intros ->.
Qed.

Lemma kv_iter_strict {V} (m : gmap string V) : StronglySorted str_lt (kv_iter id m).*1.
Proof.
  apply sorted_strict; [|apply kv_iter_NoDup].
  apply (StronglySorted_fmap str_le fst), (kv_iter_sorted id).
Qed.

(** ** Loops over the entries of a map *)

Section MapLoops.
Context {V W : Type}.

Lemma foldl_insert_lookup (f : V -> W) (l : list (string * V)) (m : gmap string W) k :
  NoDup l.*1 ->
  foldl (fun m p => <[p.1 := f p.2]> m) m l !! k =
  match list_to_map (M := gmap string V) l !! k with Some v => Some (f v) | None => m !! k end.
Proof using Type.
  revert m. induction l as [|[k' v] l IH]; intros m Hnd; [done|].
  apply NoDup_cons in Hnd as [Hni Hnd]. simpl. rewrite IH by done.
  destruct (decide (k = k')) as [->|Hne].
  - rewrite lookup_insert_eq, (not_elem_of_list_to_map_1 _ _ Hni). by rewrite lookup_insert_eq.
  - by rewrite !lookup_insert_ne by done.
Qed.

End MapLoops.

(** Rewriting every entry in place, in any order. *)
Lemma foldl_update_map {V} (f : V -> V) (l : list (string * V)) (m : gmap string V) :
  l ≡ₚ map_to_list m -> foldl (fun m p => <[p.1 := f p.2]> m) m l = f <$> m.
Proof.
  intros Hl. assert (NoDup l.*1) as Hnd by (rewrite Hl; apply NoDup_fst_map_to_list).
  assert (list_to_map l = m) as Hm.
  { rewrite <- (list_to_map_to_list m). by apply list_to_map_proper. }
  apply map_eq. intros k. rewrite foldl_insert_lookup, Hm, lookup_fmap by done.
  by destruct (m !! k).
Qed.


(** Copying the entries of an iteration rebuilds the map. *)
Lemma foldl_copy_map {V} (l : list (string * V)) (m : gmap string V) :
  l ≡ₚ map_to_list m -> foldl (fun m p => <[p.1 := p.2]> m) ∅ l = m.
Proof.
  intros Hl. assert (NoDup l.*1) as Hnd by (rewrite Hl; apply NoDup_fst_map_to_list).
  apply map_eq. intros k. etrans; [by apply (foldl_insert_lookup id)|].
  assert (list_to_map l = m) as ->.
  { rewrite <- (list_to_map_to_list m). by apply list_to_map_proper. }
  by destruct (m !! k).
Qed.

(** Deleting the entries of an iteration empties the map. *)
Lemma foldl_delete_map {V} (l : list (string * V)) (m : gmap string V) :
  l ≡ₚ map_to_list m -> foldl (fun m p => delete p.1 m) m l = ∅.
Proof.
  intros Hl. assert (forall k v, m !! k = Some v -> (k, v) ∈ l) as Hin.
  { intros k v Hk. rewrite Hl. by apply elem_of_map_to_list. }
  clear Hl. apply map_eq. intros k. rewrite lookup_empty.
  assert (m !! k = None \/ k ∈ l.*1) as Hk.
  { destruct (m !! k) as [v|] eqn:E; [right|by left]. apply list_elem_of_fmap.
    exists (k, v). split; [done|by apply Hin]. }
  clear Hin. revert m Hk. induction l as [|[k' v] l IH]; intros m Hk; simpl.
  - destruct Hk as [?|Hk]; [done|by apply not_elem_of_nil in Hk].
  - apply IH. simpl in Hk. destruct (decide (k = k')) as [->|Hne].
    + left. apply lookup_delete_eq.
    + rewrite lookup_delete_ne by done. rewrite elem_of_cons in Hk. tauto.
Qed.

(** Deleting the entries that satisfy a test keeps the others. *)
Lemma foldl_delete_if {V} (b : string * V -> bool) (l : list (string * V)) (m : gmap string V) :
  l ≡ₚ map_to_list m ->
  foldl (fun m p => if b p then delete p.1 m else m) m l = filter (fun p => b p = false) m.
Proof.
  intros Hl. apply map_eq. intros k.
  assert (forall v, (k, v) ∈ l <-> m !! k = Some v) as Hin.
  { intros v. by rewrite Hl, elem_of_map_to_list. }
  assert (forall (l' : list (string * V)) (m' : gmap string V), foldl (fun m p => if b p then delete p.1 m else m) m' l' !! k =
    if decide (Exists (fun p => p.1 = k /\ b p = true) l') then None else m' !! k) as E.
  { clear. induction l' as [|[k' v] l IH]; intros m'.
    - rewrite decide_False; [done|]. by intros ?%Exists_nil.
    - simpl. rewrite IH. clear IH. destruct (decide (Exists _ l)) as [He|He].
      + rewrite decide_True; [done|by right].
      + destruct (decide (Exists _ (_ :: l))) as [[[H1 H2]|]%Exists_cons|Hn]; [| done |].
        * simpl in *. subst. rewrite H2. apply lookup_delete_eq.
        * destruct (b (k', v)) eqn:Eb; [|done]. apply lookup_delete_ne. intros ->. apply Hn. by left. }
  rewrite E. destruct (m !! k) as [v|] eqn:Ek.
  - destruct (b (k, v)) eqn:Eb.
    + rewrite decide_True.
      * symmetry. apply map_lookup_filter_None. right. intros v' Hv'. simpl. congruence.
      * apply Exists_exists. exists (k, v). split; [by apply Hin|done].
    + rewrite decide_False.
      * symmetry. by apply map_lookup_filter_Some.
      * intros ([k' v'] & Hin' & E1 & E2)%Exists_exists. simpl in *. subst.
        apply Hin in Hin'. simplify_eq. congruence.
  - rewrite (proj2 (map_lookup_filter_None _ _ _)) by (by left). by destruct (decide _).
Qed.

(** Filling a map with values computed from the entries of another. *)
Lemma foldl_insert_imap {V W} (f : string * V -> W) (l : list (string * V)) (m : gmap string V) :
  l ≡ₚ map_to_list m ->
  foldl (fun acc p => <[p.1 := f p]> acc) ∅ l = map_imap (fun k v => Some (f (k, v))) m.
Proof.
  intros Hl. assert (NoDup l.*1) as Hnd by (rewrite Hl; apply NoDup_fst_map_to_list).
  assert (forall m0 : gmap string W, foldl (fun acc p => <[p.1 := f p]> acc) m0 l =
    foldl (fun acc q => <[q.1 := f q.2]> acc) m0 ((fun p => (p.1, p)) <$> l)) as ->.
  { clear. induction l as [|p l IH]; intros m0; [done|]. apply IH. }
  assert (NoDup ((fun p : string * V => (p.1, p)) <$> l).*1) as Hnd'
    by (by rewrite <- list_fmap_compose).
  apply map_eq. intros k. rewrite foldl_insert_lookup by done.
  rewrite map_lookup_imap, lookup_empty. destruct (m !! k) as [v|] eqn:Ek; simpl.
  - rewrite (proj1 (elem_of_list_to_map _ k (k, v) Hnd')); [done|].
    apply list_elem_of_fmap. exists (k, v). split; [done|]. rewrite Hl. by apply elem_of_map_to_list.
  - rewrite not_elem_of_list_to_map_1; [done|]. rewrite <- list_fmap_compose.
    intros ([k' v] & E & Hin)%list_elem_of_fmap. simpl in E. subst k'. rewrite Hl in Hin.
    apply elem_of_map_to_list in Hin. congruence.
Qed.

(** The entries of a map written out, one case each. *)
Ltac map_entries H :=
  first [apply lookup_singleton_Some in H as [<- <-]
        |apply lookup_insert_Some in H as [[<- <-]|[_ H]]; [|map_entries H]].

Lemma str_app_inj_l a b c : a +:+ b = a +:+ c -> b = c.
Proof. induction a as [|x a IH]; [done|]. simpl. intros [= E]. by apply IH. Qed.

(** ** Sums *)

Definition zsum {A} (f : A -> Z) (l : list A) : Z := foldr (fun x acc => f x + acc) 0 l.
Arguments zsum : simpl never.

#[export] Instance zsum_perm {A} (f : A -> Z) : Proper ((≡ₚ) ==> (=)) (zsum f).
Proof. intros l1 l2. induction 1; unfold zsum in *; simpl; lia. Qed.

Lemma zsum_app {A} (f : A -> Z) l1 l2 : zsum f (l1 ++ l2) = zsum f l1 + zsum f l2.
Proof. induction l1; unfold zsum in *; simpl; lia. Qed.

Lemma zsum_nonneg {A} (f : A -> Z) l : Forall (fun x => 0 <= f x) l -> 0 <= zsum f l.
Proof. induction 1; unfold zsum in *; simpl; lia. Qed.

Lemma zsum_le {A} (f g : A -> Z) l :
  Forall (fun x => f x <= g x) l -> zsum f l <= zsum g l.
Proof. induction 1; unfold zsum in *; simpl; lia. Qed.

Lemma zsum_cons {A} (f : A -> Z) x l : zsum f (x :: l) = f x + zsum f l.
Proof. done. Qed.

Lemma zsum_fmap {A B} (f : B -> Z) (g : A -> B) l :
  zsum f (g <$> l) = zsum (fun x => f (g x)) l.
Proof. induction l as [|x l IH]; [done|]. rewrite fmap_cons, !zsum_cons. by rewrite IH. Qed.

Lemma zsum_0 {A} (l : list A) : zsum (fun _ => 0) l = 0.
Proof. induction l; [done|]. by rewrite zsum_cons, IHl. Qed.

Lemma zsum_ext {A} (f g : A -> Z) l :
  (forall x, x ∈ l -> f x = g x) -> zsum f l = zsum g l.
Proof.
  induction l as [|x l IH]; intros Hfg; [done|]. rewrite !zsum_cons, Hfg by left.
  rewrite IH; [done|]. intros y Hy. apply Hfg. by right.
Qed.

Lemma zsum_nil {A} (f : A -> Z) : zsum f [] = 0.
Proof. done. Qed.

(** Sums over a list that is written out. *)
Create Rewrite HintDb zsum.
#[export] Hint Rewrite @zsum_nil @zsum_cons @zsum_app : zsum.
Ltac zsum_lia := autorewrite with zsum in *; lia.

Lemma zsum_if_nonneg {A} (p : A -> bool) (f : A -> Z) l :
  Forall (fun x => 0 <= f x) l -> 0 <= zsum (fun x => if p x then f x else 0) l.
Proof. intros Hl. apply zsum_nonneg. eapply Forall_impl; [exact Hl|]. intros x; by destruct (p x). Qed.

Lemma zsum_if_le {A} (p : A -> bool) (f : A -> Z) l :
  Forall (fun x => 0 <= f x) l -> zsum (fun x => if p x then f x else 0) l <= zsum f l.
Proof.
  intros Hl. apply zsum_le. eapply Forall_impl; [exact Hl|]. intros x; simpl; destruct (p x); lia.
Qed.

Lemma Forall_elem {A} (P : A -> Prop) (l : list A) :
  Forall P l <-> forall x, x ∈ l -> P x.
Proof.
  rewrite List.Forall_forall. split; intros H x Hx; apply H; by apply list_elem_of_In.
Qed.

Lemma zsum_mul_l {A} (k : Z) (f : A -> Z) l : zsum (fun x => k * f x) l = k * zsum f l.
Proof. induction l as [|x l IH]; [by rewrite !zsum_nil, Z.mul_0_r|]. rewrite !zsum_cons, IH. lia. Qed.

(** A running int64 sum is the sum, wrapped once. *)
Lemma foldl_int64 {A} (f : A -> Z) l t :
  foldl (fun t x => int64 (t + f x)) (int64 t) l = int64 (t + zsum f l).
Proof.
  revert t. induction l as [|x l IH]; intros t; simpl.
  - by rewrite zsum_nil, Z.add_0_r.
  - rewrite int64_add_l, IH, zsum_cons. f_equal. lia.
Qed.

(** Sums over the entries of two maps with the same keys. *)
Lemma zsum_map_le {V W} (f : V -> Z) (g : W -> Z) (m1 : gmap string V) (m2 : gmap string W) :
  (forall k, match m1 !! k, m2 !! k with
             | Some a, Some b => f a <= g b | None, None => True | _, _ => False end) ->
  zsum (fun p => f p.2) (map_to_list m1) <= zsum (fun p => g p.2) (map_to_list m2).
Proof.
  revert m2. induction m1 as [|k a m1 Hk IH] using map_ind; intros m2 Hm.
  - assert (m2 = ∅) as ->; [|done]. apply map_empty. intros k. specialize (Hm k).
    rewrite lookup_empty in Hm. by destruct (m2 !! k).
  - pose proof (Hm k) as Hmk. rewrite lookup_insert_eq in Hmk.
    destruct (m2 !! k) as [b|] eqn:Eb; [|done].
    rewrite map_to_list_insert, <- (map_to_list_delete m2 k b Eb), !zsum_cons by done. simpl.
    apply Z.add_le_mono; [done|]. apply IH. intros k'. specialize (Hm k').
    destruct (decide (k = k')) as [<-|Hne].
    + by rewrite Hk, lookup_delete_eq.
    + by rewrite lookup_insert_ne, lookup_delete_ne in * by done.
Qed.
