(* ===== verification/Sdk.v ===== *)
(** * The Cosmos SDK, as the modules see it

    The SDK (math, coins, bech32 addresses, the bank, staking and distribution
    keepers) and the unspecified choices of the Go runtime are not part of this
    repository.  They enter the model as parameters: one class of operations and
    one class of laws for each.  The laws state documented behaviour only.
    [SdkRef.v] gives concrete instances that satisfy all of them. *)

From S2P Require Import Prelude.

(** ** Decimals and integers: [cosmossdk.io/math] *)

(** [sdk.Dec] is a fixed-point number with 18 decimals kept as an integer
    number of 10^-18 units; [math.Int] is an arbitrary-precision integer with a
    bound on its bit length. *)
Definition Dec := Z.
Definition Int := Z.
Definition P18 : Z := 10 ^ 18.

Definition ZeroDec : Dec := 0.
Definition OneDec : Dec := P18.
(** [sdk.NewDec], [sdk.NewDecFromInt], [sdk.NewDecWithPrec]. *)
Definition NewDec (i : Z) : Dec := i * P18.
Definition NewDecWithPrec (i p : Z) : Dec := i * 10 ^ (18 - p).

Class SdkMath := {
  (** which values fit the bit-length bounds; exceeding them panics *)
  dec_fits : Z -> bool;
  int_fits : Z -> bool;
  (** division by 10^18 with the rounding of [Dec.Mul] *)
  dec_round : Z -> Z;
  Dec_Add : Dec -> Dec -> res Dec;
  Dec_Sub : Dec -> Dec -> res Dec;
  Dec_Mul : Dec -> Dec -> res Dec;
  Dec_Quo : Dec -> Dec -> res Dec;
  Dec_MulInt : Dec -> Int -> res Dec;
  Dec_QuoInt : Dec -> Int -> res Dec;
  Dec_RoundInt : Dec -> res Int;
  Dec_TruncateInt : Dec -> res Int;
  Int_Add : Int -> Int -> res Int;
  Int_Sub : Int -> Int -> res Int;
  (** [sdk.DecimalPrecisionBits] *)
  DecimalPrecisionBits : Z;
}.

(** [MulInt64] and [QuoInt64] take their argument as an int64. *)
Definition Dec_MulInt64 `{SdkMath} (d : Dec) (i : Z) : res Dec := Dec_MulInt d i.
Definition Dec_QuoInt64 `{SdkMath} (d : Dec) (i : Z) : res Dec := Dec_QuoInt d i.

(** The overflow check at the end of an operation. *)
Definition dec_chk `{SdkMath} (z : Z) : res Dec := if dec_fits z then Ok z else Panic.
Definition int_chk `{SdkMath} (z : Z) : res Int := if int_fits z then Ok z else Panic.

Class SdkMathLaws `{SdkMath} : Prop := {
  dec_fits_small z : Z.abs z < 2 ^ 315 -> dec_fits z = true;
  dec_fits_down x y : Z.abs x <= Z.abs y -> dec_fits y = true -> dec_fits x = true;
  int_fits_small z : Z.abs z < 2 ^ 255 -> int_fits z = true;
  int_fits_down x y : Z.abs x <= Z.abs y -> int_fits y = true -> int_fits x = true;
  (** rounding goes to a nearest multiple, is monotone and odd *)
  dec_round_near z : 2 * Z.abs (dec_round z * P18 - z) <= P18;
  dec_round_mono x y : x <= y -> dec_round x <= dec_round y;
  dec_round_opp z : dec_round (- z) = - dec_round z;
  Dec_Add_spec a b : Dec_Add a b = dec_chk (a + b);
  Dec_Sub_spec a b : Dec_Sub a b = dec_chk (a - b);
  Dec_Mul_spec a b : Dec_Mul a b = dec_chk (dec_round (a * b));
  Dec_Quo_spec a b : Dec_Quo a b =
    if b =? 0 then Panic else dec_chk (dec_round (Z.quot (a * P18 * P18) b));
  Dec_MulInt_spec a i : Dec_MulInt a i = dec_chk (a * i);
  Dec_QuoInt_spec a i : Dec_QuoInt a i = if i =? 0 then Panic else Ok (Z.quot a i);
  Dec_RoundInt_spec a : Dec_RoundInt a = int_chk (dec_round a);
  Dec_TruncateInt_spec a : Dec_TruncateInt a = int_chk (Z.quot a P18);
  Int_Add_spec a b : Int_Add a b = int_chk (a + b);
  Int_Sub_spec a b : Int_Sub a b = int_chk (a - b);
}.

(** [Int.Int64()] panics outside of the int64 range. *)
Definition Int_Int64 (i : Int) : res Z := if is_int64 i then Ok i else Panic.

Section MathFacts.
Context `{SdkMathLaws}.

Lemma dec_chk_Ok z r : dec_chk z = Ok r <-> dec_fits z = true /\ r = z.
Proof. unfold dec_chk. destruct (dec_fits z); naive_solver. Qed.
Lemma int_chk_Ok z r : int_chk z = Ok r <-> int_fits z = true /\ r = z.
Proof. unfold int_chk. destruct (int_fits z); naive_solver. Qed.

Lemma dec_round_mul (k : Z) : dec_round (k * P18) = k.
Proof. pose proof (dec_round_near (k * P18)). unfold P18 in *. nia. Qed.
Lemma dec_round_0 : dec_round 0 = 0.
Proof. exact (dec_round_mul 0). Qed.
Lemma dec_round_nonneg z : 0 <= z -> 0 <= dec_round z.
Proof. intros Hz. rewrite <- dec_round_0. by apply dec_round_mono. Qed.
Lemma dec_round_le_mul z k : z <= k * P18 -> dec_round z <= k.
Proof. intros Hz. rewrite <- (dec_round_mul k). by apply dec_round_mono. Qed.
Lemma dec_round_ge_mul z k : k * P18 <= z -> k <= dec_round z.
Proof. intros Hz. rewrite <- (dec_round_mul k). by apply dec_round_mono. Qed.

(** Multiplying by a factor of at most one does not increase a decimal. *)
Lemma dec_round_frac a f : 0 <= a -> 0 <= f <= P18 -> 0 <= dec_round (a * f) <= a.
Proof.
  intros Ha Hf. split; [apply dec_round_nonneg; nia|apply dec_round_le_mul; nia].
Qed.
End MathFacts.

(** Rewrite every arithmetic operation to its law. *)
Ltac sdk_unfold :=
  unfold Dec_MulInt64, Dec_QuoInt64 in *;
  rewrite ?Dec_Add_spec, ?Dec_Sub_spec, ?Dec_Mul_spec, ?Dec_Quo_spec, ?Dec_MulInt_spec,
    ?Dec_QuoInt_spec, ?Dec_RoundInt_spec, ?Dec_TruncateInt_spec, ?Int_Add_spec,
    ?Int_Sub_spec in *.

Ltac sdk_inv :=
  repeat match goal with
  | H : dec_chk _ = Ok _ |- _ => apply dec_chk_Ok in H as [? ?]; simplify_eq/=
  | H : int_chk _ = Ok _ |- _ => apply int_chk_Ok in H as [? ?]; simplify_eq/=
  end.

(** ** Coins: [cosmos-sdk/types] *)

Record Coin := mkCoin { Denom : string; Amount : Int }.
Record DecCoin := mkDecCoin { DDenom : string; DAmount : Dec }.
Abbreviation Coins := (list Coin).
Abbreviation DecCoins := (list DecCoin).

#[export] Instance coin_eq_dec : EqDecision Coin.
Proof. solve_decision. Defined.
#[export] Instance deccoin_eq_dec : EqDecision DecCoin.
Proof. solve_decision. Defined.

(** The amount of a denom in a list of coins. *)
Definition amt (cs : Coins) (d : string) : Z :=
  zsum (fun c => if decide (Denom c = d) then Amount c else 0) cs.
Definition damt (cs : DecCoins) (d : string) : Z :=
  zsum (fun c => if decide (DDenom c = d) then DAmount c else 0) cs.

Class SdkCoins := {
  ValidateDenom : string -> bool;
  NewCoin : string -> Int -> res Coin;
  NewCoins : list Coin -> res Coins;
  Coin_Add : Coin -> Coin -> res Coin;
  Coins_Add : Coins -> Coins -> res Coins;
  Coins_Sub : Coins -> Coins -> res Coins;
  Coins_AmountOf : Coins -> string -> Int;
  Coins_IsZero : Coins -> bool;
  Coins_IsValid : Coins -> bool;
  Coins_Sort : Coins -> Coins;
  NewDecCoin : string -> Int -> res DecCoin;
  NewDecCoinFromCoin : Coin -> res DecCoin;
  NewDecCoinFromDec : string -> Dec -> res DecCoin;
  DecCoin_Add : DecCoin -> DecCoin -> res DecCoin;
  DecCoin_Sub : DecCoin -> DecCoin -> res DecCoin;
  DecCoin_TruncateDecimal : DecCoin -> res (Coin * DecCoin);
  NewDecCoinsFromCoins : Coins -> res DecCoins;
  DecCoins_Add : DecCoins -> DecCoins -> res DecCoins;
  DecCoins_MulDec : DecCoins -> Dec -> res DecCoins;
  DecCoins_TruncateDecimal : DecCoins -> res (Coins * DecCoins);
}.

(** [Coins.IsValid]: strictly sorted by denom, valid denoms, positive amounts. *)
Definition coins_sorted (cs : Coins) : Prop :=
  StronglySorted (fun a b => str_lt (Denom a) (Denom b)) cs.
Definition coins_ok `{SdkCoins} (cs : Coins) : Prop :=
  coins_sorted cs /\ Forall (fun c => ValidateDenom (Denom c) = true /\ 0 < Amount c) cs.
Definition decoins_ok `{SdkCoins} (cs : DecCoins) : Prop :=
  StronglySorted (fun a b => str_lt (DDenom a) (DDenom b)) cs /\
  Forall (fun c => ValidateDenom (DDenom c) = true /\ 0 < DAmount c) cs.

(** Sorted decimal coins whose amounts may be zero: [DecCoins.Add] accepts them
    and drops the zeros. *)
Definition decoins_weak `{SdkCoins} (cs : DecCoins) : Prop :=
  StronglySorted (fun a b => str_lt (DDenom a) (DDenom b)) cs /\
  Forall (fun c => ValidateDenom (DDenom c) = true /\ 0 <= DAmount c) cs.

Lemma amt_nonneg `{SdkCoins} cs d : coins_ok cs -> 0 <= amt cs d.
Proof.
  intros [_ Hc]. apply zsum_nonneg. eapply Forall_impl; [exact Hc|].
  intros c [_ ?]. simpl. destruct (decide _); lia.
Qed.
Lemma damt_nonneg `{SdkCoins} cs d : decoins_weak cs -> 0 <= damt cs d.
Proof.
  intros [_ Hc]. apply zsum_nonneg. eapply Forall_impl; [exact Hc|].
  intros c [_ ?]. simpl. destruct (decide _); lia.
Qed.
Lemma decoins_ok_weak `{SdkCoins} cs : decoins_ok cs -> decoins_weak cs.
Proof. intros [? Hc]. split; [done|]. eapply Forall_impl; [exact Hc|]. intros c [? ?]. split; [done|lia]. Qed.

(** Sorted coins are determined by their amounts. *)
Section CoinsExt.
Context {C : Type} (den : C -> string) (am : C -> Z).
Hypothesis (C_ext : forall x y, den x = den y -> am x = am y -> x = y).
Let amount (cs : list C) (d : string) : Z :=
  zsum (fun c => if decide (den c = d) then am c else 0) cs.
Let sorted (cs : list C) := StronglySorted (fun a b => str_lt (den a) (den b)) cs.

Lemma amount_lt cs d : Forall (fun c => str_lt d (den c)) cs -> amount cs d = 0.
Proof using Type.
  intros Hd. unfold amount. rewrite (zsum_ext _ (fun _ => 0)), zsum_0; [done|].
  intros c Hc. rewrite decide_False; [done|]. intros <-.
  rewrite Forall_forall in Hd. by destruct (Hd c Hc).
Qed.

Lemma amount_pos x cs : Forall (fun c => 0 < am c) (x :: cs) -> 0 < amount (x :: cs) (den x).
Proof using Type.
  intros [Hx Hcs]%Forall_cons. unfold amount. rewrite zsum_cons, decide_True by done.
  assert (0 <= zsum (fun c => if decide (den c = den x) then am c else 0) cs); [|lia].
  apply zsum_nonneg. eapply Forall_impl; [exact Hcs|]. intros c ?. simpl in *. destruct (decide _); lia.
Qed.

Lemma str_lt_trans a b c : str_lt a b -> str_lt b c -> str_lt a c.
Proof using Type.
  intros [H1 N1] [H2 N2]. split; [by etrans|]. intros ->.
  apply N1. by apply (anti_symm str_le).
Qed.

Lemma str_lt_gt a b : str_lt a b -> str_lt b a -> False.
Proof using Type. intros [H1 N1] [H2 N2]. apply N1. by apply (anti_symm str_le). Qed.

Lemma str_trichotomy a b : str_lt a b \/ a = b \/ str_lt b a.
Proof using Type.
  destruct (decide (a = b)); [by right; left|].
  destruct (str_le_total a b); [left|right; right]; by split.
Qed.

(** The head of one list below the head of another shows in the amounts. *)
Lemma amount_head_lt x cs y cs' : sorted (y :: cs') -> str_lt (den x) (den y) ->
  Forall (fun c => 0 < am c) (x :: cs) -> amount (x :: cs) (den x) <> amount (y :: cs') (den x).
Proof using Type.
  intros Hs Hlt Hcs. rewrite (amount_lt (y :: cs')).
  - pose proof (amount_pos _ _ Hcs). lia.
  - inversion Hs as [|? ? _ Hy]; subst. constructor; [done|].
    eapply Forall_impl; [exact Hy|]. intros c Hc. by eapply str_lt_trans.
Qed.

Lemma amounts_ext cs1 cs2 : sorted cs1 -> sorted cs2 ->
  Forall (fun c => 0 < am c) cs1 -> Forall (fun c => 0 < am c) cs2 ->
  (forall d, amount cs1 d = amount cs2 d) -> cs1 = cs2.
Proof using C_ext.
  intros Hs1. revert cs2. induction Hs1 as [|x cs1 Hs1 IH Hx]; intros [|y cs2] Hs2 Hp1 Hp2 E.
  - done.
  - exfalso. apply amount_pos in Hp2. by rewrite <- E in Hp2.
  - exfalso. apply amount_pos in Hp1. by rewrite E in Hp1.
  - destruct (str_trichotomy (den x) (den y)) as [Hlt|[Exy|Hlt]].
    + exfalso. by eapply (amount_head_lt x cs1 y cs2).
    + inversion Hs2 as [|? ? Hs2' Hy]; subst.
      apply Forall_cons in Hp1 as [Px Hp1]. apply Forall_cons in Hp2 as [Py Hp2].
      assert (x = y) as ->.
      { apply C_ext; [done|]. specialize (E (den x)). unfold amount in E.
        rewrite !zsum_cons in E. rewrite !decide_True in E by done.
        fold (amount cs1 (den x)) (amount cs2 (den x)) in E.
        rewrite !amount_lt in E; [lia|by rewrite Exy|done]. }
      f_equal. apply IH; try done. intros d. specialize (E d). unfold amount in *.
      rewrite !zsum_cons in E. lia.
    + exfalso. by eapply (amount_head_lt y cs2 x cs1); [by constructor|..].
Qed.
End CoinsExt.

Lemma coins_ext `{SdkCoins} a b :
  coins_ok a -> coins_ok b -> (forall d, amt a d = amt b d) -> a = b.
Proof.
  intros [Sa Pa] [Sb Pb]. apply (amounts_ext Denom Amount); try done.
  - by intros [] []; simpl; intros -> ->.
  - eapply Forall_impl; [exact Pa|]. by intros ? [].
  - eapply Forall_impl; [exact Pb|]. by intros ? [].
Qed.
Lemma decoins_ext `{SdkCoins} a b :
  decoins_ok a -> decoins_ok b -> (forall d, damt a d = damt b d) -> a = b.
Proof.
  intros [Sa Pa] [Sb Pb]. apply (amounts_ext DDenom DAmount); try done.
  - by intros [] []; simpl; intros -> ->.
  - eapply Forall_impl; [exact Pa|]. by intros ? [].
  - eapply Forall_impl; [exact Pb|]. by intros ? [].
Qed.

Class SdkCoinsLaws `{SdkMath, SdkCoins} : Prop := {
  NewCoin_spec d a : NewCoin d a =
    if ValidateDenom d && (0 <=? a) then Ok (mkCoin d a) else Panic;
  NewCoins_single c : NewCoins [c] =
    if ValidateDenom (Denom c) && (0 <=? Amount c)
    then Ok (if Amount c =? 0 then [] else [c]) else Panic;
  Coin_Add_spec a b : Coin_Add a b =
    if decide (Denom a = Denom b)
    then (let! s := Int_Add (Amount a) (Amount b) in Ok (mkCoin (Denom a) s))
    else Panic;
  Coins_Add_Ok a b : coins_ok a -> coins_ok b ->
    (forall d, int_fits (amt a d + amt b d) = true) ->
    exists c, Coins_Add a b = Ok c /\ coins_ok c /\ forall d, amt c d = amt a d + amt b d;
  Coins_Add_Panic a b d : coins_ok a -> coins_ok b ->
    int_fits (amt a d + amt b d) = false -> Coins_Add a b = Panic;
  Coins_Sub_Ok a b : coins_ok a -> coins_ok b -> (forall d, amt b d <= amt a d) ->
    exists c, Coins_Sub a b = Ok c /\ coins_ok c /\ forall d, amt c d = amt a d - amt b d;
  Coins_Sub_Panic a b d : coins_ok a -> coins_ok b ->
    amt a d < amt b d -> Coins_Sub a b = Panic;
  Coins_AmountOf_spec a d : coins_sorted a -> ValidateDenom d = true ->
    Coins_AmountOf a d = amt a d;
  Coins_IsZero_spec a : Coins_IsZero a = forallb (fun c => Amount c =? 0) a;
  Coins_IsValid_spec a : Coins_IsValid a = true <-> coins_ok a;
  Coins_Sort_perm a : Coins_Sort a ≡ₚ a;
  Coins_Sort_sorted a : StronglySorted (fun x y => str_le (Denom x) (Denom y)) (Coins_Sort a);
  NewDecCoin_spec d i : NewDecCoin d i =
    if ValidateDenom d && (0 <=? i) then Ok (mkDecCoin d (NewDec i)) else Panic;
  NewDecCoinFromCoin_spec c : NewDecCoinFromCoin c =
    if ValidateDenom (Denom c) && (0 <=? Amount c)
    then Ok (mkDecCoin (Denom c) (NewDec (Amount c))) else Panic;
  NewDecCoinFromDec_spec d a : NewDecCoinFromDec d a =
    if ValidateDenom d && (0 <=? a) then Ok (mkDecCoin d a) else Panic;
  DecCoin_Add_spec a b : DecCoin_Add a b =
    if decide (DDenom a = DDenom b)
    then (let! s := Dec_Add (DAmount a) (DAmount b) in Ok (mkDecCoin (DDenom a) s))
    else Panic;
  DecCoin_Sub_spec a b : DecCoin_Sub a b =
    if decide (DDenom a = DDenom b)
    then (let! s := Dec_Sub (DAmount a) (DAmount b) in
          if s <? 0 then Panic else Ok (mkDecCoin (DDenom a) s))
    else Panic;
  DecCoin_TruncateDecimal_spec c : DecCoin_TruncateDecimal c =
    (let! t := Dec_TruncateInt (DAmount c) in
     let! r := Dec_Sub (DAmount c) (NewDec t) in
     let! tc := NewCoin (DDenom c) t in
     let! rc := NewDecCoinFromDec (DDenom c) r in
     Ok (tc, rc));
  NewDecCoinsFromCoins_Ok cs : coins_ok cs ->
    exists ds, NewDecCoinsFromCoins cs = Ok ds /\ decoins_ok ds /\
      forall d, damt ds d = NewDec (amt cs d);
  DecCoins_Add_Ok a b : decoins_weak a -> decoins_weak b ->
    (forall d, dec_fits (damt a d + damt b d) = true) ->
    exists c, DecCoins_Add a b = Ok c /\ decoins_ok c /\
      forall d, damt c d = damt a d + damt b d;
  DecCoins_Add_Panic a b d : decoins_weak a -> decoins_weak b ->
    dec_fits (damt a d + damt b d) = false -> DecCoins_Add a b = Panic;
  DecCoins_MulDec_Ok a m : decoins_weak a -> 0 <= m ->
    (forall d, dec_fits (dec_round (damt a d * m)) = true) ->
    exists c, DecCoins_MulDec a m = Ok c /\ decoins_ok c /\
      forall d, damt c d = dec_round (damt a d * m);
  DecCoins_MulDec_Panic a m d : decoins_weak a -> 0 <= m ->
    dec_fits (dec_round (damt a d * m)) = false -> DecCoins_MulDec a m = Panic;
  DecCoins_TruncateDecimal_Ok a : decoins_ok a ->
    (forall d, int_fits (Z.quot (damt a d) P18) = true) ->
    exists c r, DecCoins_TruncateDecimal a = Ok (c, r) /\ coins_ok c /\
      forall d, amt c d = Z.quot (damt a d) P18;
  DecCoins_TruncateDecimal_Panic a d : decoins_ok a ->
    int_fits (Z.quot (damt a d) P18) = false -> DecCoins_TruncateDecimal a = Panic;
}.

(** Adding coins commutes: the same coins, or a panic, in either order. *)
Section PartialSums.
Context {C : Type} (ok : C -> Prop) (weak : C -> Prop) (am : C -> string -> Z).
Context (dens : C -> list string) (fits : Z -> bool) (add : C -> C -> res C).
Hypothesis (ok_weak : forall a, ok a -> weak a).
Hypothesis (am_nonneg : forall a d, weak a -> 0 <= am a d).
Hypothesis (am_dens : forall a d, d ∉ dens a -> am a d = 0).
Hypothesis (C_ext : forall a b, ok a -> ok b -> (forall d, am a d = am b d) -> a = b).
Hypothesis (fits_0 : fits 0 = true).
Hypothesis (fits_down : forall x y, Z.abs x <= Z.abs y -> fits y = true -> fits x = true).
Hypothesis (add_ok : forall a b, weak a -> weak b -> (forall d, fits (am a d + am b d) = true) ->
  exists c, add a b = Ok c /\ ok c /\ forall d, am c d = am a d + am b d).
Hypothesis (add_panic : forall a b d, weak a -> weak b ->
  fits (am a d + am b d) = false -> add a b = Panic).

Lemma add_cases a b : weak a -> weak b ->
  ((forall d, fits (am a d + am b d) = true) /\
   exists c, add a b = Ok c /\ ok c /\ forall d, am c d = am a d + am b d) \/
  (add a b = Panic /\ exists d, fits (am a d + am b d) = false).
Proof using am_dens fits_0 add_ok add_panic.
  intros Ha Hb.
  destruct (decide (Forall (fun d => fits (am a d + am b d) = true) (dens a ++ dens b)))
    as [Hall|Hno].
  - assert (forall d, fits (am a d + am b d) = true) as Hf.
    { intros d. destruct (decide (d ∈ dens a ++ dens b)) as [Hd|Hd].
      - rewrite Forall_forall in Hall. by apply Hall.
      - rewrite elem_of_app in Hd. rewrite !am_dens by tauto. done. }
    left. split; [done|]. by apply add_ok.
  - right. apply not_Forall_Exists in Hno; [|apply _].
    apply Exists_exists in Hno as (d & _ & Hd). simpl in Hd.
    assert (fits (am a d + am b d) = false) as Hf by (by apply not_true_iff_false).
    split; [by eapply add_panic|by exists d].
Qed.

Lemma add_comm_res a x y : weak a -> weak x -> weak y ->
  (let! b := add a x in add b y) = (let! b := add a y in add b x).
Proof using All.
  intros Ha Hx Hy.
  (* an overflow of the total is one in either order *)
  assert (forall u v d, weak u -> weak v -> fits (am a d + am u d + am v d) = false ->
    (let! b := add a u in add b v) = Panic) as Hover.
  { intros u v d Hu Hv Hf. destruct (add_cases a u Ha Hu) as [[_ (c & -> & Hc & Ec)]|[-> _]]; [|done].
    simpl. apply (add_panic c v d); [by apply ok_weak|done|]. by rewrite Ec. }
  destruct (add_cases a x Ha Hx) as [[Fx (cx & Ex & Hcx & Acx)]|[Ex [d Hd]]].
  - destruct (add_cases cx y (ok_weak _ Hcx) Hy) as [[Fxy (c & Exy & Hc & Ac)]|[Exy [d Hd]]].
    + assert (forall d, fits (am a d + am y d) = true) as Fy.
      { intros d. apply (fits_down _ (am cx d + am y d)); [|apply Fxy]. rewrite Acx.
        pose proof (am_nonneg a d Ha). pose proof (am_nonneg x d Hx).
        pose proof (am_nonneg y d Hy). lia. }
      destruct (add_ok a y Ha Hy Fy) as (cy & Ey & Hcy & Acy).
      destruct (add_ok cy x (ok_weak _ Hcy) Hx) as (c' & Eyx & Hc' & Ac').
      { intros d. rewrite Acy. specialize (Fxy d). rewrite Acx in Fxy.
        by replace (am a d + am y d + am x d) with (am a d + am x d + am y d) by lia. }
      rewrite Ex, Ey. simpl. rewrite Exy, Eyx. f_equal. apply C_ext; [done|done|].
      intros d. rewrite Ac, Ac', Acx, Acy. lia.
    + rewrite Ex. simpl. rewrite Exy. symmetry. apply (Hover y x d); [done|done|].
      rewrite Acx in Hd. by replace (am a d + am y d + am x d) with (am a d + am x d + am y d) by lia.
  - rewrite Ex. simpl. symmetry. apply (Hover y x d); [done|done|].
    destruct (fits (am a d + am y d + am x d)) eqn:F; [|done].
    rewrite (fits_down (am a d + am x d) (am a d + am y d + am x d)) in Hd; [done| |exact F].
    pose proof (am_nonneg a d Ha). pose proof (am_nonneg x d Hx).
    pose proof (am_nonneg y d Hy). lia.
Qed.
End PartialSums.

Section CoinSums.
Context `{SdkCoinsLaws, !SdkMathLaws}.

Lemma amt_dens cs d : d ∉ Denom <$> cs -> amt cs d = 0.
Proof using Type.
  intros Hd. unfold amt. rewrite (zsum_ext _ (fun _ => 0)), zsum_0; [done|].
  intros c Hc. rewrite decide_False; [done|]. intros <-. apply Hd, list_elem_of_fmap. by exists c.
Qed.
Lemma damt_dens cs d : d ∉ DDenom <$> cs -> damt cs d = 0.
Proof using Type.
  intros Hd. unfold damt. rewrite (zsum_ext _ (fun _ => 0)), zsum_0; [done|].
  intros c Hc. rewrite decide_False; [done|]. intros <-. apply Hd, list_elem_of_fmap. by exists c.
Qed.

Lemma Coins_Add_cases a b : coins_ok a -> coins_ok b ->
  ((forall d, int_fits (amt a d + amt b d) = true) /\
   exists c, Coins_Add a b = Ok c /\ coins_ok c /\ forall d, amt c d = amt a d + amt b d) \/
  (Coins_Add a b = Panic /\ exists d, int_fits (amt a d + amt b d) = false).
Proof using All.
  apply (add_cases coins_ok coins_ok amt (fmap Denom)); [apply amt_dens| |apply Coins_Add_Ok|
    apply Coins_Add_Panic]. by apply int_fits_small.
Qed.

Lemma Coins_Add_comm a x y : coins_ok a -> coins_ok x -> coins_ok y ->
  (let! b := Coins_Add a x in Coins_Add b y) = (let! b := Coins_Add a y in Coins_Add b x).
Proof using All.
  apply (add_comm_res coins_ok coins_ok amt (fmap Denom) int_fits).
  - done.
  - apply amt_nonneg.
  - apply amt_dens.
  - apply coins_ext.
  - by apply int_fits_small.
  - apply int_fits_down.
  - apply Coins_Add_Ok.
  - apply Coins_Add_Panic.
Qed.

Lemma DecCoins_Add_cases a b : decoins_weak a -> decoins_weak b ->
  ((forall d, dec_fits (damt a d + damt b d) = true) /\
   exists c, DecCoins_Add a b = Ok c /\ decoins_ok c /\ forall d, damt c d = damt a d + damt b d) \/
  (DecCoins_Add a b = Panic /\ exists d, dec_fits (damt a d + damt b d) = false).
Proof using All.
  apply (add_cases decoins_ok decoins_weak damt (fmap DDenom)); [apply damt_dens| |
    apply DecCoins_Add_Ok|apply DecCoins_Add_Panic]. by apply dec_fits_small.
Qed.

Lemma DecCoins_Add_comm a x y : decoins_weak a -> decoins_weak x -> decoins_weak y ->
  (let! b := DecCoins_Add a x in DecCoins_Add b y) =
  (let! b := DecCoins_Add a y in DecCoins_Add b x).
Proof using All.
  apply (add_comm_res decoins_ok decoins_weak damt (fmap DDenom) dec_fits).
  - apply decoins_ok_weak.
  - apply damt_nonneg.
  - apply damt_dens.
  - apply decoins_ext.
  - by apply dec_fits_small.
  - apply dec_fits_down.
  - apply DecCoins_Add_Ok.
  - apply DecCoins_Add_Panic.
Qed.

Lemma DecCoins_MulDec_cases a m : decoins_weak a -> 0 <= m ->
  (exists c, DecCoins_MulDec a m = Ok c /\ decoins_ok c /\
     forall d, damt c d = dec_round (damt a d * m)) \/
  DecCoins_MulDec a m = Panic.
Proof using All.
  intros Ha Hm.
  destruct (decide (Forall (fun d => dec_fits (dec_round (damt a d * m)) = true) (DDenom <$> a)))
    as [Hall|Hno].
  - left. apply DecCoins_MulDec_Ok; [done|done|]. intros d.
    destruct (decide (d ∈ DDenom <$> a)) as [Hd|Hd].
    + rewrite Forall_forall in Hall. by apply Hall.
    + rewrite damt_dens by done. rewrite Z.mul_0_l, dec_round_0. by apply dec_fits_small.
  - right. apply not_Forall_Exists in Hno; [|apply _].
    apply Exists_exists in Hno as (d & _ & Hd). apply (DecCoins_MulDec_Panic a m d); [done|done|].
    by apply not_true_iff_false.
Qed.

Lemma DecCoins_TruncateDecimal_cases a : decoins_ok a ->
  (exists c r, DecCoins_TruncateDecimal a = Ok (c, r) /\ coins_ok c /\
     forall d, amt c d = Z.quot (damt a d) P18) \/
  DecCoins_TruncateDecimal a = Panic.
Proof using All.
  intros Ha.
  destruct (decide (Forall (fun d => int_fits (Z.quot (damt a d) P18) = true) (DDenom <$> a)))
    as [Hall|Hno].
  - left. apply DecCoins_TruncateDecimal_Ok; [done|]. intros d.
    destruct (decide (d ∈ DDenom <$> a)) as [Hd|Hd].
    + rewrite Forall_forall in Hall. by apply Hall.
    + rewrite damt_dens by done. by apply int_fits_small.
  - right. apply not_Forall_Exists in Hno; [|apply _].
    apply Exists_exists in Hno as (d & _ & Hd). apply (DecCoins_TruncateDecimal_Panic a d); [done|].
    by apply not_true_iff_false.
Qed.

(** A single decimal coin, as [NewDecCoinFromDec] makes it. *)
Lemma NewDecCoinFromDec_weak d a c : NewDecCoinFromDec d a = Ok c ->
  c = mkDecCoin d a /\ decoins_weak [c].
Proof using All.
  rewrite NewDecCoinFromDec_spec. destruct (ValidateDenom d) eqn:Ev; [|done]. simpl.
  destruct (Z.leb_spec 0 a); [|done]. intros [= <-]. split; [done|].
  split; [by repeat constructor|]. by repeat constructor.
Qed.

Lemma decoins_ok_nil : decoins_ok [].
Proof using Type. split; constructor. Qed.
Lemma coins_ok_nil : coins_ok [].
Proof using Type. split; constructor. Qed.
(** Sorting coins of distinct denoms sorts them strictly. *)
Lemma Coins_Sort_strict cs : NoDup (Denom <$> cs) -> coins_sorted (Coins_Sort cs).
Proof using Type*.
  intros Hnd. pose proof (Coins_Sort_sorted cs) as Hs.
  assert (NoDup (Denom <$> Coins_Sort cs)) as Hnd' by by rewrite Coins_Sort_perm.
  clear Hnd. revert Hs Hnd'. generalize (Coins_Sort cs). clear.
  induction 1 as [|x l Hs IH Hx]; [constructor|].
  cbn [fmap list_fmap]. intros [Hni Hnd]%NoDup_cons. constructor; [by apply IH|].
  apply Forall_forall. intros y Hy. rewrite Forall_forall in Hx. split; [by apply Hx|].
  intros Exy. apply Hni. rewrite Exy. by apply list_elem_of_fmap_2.
Qed.
End CoinSums.

(** ** The choices the Go runtime leaves open *)

(** [range] over a map visits the entries in an unspecified order (the [nat]
    tells one loop of the code from another), and [sort.Sort] is not stable. *)
Class GoRuntime := {
  map_range : nat -> forall {V : Type}, gmap string V -> list (string * V);
  sort_Sort : forall {A : Type}, (A -> A -> bool) -> list A -> list A;
}.

Class GoRuntimeLaws (rt : GoRuntime) : Prop := {
  map_range_perm n V (m : gmap string V) : map_range n m ≡ₚ map_to_list m;
  sort_Sort_perm A (less : A -> A -> bool) l : sort_Sort less l ≡ₚ l;
  sort_Sort_sorted A (key : A -> Z) l :
    StronglySorted (fun x y => key x <= key y) (sort_Sort (fun x y => key x <? key y) l);
}.

(** [strings.ToUpper] maps runes through the Unicode tables. *)
Class GoStrings := strings_ToUpper : string -> string.

(** ** Addresses *)

(** [sdk.AccAddress] and [sdk.ValAddress] are byte strings; their bech32
    renderings are what messages and records carry. *)
Class Bech32 := {
  AccAddressFromBech32 : string -> res string;
  ValAddressFromBech32 : string -> res string;
  AccString : string -> string;
  ValString : string -> string;
  (** the byte strings that are addresses: [sdk.VerifyAddressFormat] *)
  addr_ok : string -> bool;
  (** [address.MustLengthPrefix]: the bytes behind their length byte *)
  MustLengthPrefix : string -> string;
}.

Class Bech32Laws `{Bech32} : Prop := {
  AccAddress_roundtrip a : addr_ok a = true -> AccAddressFromBech32 (AccString a) = Ok a;
  ValAddress_roundtrip a : addr_ok a = true -> ValAddressFromBech32 (ValString a) = Ok a;
  ValAddress_valid s a : ValAddressFromBech32 s = Ok a -> addr_ok a = true;
  AccAddress_valid s a : AccAddressFromBech32 s = Ok a -> addr_ok a = true;
  MustLengthPrefix_spec a : addr_ok a = true ->
    MustLengthPrefix a = String (Ascii.ascii_of_nat (String.length a)) a;
  ValAddress_no_panic s : ValAddressFromBech32 s <> Panic;
  AccAddress_no_panic s : AccAddressFromBech32 s <> Panic;
}.

Lemma ValString_inj `{Bech32Laws} a b :
  addr_ok a = true -> addr_ok b = true -> ValString a = ValString b -> a = b.
Proof.
  intros Ha Hb E. apply ValAddress_roundtrip in Ha, Hb. rewrite E in Ha. congruence.
Qed.

(** ** Keepers of the SDK modules *)

(** The block context. *)
Record Ctx := mkCtx { BlockHeight : Z; BlockTime : Z; ChainID : string }.

Record DenomUnit := mkUnit { unit_denom : string; exponent : Z; aliases : list string }.
Record Metadata := mkMeta {
  Description : string; DenomUnits : list DenomUnit; Base : string;
  Display : string; MName : string; Symbol : string }.

Class BankKeeper (B : Type) := {
  GetModuleAddress : string -> string;
  GetBalance : B -> string -> string -> Coin;
  GetAllBalances : B -> string -> Coins;
  GetSupply : B -> string -> Coin;
  SendCoinsFromModuleToModule : string -> string -> Coins -> M B unit;
  SendCoinsFromModuleToAccount : string -> string -> Coins -> M B unit;
  SendCoinsFromAccountToModule : string -> string -> Coins -> M B unit;
  BurnCoins : string -> Coins -> M B unit;
  MintCoins : string -> Coins -> M B unit;
  GetDenomMetaData : B -> string -> option Metadata;
  SetDenomMetaData : Metadata -> B -> B;
}.

Definition bal `{BankKeeper B} (b : B) (a d : string) : Z := Amount (GetBalance b a d).
Definition supply `{BankKeeper B} (b : B) (d : string) : Z := Amount (GetSupply b d).
Definition ind (P : Prop) `{!Decision P} (z : Z) : Z := if decide P then z else 0.
Lemma ind_and (P Q : Prop) `{!Decision P, !Decision Q} z : ind P (ind Q z) = ind (P /\ Q) z.
Proof. unfold ind. repeat destruct (decide _); tauto || done. Qed.

(** ** Single coins *)

Section SingleCoins.
Context `{SdkMathLaws, !SdkCoins, !SdkCoinsLaws}.

Lemma amt_one c d : amt [c] d = ind (Denom c = d) (Amount c).
Proof using Type. unfold amt, ind. rewrite zsum_cons, zsum_nil. destruct (decide _); lia. Qed.

(** A single positive coin. *)
Lemma NewCoins_pos c cs : 0 < Amount c -> NewCoins [c] = Ok cs -> cs = [c] /\ coins_ok [c].
Proof using Type*.
  intros Hc. rewrite NewCoins_single. destruct (ValidateDenom (Denom c)) eqn:Ev; [|done].
  destruct (Z.leb_spec 0 (Amount c)), (Z.eqb_spec (Amount c) 0); try lia. intros [= <-].
  split; [done|]. split; by repeat constructor.
Qed.

Lemma TruncateDecimal_Ok c t r : DecCoin_TruncateDecimal c = Ok (t, r) ->
  Denom t = DDenom c /\ DDenom r = DDenom c /\ 0 <= Amount t /\ 0 <= DAmount r /\
  Amount t = DAmount c / P18 /\ DAmount r = DAmount c - NewDec (Amount t).
Proof using Type*.
  rewrite DecCoin_TruncateDecimal_spec, Dec_TruncateInt_spec. intros R.
  apply rbind_Ok in R as (q & Hq & R). sdk_inv. rewrite Dec_Sub_spec in R.
  apply rbind_Ok in R as (x & Hx & R). sdk_inv. rewrite NewCoin_spec in R.
  apply rbind_Ok in R as (tc & Htc & R). destruct (ValidateDenom (DDenom c)); [|done].
  destruct (Z.leb_spec 0 (Z.quot (DAmount c) P18)) as [Hnn|]; [|done]. injection Htc as <-.
  apply rbind_Ok in R as (rc & Hrc & [= <- <-]). simpl. rewrite NewDecCoinFromDec_spec in Hrc.
  destruct (ValidateDenom _); [|done]. simpl in Hrc.
  destruct (Z.leb_spec 0 (DAmount c - NewDec (Z.quot (DAmount c) P18))) as [Hr|]; [|done].
  injection Hrc as <-. simpl. split_and!; try done.
  unfold NewDec in Hr. assert (0 < P18) by done.
  apply Z.quot_div_nonneg; [nia|done].
Qed.
End SingleCoins.

(** [moved b b' x y cs]: [cs] went from account [x] to account [y]. *)
Definition moved `{BankKeeper B} (b b' : B) (x y : string) (cs : Coins) : Prop :=
  (forall a d, bal b' a d = bal b a d - ind (a = x) (amt cs d) + ind (a = y) (amt cs d)) /\
  (forall d, supply b' d = supply b d).

Class BankLaws (B : Type) `{SdkMath, SdkCoins, BankKeeper B} : Prop := {
  GetBalance_denom b a d : Denom (GetBalance b a d) = d;
  GetSupply_denom b d : Denom (GetSupply b d) = d;
  bal_nonneg b a d : 0 <= bal b a d;
  supply_nonneg b d : 0 <= supply b d;
  GetAllBalances_ok b a : coins_ok (GetAllBalances b a);
  GetAllBalances_amt b a d : amt (GetAllBalances b a) d = bal b a d;
  send_m2m b b' x y cs : coins_ok cs ->
    SendCoinsFromModuleToModule x y cs b = Ret tt b' ->
    moved b b' (GetModuleAddress x) (GetModuleAddress y) cs;
  send_m2a b b' x y cs : coins_ok cs ->
    SendCoinsFromModuleToAccount x y cs b = Ret tt b' -> moved b b' (GetModuleAddress x) y cs;
  send_a2m b b' x y cs : coins_ok cs ->
    SendCoinsFromAccountToModule x y cs b = Ret tt b' -> moved b b' x (GetModuleAddress y) cs;
  burn_spec b b' x cs : coins_ok cs -> BurnCoins x cs b = Ret tt b' ->
    (forall a d, bal b' a d = bal b a d - ind (a = GetModuleAddress x) (amt cs d)) /\
    (forall d, supply b' d = supply b d - amt cs d);
  mint_spec b b' x cs : coins_ok cs -> MintCoins x cs b = Ret tt b' ->
    (forall a d, bal b' a d = bal b a d + ind (a = GetModuleAddress x) (amt cs d)) /\
    (forall d, supply b' d = supply b d + amt cs d);
}.

(** [stakingtypes.ValidatorI] *)
Record ValidatorI := mkVal {
  GetOperator : string;
  IsBonded : bool;
  IsJailed : bool;
  GetConsensusPower : Int -> Z;
  GetConsAddr : res string }.

Class StakingKeeper (SS : Type) := {
  MaxValidators : SS -> Z;
  ValidatorsPowerStoreIterator : SS -> list string;
  Validator : SS -> string -> option ValidatorI;
  PowerReduction : SS -> Int;
  TotalBondedTokens : SS -> Int;
  (** [sdk.TokensToConsensusPower], an int64 *)
  TokensToConsensusPower : Int -> Int -> res Z;
  (** [sdk.ValidatorUpdateDelay] *)
  ValidatorUpdateDelay : Z;
  Jail : string -> M SS unit;
}.

(** [StakingKeeper.Slash] reaches over three modules: it burns the slashed tokens
    through the bank, and its hook [BeforeValidatorSlashed] writes the slash into
    the distribution module. *)
Class SlashKeeper (B SS DS : Type) :=
  Slash : string -> Z -> Z -> Dec -> M (B * SS * DS) unit.

Class StakingLaws (SS : Type) `{StakingKeeper SS} : Prop := {
  Validator_operator s a v : Validator s a = Some v -> GetOperator v = a;
}.

Class DistrKeeper (DS : Type) := {
  AllocateTokensToValidator : ValidatorI -> DecCoins -> M DS unit;
  GetCommunityPool : DS -> DecCoins;
  SetCommunityPool : DecCoins -> DS -> DS;
}.

(** Allocating to one validator neither reads nor writes another one's record. *)
Class DistrLaws (DS : Type) `{DistrKeeper DS} : Prop := {
  alloc_commute v1 v2 t1 t2 d : GetOperator v1 <> GetOperator v2 ->
    (do* AllocateTokensToValidator v1 t1 in AllocateTokensToValidator v2 t2) d =
    (do* AllocateTokensToValidator v2 t2 in AllocateTokensToValidator v1 t1) d;
  (** it returns no error *)
  alloc_no_fail v t d e d' : AllocateTokensToValidator v t d <> Fail e d';
  GetCommunityPool_set p d : GetCommunityPool (SetCommunityPool p d) = p;
}.
