(* ===== verification/SdkRef.v ===== *)
(** * A reference SDK

    Concrete instances of every class of [Sdk.v] and the proofs that they satisfy
    its laws: the assumptions of the development are consistent, and witnesses
    can run the model.  [Import Ref] makes the instances available. *)

From S2P Require Import Prelude Sdk.

(** ** Coin lists as maps *)

Section CoinMaps.
Context {C : Type} (mk : string -> Z -> C) (den : C -> string) (am : C -> Z).
Hypothesis (den_mk : forall d z, den (mk d z) = d).
Hypothesis (am_mk : forall d z, am (mk d z) = z).

Definition amt_of (cs : list C) (d : string) : Z :=
  zsum (fun c => if decide (den c = d) then am c else 0) cs.

(** Add up the amounts of a list by denom. *)
Definition to_map (cs : list C) : gmap string Z :=
  foldr (fun c m => <[den c := am c + default 0 (m !! den c)]> m) ∅ cs.

Definition nonzero (p : string * Z) : Prop := p.2 <> 0.
#[local] Instance nonzero_dec p : Decision (nonzero p).
Proof. unfold nonzero. apply _. Defined.

(** The non-zero entries of a map, sorted by denom. *)
Definition of_map (m : gmap string Z) : list C :=
  (fun p => mk p.1 p.2) <$> kv_iter id (filter nonzero m).

Lemma to_map_amt cs d : default 0 (to_map cs !! d) = amt_of cs d.
Proof using Type.
  induction cs as [|c cs IH]; [done|]. unfold amt_of in *. simpl in *.
  rewrite zsum_cons. destruct (decide (den c = d)) as [<-|Hne].
  - rewrite lookup_insert_eq. simpl. by rewrite IH.
  - by rewrite lookup_insert_ne.
Qed.

Lemma to_map_dom cs d z : to_map cs !! d = Some z -> exists c, c ∈ cs /\ den c = d.
Proof using Type.
  induction cs as [|c cs IH]; [done|]. simpl.
  destruct (decide (den c = d)) as [<-|Hne].
  - intros _. exists c. split; [left|done].
  - rewrite lookup_insert_ne by done. intros Hd. destruct (IH Hd) as (c' & ? & ?).
    exists c'. split; [by right|done].
Qed.

Lemma zsum_lookup (l : list (string * Z)) d z :
  NoDup l.*1 -> (d, z) ∈ l ->
  zsum (fun p => if decide (p.1 = d) then p.2 else 0) l = z.
Proof using Type.
  induction l as [|[d' z'] l IH]; intros Hnd Hin; [by apply not_elem_of_nil in Hin|].
  rewrite zsum_cons. apply NoDup_cons in Hnd as [Hni Hnd]. simpl in *.
  apply elem_of_cons in Hin as [[= -> ->]|Hin].
  - rewrite decide_True by done. rewrite (zsum_ext _ (fun _ => 0)), zsum_0; [lia|].
    intros [d2 z2] H2. simpl. rewrite decide_False; [done|]. intros ->.
    apply Hni. apply list_elem_of_fmap. by exists (d', z2).
  - rewrite decide_False; [rewrite IH by done; lia|]. intros ->.
    apply Hni. apply list_elem_of_fmap. by exists (d, z).
Qed.

Lemma of_map_amt m d : amt_of (of_map m) d = default 0 (m !! d).
Proof using den_mk am_mk.
  set (l := kv_iter id (filter nonzero m)).
  assert (amt_of (of_map m) d = zsum (fun p => if decide (p.1 = d) then p.2 else 0) l) as ->.
  { unfold amt_of, of_map. rewrite zsum_fmap. apply zsum_ext. intros p _.
    by rewrite den_mk, am_mk. }
  destruct (filter nonzero m !! d) as [z|] eqn:E.
  - rewrite (zsum_lookup _ _ z); [|apply kv_iter_NoDup|by apply elem_of_kv_iter].
    by apply map_lookup_filter_Some in E as [-> _].
  - rewrite (zsum_ext _ (fun _ => 0)), zsum_0.
    + apply map_lookup_filter_None in E as [->|E]; [done|].
      destruct (m !! d) as [z|]; [|done]. simpl. specialize (E z eq_refl).
      unfold nonzero in E. simpl in E. lia.
    + intros [d' z'] H'. simpl. rewrite decide_False; [done|]. intros ->.
      apply elem_of_kv_iter in H'. congruence.
Qed.

Lemma of_map_sorted m : StronglySorted (fun a b => str_lt (den a) (den b)) (of_map m).
Proof using den_mk.
  pose proof (kv_iter_strict (filter nonzero m)) as Hs. unfold of_map.
  induction (kv_iter id (filter nonzero m)) as [|p l IH]; simpl in *; [constructor|].
  inversion Hs as [|? ? Hs' Hp]; subst. constructor; [by apply IH|].
  apply Forall_fmap. apply (Forall_fmap fst) in Hp.
  eapply Forall_impl; [exact Hp|]. intros q Hq. simpl in *. by rewrite !den_mk.
Qed.

Lemma elem_of_of_map m c : c ∈ of_map m -> exists d z, c = mk d z /\ m !! d = Some z /\ z <> 0.
Proof using Type.
  unfold of_map. intros ([d z] & -> & Hin)%list_elem_of_fmap.
  apply elem_of_kv_iter, map_lookup_filter_Some in Hin as [Hm Hz]. by exists d, z.
Qed.

(** A predicate of every denom and non-zero amount of the map holds of the
    coins. *)
Lemma of_map_Forall (P : string -> Z -> Prop) m :
  (forall d z, m !! d = Some z -> z <> 0 -> P d z) ->
  Forall (fun c => P (den c) (am c)) (of_map m).
Proof using den_mk am_mk.
  intros HP. apply Forall_forall. intros c (d & z & -> & Hm & Hz)%elem_of_of_map.
  rewrite den_mk, am_mk. by apply HP.
Qed.

(** Every entry of the map of a list is an amount of the list. *)
Lemma to_map_Some cs d z : to_map cs !! d = Some z ->
  z = amt_of cs d /\ exists c, c ∈ cs /\ den c = d.
Proof using Type.
  intros Hd. split; [|by eapply to_map_dom]. by rewrite <- to_map_amt, Hd.
Qed.

Lemma amt_of_pos_dom cs d : amt_of cs d <> 0 -> exists c, c ∈ cs /\ den c = d.
Proof using Type.
  rewrite <- to_map_amt. destruct (to_map cs !! d) as [z|] eqn:E; [|done].
  intros _. by eapply to_map_dom.
Qed.
End CoinMaps.

Module Ref.

(** ** Arithmetic *)

(** [chopPrecisionAndRound]: banker's rounding of the magnitude. *)
Definition round_half_even (z : Z) : Z :=
  let q := z / P18 in
  let r := 2 * (z mod P18) in
  if r <? P18 then q else if P18 <? r then q + 1 else if Z.even q then q else q + 1.
Definition chop_round (z : Z) : Z :=
  if z <? 0 then - round_half_even (- z) else round_half_even z.
Definition dec_ok (z : Z) : bool := Z.abs z <? 2 ^ 315.
Definition int_ok (z : Z) : bool := Z.abs z <? 2 ^ 256.
Definition chk (p : Z -> bool) (z : Z) : res Z := if p z then Ok z else Panic.

#[export] Instance ref_math : SdkMath := {|
  dec_fits := dec_ok; int_fits := int_ok; dec_round := chop_round;
  Dec_Add a b := chk dec_ok (a + b);
  Dec_Sub a b := chk dec_ok (a - b);
  Dec_Mul a b := chk dec_ok (chop_round (a * b));
  Dec_Quo a b := if b =? 0 then Panic else chk dec_ok (chop_round (Z.quot (a * P18 * P18) b));
  Dec_MulInt a i := chk dec_ok (a * i);
  Dec_QuoInt a i := if i =? 0 then Panic else Ok (Z.quot a i);
  Dec_RoundInt a := chk int_ok (chop_round a);
  Dec_TruncateInt a := chk int_ok (Z.quot a P18);
  Int_Add a b := chk int_ok (a + b);
  Int_Sub a b := chk int_ok (a - b);
  DecimalPrecisionBits := 60 |}.

Lemma round_half_even_near z :
  2 * Z.abs (round_half_even z * P18 - z) <= P18.
Proof.
  unfold round_half_even. pose proof (Z.div_mod z P18). pose proof (Z.mod_pos_bound z P18).
  unfold P18 in *. repeat case_match; nia.
Qed.

Lemma round_half_even_mono x y : x <= y -> round_half_even x <= round_half_even y.
Proof.
  intros Hxy. destruct (decide (x / P18 = y / P18)) as [E|E].
  - unfold round_half_even. rewrite <- E.
    pose proof (Z.div_mod x P18). pose proof (Z.div_mod y P18).
    unfold P18 in *. repeat case_match; nia.
  - assert (x / P18 < y / P18).
    { pose proof (Z.div_le_mono x y P18). unfold P18 in *. lia. }
    unfold round_half_even. repeat case_match; lia.
Qed.

#[export] Instance ref_math_laws : SdkMathLaws.
Proof.
  split; try done; unfold dec_fits, int_fits, dec_round; simpl.
  - intros z Hz. unfold dec_ok. lia.
  - intros x y. unfold dec_ok. lia.
  - intros z Hz. unfold int_ok. lia.
  - intros x y. unfold int_ok. lia.
  - intros z. unfold chop_round. pose proof (round_half_even_near z).
    pose proof (round_half_even_near (- z)). destruct (z <? 0); lia.
  - intros x y Hxy. unfold chop_round.
    pose proof (round_half_even_mono x y). pose proof (round_half_even_mono (- y) (- x)).
    pose proof (round_half_even_mono 0 (- x)). pose proof (round_half_even_mono 0 y).
    assert (round_half_even 0 = 0) by reflexivity.
    destruct (Z.ltb_spec x 0), (Z.ltb_spec y 0); lia.
  - intros z. unfold chop_round. assert (round_half_even 0 = 0) by reflexivity.
    destruct (Z.ltb_spec (- z) 0), (Z.ltb_spec z 0); try lia.
    + rewrite Z.opp_involutive. lia.
    + replace z with 0 by lia. done.
Qed.

(** ** Coins *)

Definition is_letter (n : nat) : bool :=
  ((65 <=? n) && (n <=? 90) || (97 <=? n) && (n <=? 122))%nat.
Definition denom_char (n : nat) : bool :=
  is_letter n || ((48 <=? n) && (n <=? 57))%nat || existsb (Nat.eqb n) [47; 58; 46; 95; 45]%nat.
(** [[a-zA-Z][a-zA-Z0-9/:._-]{2,127}] *)
Definition valid_denom (d : string) : bool :=
  match String.list_ascii_of_string d with
  | [] => false
  | c :: l => is_letter (Ascii.nat_of_ascii c) &&
      forallb (fun c => denom_char (Ascii.nat_of_ascii c)) l &&
      ((2 <=? length l) && (length l <=? 127))%nat
  end.

Definition cmap (cs : Coins) : gmap string Z := to_map Denom Amount cs.
Definition dmap (cs : DecCoins) : gmap string Z := to_map DDenom DAmount cs.
Definition unmap (m : gmap string Z) : Coins := of_map mkCoin m.
Definition undmap (m : gmap string Z) : DecCoins := of_map mkDecCoin m.

Definition all_b (p : Z -> bool) (m : gmap string Z) : bool :=
  forallb (fun e => p e.2) (map_to_list m).
Definition plus_maps (m1 m2 : gmap string Z) : gmap string Z :=
  union_with (fun x y => Some (x + y)) m1 m2.
Definition coin_ok (c : Coin) : bool := valid_denom (Denom c) && (0 <=? Amount c).

Definition coins_valid (cs : Coins) : bool :=
  forallb (fun c => valid_denom (Denom c) && (0 <? Amount c)) cs &&
  bool_decide (StronglySorted (fun a b => str_lt (Denom a) (Denom b)) cs).

Definition insert_coin (c : Coin) : Coins -> Coins :=
  fix go cs := match cs with
               | [] => [c]
               | c' :: cs' => if decide (str_le (Denom c) (Denom c')) then c :: cs else c' :: go cs'
               end.

#[export] Instance ref_coins : SdkCoins := {|
  ValidateDenom := valid_denom;
  NewCoin d a := if valid_denom d && (0 <=? a) then Ok (mkCoin d a) else Panic;
  NewCoins cs := if forallb coin_ok cs && bool_decide (NoDup (Denom <$> cs))
                 then Ok (unmap (cmap cs)) else Panic;
  Coin_Add a b := if decide (Denom a = Denom b)
    then (let! s := Int_Add (Amount a) (Amount b) in Ok (mkCoin (Denom a) s)) else Panic;
  Coins_Add a b := let m := plus_maps (cmap a) (cmap b) in
    if all_b int_ok m then Ok (unmap m) else Panic;
  Coins_Sub a b := let m := plus_maps (cmap a) (Z.opp <$> cmap b) in
    if all_b (Z.leb 0) m then Ok (unmap m) else Panic;
  Coins_AmountOf a d := amt a d;
  Coins_IsZero a := forallb (fun c => Amount c =? 0) a;
  Coins_IsValid := coins_valid;
  Coins_Sort a := foldr insert_coin [] a;
  NewDecCoin d i := if valid_denom d && (0 <=? i) then Ok (mkDecCoin d (NewDec i)) else Panic;
  NewDecCoinFromCoin c := if valid_denom (Denom c) && (0 <=? Amount c)
    then Ok (mkDecCoin (Denom c) (NewDec (Amount c))) else Panic;
  NewDecCoinFromDec d a := if valid_denom d && (0 <=? a) then Ok (mkDecCoin d a) else Panic;
  DecCoin_Add a b := if decide (DDenom a = DDenom b)
    then (let! s := Dec_Add (DAmount a) (DAmount b) in Ok (mkDecCoin (DDenom a) s))
    else Panic;
  DecCoin_Sub a b := if decide (DDenom a = DDenom b)
    then (let! s := Dec_Sub (DAmount a) (DAmount b) in
          if s <? 0 then Panic else Ok (mkDecCoin (DDenom a) s))
    else Panic;
  DecCoin_TruncateDecimal c :=
    (let! t := Dec_TruncateInt (DAmount c) in
     let! r := Dec_Sub (DAmount c) (NewDec t) in
     let! tc := if valid_denom (DDenom c) && (0 <=? t) then Ok (mkCoin (DDenom c) t) else Panic in
     let! rc := if valid_denom (DDenom c) && (0 <=? r) then Ok (mkDecCoin (DDenom c) r) else Panic in
     Ok (tc, rc));
  NewDecCoinsFromCoins cs := Ok (undmap (NewDec <$> cmap cs));
  DecCoins_Add a b := let m := plus_maps (dmap a) (dmap b) in
    if all_b dec_ok m then Ok (undmap m) else Panic;
  DecCoins_MulDec a m := let p := (fun z => chop_round (z * m)) <$> dmap a in
    if all_b dec_ok p then Ok (undmap p) else Panic;
  DecCoins_TruncateDecimal a :=
    let t := (fun z => Z.quot z P18) <$> dmap a in
    if all_b int_ok t then Ok (unmap t, undmap ((fun z => Z.rem z P18) <$> dmap a)) else Panic |}.

Lemma all_b_spec p m : all_b p m = true <-> forall d z, m !! d = Some z -> p z = true.
Proof.
  unfold all_b. rewrite forallb_forall. split.
  - intros Hp d z Hd. apply (Hp (d, z)). apply list_elem_of_In. by apply elem_of_map_to_list.
  - intros Hp [d z] Hin. apply list_elem_of_In, elem_of_map_to_list in Hin. by apply (Hp d).
Qed.

Lemma all_b_true p m (f : string -> Z) : (forall d, default 0 (m !! d) = f d) ->
  (forall d, p (f d) = true) -> all_b p m = true.
Proof. intros Hf Hp. apply all_b_spec. intros d z Hd. specialize (Hp d). by rewrite <- Hf, Hd in Hp. Qed.

Lemma all_b_false p m (f : string -> Z) d : (forall d, default 0 (m !! d) = f d) ->
  p 0 = true -> p (f d) = false -> all_b p m = false.
Proof.
  intros Hf H0 Hp. apply not_true_iff_false. rewrite all_b_spec. intros Hall.
  rewrite <- Hf in Hp. destruct (m !! d) as [z|] eqn:E; simpl in *; [|congruence].
  rewrite (Hall d z E) in Hp. done.
Qed.

Lemma plus_maps_lookup m1 m2 d :
  default 0 (plus_maps m1 m2 !! d) = default 0 (m1 !! d) + default 0 (m2 !! d).
Proof.
  unfold plus_maps. rewrite lookup_union_with.
  destruct (m1 !! d), (m2 !! d); simpl; lia.
Qed.

Lemma cmap_amt cs d : default 0 (cmap cs !! d) = amt cs d.
Proof. apply to_map_amt. Qed.
Lemma dmap_amt cs d : default 0 (dmap cs !! d) = damt cs d.
Proof. apply to_map_amt. Qed.

Lemma fmap_default (g : Z -> Z) (m : gmap string Z) d :
  g 0 = 0 -> default 0 ((g <$> m) !! d) = g (default 0 (m !! d)).
Proof. intros H0. rewrite lookup_fmap. by destruct (m !! d). Qed.

Lemma unmap_ok m (f : string -> Z) : (forall d, default 0 (m !! d) = f d) ->
  (forall d, f d <> 0 -> valid_denom d = true /\ 0 < f d) ->
  coins_ok (unmap m) /\ forall d, amt (unmap m) d = f d.
Proof.
  intros Hf Hp. split; [split|].
  - by apply of_map_sorted.
  - apply (of_map_Forall mkCoin Denom Amount ltac:(done) ltac:(done)
      (fun d z => valid_denom d = true /\ 0 < z)).
    intros d z Hd Hz. specialize (Hf d). rewrite Hd in Hf. simpl in Hf. subst. by apply Hp.
  - intros d. rewrite <- Hf. by apply (of_map_amt mkCoin Denom Amount).
Qed.

Lemma undmap_ok m (f : string -> Z) : (forall d, default 0 (m !! d) = f d) ->
  (forall d, f d <> 0 -> valid_denom d = true /\ 0 < f d) ->
  decoins_ok (undmap m) /\ forall d, damt (undmap m) d = f d.
Proof.
  intros Hf Hp. split; [split|].
  - by apply of_map_sorted.
  - apply (of_map_Forall mkDecCoin DDenom DAmount ltac:(done) ltac:(done)
      (fun d z => valid_denom d = true /\ 0 < z)).
    intros d z Hd Hz. specialize (Hf d). rewrite Hd in Hf. simpl in Hf. subst. by apply Hp.
  - intros d. rewrite <- Hf. by apply (of_map_amt mkDecCoin DDenom DAmount).
Qed.

Lemma amt_valid cs d : coins_ok cs -> amt cs d <> 0 -> valid_denom d = true /\ 0 < amt cs d.
Proof.
  intros Hok Hd. pose proof (amt_nonneg cs d Hok). split; [|lia].
  destruct (amt_of_pos_dom Denom Amount cs d Hd) as (c & Hc & <-).
  destruct Hok as [_ Hok]. rewrite Forall_forall in Hok. by apply (Hok c).
Qed.
Lemma damt_valid cs d : decoins_weak cs -> damt cs d <> 0 -> valid_denom d = true /\ 0 < damt cs d.
Proof.
  intros Hok Hd. pose proof (damt_nonneg cs d Hok). split; [|lia].
  destruct (amt_of_pos_dom DDenom DAmount cs d Hd) as (c & Hc & <-).
  destruct Hok as [_ Hok]. rewrite Forall_forall in Hok. by apply (Hok c).
Qed.

Lemma insert_coin_perm c cs : insert_coin c cs ≡ₚ c :: cs.
Proof.
  induction cs as [|c' cs IH]; [done|]. simpl. destruct (decide _); [done|].
  rewrite IH. apply Permutation_swap.
Qed.

Lemma insert_coin_sorted c cs :
  StronglySorted (fun x y => str_le (Denom x) (Denom y)) cs ->
  StronglySorted (fun x y => str_le (Denom x) (Denom y)) (insert_coin c cs).
Proof.
  induction 1 as [|c' cs Hs IH Hc]; simpl; [repeat constructor|].
  destruct (decide _) as [Hle|Hnle].
  - constructor; [by constructor|]. constructor; [done|].
    eapply Forall_impl; [exact Hc|]. intros. by etrans.
  - constructor; [done|]. rewrite insert_coin_perm. constructor; [|done].
    by destruct (str_le_total (Denom c) (Denom c')).
Qed.

Lemma plus_cmap a b d : default 0 (plus_maps (cmap a) (cmap b) !! d) = amt a d + amt b d.
Proof. by rewrite plus_maps_lookup, !cmap_amt. Qed.
Lemma sub_cmap a b d :
  default 0 (plus_maps (cmap a) (Z.opp <$> cmap b) !! d) = amt a d - amt b d.
Proof. rewrite plus_maps_lookup, fmap_default by done. by rewrite !cmap_amt. Qed.
Lemma plus_dmap a b d : default 0 (plus_maps (dmap a) (dmap b) !! d) = damt a d + damt b d.
Proof. by rewrite plus_maps_lookup, !dmap_amt. Qed.
Lemma mul_dmap a m d :
  default 0 (((fun z => chop_round (z * m)) <$> dmap a) !! d) = chop_round (damt a d * m).
Proof. rewrite fmap_default by done. by rewrite dmap_amt. Qed.
Lemma trunc_dmap a d :
  default 0 (((fun z => Z.quot z P18) <$> dmap a) !! d) = Z.quot (damt a d) P18.
Proof. rewrite fmap_default by done. by rewrite dmap_amt. Qed.

Lemma NewCoins_single_ref c : NewCoins [c] =
  if ValidateDenom (Denom c) && (0 <=? Amount c)
  then Ok (if Amount c =? 0 then [] else [c]) else Panic.
Proof.
  cbn [NewCoins ref_coins ValidateDenom forallb].
  rewrite bool_decide_true by apply NoDup_singleton. unfold coin_ok.
  rewrite !andb_true_r. destruct (_ && _); [|done]. do 2 f_equal.
  assert (cmap [c] = {[Denom c := Amount c]}) as ->.
  { unfold cmap. simpl. rewrite lookup_empty. simpl. by rewrite Z.add_0_r. }
  unfold unmap, of_map, kv_iter. destruct (Z.eqb_spec (Amount c) 0) as [E|E].
  - rewrite map_filter_singleton_False; [done|]. intros Hn. by apply Hn.
  - rewrite map_filter_singleton_True by done. rewrite map_to_list_singleton. by destruct c.
Qed.

Lemma quot_pos_valid a d : decoins_weak a -> Z.quot (damt a d) P18 <> 0 ->
  valid_denom d = true /\ 0 < Z.quot (damt a d) P18.
Proof.
  intros Hok Hd. assert (damt a d <> 0) as Hne by (intros E; by rewrite E in Hd).
  apply damt_valid in Hne as [Hv Hp]; [|done]. split; [done|]. unfold P18 in *. zlia.
Qed.

Lemma Coins_Add_ref (a b : Coins) : coins_ok a -> coins_ok b -> (forall d, int_fits (amt a d + amt b d) = true) ->
  exists c, Coins_Add a b = Ok c /\ coins_ok c /\ forall d, amt c d = amt a d + amt b d.
Proof.
  intros Ha Hb Hfit. exists (unmap (plus_maps (cmap a) (cmap b))). split.
  - simpl. erewrite all_b_true; [done|apply plus_cmap|done].
  - apply unmap_ok; [apply plus_cmap|]. intros d Hd.
    pose proof (amt_valid a d Ha). pose proof (amt_valid b d Hb).
    pose proof (amt_nonneg a d Ha). pose proof (amt_nonneg b d Hb).
    destruct (decide (amt a d = 0)); [destruct (decide (amt b d = 0)); [lia|]|];
      (split; [tauto|lia]).
Qed.

Lemma Coins_IsValid_ref (a : Coins) : Coins_IsValid a = true <-> coins_ok a.
Proof.
  simpl. unfold coins_valid. rewrite andb_true_iff, bool_decide_eq_true.
  rewrite forallb_forall. unfold coins_ok, coins_sorted. rewrite List.Forall_forall.
  split.
  - intros [H1 H2]. split; [exact H2|]. intros c Hc. specialize (H1 c Hc).
    rewrite andb_true_iff, Z.ltb_lt in H1. exact H1.
  - intros [H1 H2]. split; [|exact H1]. intros c Hc. rewrite andb_true_iff, Z.ltb_lt.
    exact (H2 c Hc).
Qed.

Lemma DecCoins_Add_ref (a b : DecCoins) : decoins_weak a -> decoins_weak b ->
  (forall d, dec_fits (damt a d + damt b d) = true) ->
  exists c, DecCoins_Add a b = Ok c /\ decoins_ok c /\ forall d, damt c d = damt a d + damt b d.
Proof.
  intros Ha Hb Hfit. exists (undmap (plus_maps (dmap a) (dmap b))). split.
  - simpl. erewrite all_b_true; [done|apply plus_dmap|done].
  - apply undmap_ok; [apply plus_dmap|]. intros d Hd.
    pose proof (damt_valid a d Ha). pose proof (damt_valid b d Hb).
    pose proof (damt_nonneg a d Ha). pose proof (damt_nonneg b d Hb).
    destruct (decide (damt a d = 0)); [destruct (decide (damt b d = 0)); [lia|]|];
      (split; [tauto|lia]).
Qed.

#[export] Instance ref_coins_laws : SdkCoinsLaws.
Proof.
  split; try done.
  - apply NewCoins_single_ref.
  - apply Coins_Add_ref.
  - intros a b d Ha Hb Hfit. simpl. erewrite (all_b_false _ _ _ d); [done|apply plus_cmap|done|done].
  - intros a b Ha Hb Hle. exists (unmap (plus_maps (cmap a) (Z.opp <$> cmap b))). split.
    + simpl. erewrite all_b_true; [done|apply sub_cmap|]. intros d. specialize (Hle d). simpl. lia.
    + apply unmap_ok; [apply sub_cmap|]. intros d Hd. specialize (Hle d).
      pose proof (amt_nonneg b d Hb). split; [|lia]. apply (amt_valid a d Ha). lia.
  - intros a b d Ha Hb Hlt. simpl. erewrite (all_b_false _ _ _ d); [done|apply sub_cmap|done|].
    simpl. lia.
  - apply Coins_IsValid_ref.
  - intros a. simpl. induction a as [|c a IH]; [done|]. simpl. rewrite insert_coin_perm. by f_equiv.
  - intros a. simpl. induction a as [|c a IH]; [constructor|]. by apply insert_coin_sorted.
  - intros cs Hok. exists (undmap (NewDec <$> cmap cs)). split; [done|].
    apply undmap_ok.
    + intros d. rewrite fmap_default by done. by rewrite cmap_amt.
    + intros d Hd. assert (amt cs d <> 0) as Hne by (intros E; by rewrite E in Hd).
      apply amt_valid in Hne as [? ?]; [|done]. unfold NewDec, P18. split; [done|lia].
  - apply DecCoins_Add_ref.
  - intros a b d Ha Hb Hfit. simpl. erewrite (all_b_false _ _ _ d); [done|apply plus_dmap|done|done].
  - intros a m Ha Hm Hfit. eexists. split.
    + simpl. erewrite all_b_true; [done|apply mul_dmap|done].
    + apply undmap_ok; [apply mul_dmap|]. intros d Hd.
      assert (damt a d <> 0) as Hne by (intros E; by rewrite E in Hd).
      apply damt_valid in Hne as [? ?]; [|done]. split; [done|].
      assert (0 <= chop_round (damt a d * m)); [|simpl in *; lia].
      apply (dec_round_nonneg (H := ref_math)). nia.
  - intros a m d Ha Hm Hfit. simpl. erewrite (all_b_false _ _ _ d); [done|apply mul_dmap|done|done].
  - intros a Ha Hfit. apply decoins_ok_weak in Ha. do 2 eexists. split.
    + simpl. erewrite all_b_true; [done|apply trunc_dmap|done].
    + apply unmap_ok; [apply trunc_dmap|]. intros d. by apply quot_pos_valid.
  - intros a d Ha Hfit. simpl. erewrite (all_b_false _ _ _ d); [done|apply trunc_dmap|done|done].
Qed.

(** ** Two runtimes: the model must not depend on which one runs *)

Definition insert_by {A} (less : A -> A -> bool) (x : A) : list A -> list A :=
  fix go l := match l with
              | [] => [x]
              | y :: l' => if less y x then y :: go l' else x :: l
              end.
Definition insertion_sort {A} (less : A -> A -> bool) (l : list A) : list A :=
  foldr (insert_by less) [] l.

Definition runtime1 : GoRuntime := {|
  map_range _ V m := map_to_list m;
  sort_Sort A := insertion_sort |}.
(** Another order of iteration, and ties sorted the other way round. *)
Definition runtime2 : GoRuntime := {|
  map_range _ V m := reverse (map_to_list m);
  sort_Sort A less l := insertion_sort less (reverse l) |}.

Lemma insert_by_perm {A} (less : A -> A -> bool) x l : insert_by less x l ≡ₚ x :: l.
Proof.
  induction l as [|y l IH]; [done|]. simpl. destruct (less y x); [|done].
  rewrite IH. apply Permutation_swap.
Qed.
Lemma insertion_sort_perm {A} (less : A -> A -> bool) l : insertion_sort less l ≡ₚ l.
Proof. induction l as [|x l IH]; [done|]. simpl. rewrite insert_by_perm. by f_equiv. Qed.

Lemma insertion_sort_sorted {A} (key : A -> Z) l :
  StronglySorted (fun x y => key x <= key y) (insertion_sort (fun x y => key x <? key y) l).
Proof.
  induction l as [|x l IH]; [constructor|]. simpl.
  induction IH as [|y l' Hs IH Hy]; simpl; [repeat constructor|].
  destruct (Z.ltb_spec (key y) (key x)).
  - constructor; [done|]. rewrite insert_by_perm. constructor; [lia|done].
  - constructor; [by constructor|]. constructor; [done|].
    eapply Forall_impl; [exact Hy|]. simpl. lia.
Qed.

#[export] Instance runtime1_laws : GoRuntimeLaws runtime1.
Proof.
  split; [done|intros; apply insertion_sort_perm|intros; apply insertion_sort_sorted].
Qed.
#[export] Instance runtime2_laws : GoRuntimeLaws runtime2.
Proof.
  split; intros; simpl; [apply reverse_Permutation| |apply insertion_sort_sorted].
  by rewrite insertion_sort_perm, reverse_Permutation.
Qed.

Definition to_upper (c : Ascii.ascii) : Ascii.ascii :=
  let n := Ascii.nat_of_ascii c in
  if ((97 <=? n) && (n <=? 122))%nat then Ascii.ascii_of_nat (n - 32) else c.
Fixpoint str_map (f : Ascii.ascii -> Ascii.ascii) (s : string) : string :=
  match s with EmptyString => "" | String c s' => String (f c) (str_map f s') end.
#[export] Instance ref_strings : GoStrings := str_map to_upper.

(** ** Addresses *)

Definition address_ok (a : string) : bool :=
  ((1 <=? String.length a) && (String.length a <=? 255))%nat.
Fixpoint strip_prefix (p s : string) : option string :=
  match p, s with
  | EmptyString, _ => Some s
  | String c p', String c' s' => if Ascii.eqb c c' then strip_prefix p' s' else None
  | String _ _, EmptyString => None
  end.
Definition parse_address (prefix s : string) : res string :=
  match strip_prefix prefix s with
  | Some a => if address_ok a then Ok a else Err (Errorf "incorrect address length")
  | None => Err (Errorf "invalid prefix")
  end.

#[export] Instance ref_bech32 : Bech32 := {|
  AccAddressFromBech32 := parse_address "terra1";
  ValAddressFromBech32 := parse_address "terravaloper1";
  AccString a := "terra1" +:+ a;
  ValString a := "terravaloper1" +:+ a;
  addr_ok := address_ok;
  MustLengthPrefix a := String (Ascii.ascii_of_nat (String.length a)) a |}.

Lemma strip_prefix_app p s : strip_prefix p (p +:+ s) = Some s.
Proof. induction p as [|c p IH]; [done|]. simpl. by rewrite Ascii.eqb_refl. Qed.

#[export] Instance ref_bech32_laws : Bech32Laws.
Proof.
  split; try done; cbn [AccAddressFromBech32 ValAddressFromBech32 AccString ValString addr_ok
    ref_bech32].
  - intros a Ha. unfold parse_address. by rewrite strip_prefix_app, Ha.
  - intros a Ha. unfold parse_address. by rewrite strip_prefix_app, Ha.
  - intros s a. unfold parse_address. destruct (strip_prefix _ s) as [x|]; [|done].
    destruct (address_ok x) eqn:E; naive_solver.
  - intros s a. unfold parse_address. destruct (strip_prefix _ s) as [x|]; [|done].
    destruct (address_ok x) eqn:E; naive_solver.
  - intros s. unfold parse_address. by repeat case_match.
  - intros s. unfold parse_address. by repeat case_match.
Qed.

(** ** The bank *)

Record RefBank := mkBank {
  accounts : gmap string (gmap string Z);
  supplies : gmap string Z;
  metadata : gmap string Metadata }.

#[local] Instance valid_entry_dec (p : string * Z) : Decision (valid_denom p.1 = true).
Proof. apply _. Defined.

(** The readable part of a balance map: valid denoms, no negative amount. *)
Definition sane (m : gmap string Z) : gmap string Z :=
  Z.max 0 <$> filter (fun p : string * Z => valid_denom p.1 = true) m.
Definition acct (b : RefBank) (a : string) : gmap string Z := sane (default ∅ (accounts b !! a)).
Definition set_acct (a : string) (m : gmap string Z) (b : RefBank) : RefBank :=
  mkBank (<[a := m]> (accounts b)) (supplies b) (metadata b).
Definition set_supply (m : gmap string Z) (b : RefBank) : RefBank :=
  mkBank (accounts b) m (metadata b).

Definition minus_coins (m : gmap string Z) (cs : Coins) := plus_maps m (Z.opp <$> cmap cs).
Definition plus_coins (m : gmap string Z) (cs : Coins) := plus_maps m (cmap cs).

Definition ErrInsufficientFunds := SdkError "insufficient funds".

Definition withdraw (a : string) (cs : Coins) : M RefBank unit := fun b =>
  let m := minus_coins (acct b a) cs in
  if all_b (Z.leb 0) m then Ret tt (set_acct a m b) else Fail ErrInsufficientFunds b.
Definition deposit (a : string) (cs : Coins) : M RefBank unit := fun b =>
  Ret tt (set_acct a (plus_coins (acct b a) cs) b).
Definition send (x y : string) (cs : Coins) : M RefBank unit :=
  do* withdraw x cs in deposit y cs.
Definition module_address (name : string) : string := "module/" +:+ name.

#[export] Instance ref_bank : BankKeeper RefBank := {|
  GetModuleAddress := module_address;
  GetBalance b a d := mkCoin d (default 0 (acct b a !! d));
  GetAllBalances b a := unmap (acct b a);
  GetSupply b d := mkCoin d (default 0 (sane (supplies b) !! d));
  SendCoinsFromModuleToModule x y := send (module_address x) (module_address y);
  SendCoinsFromModuleToAccount x y := send (module_address x) y;
  SendCoinsFromAccountToModule x y := send x (module_address y);
  BurnCoins x cs := do* withdraw (module_address x) cs in fun b =>
    let m := minus_coins (sane (supplies b)) cs in
    if all_b (Z.leb 0) m then Ret tt (set_supply m b) else Halt;
  MintCoins x cs := do* deposit (module_address x) cs in fun b =>
    Ret tt (set_supply (plus_coins (sane (supplies b)) cs) b);
  GetDenomMetaData b d := metadata b !! d;
  SetDenomMetaData md b := mkBank (accounts b) (supplies b) (<[Base md := md]> (metadata b)) |}.

Lemma sane_lookup m d :
  default 0 (sane m !! d) = if valid_denom d then Z.max 0 (default 0 (m !! d)) else 0.
Proof.
  unfold sane. rewrite lookup_fmap. destruct (valid_denom d) eqn:E.
  - destruct (m !! d) as [z|] eqn:Em.
    + rewrite (map_lookup_filter_Some_2 _ _ _ z); done.
    + rewrite map_lookup_filter_None_2; [done|by left].
  - rewrite map_lookup_filter_None_2; [done|]. right.
    intros z _ Hv. simpl in Hv. congruence.
Qed.

Lemma sane_nonneg m d : 0 <= default 0 (sane m !! d).
Proof. rewrite sane_lookup. destruct (valid_denom d); lia. Qed.

(** Adding valid coins to, or taking available coins from, a sane map. *)
Lemma sane_plus m cs d : coins_ok cs ->
  default 0 (sane (plus_coins (sane m) cs) !! d) = default 0 (sane m !! d) + amt cs d.
Proof.
  intros Hok. rewrite sane_lookup. unfold plus_coins. rewrite plus_maps_lookup, cmap_amt.
  pose proof (sane_nonneg m d). pose proof (amt_nonneg cs d Hok).
  destruct (valid_denom d) eqn:E; [lia|]. rewrite sane_lookup, E.
  destruct (decide (amt cs d = 0)); [lia|].
  destruct (amt_valid cs d Hok) as [Hv _]; [done|]. congruence.
Qed.
Lemma sane_minus m cs d : coins_ok cs -> all_b (Z.leb 0) (minus_coins (sane m) cs) = true ->
  default 0 (sane (minus_coins (sane m) cs) !! d) = default 0 (sane m !! d) - amt cs d.
Proof.
  intros Hok Hall. rewrite sane_lookup.
  assert (default 0 (minus_coins (sane m) cs !! d) = default 0 (sane m !! d) - amt cs d) as E.
  { unfold minus_coins. rewrite plus_maps_lookup, fmap_default, cmap_amt; done. }
  assert (0 <= default 0 (minus_coins (sane m) cs !! d)).
  { destruct (minus_coins (sane m) cs !! d) as [z|] eqn:Ed; [|done]. simpl.
    apply Z.leb_le. by eapply (proj1 (all_b_spec _ _) Hall). }
  destruct (valid_denom d) eqn:Ev; [lia|]. rewrite sane_lookup, Ev in *.
  pose proof (amt_nonneg cs d Hok). lia.
Qed.

Lemma acct_set a m b a' : acct (set_acct a m b) a' = if decide (a' = a) then sane m else acct b a'.
Proof.
  unfold acct, set_acct. simpl. destruct (decide (a' = a)) as [->|Hne].
  - by rewrite lookup_insert_eq.
  - by rewrite lookup_insert_ne.
Qed.

Lemma withdraw_bal b b' x cs : coins_ok cs -> withdraw x cs b = Ret tt b' ->
  (forall a d, bal b' a d = bal b a d - ind (a = x) (amt cs d)) /\ supplies b' = supplies b.
Proof.
  unfold withdraw. intros Hok. destruct (all_b _ _) eqn:E; [|done]. intros [= <-].
  split; [|done]. intros a d. unfold bal, ind. cbn [GetBalance ref_bank Amount].
  rewrite acct_set. destruct (decide (a = x)) as [->|]; [|lia]. by apply sane_minus.
Qed.
Lemma deposit_bal b b' x cs : coins_ok cs -> deposit x cs b = Ret tt b' ->
  (forall a d, bal b' a d = bal b a d + ind (a = x) (amt cs d)) /\ supplies b' = supplies b.
Proof.
  unfold deposit. intros Hok [= <-].
  split; [|done]. intros a d. unfold bal, ind. cbn [GetBalance ref_bank Amount].
  rewrite acct_set. destruct (decide (a = x)) as [->|]; [|lia]. by apply sane_plus.
Qed.
Lemma send_moved b b' x y cs : coins_ok cs -> send x y cs b = Ret tt b' -> moved b b' x y cs.
Proof.
  unfold send. intros Hok ([] & b1 & H1 & H2)%bind_Ret.
  apply withdraw_bal in H1 as [B1 S1]; [|done]. apply deposit_bal in H2 as [B2 S2]; [|done].
  split; [intros; rewrite B2, B1; lia|]. intros d. unfold supply. simpl. by rewrite S2, S1.
Qed.

#[export] Instance ref_bank_laws : BankLaws RefBank.
Proof.
  split; try done; try (intros; by apply send_moved).
  - intros. apply sane_nonneg.
  - intros. apply sane_nonneg.
  - intros b a. apply (unmap_ok _ (fun d => default 0 (acct b a !! d))); [done|].
    intros d. unfold acct. rewrite sane_lookup. destruct (valid_denom d); [|done]. lia.
  - intros b a d. cbn [GetAllBalances ref_bank]. by apply (of_map_amt mkCoin Denom Amount).
  - intros b b' x cs Hok ([] & b1 & H1 & H2)%bind_Ret.
    apply withdraw_bal in H1 as [B1 S1]; [|done]. revert H2. simpl.
    destruct (all_b _ _) eqn:E; [|done]. intros [= <-]. split; [done|].
    intros d. unfold supply. simpl. rewrite sane_minus by done. by rewrite S1.
  - intros b b' x cs Hok ([] & b1 & H1 & [= <-])%bind_Ret.
    apply deposit_bal in H1 as [B1 S1]; [|done]. split; [done|].
    intros d. unfold supply. simpl. rewrite sane_plus by done. by rewrite S1.
Qed.

(** ** Staking and distribution *)

Record RefStaking := mkStaking {
  validators : list ValidatorI;            (* in power order *)
  bonded_tokens : Int;
  slashes : list (string * Z * Z * Dec) }.

Definition validator_of (operator : string) (tokens : Int) (bonded jailed : bool) : ValidatorI :=
  mkVal operator bonded jailed (fun r => Z.quot tokens r) (Ok ("cons/" +:+ operator)).
Definition jail (consAddr : string) (v : ValidatorI) : ValidatorI :=
  match GetConsAddr v with
  | Ok a => if String.eqb a consAddr
            then mkVal (GetOperator v) (IsBonded v) true (GetConsensusPower v) (GetConsAddr v) else v
  | _ => v
  end.

#[export] Instance ref_staking : StakingKeeper RefStaking := {|
  MaxValidators _ := 130;
  ValidatorsPowerStoreIterator s := GetOperator <$> validators s;
  Validator s a := List.find (fun v => String.eqb (GetOperator v) a) (validators s);
  PowerReduction _ := 1000000;
  TotalBondedTokens := bonded_tokens;
  TokensToConsensusPower t r := if r =? 0 then Panic else Int_Int64 (Z.quot t r);
  ValidatorUpdateDelay := 1;
  Jail c := modify (fun s =>
    mkStaking (jail c <$> validators s) (bonded_tokens s) (slashes s)) |}.

#[export] Instance ref_staking_laws : StakingLaws RefStaking.
Proof. split. intros s a v [_ E]%List.find_some. by apply String.eqb_eq. Qed.

Record RefDistr := mkDistr { allocations : gmap string (list DecCoins); pool : DecCoins }.

#[export] Instance ref_distr : DistrKeeper RefDistr := {|
  AllocateTokensToValidator v t := modify (fun d => mkDistr
    (<[GetOperator v := default [] (allocations d !! GetOperator v) ++ [t]]> (allocations d))
    (pool d));
  GetCommunityPool := pool;
  SetCommunityPool p d := mkDistr (allocations d) p |}.

#[export] Instance ref_distr_laws : DistrLaws RefDistr.
Proof.
  split; [|done|done]. intros v1 v2 t1 t2 d Hne. unfold bind. simpl.
  unfold modify. simpl. rewrite !lookup_insert_ne by done. by rewrite insert_insert_ne by done.
Qed.

(** A slash burns the fraction of the validator's stake from the pool of bonded
    tokens, as far as the pool has it, records itself, and closes the reward
    period of the validator with an empty allocation. *)
Definition bonded_pool : string := "bonded_tokens_pool".
Definition slash_bank (tokens : Int) (b : RefBank) : RefBank :=
  match BurnCoins bonded_pool [mkCoin "uluna" tokens] b with Ret _ b' => b' | _ => b end.
Definition slash_distr (consAddr : string) (s : RefStaking) (d : RefDistr) : RefDistr :=
  match List.find (fun v => match GetConsAddr v with Ok a => String.eqb a consAddr | _ => false end)
          (validators s) with
  | Some v => mkDistr (<[GetOperator v := default [] (allocations d !! GetOperator v) ++ [[]]]> (allocations d))
                (pool d)
  | None => d
  end.
#[export] Instance ref_slash : SlashKeeper RefBank RefStaking RefDistr := fun c h p f =>
  modify (fun '(b, s, d) =>
    (slash_bank (Z.quot (f * (p * 1000000)) P18) b,
     mkStaking (validators s) (bonded_tokens s) (slashes s ++ [(c, h, p, f)]),
     slash_distr c s d)).
End Ref.
