(* ===== verification/SdkFees.v ===== *)
(** * The part of the SDK that fees and taxes use

    Comparisons of coins, rounding up, gas prices and the community tax, again
    as parameters with their documented laws; [RefFees] holds the reference
    instances. *)

From S2P Require Import Prelude Sdk SdkRef.

(** ** Operations and laws *)

Class SdkFees := {
  Coins_IsAllGTE : Coins -> Coins -> bool;
  Coins_IsAnyGTE : Coins -> Coins -> bool;
  Dec_Ceil : Dec -> Dec;
  (** [Int.QuoRaw]: truncated division by an int64 *)
  Int_QuoRaw : Int -> Z -> res Int;
  DecCoins_AmountOf : DecCoins -> string -> Dec;
  DecCoins_IsZero : DecCoins -> bool;
  DecCoins_Sort : DecCoins -> DecCoins;
}.

(** Sorted coins whose amounts may be zero: [Coins.Add] accepts them and drops
    the zeros. *)
Definition coins_weak `{SdkCoins} (cs : Coins) : Prop :=
  coins_sorted cs /\ Forall (fun c => ValidateDenom (Denom c) = true /\ 0 <= Amount c) cs.

Class SdkFeesLaws `{SdkMath, SdkCoins, SdkFees} : Prop := {
  Coins_Add_weak_Ok a b : coins_weak a -> coins_weak b ->
    (forall d, int_fits (amt a d + amt b d) = true) ->
    exists c, Coins_Add a b = Ok c /\ coins_ok c /\ forall d, amt c d = amt a d + amt b d;
  Coins_Add_weak_Panic a b d : coins_weak a -> coins_weak b ->
    int_fits (amt a d + amt b d) = false -> Coins_Add a b = Panic;
  Coins_IsAllGTE_spec a b : coins_ok a -> coins_ok b ->
    Coins_IsAllGTE a b = true <-> forall d, amt b d <= amt a d;
  Coins_IsAnyGTE_spec a b : coins_ok a -> coins_weak b ->
    Coins_IsAnyGTE a b = true <-> exists d, 0 < amt b d <= amt a d;
  Dec_Ceil_spec a : Dec_Ceil a = - (- a / P18) * P18;
  Int_QuoRaw_spec a i : Int_QuoRaw a i = if i =? 0 then Panic else Ok (Z.quot a i);
  DecCoins_AmountOf_spec a d : decoins_weak a -> ValidateDenom d = true ->
    DecCoins_AmountOf a d = damt a d;
  DecCoins_IsZero_spec a : DecCoins_IsZero a = forallb (fun c => DAmount c =? 0) a;
  DecCoins_Sort_perm a : DecCoins_Sort a ≡ₚ a;
  DecCoins_Sort_sorted a :
    StronglySorted (fun x y => str_le (DDenom x) (DDenom y)) (DecCoins_Sort a);
}.

(** The distribution keeper's [GetCommunityTax]. *)
Class DistrParams (DS : Type) := GetCommunityTax : DS -> Dec.

(** ** Sums of coins *)

Lemma dec_chk_small `{SdkMathLaws} z : Z.abs z < 2 ^ 315 -> dec_chk z = Ok z.
Proof. intros Hz. unfold dec_chk. by rewrite dec_fits_small. Qed.

(** [for _, c := range cs { ...; acc = acc.Add(sdk.NewCoin(c.Denom, v)) }], where
    [h c] is the amount to add, if any. *)
Definition coin_loop `{SdkCoins} (h : Coin -> res (option Int)) (acc cs : Coins) : res Coins :=
  rfold (fun acc c =>
    let! x := h c in
    match x with
    | None => Ok acc
    | Some v => let! coin := NewCoin (Denom c) v in Coins_Add acc [coin]
    end) acc cs.

Section Facts.
Context `{SdkFeesLaws, !SdkMathLaws, !SdkCoinsLaws}.

Lemma coins_ok_weak cs : coins_ok cs -> coins_weak cs.
Proof using Type.
  intros [? Hc]. split; [done|]. eapply Forall_impl; [exact Hc|].
  intros c [? ?]. split; [done|lia].
Qed.

Lemma coins_zero cs : coins_ok cs -> Coins_IsZero cs = true -> cs = [].
Proof using Type*.
  intros [_ Hp] Hz. rewrite Coins_IsZero_spec in Hz. destruct cs as [|c cs]; [done|].
  simpl in Hz. apply andb_true_iff in Hz as [Hz _]. apply Forall_cons in Hp as [[_ Hp] _]. lia.
Qed.

Lemma amt_weak_nonneg cs d : coins_weak cs -> 0 <= amt cs d.
Proof using Type.
  intros [_ Hc]. apply zsum_nonneg. eapply Forall_impl; [exact Hc|].
  intros c [_ ?]. simpl. destruct (decide _); lia.
Qed.

Lemma Coins_Sort_weak cs : coins_weak cs ->
  coins_weak (Coins_Sort cs) /\ forall d, amt (Coins_Sort cs) d = amt cs d.
Proof using Type*.
  intros [Hs Hc]. split; [split|].
  - apply Coins_Sort_strict. clear Hc. induction Hs as [|c cs Hs IH Hc]; [constructor|].
    cbn [fmap list_fmap]. constructor; [|done]. intros (x & E & Hx)%list_elem_of_fmap.
    rewrite Forall_forall in Hc. by destruct (Hc x Hx) as [_ []].
  - by rewrite Coins_Sort_perm.
  - intros d. unfold amt. by rewrite Coins_Sort_perm.
Qed.

(** A coin made by [NewCoin]. *)
Lemma NewCoin_weak d a c : NewCoin d a = Ok c -> c = mkCoin d a /\ 0 <= a /\ coins_weak [c].
Proof using Type*.
  rewrite NewCoin_spec. destruct (ValidateDenom d) eqn:Ev; [|done]. simpl.
  destruct (Z.leb_spec 0 a); [|done]. intros [= <-].
  split_and!; [done|done|]. split; by repeat constructor.
Qed.

Lemma Coins_Add_inv a b c : coins_weak a -> coins_weak b -> Coins_Add a b = Ok c ->
  coins_ok c /\ forall d, amt c d = amt a d + amt b d.
Proof using All.
  intros Ha Hb E.
  destruct (add_cases coins_ok coins_weak amt (fmap Denom) int_fits Coins_Add amt_dens
    (int_fits_small 0 ltac:(done)) Coins_Add_weak_Ok Coins_Add_weak_Panic a b Ha Hb)
    as [[_ (c' & E' & ?)]|[E' _]]; [|congruence].
  rewrite E in E'. by injection E' as <-.
Qed.

(** Subtraction returns exactly when no denom goes below zero, else it panics. *)
Lemma Coins_Sub_cases a b : coins_ok a -> coins_ok b ->
  (exists c, Coins_Sub a b = Ok c /\ coins_ok c /\ (forall d, amt b d <= amt a d) /\
     forall d, amt c d = amt a d - amt b d) \/
  (Coins_Sub a b = Panic /\ exists d, amt a d < amt b d).
Proof using All.
  intros Ha Hb.
  destruct (decide (Forall (fun d => amt b d <= amt a d) (Denom <$> b))) as [Hall|Hno].
  - left. assert (forall d, amt b d <= amt a d) as Hle.
    { intros d. destruct (decide (d ∈ Denom <$> b)) as [Hd|Hd].
      - rewrite Forall_forall in Hall. by apply Hall.
      - rewrite (amt_dens b d) by done. by apply amt_nonneg. }
    destruct (Coins_Sub_Ok a b Ha Hb Hle) as (c & E & ? & ?). by exists c.
  - right. apply not_Forall_Exists in Hno; [|apply _]. apply Exists_exists in Hno as (d & _ & Hd).
    simpl in Hd. split; [|exists d; lia]. apply (Coins_Sub_Panic a b d Ha Hb). lia.
Qed.

Lemma Coins_Sub_inv a b c : coins_ok a -> coins_ok b -> Coins_Sub a b = Ok c ->
  coins_ok c /\ (forall d, amt b d <= amt a d) /\ forall d, amt c d = amt a d - amt b d.
Proof using All.
  intros Ha Hb E. destruct (Coins_Sub_cases a b Ha Hb) as [(c' & E' & ?)|[E' _]]; [|congruence].
  rewrite E in E'. by injection E' as <-.
Qed.

(** In sorted coins every coin is the whole amount of its denom. *)
Lemma amt_elem cs c : coins_sorted cs -> c ∈ cs -> amt cs (Denom c) = Amount c.
Proof using Type.
  intros Hs. induction Hs as [|x cs Hs IH Hx]; intros Hc; [by apply not_elem_of_nil in Hc|].
  unfold amt. rewrite zsum_cons. apply elem_of_cons in Hc as [->|Hc].
  - rewrite decide_True by done. fold (amt cs (Denom x)).
    unfold amt. rewrite (amount_lt Denom Amount); [lia|done].
  - rewrite decide_False; [by apply IH|]. intros Heq.
    rewrite Forall_forall in Hx. destruct (Hx c Hc) as [_ Hne]. done.
Qed.

(** A function of the amounts that keeps zero, summed up over sorted coins. *)
Lemma zsum_sorted cs (g : string -> Z -> Z) d : coins_sorted cs -> g d 0 = 0 ->
  zsum (fun c => ind (Denom c = d) (g (Denom c) (Amount c))) cs = g d (amt cs d).
Proof using Type.
  intros Hs Hg0. induction Hs as [|x cs Hs IH Hx]; [done|].
  rewrite zsum_cons. unfold amt. rewrite zsum_cons. fold (amt cs d). unfold ind at 1.
  destruct (decide (Denom x = d)) as [<-|]; [|rewrite IH; f_equal; lia].
  assert (amt cs (Denom x) = 0) as Hz by (by apply (amount_lt Denom Amount)).
  rewrite IH, Hz, Hg0, Z.add_0_r. f_equal. lia.
Qed.

(** What such a loop returned: the sums of the amounts added. *)
Lemma coin_loop_inv h (g : Coin -> Z) acc cs r :
  (forall c x, c ∈ cs -> h c = Ok x -> default 0 x = g c) ->
  coins_ok acc -> coin_loop h acc cs = Ok r ->
  coins_ok r /\ (forall d, amt r d = amt acc d + zsum (fun c => ind (Denom c = d) (g c)) cs) /\
  forall c, c ∈ cs -> g c <> 0 -> 0 < g c.
Proof using All.
  revert acc. induction cs as [|c cs IH]; intros acc Hg Hacc Hr; simpl in Hr.
  - injection Hr as <-. split_and!; [done|intros d; rewrite zsum_nil; lia|].
    intros c Hc. by apply not_elem_of_nil in Hc.
  - apply rbind_Ok in Hr as (acc' & Hs & Hr). apply rbind_Ok in Hs as (x & Hx & Hs).
    assert (default 0 x = g c) as Hgc by (apply Hg; [left|done]).
    assert (coins_ok acc' /\ (forall d, amt acc' d = amt acc d + ind (Denom c = d) (g c)) /\
      0 <= g c) as (Hacc' & Hamt & Hnn).
    { destruct x as [v|]; simpl in Hgc.
      - apply rbind_Ok in Hs as (coin & Hcoin & Hs).
        apply NewCoin_weak in Hcoin as (-> & Hv & Hw).
        apply Coins_Add_inv in Hs as [? Ha]; [|by apply coins_ok_weak|done].
        split_and!; [done| |lia]. intros d. rewrite Ha, amt_one. simpl. by rewrite Hgc.
      - injection Hs as <-. split_and!; [done| |lia]. intros d. rewrite <- Hgc.
        unfold ind. destruct (decide _); lia. }
    destruct (IH acc') as (Hr' & Ha & Hp); [intros; apply Hg; [by right|done]|done|done|].
    split_and!; [done| |].
    + intros d. rewrite Ha, Hamt, zsum_cons. lia.
    + intros c' [->|Hc']%elem_of_cons ?; [lia|by apply Hp].
Qed.

(** It returns when all sums fit. *)
Lemma coin_loop_Ok h (g : Coin -> Z) acc cs :
  (forall c, c ∈ cs -> ValidateDenom (Denom c) = true /\ 0 <= g c /\
     exists x, h c = Ok x /\ default 0 x = g c) ->
  coins_ok acc ->
  (forall d, amt acc d + zsum (fun c => ind (Denom c = d) (g c)) cs < 2 ^ 255) ->
  exists r, coin_loop h acc cs = Ok r /\ coins_ok r /\
    forall d, amt r d = amt acc d + zsum (fun c => ind (Denom c = d) (g c)) cs.
Proof using All.
  revert acc. induction cs as [|c cs IH]; intros acc Hg Hacc Hfit.
  { exists acc. split_and!; [done|done|intros d; rewrite zsum_nil; lia]. }
  destruct (Hg c ltac:(left)) as (Hv & Hnn & x & Hx & Hgx).
  assert (forall d, 0 <= zsum (fun c => ind (Denom c = d) (g c)) cs) as Hz.
  { intros d. apply zsum_nonneg, Forall_forall. intros c' Hc'.
    destruct (Hg c' ltac:(by right)) as (_ & ? & _). unfold ind. destruct (decide _); lia. }
  assert (exists acc', (match x with
    | None => Ok acc
    | Some v => let! coin := NewCoin (Denom c) v in Coins_Add acc [coin] end) = Ok acc' /\
    coins_ok acc' /\ forall d, amt acc' d = amt acc d + ind (Denom c = d) (g c))
    as (acc' & Hs & Hacc' & Ha).
  { destruct x as [v|]; simpl in Hgx.
    - rewrite NewCoin_spec, Hv, Hgx. destruct (Z.leb_spec 0 (g c)); [|lia]. simpl.
      destruct (Coins_Add_weak_Ok acc [mkCoin (Denom c) (g c)]) as (acc' & ? & ? & Ha).
      + by apply coins_ok_weak.
      + split; by repeat constructor.
      + intros d. rewrite amt_one. simpl. apply int_fits_small. specialize (Hfit d).
        rewrite zsum_cons in Hfit. specialize (Hz d). pose proof (amt_nonneg acc d Hacc).
        unfold ind in *. destruct (decide _); lia.
      + exists acc'. split_and!; [done|done|]. intros d. by rewrite Ha, amt_one.
    - exists acc. split_and!; [done|done|]. intros d. rewrite <- Hgx. unfold ind.
      destruct (decide _); lia. }
  destruct (IH acc') as (r & Hr & ? & Hamt).
  - intros c' Hc'. apply Hg. by right.
  - done.
  - intros d. specialize (Hfit d). rewrite zsum_cons in Hfit. rewrite Ha. lia.
  - exists r. split_and!; [|done|].
    + unfold coin_loop in *. cbn [rfold]. rewrite Hx.
      etrans; [exact (f_equal (fun z => rbind z _) Hs)|exact Hr].
    + intros d. rewrite Hamt, Ha, zsum_cons. lia.
Qed.
End Facts.

(** ** The reference instances *)

Module RefFees.
Import Ref.

Fixpoint insert_dec (c : DecCoin) (cs : DecCoins) : DecCoins :=
  match cs with
  | [] => [c]
  | c' :: cs' => if decide (str_le (DDenom c) (DDenom c')) then c :: cs else c' :: insert_dec c cs'
  end.

#[export] Instance ref_fees : SdkFees := {|
  Coins_IsAllGTE a b := forallb (fun c => Amount c <=? amt a (Denom c)) b;
  Coins_IsAnyGTE a b :=
    existsb (fun c => (amt b (Denom c) <=? Amount c) && negb (amt b (Denom c) =? 0)) a;
  Dec_Ceil a := - (- a / P18) * P18;
  Int_QuoRaw a i := if i =? 0 then Panic else Ok (Z.quot a i);
  DecCoins_AmountOf a d := damt a d;
  DecCoins_IsZero a := forallb (fun c => DAmount c =? 0) a;
  DecCoins_Sort a := foldr insert_dec [] a |}.

Lemma amt_weak_valid cs d : coins_weak cs -> amt cs d <> 0 -> valid_denom d = true.
Proof.
  intros [_ Hok] Hd. destruct (amt_of_pos_dom Denom Amount cs d Hd) as (c & Hc & <-).
  rewrite Forall_forall in Hok. by apply (Hok c).
Qed.

Lemma insert_dec_perm c cs : insert_dec c cs ≡ₚ c :: cs.
Proof.
  induction cs as [|c' cs IH]; [done|]. simpl. destruct (decide _); [done|].
  rewrite IH. apply Permutation_swap.
Qed.

Lemma insert_dec_sorted c cs :
  StronglySorted (fun x y => str_le (DDenom x) (DDenom y)) cs ->
  StronglySorted (fun x y => str_le (DDenom x) (DDenom y)) (insert_dec c cs).
Proof.
  induction 1 as [|c' cs Hs IH Hc]; simpl; [repeat constructor|].
  destruct (decide _) as [Hle|Hnle].
  - constructor; [by constructor|]. constructor; [done|].
    eapply Forall_impl; [exact Hc|]. intros. by etrans.
  - constructor; [done|]. rewrite insert_dec_perm. constructor; [|done].
    by destruct (str_le_total (DDenom c) (DDenom c')).
Qed.

Lemma IsAllGTE_ref a b : coins_ok a -> coins_ok b ->
  Coins_IsAllGTE a b = true <-> forall d, amt b d <= amt a d.
Proof.
  intros Ha [Sb Pb]. cbn. rewrite forallb_forall. split.
  - intros Hc d. destruct (decide (d ∈ Denom <$> b)) as [(c & -> & Hin)%list_elem_of_fmap|Hd].
    + rewrite (amt_elem b) by done. apply Z.leb_le, Hc. by apply list_elem_of_In.
    + rewrite (amt_dens b d) by done. by apply amt_nonneg.
  - intros Hd c Hc. apply Z.leb_le. rewrite <- (amt_elem b c); [apply Hd|done|].
    by apply list_elem_of_In.
Qed.

Lemma IsAnyGTE_ref a b : coins_ok a -> coins_weak b ->
  Coins_IsAnyGTE a b = true <-> exists d, 0 < amt b d <= amt a d.
Proof.
  intros [Sa Pa] Hb. cbn. rewrite existsb_exists. split.
  - intros (c & Hc%list_elem_of_In & [Hle%Z.leb_le Hne%negb_true_iff]%andb_true_iff).
    apply Z.eqb_neq in Hne. exists (Denom c). pose proof (amt_weak_nonneg b (Denom c) Hb).
    rewrite (amt_elem a c Sa Hc). lia.
  - intros (d & Hpos & Hle).
    destruct (decide (d ∈ Denom <$> a)) as [(c & -> & Hin)%list_elem_of_fmap|Hd].
    + exists c. split; [by apply list_elem_of_In|]. rewrite (amt_elem a c Sa Hin) in Hle.
      apply andb_true_iff. split; [lia|]. apply negb_true_iff. lia.
    + rewrite (amt_dens a d) in Hle by done. lia.
Qed.

#[export] Instance ref_fees_laws : SdkFeesLaws.
Proof.
  split; try done.
  - intros a b Ha Hb Hfit. exists (unmap (plus_maps (cmap a) (cmap b))). split.
    + simpl. erewrite all_b_true; [done|apply plus_cmap|done].
    + apply unmap_ok; [apply plus_cmap|]. intros d Hd.
      pose proof (amt_weak_valid a d Ha). pose proof (amt_weak_valid b d Hb).
      pose proof (amt_weak_nonneg a d Ha). pose proof (amt_weak_nonneg b d Hb).
      destruct (decide (amt a d = 0)); [destruct (decide (amt b d = 0)); [lia|]|];
        (split; [tauto|lia]).
  - intros a b d Ha Hb Hfit. simpl. erewrite (all_b_false _ _ _ d); [done|apply plus_cmap|done|done].
  - apply IsAllGTE_ref.
  - apply IsAnyGTE_ref.
  - intros a. simpl. induction a as [|c a IH]; [done|]. simpl. rewrite insert_dec_perm. by f_equiv.
  - intros a. simpl. induction a as [|c a IH]; [constructor|]. by apply insert_dec_sorted.
Qed.

(** A community tax of two percent. *)
#[export] Instance ref_distr_params : DistrParams RefDistr := fun _ => NewDecWithPrec 2 2.

End RefFees.
