(* ===== verification/Core.v ===== *)
(** * Shared constants and block arithmetic: [types/assets], [types/util]  *)

From S2P Require Import Prelude Sdk.

Definition MicroLunaDenom : string := "uluna".
Definition MicroUSDDenom : string := "uusd".
Definition MicroKRWDenom : string := "ukrw".
Definition MicroSDRDenom : string := "usdr".
Definition MicroMNTDenom : string := "umnt".
Definition MicroUnit : Z := 1000000.

Definition BlocksPerMinute : Z := 10.
Definition BlocksPerHour : Z := BlocksPerMinute * 60.
Definition BlocksPerDay : Z := BlocksPerHour * 24.
Definition BlocksPerWeek : Z := BlocksPerDay * 7.
Definition BlocksPerMonth : Z := BlocksPerDay * 30.
Definition BlocksPerYear : Z := BlocksPerDay * 365.

(** [(uint64(ctx.BlockHeight())+1) % blocksPerPeriod == 0]; a zero period is a
    division by zero. *)
Definition IsPeriodLastBlock (ctx : Ctx) (blocksPerPeriod : Z) : res bool :=
  if blocksPerPeriod =? 0 then Panic
  else Ok (uint64 (uint64 (BlockHeight ctx) + 1) mod blocksPerPeriod =? 0).

(** At ordinary heights a block ends a period exactly when the next height is a
    multiple of the period. *)
Lemma IsPeriodLastBlock_spec ctx p :
  0 <= BlockHeight ctx < 2^63 -> 0 < p ->
  exists b, IsPeriodLastBlock ctx p = Ok b /\ (b = true <-> (p | BlockHeight ctx + 1)).
Proof.
  intros Hh Hp. unfold IsPeriodLastBlock.
  destruct (Z.eqb_spec p 0); [lia|]. rewrite (uint64_id (BlockHeight ctx)), uint64_id by lia.
  eexists. split; [done|]. by rewrite Z.eqb_eq, Z.mod_divide by lia.
Qed.
