(* ===== verification/Pagination.v ===== *)
(** * Paginated queries

    The list queries of the modules page through a prefix store with
    [query.FilteredPaginate] of the SDK.  Here are that operation, the part of its
    behaviour that the queries rely on, and a concrete instance. *)

From S2P Require Import Prelude.

Module Pagination.

Record PageRequest := mkPage {
  PKey : string; POffset : nat; PLimit : nat; CountTotal : bool; PReverse : bool }.
Record PageResponse := mkPageRes { NextKey : string; Total : Z }.

(** [query.FilteredPaginate] over the entries of a prefix store.  The callback
    gets key, value and whether the entry belongs to the page, and tells whether it
    is a result at all; [A] is what it changes. *)
Class Paginator := FilteredPaginate : forall {V A : Type}, list (string * V) -> PageRequest ->
  (string -> V -> bool -> A -> res (bool * A)) -> A -> res (PageResponse * A).

(** Results are numbered in the order of the store, and those from the offset up
    to the limit belong to the page.  The walk ends with the store, or, unless the
    total is asked for, with the first result after the page, whose key is the
    next one. *)
Fixpoint paged {V A} (f : string -> V -> bool -> A -> res (bool * A)) (offset limit : nat) (total : bool)
    (hits : nat) (l : list (string * V)) (acc : A) : res A :=
  match l with
  | [] => Ok acc
  | (k, v) :: l' =>
      let! r := f k v ((offset <=? hits) && (hits <? offset + limit))%nat acc in
      let hits' := if r.1 then S hits else hits in
      if (hits' =? S (offset + limit))%nat && negb total then Ok r.2
      else paged f offset limit total hits' l' r.2
  end.

(** A request with a limit and no key; offset and limit are [uint64] values. *)
Class PaginatorLaws `{Paginator} : Prop :=
  FilteredPaginate_offset V A (l : list (string * V)) offset limit total
    (f : string -> V -> bool -> A -> res (bool * A)) acc r :
    (0 < limit)%nat -> Z.of_nat (offset + limit) < 2 ^ 63 -> paged f offset limit total 0 l acc = Ok r ->
    exists res, FilteredPaginate l (mkPage "" offset limit total false) f acc = Ok (res, r).

(** A callback that keeps the projection of the entries that pass a test and
    belong to the page. *)
Section Collect.
Context {V B : Type} (p : string -> V -> bool) (g : string -> V -> B).

Definition collect (k : string) (v : V) (accumulate : bool) (out : list B) : res (bool * list B) :=
  if p k v then Ok (true, if accumulate then out ++ [g k v] else out) else Ok (false, out).

Lemma past_page offset limit total l : forall hits acc, (offset + limit <= hits)%nat ->
  paged collect offset limit total hits l acc = Ok acc.
Proof.
  induction l as [|[k v] l IH]; intros hits acc Hh; [done|]. cbn [paged]. unfold collect at 1.
  rewrite (proj2 (Nat.ltb_ge _ _) Hh), andb_false_r.
  destruct (p k v); cbn [rbind fst snd]; case_match; try done; apply IH; lia.
Qed.

Lemma paged_collect offset limit total l : forall hits acc,
  paged collect offset limit total hits l acc =
  Ok (acc ++ take (offset + limit - Nat.max offset hits)
               (drop (offset - hits) (uncurry g <$> filter (fun e => p e.1 e.2 = true) l))).
Proof.
  induction l as [|[k v] l IH]; intros hits acc.
  { cbn. by rewrite drop_nil, take_nil, app_nil_r. }
  assert (Hstop : forall n (c : bool) out, ((n =? S (offset + limit))%nat && c = true) ->
    Ok out = paged collect offset limit total n l out).
  { intros n c out [Hn%Nat.eqb_eq _]%andb_true_iff. by rewrite past_page by lia. }
  cbn [paged]. rewrite filter_cons. cbn [fst snd]. unfold collect at 1.
  destruct (p k v) eqn:Ep; cbn [rbind fst snd].
  2: { rewrite decide_False by done. rewrite <- IH. case_match; [by eapply Hstop|done]. }
  match goal with |- (if ?b then Ok ?o else ?r) = _ => transitivity r; [case_match; [by eapply Hstop|done]|] end.
  rewrite decide_True by done. rewrite IH, fmap_cons. cbn [uncurry].
  destruct (Nat.leb_spec offset hits) as [Ho|Ho]; [destruct (Nat.ltb_spec hits (offset + limit)) as [Hl|Hl]|];
    cbn [andb].
  - replace (offset - hits)%nat with 0%nat by lia. replace (offset - S hits)%nat with 0%nat by lia.
    replace (offset + limit - Nat.max offset hits)%nat with (S (offset + limit - Nat.max offset (S hits))) by lia.
    cbn [take firstn]. by rewrite <- app_assoc.
  - replace (offset + limit - Nat.max offset (S hits))%nat with 0%nat by lia.
    replace (offset + limit - Nat.max offset hits)%nat with 0%nat by lia. done.
  - replace (offset - hits)%nat with (S (offset - S hits)) by lia. cbn.
    by replace (Nat.max offset (S hits)) with (Nat.max offset hits) by lia.
Qed.

(** A page of such a query. *)
Lemma collected_page `{!Paginator, !PaginatorLaws} l offset limit total : (0 < limit)%nat ->
  Z.of_nat (offset + limit) < 2 ^ 63 ->
  exists res, FilteredPaginate l (mkPage "" offset limit total false) collect [] =
    Ok (res, take limit (drop offset (uncurry g <$> filter (fun e => p e.1 e.2 = true) l))).
Proof.
  intros Hl Hb. eapply (FilteredPaginate_offset V (list B)); [done..|]. rewrite paged_collect. cbn.
  rewrite Nat.sub_0_r, Nat.max_l by lia. by replace (offset + limit - offset)%nat with limit by lia.
Qed.
End Collect.

(** A test that every entry passes. *)
Lemma filter_every {A} (l : list A) : filter (fun _ => true = true) l = l.
Proof. induction l as [|x l IH]; [done|]. rewrite filter_cons_True by done. by rewrite IH. Qed.

(** ** A concrete paginator *)

Module RefPaginator.
#[export] Instance ref_paginator : Paginator := fun V A l page f acc =>
  let! r := paged f (POffset page) (PLimit page) (CountTotal page) 0 l acc in Ok (mkPageRes "" 0, r).
#[export] Instance ref_paginator_laws : PaginatorLaws.
Proof.
  intros V A l offset limit total f acc r Hl _ Hr. unfold FilteredPaginate, ref_paginator. cbn.
  rewrite Hr. by eexists.
Qed.
End RefPaginator.
End Pagination.
