(* ===== verification/OracleBallot.v ===== *)
(** * The oracle ballot: [x/oracle/types/ballot.go]

    Votes, ballots and claims with the operations the tally uses: power,
    weighted median, standard deviation and cross rates. *)

From Corelib Require Import Floats.SpecFloat.
From S2P Require Import Prelude Sdk Core.

Module Ballot.

(** ** Data *)

Record VoteForTally := NewVoteForTally {
  ExchangeRate : Dec;
  VDenom : string;
  Voter : string;
  Power : Z }.

Abbreviation ExchangeRateBallot := (list VoteForTally).

Record Claim := NewClaim {
  CPower : Z;
  Weight : Z;
  WinCount : Z;
  Recipient : string }.

#[export] Instance vote_eq_dec : EqDecision VoteForTally.
Proof. solve_decision. Defined.
#[export] Instance claim_eq_dec : EqDecision Claim.
Proof. solve_decision. Defined.

(** ** float64, as far as [StandardDeviation] uses it *)

(** [strconv.ParseFloat(d.String(), 64)]: the binary64 number nearest to the
    decimal; both arguments of the division are exact, so it rounds once. *)
Definition float_of_dec (d : Dec) : spec_float :=
  match d with
  | Z0 => S754_zero false
  | Zpos p => SFdiv 53 1024 (S754_finite false p 0) (S754_finite false (10 ^ 18) 0)
  | Zneg p => SFdiv 53 1024 (S754_finite true p 0) (S754_finite false (10 ^ 18) 0)
  end.

(** [n / d] to the nearest integer, ties to even, for [0 <= n] and [0 < d]. *)
Definition div_half_even (n d : Z) : Z :=
  let q := n / d in
  let r := 2 * (n mod d) in
  if r <? d then q else if d <? r then q + 1 else if Z.even q then q else q + 1.

(** [fmt.Sprintf("%f", x)] read back by [sdk.NewDecFromStr]: six decimals,
    ties to even on the exact binary value.  [None] when the text is not a
    number ([NaN], [+Inf]). *)
Definition dec_of_float6 (f : spec_float) : option Dec :=
  match f with
  | S754_zero _ => Some 0
  | S754_finite s m e =>
      let micro :=
        if 0 <=? e then Zpos m * 2 ^ e * 10 ^ 6
        else div_half_even (Zpos m * 10 ^ 6) (2 ^ (- e)) in
      Some ((if s then -1 else 1) * micro * 10 ^ 12)
  | S754_infinity _ | S754_nan => None
  end.

(** ** Operations *)

Section Operations.
Context `{SdkMath}.

(** [ToMap]: the positive rates by voter. *)
Definition ToMap (pb : ExchangeRateBallot) : gmap string Dec :=
  foldl (fun m v => if 0 <? ExchangeRate v then <[Voter v := ExchangeRate v]> m else m)
    ∅ pb.

(** The body of the [ToCrossRate] loop: votes without a reference rate, and
    abstentions, become abstentions without power. *)
Definition cross_vote (bases : gmap string Dec) (vote : VoteForTally) : res VoteForTally :=
  match bases !! Voter vote with
  | Some exchangeRateRT =>
      if 0 <? ExchangeRate vote then
        let! r := Dec_Quo exchangeRateRT (ExchangeRate vote) in
        Ok (NewVoteForTally r (VDenom vote) (Voter vote) (Power vote))
      else Ok (NewVoteForTally ZeroDec (VDenom vote) (Voter vote) 0)
  | None => Ok (NewVoteForTally ZeroDec (VDenom vote) (Voter vote) 0)
  end.

Definition ToCrossRate (pb : ExchangeRateBallot) (bases : gmap string Dec)
    : res ExchangeRateBallot :=
  rfold (fun cb v => let! v' := cross_vote bases v in Ok (cb ++ [v'])) [] pb.

(** [Less] of the [sort.Interface]. *)
Definition Less (x y : VoteForTally) : bool := ExchangeRate x <? ExchangeRate y.

Definition ToCrossRateWithSort `{GoRuntime} (pb : ExchangeRateBallot)
    (bases : gmap string Dec) : res ExchangeRateBallot :=
  let! cb := ToCrossRate pb bases in Ok (sort_Sort Less cb).

(** [Power]: int64 additions. *)
Definition TotalPower (pb : ExchangeRateBallot) : Z :=
  foldl (fun t v => int64 (t + Power v)) 0 pb.

Fixpoint median_loop (totalPower pivot : Z) (pb : ExchangeRateBallot) : Dec :=
  match pb with
  | [] => ZeroDec
  | v :: pb' =>
      let pivot' := int64 (pivot + Power v) in
      if Z.quot totalPower 2 <=? pivot' then ExchangeRate v
      else median_loop totalPower pivot' pb'
  end.

Definition WeightedMedian (pb : ExchangeRateBallot) : Dec :=
  median_loop (TotalPower pb) 0 pb.

(** The sum of squares of [StandardDeviation]. *)
Definition sum_squares (median : Dec) (pb : ExchangeRateBallot) : res Dec :=
  rfold (fun sum v =>
    let! deviation := Dec_Sub (ExchangeRate v) median in
    let! sq := Dec_Mul deviation deviation in
    Dec_Add sum sq) ZeroDec pb.

Definition deviation_body (pb : ExchangeRateBallot) (median : Dec) : res (option Dec) :=
  let! sum := sum_squares median pb in
  let! variance := Dec_QuoInt64 sum (Z.of_nat (length pb)) in
  Ok (dec_of_float6 (SFsqrt 53 1024 (float_of_dec variance))).

(** [StandardDeviation]: a panic of the arithmetic is recovered to zero.
    [None] is the nil decimal that a failed [NewDecFromStr] leaves. *)
Definition StandardDeviation (pb : ExchangeRateBallot) (median : Dec) : option Dec :=
  match pb with
  | [] => Some ZeroDec
  | _ => match deviation_body pb median with Ok d => d | _ => Some ZeroDec end
  end.
End Operations.

(** ** Power and weighted median *)

Abbreviation power_of := (zsum Power).

(** Ballots as the tally sees them: non-negative powers whose total is an
    int64, rates in ascending order. *)
Definition powers_ok (pb : ExchangeRateBallot) : Prop :=
  Forall (fun v => 0 <= Power v) pb /\ power_of pb < 2^63.
Definition rate_sorted (pb : ExchangeRateBallot) : Prop :=
  StronglySorted (fun x y => ExchangeRate x <= ExchangeRate y) pb.

#[export] Instance powers_ok_perm : Proper ((≡ₚ) ==> iff) powers_ok.
Proof. intros l1 l2 E. unfold powers_ok. by rewrite E. Qed.

Lemma TotalPower_sum pb : TotalPower pb = int64 (power_of pb).
Proof. exact (foldl_int64 Power pb 0). Qed.

Lemma TotalPower_ok pb : powers_ok pb -> TotalPower pb = power_of pb.
Proof.
  intros [Hp Hs]. rewrite TotalPower_sum. apply int64_id.
  pose proof (zsum_nonneg _ _ Hp). lia.
Qed.

#[export] Instance TotalPower_perm : Proper ((≡ₚ) ==> (=)) TotalPower.
Proof. intros l1 l2 E. by rewrite !TotalPower_sum, E. Qed.

(** Power behind rates of at most [r], and behind rates below [r]. *)
Definition power_le (r : Dec) (pb : ExchangeRateBallot) : Z :=
  zsum (fun v => if ExchangeRate v <=? r then Power v else 0) pb.
Definition power_lt (r : Dec) (pb : ExchangeRateBallot) : Z :=
  zsum (fun v => if ExchangeRate v <? r then Power v else 0) pb.

Lemma power_le_app r l1 l2 : power_le r (l1 ++ l2) = power_le r l1 + power_le r l2.
Proof. apply zsum_app. Qed.
Lemma power_lt_app r l1 l2 : power_lt r (l1 ++ l2) = power_lt r l1 + power_lt r l2.
Proof. apply zsum_app. Qed.

(** The abstract median: the least rate of the ballot at which half of the
    power is reached.  It only depends on the ballot as a multiset. *)
Definition is_median (pb : ExchangeRateBallot) (m : Dec) : Prop :=
  m ∈ ExchangeRate <$> pb /\ power_of pb / 2 <= power_le m pb /\
  forall r, r ∈ ExchangeRate <$> pb -> r < m -> power_le r pb < power_of pb / 2.

Lemma is_median_unique pb m1 m2 : is_median pb m1 -> is_median pb m2 -> m1 = m2.
Proof.
  intros (I1 & G1 & L1) (I2 & G2 & L2).
  destruct (Z.lt_trichotomy m1 m2) as [Hlt|[->|Hlt]]; [|done|].
  - specialize (L2 _ I1 Hlt). lia.
  - specialize (L1 _ I2 Hlt). lia.
Qed.

#[export] Instance is_median_perm : Proper ((≡ₚ) ==> (=) ==> iff) is_median.
Proof.
  intros l1 l2 E m ? <-. unfold is_median, power_le. setoid_rewrite E. done.
Qed.

Lemma median_loop_split T pre suf :
  powers_ok (pre ++ suf) -> T = power_of (pre ++ suf) -> suf <> [] ->
  pre = [] \/ power_of pre < T / 2 ->
  exists pre' v suf', pre ++ suf = pre' ++ v :: suf' /\
    median_loop T (power_of pre) suf = ExchangeRate v /\
    T / 2 <= power_of pre' + Power v /\ (pre' = [] \/ power_of pre' < T / 2).
Proof.
  revert pre. induction suf as [|v suf IH]; intros pre Hok HT Hne Hpre; [done|].
  assert (power_of (pre ++ [v]) = power_of pre + Power v) as Hpv
    by (rewrite zsum_app; unfold zsum; simpl; lia).
  destruct Hok as [Hnn Hlt]. apply Forall_app in Hnn as [Hn1 Hn2].
  pose proof (zsum_nonneg _ _ Hn1) as P1. pose proof (zsum_nonneg _ _ Hn2) as P2.
  inversion Hn2 as [|? ? Hv Hn3]; subst. pose proof (zsum_nonneg _ _ Hn3) as P3.
  assert (power_of (pre ++ v :: suf) = power_of pre + Power v + power_of suf) as HT'
    by (rewrite zsum_app; unfold zsum; simpl; lia).
  simpl. rewrite int64_id by lia. rewrite Z.quot_div_nonneg by lia.
  destruct (Z.leb_spec (power_of (pre ++ v :: suf) / 2) (power_of pre + Power v)) as [Hle|Hgt].
  - by exists pre, v, suf.
  - assert (suf <> []) as Hsuf.
    { intros ->. rewrite HT' in Hgt. change (power_of []) with 0 in *. zlia. }
    rewrite <- Hpv. rewrite (cons_middle v pre suf), (assoc_L (++)) in *.
    apply IH; [|done|done|right; lia].
    split; [|done]. rewrite !Forall_app. by split_and!; [|constructor|].
Qed.

(** Where the loop stops, with what the order of the ballot says about it. *)
Lemma median_decomp pb :
  powers_ok pb -> rate_sorted pb -> pb <> [] ->
  exists pre v suf, pb = pre ++ v :: suf /\ WeightedMedian pb = ExchangeRate v /\
    power_of pb / 2 <= power_of pre + Power v /\
    (pre = [] \/ power_of pre < power_of pb / 2) /\
    (forall x, x ∈ pre -> ExchangeRate x <= ExchangeRate v) /\
    (forall x, x ∈ v :: suf -> ExchangeRate v <= ExchangeRate x).
Proof.
  intros Hok Hs Hne. unfold WeightedMedian. rewrite TotalPower_ok by done.
  destruct (median_loop_split (power_of pb) [] pb Hok eq_refl Hne (or_introl eq_refl))
    as (pre & v & suf & E & Hm & Hhalf & Hpre). simpl in E.
  exists pre, v, suf. split_and!; try done; subst pb.
  - intros x Hx. eapply (StronglySorted_app_1_elem_of _ _ _ _ _ Hs); [done|left].
  - apply StronglySorted_app_1_r in Hs. inversion Hs as [|? ? _ Hs']; subst.
    rewrite Forall_elem in Hs'. intros x [->|Hx]%elem_of_cons; [lia|by apply Hs'].
Qed.

(** The code computes the abstract median. *)
Lemma WeightedMedian_is_median pb :
  powers_ok pb -> rate_sorted pb -> pb <> [] -> is_median pb (WeightedMedian pb).
Proof.
  intros Hok Hs Hne.
  destruct (median_decomp pb Hok Hs Hne) as (pre & v & suf & -> & -> & Hhalf & Hpre & Hle & Hge).
  destruct Hok as [Hnn _]. apply Forall_app in Hnn as [Hn1 [Hv Hn2]%Forall_cons].
  split_and!.
  - rewrite fmap_app. apply elem_of_app. right. left.
  - rewrite power_le_app. unfold power_le.
    rewrite (zsum_ext (fun w => if ExchangeRate w <=? ExchangeRate v then Power w else 0) Power pre).
    2:{ intros x Hx. by rewrite (proj2 (Z.leb_le _ _) (Hle x Hx)). }
    rewrite zsum_cons, Z.leb_refl.
    pose proof (zsum_if_nonneg (fun w => ExchangeRate w <=? ExchangeRate v) Power suf Hn2) as Hif. cbn beta in Hif. lia.
  - intros r Hr Hlt. rewrite power_le_app. unfold power_le.
    rewrite (zsum_ext _ (fun _ => 0) (v :: suf)), zsum_0.
    2:{ intros x Hx. specialize (Hge x Hx). by destruct (Z.leb_spec (ExchangeRate x) r); [lia|]. }
    pose proof (zsum_if_le (fun w => ExchangeRate w <=? r) Power pre Hn1) as Hif. cbn beta in Hif.
    destruct Hpre as [->|Hpre]; [|lia].
    apply list_elem_of_fmap in Hr as (x & -> & Hx). specialize (Hge x Hx). lia.
Qed.

(** Two orders of the same votes, both sorted by rate, have one median. *)
Lemma WeightedMedian_perm l1 l2 :
  powers_ok l1 -> rate_sorted l1 -> rate_sorted l2 -> l1 ≡ₚ l2 ->
  WeightedMedian l1 = WeightedMedian l2.
Proof.
  intros Hok Hs1 Hs2 E. destruct l1 as [|v l1].
  { by apply Permutation_nil_l in E as ->. }
  assert (l2 <> []) as Hne. { intros ->. by apply Permutation_nil_r in E. }
  apply (is_median_unique (v :: l1)).
  - by apply WeightedMedian_is_median.
  - rewrite E. apply WeightedMedian_is_median; [by rewrite <- E|done|done].
Qed.

(** At most half of the power voted below the median and at most half
    (rounded up) voted above it. *)
Lemma WeightedMedian_half pb :
  powers_ok pb -> rate_sorted pb -> pb <> [] ->
  power_lt (WeightedMedian pb) pb <= power_of pb / 2 /\
  power_of pb - power_le (WeightedMedian pb) pb <= (power_of pb + 1) / 2.
Proof.
  intros Hok Hs Hne. split.
  - destruct (median_decomp pb Hok Hs Hne)
      as (pre & v & suf & E & -> & Hhalf & Hpre & Hle & Hge).
    destruct Hok as [Hnn _]. pose proof (zsum_nonneg _ _ Hnn) as Hpos. subst pb.
    apply Forall_app in Hnn as [Hn1 _]. rewrite power_lt_app. unfold power_lt.
    rewrite (zsum_ext _ (fun _ => 0) (v :: suf)), zsum_0.
    2:{ intros x Hx. specialize (Hge x Hx). by destruct (Z.ltb_spec (ExchangeRate x) (ExchangeRate v)); [lia|]. }
    pose proof (zsum_if_le (fun w => ExchangeRate w <? ExchangeRate v) Power pre Hn1) as Hif. cbn beta in Hif.
    destruct Hpre as [->|Hpre]; [|lia]. rewrite zsum_nil. zlia.
  - destruct (WeightedMedian_is_median pb Hok Hs Hne) as (_ & Hge & _). zlia.
Qed.

(** Once two units of power were cast, the median is the rate of a vote that
    carries power. *)
Lemma WeightedMedian_powered pb :
  powers_ok pb -> rate_sorted pb -> 2 <= power_of pb ->
  exists v, v ∈ pb /\ 0 < Power v /\ WeightedMedian pb = ExchangeRate v.
Proof.
  intros Hok Hs H2. assert (pb <> []) as Hne by (by intros ->).
  destruct (median_decomp pb Hok Hs Hne) as (pre & v & suf & E & Hm & Hhalf & Hpre & _ & _).
  exists v. split_and!; [|destruct Hpre as [->|]; rewrite ?zsum_nil in *; zlia|done].
  rewrite E. apply elem_of_app. right. left.
Qed.

(** ** What does not depend on how ties are sorted *)

(** Two sorted orders of the same votes list the same rates. *)
Lemma sorted_rates l1 l2 :
  rate_sorted l1 -> rate_sorted l2 -> l1 ≡ₚ l2 ->
  ExchangeRate <$> l1 = ExchangeRate <$> l2.
Proof.
  intros Hs1 Hs2 E. apply (StronglySorted_unique Z.le).
  1,2: by apply StronglySorted_fmap.
  by rewrite E.
Qed.

Section Ties.
Context `{SdkMath}.

Lemma sum_squares_rates m l1 l2 :
  ExchangeRate <$> l1 = ExchangeRate <$> l2 -> sum_squares m l1 = sum_squares m l2.
Proof.
  unfold sum_squares. set (f := fun sum r => let! deviation := Dec_Sub r m in
    let! sq := Dec_Mul deviation deviation in Dec_Add sum sq).
  intros E. transitivity (rfold f ZeroDec (ExchangeRate <$> l1)).
  - by rewrite rfold_fmap.
  - by rewrite E, rfold_fmap.
Qed.

Lemma StandardDeviation_perm m l1 l2 :
  rate_sorted l1 -> rate_sorted l2 -> l1 ≡ₚ l2 ->
  StandardDeviation l1 m = StandardDeviation l2 m.
Proof.
  intros Hs1 Hs2 E. pose proof (sorted_rates _ _ Hs1 Hs2 E) as Hr.
  unfold StandardDeviation, deviation_body.
  destruct l1, l2; try done.
  by rewrite (sum_squares_rates _ _ _ Hr), (Permutation_length E).
Qed.
End Ties.

(** ** Properties *)

(** C29. [WeightedMedian] of a sorted ballot is the weighted median: the least
    voted rate at which half of the power is reached.  At most half of the power
    voted below it and at most half, rounded up, voted above it. *)
Theorem WeightedMedian_correct pb :
  powers_ok pb -> rate_sorted pb -> pb <> [] ->
  is_median pb (WeightedMedian pb) /\
  power_lt (WeightedMedian pb) pb <= power_of pb / 2 /\
  power_of pb - power_le (WeightedMedian pb) pb <= (power_of pb + 1) / 2.
Proof.
  intros Hok Hs Hne. split; [by apply WeightedMedian_is_median|by apply WeightedMedian_half].
Qed.

Definition sample_ballot : ExchangeRateBallot :=
  [NewVoteForTally (NewDec 1) "ukrw" "a" 10; NewVoteForTally (NewDec 2) "ukrw" "b" 20;
   NewVoteForTally (NewDec 9) "ukrw" "c" 15].

Lemma sample_ballot_ok : powers_ok sample_ballot /\ rate_sorted sample_ballot.
Proof.
  split; [split; [|done]; repeat constructor; simpl; lia|].
  repeat constructor; simpl; unfold NewDec, P18; lia.
Qed.

Lemma WeightedMedian_correct_witness :
  sample_ballot <> [] /\ is_median sample_ballot (WeightedMedian sample_ballot).
Proof.
  split; [done|].
  exact (proj1 (WeightedMedian_correct sample_ballot (proj1 sample_ballot_ok)
    (proj2 sample_ballot_ok) ltac:(done))).
Defined.

(** The power behind rates from [lo] to [hi]. *)
Definition power_within (lo hi : Dec) (pb : ExchangeRateBallot) : Z :=
  zsum (fun v => if (lo <=? ExchangeRate v) && (ExchangeRate v <=? hi) then Power v else 0) pb.

(** Nothing within a range lies on both sides of a rate outside of it. *)
Lemma power_split m lo hi pb : Forall (fun v => 0 <= Power v) pb ->
  (m < lo -> power_within lo hi pb + power_le m pb <= power_of pb) /\
  (hi < m -> power_within lo hi pb <= power_lt m pb).
Proof.
  intros Hp. induction Hp as [|v pb Hv Hp [IH1 IH2]]; [done|].
  unfold power_within, power_le, power_lt in *. rewrite !zsum_cons.
  split; intros Hm; [specialize (IH1 Hm)|specialize (IH2 Hm)];
    destruct (Z.leb_spec lo (ExchangeRate v)), (Z.leb_spec (ExchangeRate v) hi),
      (Z.leb_spec (ExchangeRate v) m), (Z.ltb_spec (ExchangeRate v) m); simpl; lia.
Qed.

(** A majority fixes the exchange rate: when more than half of the voting
    power votes between [lo] and [hi], the median lies between [lo] and [hi],
    whatever the other validators vote. *)
Theorem WeightedMedian_majority pb lo hi :
  powers_ok pb -> rate_sorted pb -> (power_of pb + 1) / 2 < power_within lo hi pb ->
  lo <= WeightedMedian pb <= hi.
Proof.
  intros Hok Hs Hmaj. assert (pb <> []) as Hne by (by intros ->).
  destruct (WeightedMedian_half pb Hok Hs Hne) as [Hlt Hgt]. destruct Hok as [Hp _].
  destruct (power_split (WeightedMedian pb) lo hi pb Hp) as [H1 H2].
  pose proof (zsum_nonneg _ _ Hp). split.
  - destruct (decide (WeightedMedian pb < lo)) as [Hm|]; [|lia]. specialize (H1 Hm). lia.
  - destruct (decide (hi < WeightedMedian pb)) as [Hm|]; [|lia]. specialize (H2 Hm). zlia.
Qed.

Lemma WeightedMedian_majority_witness :
  NewDec 1 <= WeightedMedian sample_ballot <= NewDec 2.
Proof.
  apply (WeightedMedian_majority sample_ballot (NewDec 1) (NewDec 2)
    (proj1 sample_ballot_ok) (proj2 sample_ballot_ok)). reflexivity.
Defined.
End Ballot.
