(* ===== verification/OracleTypes.v ===== *)
(** * Oracle types: [x/oracle/types]

    Store keys, vote hashes and their hex form, the exchange-rate string of a
    vote, parameters with their validation, and the messages. *)

From S2P Require Import Prelude Sdk SdkRef Core OracleBallot.

Module OracleTypes.

Definition ModuleName : string := "oracle".

(** ** Errors ([errors.go]) *)

Definition ErrInvalidExchangeRate := Registered ModuleName 2.
Definition ErrNoVotingPermission := Registered ModuleName 5.
Definition ErrInvalidHash := Registered ModuleName 6.
Definition ErrInvalidHashLength := Registered ModuleName 7.
Definition ErrVerificationFailed := Registered ModuleName 8.
Definition ErrRevealPeriodMissMatch := Registered ModuleName 9.
Definition ErrInvalidSaltLength := Registered ModuleName 10.
Definition ErrNoAggregatePrevote := Registered ModuleName 11.
Definition ErrNoAggregateVote := Registered ModuleName 12.
Definition ErrNoTobinTax := Registered ModuleName 13.
Definition ErrUnknownDenom := Registered ModuleName 14.
Definition ErrNoValidatorFound := SdkError "staking: validator does not exist".
Definition ErrInvalidCoins := SdkError "invalid coins".
Definition ErrInvalidAddress := SdkError "invalid address".
Definition ErrUnknownRequest := SdkError "unknown request".
Definition ErrInvalidRequest := SdkError "invalid request".

(** ** Store keys ([keys.go]) *)

Definition byte_key (n : nat) : string := String (Ascii.ascii_of_nat n) "".

Definition ExchangeRateKey : string := byte_key 1.
Definition FeederDelegationKey : string := byte_key 2.
Definition MissCounterKey : string := byte_key 3.
Definition AggregateExchangeRatePrevoteKey : string := byte_key 4.
Definition AggregateExchangeRateVoteKey : string := byte_key 5.
Definition TobinTaxKey : string := byte_key 6.

Section Keys.
Context `{Bech32}.
Definition GetExchangeRateKey (denom : string) : string := ExchangeRateKey +:+ denom.
Definition GetFeederDelegationKey (v : string) : string :=
  FeederDelegationKey +:+ MustLengthPrefix v.
Definition GetMissCounterKey (v : string) : string := MissCounterKey +:+ MustLengthPrefix v.
Definition GetAggregateExchangeRatePrevoteKey (v : string) : string :=
  AggregateExchangeRatePrevoteKey +:+ MustLengthPrefix v.
Definition GetAggregateExchangeRateVoteKey (v : string) : string :=
  AggregateExchangeRateVoteKey +:+ MustLengthPrefix v.
Definition GetTobinTaxKey (d : string) : string := TobinTaxKey +:+ d.
(** [string(key[1:])] *)
Definition ExtractDenomFromTobinTaxKey (key : string) : string :=
  match key with EmptyString => "" | String _ d => d end.
End Keys.

(** ** Vote hashes ([hash.go]) *)

(** [encoding/hex] of the Go library: two lower-case digits per byte; decoding
    accepts both cases and rejects odd lengths and other characters. *)
Definition hex_digit (n : nat) : Ascii.ascii :=
  Ascii.ascii_of_nat (if (n <? 10)%nat then 48 + n else 87 + n).

Definition hex_value (c : Ascii.ascii) : option nat :=
  let n := Ascii.nat_of_ascii c in
  if ((48 <=? n) && (n <=? 57))%nat then Some (n - 48)%nat
  else if ((97 <=? n) && (n <=? 102))%nat then Some (n - 87)%nat
  else if ((65 <=? n) && (n <=? 70))%nat then Some (n - 55)%nat
  else None.

Fixpoint hex_EncodeToString (s : string) : string :=
  match s with
  | EmptyString => ""
  | String c s' =>
      let n := Ascii.nat_of_ascii c in
      String (hex_digit (n / 16)) (String (hex_digit (n mod 16)) (hex_EncodeToString s'))
  end.

Fixpoint hex_DecodeString (s : string) : res string :=
  match s with
  | EmptyString => Ok ""
  | String c1 (String c2 s') =>
      match hex_value c1, hex_value c2 with
      | Some h, Some l =>
          let! rest := hex_DecodeString s' in
          Ok (String (Ascii.ascii_of_nat (16 * h + l)) rest)
      | _, _ => Err (Errorf "encoding/hex: invalid byte")
      end
  | String _ EmptyString => Err (Errorf "encoding/hex: odd length hex string")
  end.

(** [tmhash.NewTruncated], a truncated SHA-256, and [tmhash.TruncatedSize]. *)
Class TmHash := { tmhash_truncated : string -> string; TruncatedSize : nat }.

Definition GetAggregateVoteHash `{TmHash, Bech32}
    (salt exchangeRatesStr voter : string) : string :=
  tmhash_truncated (salt +:+ ":" +:+ exchangeRatesStr +:+ ":" +:+ ValString voter).

Definition AggregateVoteHashFromHexString (s : string) : res string := hex_DecodeString s.
Definition AggregateVoteHash_String (h : string) : string := hex_EncodeToString h.

(** ** Votes ([vote.go]) *)

Record AggregateExchangeRatePrevote := mkPrevote {
  Hash : string; PVoter : string; SubmitBlock : Z }.
Record ExchangeRateTuple := mkTuple { TDenom : string; TExchangeRate : Dec }.
Abbreviation ExchangeRateTuples := (list ExchangeRateTuple).
Record AggregateExchangeRateVote := mkVote {
  Tuples : ExchangeRateTuples; AVoter : string }.

Definition NewAggregateExchangeRatePrevote `{Bech32} (hash voter : string) (submitBlock : Z) :=
  mkPrevote (AggregateVoteHash_String hash) (ValString voter) submitBlock.
Definition NewAggregateExchangeRateVote `{Bech32} (ts : ExchangeRateTuples) (voter : string) :=
  mkVote ts (ValString voter).

(** [strings.TrimSpace]: strip what [unicode.IsSpace] accepts, in UTF-8. *)
Definition bytes (l : list nat) : string :=
  foldr (fun n s => String (Ascii.ascii_of_nat n) s) "" l.

Definition spaces : list string := bytes <$>
  ([[9]; [10]; [11]; [12]; [13]; [32]; [194; 133]; [194; 160]; [225; 154; 128];
    [226; 128; 128]; [226; 128; 129]; [226; 128; 130]; [226; 128; 131]; [226; 128; 132];
    [226; 128; 133]; [226; 128; 134]; [226; 128; 135]; [226; 128; 136]; [226; 128; 137];
    [226; 128; 138]; [226; 128; 168]; [226; 128; 169]; [226; 128; 175]; [226; 129; 159];
    [227; 128; 128]])%nat.

Definition str_drop (n : nat) (s : string) : string :=
  String.substring n (String.length s - n) s.
Definition str_take (n : nat) (s : string) : string := String.substring 0 n s.

Fixpoint trim_left (fuel : nat) (s : string) : string :=
  match fuel with
  | O => s
  | S f => match List.find (fun p => String.prefix p s) spaces with
           | Some p => trim_left f (str_drop (String.length p) s)
           | None => s
           end
  end.

Definition has_suffix (p s : string) : bool :=
  (String.length p <=? String.length s)%nat &&
  String.eqb (str_drop (String.length s - String.length p) s) p.

Fixpoint trim_right (fuel : nat) (s : string) : string :=
  match fuel with
  | O => s
  | S f => match List.find (fun p => has_suffix p s) spaces with
           | Some p => trim_right f (str_take (String.length s - String.length p) s)
           | None => s
           end
  end.

Definition strings_TrimSpace (s : string) : string :=
  let s := trim_left (String.length s) s in trim_right (String.length s) s.

(** [strings.Split(s, ",")] *)
Fixpoint strings_Split (s : string) : list string :=
  match s with
  | EmptyString => [""]
  | String c s' =>
      if Ascii.eqb c (Ascii.ascii_of_nat 44) then "" :: strings_Split s'
      else match strings_Split s' with
           | [] => [String c ""]
           | x :: l => String c x :: l
           end
  end.

(** [sdk.ParseDecCoin] *)
Class CoinParser := ParseDecCoin : string -> res DecCoin.

(** The loop body: the tuples so far and [duplicateCheckMap]. *)
Definition parse_tuple `{CoinParser} (acc : ExchangeRateTuples * gset string) (tupleStr : string)
    : res (ExchangeRateTuples * gset string) :=
  let! decCoin := ParseDecCoin tupleStr in
  let '(tuples, duplicateCheckMap) := acc in
  if bool_decide (DDenom decCoin ∈ duplicateCheckMap)
  then Err (Errorf "duplicated denom")
  else Ok (tuples ++ [mkTuple (DDenom decCoin) (DAmount decCoin)],
           {[DDenom decCoin]} ∪ duplicateCheckMap).

Definition ParseExchangeRateTuples `{CoinParser} (tuplesStr : string)
    : res ExchangeRateTuples :=
  let tuplesStr := strings_TrimSpace tuplesStr in
  if String.eqb tuplesStr "" then Ok []
  else
    let! acc := rfold parse_tuple ([], ∅) (strings_Split tuplesStr) in
    Ok (fst acc).

(** ** Parameters ([params.go]) *)

(** [types.Denom] *)
Record OracleDenom := mkDenom { Name : string; TobinTax : Dec }.
Abbreviation DenomList := (list OracleDenom).

Definition Denom_Equal (d d1 : OracleDenom) : bool :=
  String.eqb (Name d) (Name d1) && (TobinTax d =? TobinTax d1).

Record Params := mkParams {
  VotePeriod : Z;                    (* uint64 *)
  VoteThreshold : Dec;
  RewardBand : Dec;
  RewardDistributionWindow : Z;      (* uint64 *)
  Whitelist : DenomList;
  SlashFraction : Dec;
  SlashWindow : Z;                   (* uint64 *)
  MinValidPerWindow : Dec }.

Definition DefaultTobinTax : Dec := NewDecWithPrec 25 4.
Definition DefaultWhitelist : DenomList :=
  [mkDenom MicroKRWDenom DefaultTobinTax; mkDenom MicroSDRDenom DefaultTobinTax;
   mkDenom MicroUSDDenom DefaultTobinTax; mkDenom MicroMNTDenom (DefaultTobinTax * 8)].

Definition DefaultParams : Params := {|
  VotePeriod := BlocksPerMinute / 2;
  VoteThreshold := NewDecWithPrec 50 2;
  RewardBand := NewDecWithPrec 2 2;
  RewardDistributionWindow := BlocksPerYear;
  Whitelist := DefaultWhitelist;
  SlashFraction := NewDecWithPrec 1 4;
  SlashWindow := BlocksPerWeek;
  MinValidPerWindow := NewDecWithPrec 5 2 |}.

(** [p.VoteThreshold.LTE(33%)] and the like, in the order of the source. *)
Definition Validate (p : Params) : res unit :=
  if VotePeriod p =? 0 then Err (Errorf "VotePeriod must be > 0")
  else if VoteThreshold p <=? NewDecWithPrec 33 2
  then Err (Errorf "VoteThreshold must be greater than 33 percent")
  else if (OneDec <? RewardBand p) || (RewardBand p <? 0)
  then Err (Errorf "RewardBand must be between [0, 1]")
  else if RewardDistributionWindow p <? VotePeriod p
  then Err (Errorf "RewardDistributionWindow must be greater than or equal with VotePeriod")
  else if (OneDec <? SlashFraction p) || (SlashFraction p <? 0)
  then Err (Errorf "SlashFraction must be between [0, 1]")
  else if SlashWindow p <? VotePeriod p
  then Err (Errorf "SlashWindow must be greater than or equal with VotePeriod")
  else if (OneDec <? MinValidPerWindow p) || (MinValidPerWindow p <? 0)
  then Err (Errorf "MinValidPerWindow must be between [0, 1]")
  else rfold (fun _ denom =>
      if (OneDec <? TobinTax denom) || (TobinTax denom <? 0)
      then Err (Errorf "Whitelist Denom must have TobinTax between [0, 1]")
      else if (String.length (Name denom) =? 0)%nat
      then Err (Errorf "Whitelist Denom must have name")
      else Ok tt) tt (Whitelist p).

Definition validateVotePeriod (v : Z) : res unit :=
  if v =? 0 then Err (Errorf "vote period must be positive") else Ok tt.
Definition validateVoteThreshold (v : Dec) : res unit :=
  if v <? NewDecWithPrec 33 2 then Err (Errorf "vote threshold must be bigger than 33%")
  else if OneDec <? v then Err (Errorf "vote threshold too large") else Ok tt.
Definition validateRewardBand (v : Dec) : res unit :=
  if v <? 0 then Err (Errorf "reward band must be positive")
  else if OneDec <? v then Err (Errorf "reward band is too large") else Ok tt.
Definition validateRewardDistributionWindow (v : Z) : res unit :=
  if v =? 0 then Err (Errorf "reward distribution window must be positive") else Ok tt.
Definition validateWhitelist (v : DenomList) : res unit :=
  rfold (fun _ d =>
    if (OneDec <? TobinTax d) || (TobinTax d <? 0)
    then Err (Errorf "Whitelist Denom must have TobinTax between [0, 1]")
    else if (String.length (Name d) =? 0)%nat
    then Err (Errorf "Whitelist Denom must have name")
    else Ok tt) tt v.
Definition validateSlashFraction (v : Dec) : res unit :=
  if v <? 0 then Err (Errorf "slash fraction must be positive")
  else if OneDec <? v then Err (Errorf "slash fraction is too large") else Ok tt.
Definition validateSlashWindow (v : Z) : res unit :=
  if v =? 0 then Err (Errorf "slash window must be positive") else Ok tt.
Definition validateMinValidPerWindow (v : Dec) : res unit :=
  if v <? 0 then Err (Errorf "min valid per window must be positive")
  else if OneDec <? v then Err (Errorf "min valid per window is too large") else Ok tt.

(** ** Messages ([msgs.go]) *)

Record MsgAggregateExchangeRatePrevote := mkMsgPrevote {
  mp_Hash : string; mp_Feeder : string; mp_Validator : string }.
Record MsgAggregateExchangeRateVote := mkMsgVote {
  mv_Salt : string; mv_ExchangeRates : string; mv_Feeder : string; mv_Validator : string }.
Record MsgDelegateFeedConsent := mkMsgDelegate { md_Operator : string; md_Delegate : string }.

(** [_, err := f(); if err != nil { return Wrap(e, _) }] *)
Definition wrap_err {A} (r : res A) (e : error) : res A :=
  match r with Err _ => Err e | o => o end.

(** [d.BigInt().BitLen()] *)
Definition BitLen (z : Z) : Z := if z =? 0 then 0 else Z.log2 (Z.abs z) + 1.

Section Messages.
Context `{SdkMath, Bech32, CoinParser, TmHash}.

Definition MsgPrevote_ValidateBasic (msg : MsgAggregateExchangeRatePrevote) : res unit :=
  let! _ := wrap_err (AggregateVoteHashFromHexString (mp_Hash msg)) ErrInvalidHash in
  if negb (String.length (mp_Hash msg) =? TruncatedSize * 2)%nat then Err ErrInvalidHashLength
  else
    let! _ := wrap_err (AccAddressFromBech32 (mp_Feeder msg)) ErrInvalidAddress in
    let! _ := wrap_err (ValAddressFromBech32 (mp_Validator msg)) ErrInvalidAddress in
    Ok tt.

Definition MsgVote_ValidateBasic (msg : MsgAggregateExchangeRateVote) : res unit :=
  let! _ := wrap_err (AccAddressFromBech32 (mv_Feeder msg)) ErrInvalidAddress in
  let! _ := wrap_err (ValAddressFromBech32 (mv_Validator msg)) ErrInvalidAddress in
  let l := String.length (mv_ExchangeRates msg) in
  if (l =? 0)%nat then Err ErrUnknownRequest
  else if (4096 <? l)%nat then Err ErrInvalidRequest
  else
    let! exchangeRates :=
      wrap_err (ParseExchangeRateTuples (mv_ExchangeRates msg)) ErrInvalidCoins in
    let! _ := rfold (fun _ t =>
        if 255 + DecimalPrecisionBits <? BitLen (TExchangeRate t)
        then Err ErrInvalidExchangeRate else Ok tt) tt exchangeRates in
    let ls := String.length (mv_Salt msg) in
    if (4 <? ls)%nat || (ls <? 1)%nat then Err ErrInvalidSaltLength else Ok tt.

Definition MsgDelegate_ValidateBasic (msg : MsgDelegateFeedConsent) : res unit :=
  let! _ := wrap_err (ValAddressFromBech32 (md_Operator msg)) ErrInvalidAddress in
  let! _ := wrap_err (AccAddressFromBech32 (md_Delegate msg)) ErrInvalidAddress in
  Ok tt.
End Messages.

(** ** Properties *)

Lemma hex_value_digit n : (n < 16)%nat -> hex_value (hex_digit n) = Some n.
Proof. intros Hn. do 16 (destruct n as [|n]; [done|]). lia. Qed.

Lemma hex_decode_encode s : hex_DecodeString (hex_EncodeToString s) = Ok s.
Proof.
  induction s as [|c s IH]; [done|]. cbn [hex_EncodeToString hex_DecodeString].
  pose proof (Ascii.nat_ascii_bounded c) as Hc.
  rewrite !hex_value_digit by (apply Nat.Div0.div_lt_upper_bound || apply Nat.mod_upper_bound; lia).
  rewrite IH. cbn [rbind]. rewrite <- Nat.div_mod by done. by rewrite Ascii.ascii_nat_embedding.
Qed.

(** A vote hash survives its hex form: decoding the rendering of any byte
    string gives the byte string back. *)
Theorem hex_roundtrip s :
  AggregateVoteHashFromHexString (AggregateVoteHash_String s) = Ok s.
Proof.
  apply hex_decode_encode.
Qed.

(** *** Store keys *)


(** The six key spaces of the oracle store. *)
Inductive StoreKey :=
  | KExchangeRate (denom : string) | KFeeder (v : string) | KMiss (v : string)
  | KPrevote (v : string) | KVote (v : string) | KTobin (denom : string).

Definition key_bytes `{Bech32} (k : StoreKey) : string :=
  match k with
  | KExchangeRate d => GetExchangeRateKey d
  | KFeeder v => GetFeederDelegationKey v
  | KMiss v => GetMissCounterKey v
  | KPrevote v => GetAggregateExchangeRatePrevoteKey v
  | KVote v => GetAggregateExchangeRateVoteKey v
  | KTobin d => GetTobinTaxKey d
  end.
Definition key_ok `{Bech32} (k : StoreKey) : Prop :=
  match k with
  | KFeeder v | KMiss v | KPrevote v | KVote v => addr_ok v = true
  | _ => True
  end.

(** Store keys do not collide: two entries of the oracle store have the same
    key bytes only when they are the same entry.  This is what allows one finite
    map per prefix to model the store. *)
Theorem store_keys_injective `{Bech32Laws} k1 k2 :
  key_ok k1 -> key_ok k2 -> key_bytes k1 = key_bytes k2 -> k1 = k2.
Proof.
  intros H1 H2. destruct k1, k2; simpl in *;
    unfold GetExchangeRateKey, GetFeederDelegationKey, GetMissCounterKey,
      GetAggregateExchangeRatePrevoteKey, GetAggregateExchangeRateVoteKey, GetTobinTaxKey; try done;
    intros E%str_app_inj_l; try by f_equal.
  all: rewrite !MustLengthPrefix_spec in E by done; injection E as _ E; by f_equal.
Qed.

Section KeysWitness.
Import Ref.
Lemma store_keys_injective_witness :
  key_bytes (KVote "aaaa") = key_bytes (KVote ("aa" +:+ "aa")) /\ KVote "aaaa" = KVote ("aa" +:+ "aa").
Proof.
  split; [done|]. by apply (store_keys_injective (KVote "aaaa") (KVote ("aa" +:+ "aa"))).
Defined.
End KeysWitness.

(** *** Exchange rate strings *)

(** The denoms read so far are distinct and recorded. *)
Definition tuples_ok (acc : ExchangeRateTuples * gset string) : Prop :=
  NoDup (TDenom <$> acc.1) /\ forall d, d ∈ TDenom <$> acc.1 -> d ∈ acc.2.

Lemma parse_tuples_ok `{CoinParser} l : forall acc acc',
  tuples_ok acc -> rfold parse_tuple acc l = Ok acc' -> tuples_ok acc'.
Proof.
  induction l as [|x l IH]; intros [tu du] acc' [Hnd Hin]; simpl; [by intros [= <-]|].
  intros (acc1 & (c & _ & Hstep)%rbind_Ok & Hr)%rbind_Ok.
  destruct (bool_decide_reflect (DDenom c ∈ du)) as [|Hni]; [done|]. injection Hstep as <-.
  eapply IH; [|exact Hr]. unfold tuples_ok. simpl in *. rewrite fmap_app. split.
  - apply NoDup_app. split_and!; [done| |apply NoDup_singleton].
    intros d Hd Hd'%list_elem_of_singleton. simpl in Hd'. subst d. by apply Hin in Hd.
  - intros d [Hd|Hd%list_elem_of_singleton]%elem_of_app; [apply Hin in Hd; set_solver|].
    simpl in Hd. set_solver.
Qed.

Lemma ParseExchangeRateTuples_denoms `{CoinParser} str ts :
  ParseExchangeRateTuples str = Ok ts -> NoDup (TDenom <$> ts).
Proof.
  unfold ParseExchangeRateTuples. destruct (String.eqb _ "").
  { intros [= <-]. constructor. }
  intros (acc & Hr & [= <-])%rbind_Ok. apply parse_tuples_ok in Hr as [? _]; [done|].
  split; [constructor|]. by intros d ?%not_elem_of_nil.
Qed.

End OracleTypes.
