(* ===== verification/OracleKeeper.v ===== *)
(** * The oracle keeper: [x/oracle/keeper]

    The oracle's store with its accessors, the message server (prevote, vote,
    feeder delegation), ballots, rewards and slashing. *)

From S2P Require Import Prelude Sdk Core OracleBallot OracleTypes.

Module OracleKeeper.
Import Ballot OracleTypes.

(** ** State *)

(** One finite map per key prefix of the store ([keys.go]); the parameters are
    kept in the module's param subspace. *)
Record Store := mkStore {
  ExchangeRates : gmap string Dec;
  FeederDelegations : gmap string string;
  MissCounters : gmap string Z;
  Prevotes : gmap string AggregateExchangeRatePrevote;
  Votes : gmap string AggregateExchangeRateVote;
  TobinTaxes : gmap string Dec;
  KParams : Params }.

Inductive Event :=
  | EventExchangeRateUpdate (denom : string) (rate : Dec)
  | EventAggregatePrevote (voter : string)
  | EventAggregateVote (voter exchangeRates : string)
  | EventFeedDelegate (feeder : string)
  | EventMessage (sender : string).

Record State (B SS DS : Type) := mkState {
  store : Store; bank : B; staking : SS; distr : DS; events : list Event }.
Arguments mkState {B SS DS} _ _ _ _ _.
Arguments store {B SS DS} _.
Arguments bank {B SS DS} _.
Arguments staking {B SS DS} _.
Arguments distr {B SS DS} _.
Arguments events {B SS DS} _.

Definition set_rates m s := mkStore m (FeederDelegations s) (MissCounters s) (Prevotes s)
  (Votes s) (TobinTaxes s) (KParams s).
Definition set_feeders m s := mkStore (ExchangeRates s) m (MissCounters s) (Prevotes s)
  (Votes s) (TobinTaxes s) (KParams s).
Definition set_misses m s := mkStore (ExchangeRates s) (FeederDelegations s) m (Prevotes s)
  (Votes s) (TobinTaxes s) (KParams s).
Definition set_prevotes m s := mkStore (ExchangeRates s) (FeederDelegations s) (MissCounters s) m
  (Votes s) (TobinTaxes s) (KParams s).
Definition set_votes m s := mkStore (ExchangeRates s) (FeederDelegations s) (MissCounters s)
  (Prevotes s) m (TobinTaxes s) (KParams s).
Definition set_tobin m s := mkStore (ExchangeRates s) (FeederDelegations s) (MissCounters s)
  (Prevotes s) (Votes s) m (KParams s).
Definition SetParams (p : Params) s := mkStore (ExchangeRates s) (FeederDelegations s)
  (MissCounters s) (Prevotes s) (Votes s) (TobinTaxes s) p.

(** ** Accessors ([keeper.go]) *)

Definition GetLunaExchangeRate (s : Store) (denom : string) : res Dec :=
  if String.eqb denom MicroLunaDenom then Ok OneDec
  else match ExchangeRates s !! denom with
       | Some rate => Ok rate
       | None => Err ErrUnknownDenom
       end.

Definition SetLunaExchangeRate (denom : string) (rate : Dec) (s : Store) : Store :=
  set_rates (<[denom := rate]> (ExchangeRates s)) s.
Definition DeleteLunaExchangeRate (denom : string) (s : Store) : Store :=
  set_rates (delete denom (ExchangeRates s)) s.

(** By default the vote right stays with the validator itself. *)
Definition GetFeederDelegation (s : Store) (operator : string) : string :=
  default operator (FeederDelegations s !! operator).
Definition SetFeederDelegation (operator delegatedFeeder : string) (s : Store) : Store :=
  set_feeders (<[operator := delegatedFeeder]> (FeederDelegations s)) s.

Definition GetMissCounter (s : Store) (operator : string) : Z :=
  default 0 (MissCounters s !! operator).
Definition SetMissCounter (operator : string) (n : Z) (s : Store) : Store :=
  set_misses (<[operator := n]> (MissCounters s)) s.
Definition DeleteMissCounter (operator : string) (s : Store) : Store :=
  set_misses (delete operator (MissCounters s)) s.

Definition GetAggregateExchangeRatePrevote (s : Store) (voter : string)
    : res AggregateExchangeRatePrevote :=
  match Prevotes s !! voter with Some p => Ok p | None => Err ErrNoAggregatePrevote end.
Definition SetAggregateExchangeRatePrevote (voter : string) p (s : Store) : Store :=
  set_prevotes (<[voter := p]> (Prevotes s)) s.
Definition DeleteAggregateExchangeRatePrevote (voter : string) (s : Store) : Store :=
  set_prevotes (delete voter (Prevotes s)) s.

Definition GetAggregateExchangeRateVote (s : Store) (voter : string)
    : res AggregateExchangeRateVote :=
  match Votes s !! voter with Some v => Ok v | None => Err ErrNoAggregateVote end.
Definition SetAggregateExchangeRateVote (voter : string) v (s : Store) : Store :=
  set_votes (<[voter := v]> (Votes s)) s.
Definition DeleteAggregateExchangeRateVote (voter : string) (s : Store) : Store :=
  set_votes (delete voter (Votes s)) s.

Definition GetTobinTax (s : Store) (denom : string) : res Dec :=
  match TobinTaxes s !! denom with Some t => Ok t | None => Err ErrNoTobinTax end.
Definition SetTobinTax (denom : string) (t : Dec) (s : Store) : Store :=
  set_tobin (<[denom := t]> (TobinTaxes s)) s.

(** Iterators, in the order of the store keys. *)
Section Iterators.
Context `{Bech32}.
Definition IterateLunaExchangeRates (s : Store) : list (string * Dec) :=
  kv_iter GetExchangeRateKey (ExchangeRates s).
Definition IterateFeederDelegations (s : Store) : list (string * string) :=
  kv_iter GetFeederDelegationKey (FeederDelegations s).
Definition IterateMissCounters (s : Store) : list (string * Z) :=
  kv_iter GetMissCounterKey (MissCounters s).
Definition IterateAggregateExchangeRatePrevotes (s : Store) :=
  kv_iter GetAggregateExchangeRatePrevoteKey (Prevotes s).
Definition IterateAggregateExchangeRateVotes (s : Store) :=
  kv_iter GetAggregateExchangeRateVoteKey (Votes s).
Definition IterateTobinTaxes (s : Store) : list (string * Dec) :=
  kv_iter GetTobinTaxKey (TobinTaxes s).
Definition ClearTobinTaxes (s : Store) : Store :=
  foldl (fun s p => set_tobin (delete p.1 (TobinTaxes s)) s) s (IterateTobinTaxes s).
End Iterators.

(** [vote_target.go] *)
Definition IsVoteTarget (s : Store) (denom : string) : bool :=
  match GetTobinTax s denom with Ok _ => true | _ => false end.
Definition GetVoteTargets `{Bech32} (s : Store) : list string := (IterateTobinTaxes s).*1.

Section Keeper.
Context {B SS DS : Type}.
Context `{SdkMath, SdkCoins, Bech32, TmHash, CoinParser, BankKeeper B, StakingKeeper SS,
  DistrKeeper DS, SlashKeeper B SS DS}.
Abbreviation St := (State B SS DS).
Abbreviation OM := (M (State B SS DS)).

(** Lift accessors to the whole state. *)
Definition on_store (f : Store -> Store) : OM unit := modify (fun s =>
  mkState (f (store s)) (bank s) (staking s) (distr s) (events s)).
Definition on_bank {A} (c : M B A) : OM A := zoom bank
  (fun b s => mkState (store s) b (staking s) (distr s) (events s)) c.
Definition on_staking {A} (c : M SS A) : OM A := zoom staking
  (fun st s => mkState (store s) (bank s) st (distr s) (events s)) c.
Definition on_distr {A} (c : M DS A) : OM A := zoom distr
  (fun d s => mkState (store s) (bank s) (staking s) d (events s)) c.
(** The bank, the staking module and the distribution together. *)
Definition on_modules {A} (c : M (B * SS * DS) A) : OM A :=
  zoom (fun s => (bank s, staking s, distr s))
    (fun '(b, st, d) s => mkState (store s) b st d (events s)) c.
Definition emit (e : Event) : OM unit := modify (fun s =>
  mkState (store s) (bank s) (staking s) (distr s) (events s ++ [e])).

Definition SetLunaExchangeRateWithEvent (denom : string) (rate : Dec) : OM unit :=
  do* on_store (SetLunaExchangeRate denom rate) in
  emit (EventExchangeRateUpdate denom rate).

(** [ValidateFeeder] *)
Definition ValidateFeeder (s : St) (feederAddr validatorAddr : string) : res unit :=
  let permitted :=
    String.eqb feederAddr validatorAddr ||
    String.eqb (GetFeederDelegation (store s) validatorAddr) feederAddr in
  if negb permitted then Err ErrNoVotingPermission
  else match Validator (staking s) validatorAddr with
       | Some val => if IsBonded val then Ok tt else Err ErrNoValidatorFound
       | None => Err ErrNoValidatorFound
       end.

(** ** The message server ([msg_server.go]) *)

Definition AggregateExchangeRatePrevote_ (ctx : Ctx) (msg : MsgAggregateExchangeRatePrevote)
    : OM unit :=
  let* valAddr := lift (ValAddressFromBech32 (mp_Validator msg)) in
  let* feederAddr := lift (AccAddressFromBech32 (mp_Feeder msg)) in
  let* s := gets id in
  do* lift (ValidateFeeder s feederAddr valAddr) in
  let* voteHash :=
    lift (wrap_err (AggregateVoteHashFromHexString (mp_Hash msg)) ErrInvalidHash) in
  let aggregatePrevote :=
    NewAggregateExchangeRatePrevote voteHash valAddr (uint64 (BlockHeight ctx)) in
  do* on_store (SetAggregateExchangeRatePrevote valAddr aggregatePrevote) in
  do* emit (EventAggregatePrevote (mp_Validator msg)) in
  emit (EventMessage (mp_Feeder msg)).

(** [(uint64(h)/p) - (submitBlock/p) != 1], a uint64 computation *)
Definition reveal_period_ok (h submitBlock votePeriod : Z) : res bool :=
  if votePeriod =? 0 then Panic
  else Ok (uint64 (uint64 h / votePeriod - submitBlock / votePeriod) =? 1).

Definition AggregateExchangeRateVote_ (ctx : Ctx) (msg : MsgAggregateExchangeRateVote)
    : OM unit :=
  let* valAddr := lift (ValAddressFromBech32 (mv_Validator msg)) in
  let* feederAddr := lift (AccAddressFromBech32 (mv_Feeder msg)) in
  let* s := gets id in
  do* lift (ValidateFeeder s feederAddr valAddr) in
  let params := KParams (store s) in
  let* aggregatePrevote :=
    lift (wrap_err (GetAggregateExchangeRatePrevote (store s) valAddr) ErrNoAggregatePrevote) in
  let* ok := lift (reveal_period_ok (BlockHeight ctx) (SubmitBlock aggregatePrevote)
                     (VotePeriod params)) in
  if negb ok then fail ErrRevealPeriodMissMatch
  else
    let* exchangeRateTuples :=
      lift (wrap_err (ParseExchangeRateTuples (mv_ExchangeRates msg)) ErrInvalidCoins) in
    do* lift (rfold (fun _ tuple =>
        if IsVoteTarget (store s) (TDenom tuple) then Ok tt else Err ErrUnknownDenom)
      tt exchangeRateTuples) in
    let hash := GetAggregateVoteHash (mv_Salt msg) (mv_ExchangeRates msg) valAddr in
    if negb (String.eqb (Hash aggregatePrevote) (AggregateVoteHash_String hash))
    then fail ErrVerificationFailed
    else
      do* on_store (SetAggregateExchangeRateVote valAddr
                      (NewAggregateExchangeRateVote exchangeRateTuples valAddr)) in
      do* on_store (DeleteAggregateExchangeRatePrevote valAddr) in
      do* emit (EventAggregateVote (mv_Validator msg) (mv_ExchangeRates msg)) in
      emit (EventMessage (mv_Feeder msg)).

Definition DelegateFeedConsent (msg : MsgDelegateFeedConsent) : OM unit :=
  let* operatorAddr := lift (ValAddressFromBech32 (md_Operator msg)) in
  let* delegateAddr := lift (AccAddressFromBech32 (md_Delegate msg)) in
  let* s := gets id in
  match Validator (staking s) operatorAddr with
  | None => fail ErrNoValidatorFound
  | Some _ =>
      do* on_store (SetFeederDelegation operatorAddr delegateAddr) in
      do* emit (EventFeedDelegate (md_Delegate msg)) in
      emit (EventMessage (md_Operator msg))
  end.

(** ** Ballots ([ballot.go]) *)

Context {rt : GoRuntime} `{GoStrings}.

(** The aggregate handler: the votes of active validators, by denom; an
    abstention carries no power. *)
Definition organize_vote (validatorClaimMap : gmap string Claim)
    (votes : gmap string ExchangeRateBallot) (p : string * AggregateExchangeRateVote)
    : gmap string ExchangeRateBallot :=
  let '(voterAddr, vote) := p in
  match validatorClaimMap !! AVoter vote with
  | None => votes
  | Some claim =>
      foldl (fun votes tuple =>
        let tmpPower := if 0 <? TExchangeRate tuple then CPower claim else 0 in
        <[TDenom tuple := default [] (votes !! TDenom tuple) ++
            [NewVoteForTally (TExchangeRate tuple) (TDenom tuple) voterAddr tmpPower]]> votes)
        votes (Tuples vote)
  end.

Definition OrganizeBallotByDenom (s : Store) (validatorClaimMap : gmap string Claim)
    : gmap string ExchangeRateBallot :=
  let votes := foldl (organize_vote validatorClaimMap) ∅
                 (IterateAggregateExchangeRateVotes s) in
  foldl (fun votes p => <[p.1 := sort_Sort Less p.2]> votes) votes (map_range 0 votes).

Definition ClearBallots (ctx : Ctx) (votePeriod : Z) (s : Store) : Store :=
  let s1 := foldl (fun s p =>
      if int64 (uint64 (SubmitBlock p.2 + votePeriod)) <? BlockHeight ctx
      then DeleteAggregateExchangeRatePrevote p.1 s else s)
    s (IterateAggregateExchangeRatePrevotes s) in
  foldl (fun s p => DeleteAggregateExchangeRateVote p.1 s)
    s1 (IterateAggregateExchangeRateVotes s1).

(** The bank metadata of a whitelisted denom; slicing past the end panics. *)
Definition denom_metadata (base : string) : res Metadata :=
  match base with
  | EmptyString => Panic
  | String _ display =>
      match display with
      | EmptyString => Panic
      | _ => Ok {|
          Description := "The native stable token of the Terra Columbus.";
          DenomUnits :=
            [mkUnit ("u" +:+ display) 0 ["micro" +:+ display];
             mkUnit ("m" +:+ display) 3 ["milli" +:+ display];
             mkUnit display 6 []];
          Base := base;
          Display := display;
          MName := strings_ToUpper display +:+ " TERRA";
          Symbol := strings_ToUpper (str_take (String.length display - 1) display) +:+ "T" |}
      end
  end.

Definition whitelist_changed (whitelist : DenomList) (voteTargets : gmap string Dec) : bool :=
  negb (size voteTargets =? length whitelist)%nat ||
  existsb (fun item => match voteTargets !! Name item with
                       | Some tobinTax => negb (tobinTax =? TobinTax item)
                       | None => true
                       end) whitelist.

Definition ApplyWhitelist (whitelist : DenomList) (voteTargets : gmap string Dec) : OM unit :=
  if whitelist_changed whitelist voteTargets then
    do* on_store ClearTobinTaxes in
    mfor whitelist (fun item =>
      do* on_store (SetTobinTax (Name item) (TobinTax item)) in
      let* known := gets (fun s => GetDenomMetaData (bank s) (Name item)) in
      match known with
      | Some _ => ret tt
      | None =>
          let* md := lift (denom_metadata (Name item)) in
          on_bank (modify (SetDenomMetaData md))
      end)
  else ret tt.

(** ** Rewards ([reward.go], [alias_functions.go]) *)

Definition GetRewardPool (s : St) (denom : string) : Coin :=
  GetBalance (bank s) (GetModuleAddress ModuleName) denom.

(** One denom of the period's rewards. *)
Definition add_period_reward (distributionRatio : Dec) (periodRewards : DecCoins)
    (denom : string) : OM DecCoins :=
  let* rewardPool := gets (fun s => GetRewardPool s denom) in
  if Amount rewardPool =? 0 then ret periodRewards
  else
    let* a := lift (Dec_Mul (NewDec (Amount rewardPool)) distributionRatio) in
    let* c := lift (NewDecCoinFromDec denom a) in
    lift (DecCoins_Add periodRewards [c]).

(** One winner's share.  Without a validator the debug log dereferences nil. *)
Definition reward_winner (periodRewards : DecCoins) (ballotPowerSum : Z)
    (distributedReward : Coins) (p : string * Claim) : OM Coins :=
  let winner := p.2 in
  let* receiverVal := gets (fun s => Validator (staking s) (Recipient winner)) in
  let* share := lift (Dec_QuoInt64 (NewDec (Weight winner)) ballotPowerSum) in
  let* scaled := lift (DecCoins_MulDec periodRewards share) in
  let* rc := lift (DecCoins_TruncateDecimal scaled) in
  let rewardCoins := fst rc in
  match receiverVal with
  | None => panic
  | Some val =>
      if Coins_IsZero rewardCoins then ret distributedReward
      else
        let* tokens := lift (NewDecCoinsFromCoins rewardCoins) in
        do* on_distr (AllocateTokensToValidator val tokens) in
        lift (Coins_Add distributedReward rewardCoins)
  end.

Definition RewardBallotWinners (distrName : string) (votePeriod rewardDistributionWindow : Z)
    (voteTargets : gmap string Dec) (ballotWinners : gmap string Claim) : OM unit :=
  let rewardDenoms := MicroLunaDenom :: (map_range 3 voteTargets).*1 in
  let ballotPowerSum :=
    foldl (fun t p => int64 (t + Weight p.2)) 0 (map_range 4 ballotWinners) in
  if ballotPowerSum =? 0 then ret tt
  else
    let* distributionRatio := lift (Dec_QuoInt64 (NewDec votePeriod) rewardDistributionWindow) in
    let* periodRewards := mfold (add_period_reward distributionRatio) [] rewardDenoms in
    let* distributedReward :=
      mfold (reward_winner periodRewards ballotPowerSum) [] (map_range 5 ballotWinners) in
    must (on_bank (SendCoinsFromModuleToModule ModuleName distrName distributedReward)).

(** ** Slashing ([slash.go]) *)

Definition slash_one (distributionHeight votePeriodsPerWindow : Z)
    (minValidPerWindow slashFraction : Dec) (powerReduction : Int) (p : string * Z) : OM unit :=
  let '(operator, missCounter) := p in
  let* validVoteRate := lift (Dec_QuoInt64
    (NewDec (int64 (uint64 (votePeriodsPerWindow - missCounter)))) (int64 votePeriodsPerWindow)) in
  do* (if validVoteRate <? minValidPerWindow then
         let* val := gets (fun s => Validator (staking s) operator) in
         match val with
         | None => panic
         | Some validator =>
             if IsBonded validator && negb (IsJailed validator) then
               let* consAddr := must (lift (GetConsAddr validator)) in
               do* on_modules (Slash consAddr distributionHeight
                     (GetConsensusPower validator powerReduction) slashFraction) in
               on_staking (Jail consAddr)
             else ret tt
         end
       else ret tt) in
  on_store (DeleteMissCounter operator).

Definition SlashAndResetMissCounters (ctx : Ctx) : OM unit :=
  let* s := gets id in
  let params := KParams (store s) in
  let distributionHeight := int64 (BlockHeight ctx - ValidatorUpdateDelay - 1) in
  let* q := lift (Dec_QuoInt64 (NewDec (int64 (SlashWindow params))) (int64 (VotePeriod params))) in
  let* t := lift (Dec_TruncateInt q) in
  let* n := lift (Int_Int64 t) in
  let votePeriodsPerWindow := uint64 n in
  mfor (IterateMissCounters (store s))
    (slash_one distributionHeight votePeriodsPerWindow (MinValidPerWindow params)
       (SlashFraction params) (PowerReduction (staking s))).
End Keeper.
End OracleKeeper.
