(* ===== verification/OracleTally.v ===== *)
(** * The oracle tally and end blocker: [x/oracle/tally.go], [x/oracle/abci.go] *)

From S2P Require Import Prelude Sdk Core OracleBallot OracleTypes OracleKeeper.

Module OracleTally.
Import Ballot OracleTypes OracleKeeper.

(** A missing entry of a Go map reads as the zero claim. *)
Definition zero_claim : Claim := NewClaim 0 0 0 "".

Section Tally.
Context `{SdkMath, Bech32}.

(** The body of the winner loop; [&&] evaluates the upper bound only when the
    lower one holds. *)
Definition tally_vote (weightedMedian rewardSpread : Dec) (validatorClaimMap : gmap string Claim)
    (vote : VoteForTally) : res (gmap string Claim) :=
  let! lo := Dec_Sub weightedMedian rewardSpread in
  let! within :=
    if lo <=? ExchangeRate vote then
      let! hi := Dec_Add weightedMedian rewardSpread in Ok (ExchangeRate vote <=? hi)
    else Ok false in
  if within || negb (0 <? ExchangeRate vote) then
    let key := ValString (Voter vote) in
    let claim := default zero_claim (validatorClaimMap !! key) in
    Ok (<[key := NewClaim (CPower claim) (int64 (Weight claim + Power vote))
                   (int64 (WinCount claim + 1)) (Recipient claim)]> validatorClaimMap)
  else Ok validatorClaimMap.

(** Comparing with the nil decimal of a failed parse panics. *)
Definition reward_spread (pb : ExchangeRateBallot) (weightedMedian rewardBand : Dec) : res Dec :=
  let standardDeviation := StandardDeviation pb weightedMedian in
  let! half := Dec_QuoInt64 rewardBand 2 in
  let! rewardSpread := Dec_Mul weightedMedian half in
  match standardDeviation with
  | None => Panic
  | Some sd => Ok (if rewardSpread <? sd then sd else rewardSpread)
  end.

Definition Tally (pb : ExchangeRateBallot) (rewardBand : Dec)
    (validatorClaimMap : gmap string Claim) : res (Dec * gmap string Claim) :=
  let weightedMedian := WeightedMedian pb in
  let! rewardSpread := reward_spread pb weightedMedian rewardBand in
  let! validatorClaimMap :=
    rfold (tally_vote weightedMedian rewardSpread) validatorClaimMap pb in
  Ok (weightedMedian, validatorClaimMap).

Definition ballotIsPassing (ballot : ExchangeRateBallot) (thresholdVotes : Int) : Int * bool :=
  let ballotPower := TotalPower ballot in
  (ballotPower, negb (ballotPower =? 0) && (thresholdVotes <=? ballotPower)).
End Tally.

(** The variables of the [PickReferenceTerra] loop. *)
Record Pick := mkPick {
  largestBallotPower : Z;
  referenceTerra : string;
  pTargets : gmap string Dec;
  pVotes : gmap string ExchangeRateBallot }.

Definition pick_step (thresholdVotes : Int) (st : Pick) (p : string * ExchangeRateBallot)
    : res Pick :=
  let '(denom, ballot) := p in
  let '(mkPick largest ref targets votes) := st in
  match targets !! denom with
  | None => Ok (mkPick largest ref targets (delete denom votes))
  | Some _ =>
      let '(power, ok) := ballotIsPassing ballot thresholdVotes in
      if ok then
        let! ballotPower := Int_Int64 power in
        if (largest <? ballotPower) || (largest =? 0)
        then Ok (mkPick ballotPower denom targets votes)
        else if (largest =? ballotPower) && str_gt ref denom
        then Ok (mkPick largest denom targets votes)
        else Ok (mkPick largest ref targets votes)
      else Ok (mkPick largest ref (delete denom targets) (delete denom votes))
  end.

(** The active-set loop of the end blocker: the first [maxValidators] bonded
    validators in power order; a missing validator is a nil dereference. *)
Fixpoint active_claims `{Bech32} (get : string -> option ValidatorI) (powerReduction : Int)
    (maxValidators i : Z) (it : list string) (claims : gmap string Claim)
    : res (gmap string Claim) :=
  match it with
  | [] => Ok claims
  | addr :: it' =>
      if i <? maxValidators then
        match get addr with
        | None => Panic
        | Some validator =>
            if IsBonded validator then
              let valAddr := GetOperator validator in
              active_claims get powerReduction maxValidators (i + 1) it'
                (<[ValString valAddr :=
                     NewClaim (GetConsensusPower validator powerReduction) 0 0 valAddr]> claims)
            else active_claims get powerReduction maxValidators i it' claims
        end
      else Ok claims
  end.

Section EndBlocker.
Context {B SS DS : Type}.
Context `{SdkMath, SdkCoins, Bech32, BankKeeper B, StakingKeeper SS, DistrKeeper DS,
  SlashKeeper B SS DS, GoStrings}.
Abbreviation St := (State B SS DS).
Abbreviation OM := (M (State B SS DS)).

Definition threshold_votes (s : St) : res Int :=
  let! totalBondedPower :=
    TokensToConsensusPower (TotalBondedTokens (staking s)) (PowerReduction (staking s)) in
  let! t := Dec_MulInt64 (VoteThreshold (KParams (store s))) totalBondedPower in
  Dec_RoundInt t.

(** The Go maps are updated in place: the updated ones are part of the
    result. *)
Definition PickReferenceTerra {rt : GoRuntime} (s : St) (voteTargets : gmap string Dec)
    (voteMap : gmap string ExchangeRateBallot) : res Pick :=
  let! thresholdVotes := threshold_votes s in
  rfold (pick_step thresholdVotes) (mkPick 0 "" voteTargets voteMap) (map_range 1 voteMap).

(** The body of the loop over the passed ballots. *)
Definition tally_denom {rt : GoRuntime} (rewardBand : Dec) (referenceTerra : string)
    (voteMapRT : gmap string Dec) (exchangeRateRT : Dec) (validatorClaimMap : gmap string Claim)
    (p : string * ExchangeRateBallot) : OM (gmap string Claim) :=
  let '(denom, ballot) := p in
  let isRT := String.eqb denom referenceTerra in
  let* ballot := lift (if isRT then Ok ballot else ToCrossRateWithSort ballot voteMapRT) in
  let* tallied := lift (Tally ballot rewardBand validatorClaimMap) in
  let '(exchangeRate, validatorClaimMap) := tallied in
  let* exchangeRate :=
    lift (if isRT then Ok exchangeRate else Dec_Quo exchangeRateRT exchangeRate) in
  do* SetLunaExchangeRateWithEvent denom exchangeRate in
  ret validatorClaimMap.

Definition tally_all {rt : GoRuntime} (rewardBand : Dec) (pick : Pick)
    (validatorClaimMap : gmap string Claim) : OM (gmap string Claim) :=
  let refTerra := referenceTerra pick in
  if String.eqb refTerra "" then ret validatorClaimMap
  else
    let ballotRT := default [] (pVotes pick !! refTerra) in
    mfold (tally_denom rewardBand refTerra (ToMap ballotRT) (WeightedMedian ballotRT))
      validatorClaimMap (map_range 2 (pVotes pick)).

Definition count_miss (voteTargetsLen : Z) (p : string * Claim) : OM unit :=
  let claim := p.2 in
  if WinCount claim =? voteTargetsLen then ret tt
  else on_store (fun st =>
    SetMissCounter (Recipient claim) (uint64 (GetMissCounter st (Recipient claim) + 1)) st).

Definition clear_rates (s : Store) : Store :=
  foldl (fun s p => DeleteLunaExchangeRate p.1 s) s (IterateLunaExchangeRates s).

(** The part of the end blocker that runs at the end of a vote period. *)
Definition end_vote_period {rt : GoRuntime} (distrName : string) (ctx : Ctx) (params : Params)
    : OM unit :=
  let* s := gets id in
  let* validatorClaimMap :=
    lift (active_claims (Validator (staking s)) (PowerReduction (staking s))
            (MaxValidators (staking s)) 0 (ValidatorsPowerStoreIterator (staking s)) ∅) in
  let voteTargets : gmap string Dec :=
    foldl (fun m p => <[p.1 := p.2]> m) ∅ (IterateTobinTaxes (store s)) in
  do* on_store clear_rates in
  let* voteMap := gets (fun s => OrganizeBallotByDenom (store s) validatorClaimMap) in
  let* pick := lift (PickReferenceTerra s voteTargets voteMap) in
  let* validatorClaimMap := tally_all (RewardBand params) pick validatorClaimMap in
  let voteTargets := pTargets pick in
  let voteTargetsLen := Z.of_nat (size voteTargets) in
  do* mfor (map_range 6 validatorClaimMap) (count_miss voteTargetsLen) in
  do* RewardBallotWinners distrName (int64 (VotePeriod params))
        (int64 (RewardDistributionWindow params)) voteTargets validatorClaimMap in
  do* on_store (ClearBallots ctx (VotePeriod params)) in
  ApplyWhitelist (Whitelist params) voteTargets.

Definition EndBlocker {rt : GoRuntime} (distrName : string) (ctx : Ctx) : OM unit :=
  let* params := gets (fun s => KParams (store s)) in
  let* endVote := lift (IsPeriodLastBlock ctx (VotePeriod params)) in
  do* (if endVote then end_vote_period distrName ctx params else ret tt) in
  let* endSlash := lift (IsPeriodLastBlock ctx (SlashWindow params)) in
  if endSlash then SlashAndResetMissCounters ctx else ret tt.
End EndBlocker.
End OracleTally.
