(* ===== verification/OracleVotes.v ===== *)
(** * Stored votes and the ballots made from them

    The invariant of the stored votes, the ballots [OrganizeBallotByDenom]
    builds from them, and that those ballots are well formed: sorted, at most one
    vote per validator, total power within int64. *)

From S2P Require Import Prelude Sdk Core OracleBallot OracleTypes OracleKeeper.

Module OracleVotes.
Import Ballot OracleTypes OracleKeeper.

(** A stored vote is filed under its voter and names each denom once. *)
Definition vote_wf `{Bech32} (k : string) (v : AggregateExchangeRateVote) : Prop :=
  AVoter v = ValString k /\ addr_ok k = true /\ NoDup (TDenom <$> Tuples v).
Definition votes_wf `{Bech32} (s : Store) : Prop := map_Forall vote_wf (Votes s).

(** The active set: non-negative powers whose total is an int64. *)
Definition claims_ok (claims : gmap string Claim) : Prop :=
  map_Forall (fun _ c => 0 <= CPower c) claims /\
  zsum (fun p => CPower p.2) (map_to_list claims) < 2^63.

(** What the tally relies on. *)
Definition good_ballot (pb : ExchangeRateBallot) : Prop :=
  rate_sorted pb /\ powers_ok pb /\ NoDup (Voter <$> pb).

(** Two ballots that differ in the order of equal rates only. *)
Definition ballot_eq (b1 b2 : ExchangeRateBallot) : Prop :=
  good_ballot b1 /\ good_ballot b2 /\ b1 ≡ₚ b2.

#[export] Instance ballot_eq_sym : Symmetric ballot_eq.
Proof. intros b1 b2 (? & ? & ?). by split_and!. Qed.

(** ** The votes for one denom *)

Definition vote_of (claim : Claim) (k : string) (t : ExchangeRateTuple) : VoteForTally :=
  NewVoteForTally (TExchangeRate t) (TDenom t) k
    (if 0 <? TExchangeRate t then CPower claim else 0).

Definition votes_for (claims : gmap string Claim) (d : string)
    (p : string * AggregateExchangeRateVote) : list VoteForTally :=
  match claims !! AVoter p.2 with
  | None => []
  | Some claim => vote_of claim p.1 <$> filter (fun t => TDenom t = d) (Tuples p.2)
  end.

Definition ballot_for (claims : gmap string Claim) (d : string)
    (l : list (string * AggregateExchangeRateVote)) : list VoteForTally :=
  l ≫= votes_for claims d.

(** [m !! d] holds the ballot [f d]; empty ballots have no entry. *)
Definition ballots (m : gmap string ExchangeRateBallot) (f : string -> ExchangeRateBallot) : Prop :=
  forall d, m !! d = match f d with [] => None | b => Some b end.

Lemma ballots_default m f d : ballots m f -> default [] (m !! d) = f d.
Proof. intros Hm. rewrite Hm. by destruct (f d). Qed.

Lemma ballots_append m f d v : ballots m f ->
  ballots (<[d := default [] (m !! d) ++ [v]]> m)
    (fun d' => f d' ++ (if decide (d = d') then [v] else [])).
Proof.
  intros Hm d'. rewrite (ballots_default _ _ _ Hm). destruct (decide (d = d')) as [<-|Hne].
  - rewrite lookup_insert_eq. by destruct (f d).
  - rewrite lookup_insert_ne, app_nil_r by done. apply Hm.
Qed.

Lemma ballots_ext m f g : ballots m f -> (forall d, f d = g d) -> ballots m g.
Proof. intros Hm E d. by rewrite <- E. Qed.

Lemma organize_vote_ballots claims m f p : ballots m f ->
  ballots (organize_vote claims m p) (fun d => f d ++ votes_for claims d p).
Proof.
  destruct p as [k v]. unfold organize_vote, votes_for. simpl.
  destruct (claims !! AVoter v) as [c|]; intros Hm.
  - revert m f Hm. induction (Tuples v) as [|t ts IH]; intros m f Hm; simpl.
    + eapply ballots_ext; [exact Hm|]. intros d. by rewrite app_nil_r.
    + eapply ballots_ext; [apply IH, ballots_append, Hm|]. intros d. simpl.
      rewrite <- app_assoc. f_equal. rewrite filter_cons.
      by destruct (decide (TDenom t = d)).
  - eapply ballots_ext; [exact Hm|]. intros d. by rewrite app_nil_r.
Qed.

Lemma organize_ballots claims l m f : ballots m f ->
  ballots (foldl (organize_vote claims) m l) (fun d => f d ++ ballot_for claims d l).
Proof.
  revert m f. induction l as [|p l IH]; intros m f Hm; simpl.
  - eapply ballots_ext; [exact Hm|]. intros d. by rewrite app_nil_r.
  - eapply ballots_ext; [apply IH, organize_vote_ballots, Hm|]. intros d. simpl.
    by rewrite <- app_assoc.
Qed.

(** ** Well-formedness of the ballots *)

(** The power an active set gives to a list of voters. *)
Definition power_in (claims : gmap string Claim) (k : string) : Z :=
  match claims !! k with Some c => CPower c | None => 0 end.

Lemma power_in_total claims ks : NoDup ks -> map_Forall (fun _ c => 0 <= CPower c) claims ->
  zsum (power_in claims) ks <= zsum (fun p => CPower p.2) (map_to_list claims).
Proof.
  intros Hnd. revert claims. induction Hnd as [|k ks Hni Hnd IH]; intros claims Hc.
  - apply zsum_nonneg. apply Forall_forall. intros [k c] Hin%elem_of_map_to_list. by apply (Hc k).
  - rewrite zsum_cons. unfold power_in at 1. destruct (claims !! k) as [c|] eqn:E.
    + rewrite <- (map_to_list_delete claims k c E), zsum_cons. simpl.
      specialize (IH (delete k claims)). rewrite (zsum_ext _ (power_in (delete k claims))).
      * apply Z.add_le_mono_l, IH. by apply map_Forall_delete.
      * intros k' Hk'. unfold power_in. rewrite lookup_delete_ne; [done|]. by intros ->.
    + by apply IH.
Qed.

Lemma filter_denom (ts : list ExchangeRateTuple) d : NoDup (TDenom <$> ts) ->
  filter (fun t => TDenom t = d) ts = [] \/ exists t, filter (fun t => TDenom t = d) ts = [t].
Proof.
  induction ts as [|t ts IH]; intros Hnd; [by left|].
  apply NoDup_cons in Hnd as [Hni Hnd]. rewrite filter_cons.
  destruct (decide (TDenom t = d)) as [<-|Hne]; [|by apply IH].
  right. exists t. f_equal.
  destruct (filter _ ts) as [|t' l] eqn:Ef; [done|].
  assert (t' ∈ filter (fun t0 => TDenom t0 = TDenom t) ts) as [E Ht']%list_elem_of_filter
    by (rewrite Ef; left).
  destruct Hni. rewrite <- E. apply list_elem_of_fmap. by exists t'.
Qed.

Section WellFormed.
Context `{Bech32Laws}.

(** A well-formed vote adds at most one entry to a ballot. *)
Lemma votes_for_wf claims d k v : vote_wf k v ->
  map_Forall (fun _ c => 0 <= CPower c) claims ->
  votes_for claims d (k, v) = [] \/
  exists t, votes_for claims d (k, v) = [t] /\ Voter t = k /\
    0 <= Power t <= power_in claims (AVoter v).
Proof using Type.
  intros (_ & _ & Hnd) Hc. unfold votes_for, power_in. simpl.
  destruct (claims !! AVoter v) as [c|] eqn:E; [|by left].
  destruct (filter_denom (Tuples v) d Hnd) as [->|[t ->]]; [by left|right].
  eexists. split; [done|]. split; [done|]. simpl. specialize (Hc _ _ E). simpl in Hc.
  destruct (0 <? TExchangeRate t); lia.
Qed.

Lemma votes_for_power claims d k v : vote_wf k v ->
  map_Forall (fun _ c => 0 <= CPower c) claims ->
  Forall (fun t => 0 <= Power t) (votes_for claims d (k, v)) /\
  power_of (votes_for claims d (k, v)) <= power_in claims (AVoter v).
Proof using Type.
  intros Hv Hc. destruct (votes_for_wf claims d k v Hv Hc) as [->|(t & -> & _ & Hp)].
  - split; [constructor|]. rewrite zsum_nil. unfold power_in.
    destruct (claims !! AVoter v) eqn:E; [|done]. by apply (Hc _ _ E).
  - split; [by repeat constructor; lia|]. rewrite zsum_cons, zsum_nil. lia.
Qed.

Lemma ballot_for_powers claims d l : Forall (fun p => vote_wf p.1 p.2) l ->
  map_Forall (fun _ c => 0 <= CPower c) claims ->
  Forall (fun t => 0 <= Power t) (ballot_for claims d l) /\
  power_of (ballot_for claims d l) <= zsum (power_in claims) ((fun p => AVoter p.2) <$> l).
Proof using Type.
  intros Hl Hc. induction Hl as [|[k v] l Hv Hl [IH1 IH2]]; [split; [constructor|done]|].
  destruct (votes_for_power claims d k v Hv Hc) as [Hp1 Hp2].
  unfold ballot_for in *. cbn [mbind list_bind]. split; [by apply Forall_app|].
  rewrite zsum_app, fmap_cons, zsum_cons. simpl. lia.
Qed.

Lemma ballot_for_voters claims d l t : t ∈ ballot_for claims d l -> Voter t ∈ l.*1.
Proof using Type.
  unfold ballot_for. intros ([k v] & Ht & Hin)%list_elem_of_bind.
  apply list_elem_of_fmap. exists (k, v). split; [|done]. revert Ht. unfold votes_for. simpl.
  destruct (claims !! AVoter v); [|by intros ?%not_elem_of_nil].
  by intros (? & -> & _)%list_elem_of_fmap.
Qed.

(** The voters of a ballot are active, and vote with at most their power. *)
Definition voted (claims : gmap string Claim) (b : ExchangeRateBallot) : Prop :=
  forall v, v ∈ b -> addr_ok (Voter v) = true /\
    exists a, claims !! ValString (Voter v) = Some a /\ 0 <= Power v <= CPower a.

Lemma ballot_for_voted claims d l : Forall (fun p => vote_wf p.1 p.2) l ->
  map_Forall (fun _ c => 0 <= CPower c) claims -> voted claims (ballot_for claims d l).
Proof using Type.
  intros Hl Hc t. unfold ballot_for. intros ([k v] & Ht & Hin)%list_elem_of_bind.
  rewrite Forall_forall in Hl. destruct (Hl _ Hin) as (Ev & Hok & _). simpl in *.
  revert Ht. unfold votes_for. simpl. destruct (claims !! AVoter v) as [c|] eqn:E;
    [|by intros ?%not_elem_of_nil].
  intros (t' & -> & _)%list_elem_of_fmap. simpl. split; [done|]. rewrite <- Ev, E.
  exists c. split; [done|]. specialize (Hc _ _ E). simpl in Hc.
  destruct (0 <? TExchangeRate t'); lia.
Qed.

Lemma voted_keys claims b : voted claims b -> NoDup (Voter <$> b) ->
  NoDup ((fun v => ValString (Voter v)) <$> b).
Proof using All.
  intros Hv Hnd. induction b as [|v b IH]; [constructor|].
  apply NoDup_cons in Hnd as [Hni Hnd]. simpl. constructor.
  - intros (w & E & Hw)%list_elem_of_fmap. apply Hni.
    destruct (Hv v) as [Ha _]; [left|]. destruct (Hv w) as [Hb _]; [by right|].
    apply ValString_inj in E as ->; [|done|done]. apply list_elem_of_fmap. by exists w.
  - apply IH; [|done]. intros w Hw. apply Hv. by right.
Qed.

Lemma ballot_for_NoDup claims d l : Forall (fun p => vote_wf p.1 p.2) l ->
  map_Forall (fun _ c => 0 <= CPower c) claims -> NoDup l.*1 ->
  NoDup (Voter <$> ballot_for claims d l).
Proof using Type.
  intros Hl Hc. induction Hl as [|[k v] l Hv Hl IH]; intros Hnd; [constructor|].
  apply NoDup_cons in Hnd as [Hni Hnd]. unfold ballot_for in *. cbn [mbind list_bind].
  destruct (votes_for_wf claims d k v Hv Hc) as [->|(t & -> & Ht & _)]; [by apply IH|].
  simpl. constructor; [|by apply IH]. rewrite Ht. intros (t' & E & Ht')%list_elem_of_fmap.
  apply Hni. simpl. rewrite E. by eapply ballot_for_voters.
Qed.

(** The voters of well-formed votes are distinct. *)
Lemma voters_NoDup (l : list (string * AggregateExchangeRateVote)) :
  Forall (fun p => vote_wf p.1 p.2) l -> NoDup l.*1 ->
  NoDup ((fun p => AVoter p.2) <$> l).
Proof using All.
  intros Hl. induction Hl as [|[k v] l Hv Hl IH]; intros Hnd; [constructor|].
  apply NoDup_cons in Hnd as [Hni Hnd]. simpl. constructor; [|by apply IH].
  intros ([k' v'] & E & Hin)%list_elem_of_fmap. simpl in *.
  rewrite Forall_forall in Hl. destruct (Hl _ Hin) as (E' & Hok' & _).
  destruct Hv as (E0 & Hok & _). simpl in *. rewrite E0, E' in E.
  apply ValString_inj in E as ->; [|done|done].
  apply Hni. apply list_elem_of_fmap. by exists (k', v').
Qed.

Lemma ballot_for_ok claims d l : Forall (fun p => vote_wf p.1 p.2) l -> NoDup l.*1 ->
  claims_ok claims -> powers_ok (ballot_for claims d l) /\ NoDup (Voter <$> ballot_for claims d l).
Proof using All.
  intros Hl Hnd [Hc Hsum]. destruct (ballot_for_powers claims d l Hl Hc) as [Hp1 Hp2].
  split; [split; [done|]|by apply ballot_for_NoDup].
  pose proof (power_in_total claims _ (voters_NoDup l Hl Hnd) Hc). lia.
Qed.

(** ** [OrganizeBallotByDenom] *)

(** The votes in store order. *)
Definition stored_votes (s : Store) := IterateAggregateExchangeRateVotes s.

Lemma stored_votes_wf s : votes_wf s ->
  Forall (fun p => vote_wf p.1 p.2) (stored_votes s) /\ NoDup (stored_votes s).*1.
Proof using Type.
  intros Hs. split; [|apply kv_iter_NoDup]. apply Forall_forall.
  intros [k v] Hin%elem_of_kv_iter. by apply Hs.
Qed.

(** Each ballot holds the votes of the active validators for its denom, as
    the runtime's sort leaves them. *)
Lemma OrganizeBallotByDenom_lookup `{!GoRuntimeLaws rt} s claims d :
  OrganizeBallotByDenom s claims !! d =
  match ballot_for claims d (stored_votes s) with
  | [] => None
  | b => Some (sort_Sort Less b)
  end.
Proof using Type.
  unfold OrganizeBallotByDenom. rewrite (foldl_update_map (sort_Sort Less)).
  2: { apply map_range_perm. }
  rewrite lookup_fmap, (organize_ballots claims (stored_votes s) ∅ (fun _ => [])); [|done].
  simpl. by destruct (ballot_for claims d (stored_votes s)).
Qed.

Lemma sort_good `{!GoRuntimeLaws rt} b :
  powers_ok b -> NoDup (Voter <$> b) -> good_ballot (sort_Sort Less b).
Proof using Type.
  intros Hp Hn. pose proof (sort_Sort_perm _ Less b) as E. split_and!.
  - apply (sort_Sort_sorted _ ExchangeRate).
  - by rewrite E.
  - by rewrite E.
Qed.

Lemma OrganizeBallotByDenom_good `{!GoRuntimeLaws rt} s claims d b :
  votes_wf s -> claims_ok claims ->
  OrganizeBallotByDenom s claims !! d = Some b ->
  b ≡ₚ ballot_for claims d (stored_votes s) /\ good_ballot b /\ b <> [].
Proof using All.
  intros Hs Hc. destruct (stored_votes_wf s Hs) as [Hl Hnd].
  destruct (ballot_for_ok claims d _ Hl Hnd Hc) as [Hp Hn].
  rewrite OrganizeBallotByDenom_lookup.
  destruct (ballot_for claims d (stored_votes s)) as [|v b'] eqn:E; [done|]. intros [= <-].
  pose proof (sort_Sort_perm _ Less (v :: b')) as Es. split_and!; [done|by apply sort_good|].
  intros E0. rewrite E0 in Es. by apply Permutation_nil_cons in Es.
Qed.

(** Two runtimes organise the same ballots up to the order of equal rates. *)
Lemma OrganizeBallotByDenom_rel (rt1 rt2 : GoRuntime) `{!GoRuntimeLaws rt1, !GoRuntimeLaws rt2}
    s claims d : votes_wf s -> claims_ok claims ->
  option_Forall2 ballot_eq (OrganizeBallotByDenom (rt := rt1) s claims !! d)
    (OrganizeBallotByDenom (rt := rt2) s claims !! d).
Proof using All.
  intros Hs Hc. destruct (stored_votes_wf s Hs) as [Hl Hnd].
  destruct (ballot_for_ok claims d _ Hl Hnd Hc) as [Hp Hn].
  rewrite !OrganizeBallotByDenom_lookup.
  destruct (ballot_for claims d (stored_votes s)) as [|v b']; constructor.
  split_and!; [by apply sort_good|by apply sort_good|]. by rewrite !sort_Sort_perm.
Qed.
End WellFormed.
End OracleVotes.
