(* ===== verification/OracleTallyFacts.v ===== *)
(** * What the oracle's tally computes

    The reference Terra, the winners of a ballot and the claims they earn, stated
    without the order in which Go visits its maps. *)

From S2P Require Import Prelude Sdk Core OracleBallot OracleTypes OracleKeeper OracleTally OracleVotes.

Module OracleTallyFacts.
Import Ballot OracleTypes OracleKeeper OracleTally OracleVotes.

(** ** The reference Terra *)

(** A ballot that counts: for a vote target, with enough power. *)
Definition passing (thr : Int) (b : ExchangeRateBallot) : Prop :=
  TotalPower b <> 0 /\ thr <= TotalPower b.
#[export] Instance passing_dec thr b : Decision (passing thr b).
Proof. unfold passing. apply _. Defined.

Definition counted (thr : Int) (targets : gmap string Dec) (p : string * ExchangeRateBallot) : Prop :=
  is_Some (targets !! p.1) /\ passing thr p.2.
#[export] Instance counted_dec thr targets p : Decision (counted thr targets p).
Proof. unfold counted. apply _. Defined.

(** The targets left: those without a ballot, or with a passing one. *)
Definition kept (thr : Int) (m : gmap string ExchangeRateBallot) (p : string * Dec) : Prop :=
  match m !! p.1 with Some b => passing thr b | None => True end.
#[export] Instance kept_dec thr m p : Decision (kept thr m p).
Proof. unfold kept. destruct (m !! p.1); apply _. Defined.

(** [r] has the most power among the ballots, and comes first in alphabetical
    order among those. *)
Definition is_reference (votes : gmap string ExchangeRateBallot) (lg : Z) (r : string) : Prop :=
  (votes = ∅ /\ lg = 0 /\ r = "") \/
  ((exists b, votes !! r = Some b /\ lg = TotalPower b) /\
   forall d b, votes !! d = Some b -> TotalPower b < lg \/ (TotalPower b = lg /\ str_le r d)).

Lemma is_reference_unique votes l1 r1 l2 r2 :
  is_reference votes l1 r1 -> is_reference votes l2 r2 -> l1 = l2 /\ r1 = r2.
Proof.
  intros [(-> & -> & ->)|[(b1 & E1 & ->) H1]] [(E & -> & ->)|[(b2 & E2 & ->) H2]];
    subst; [done|by rewrite lookup_empty in E2|by rewrite lookup_empty in E1|].
  destruct (H1 _ _ E2) as [?|[? ?]], (H2 _ _ E1) as [?|[? ?]]; try lia.
  split; [lia|by apply (anti_symm str_le)].
Qed.

Lemma ballotIsPassing_spec thr b :
  ballotIsPassing b thr = (TotalPower b, bool_decide (passing thr b)).
Proof.
  unfold ballotIsPassing. f_equal. apply eq_bool_prop_intro.
  rewrite bool_decide_spec, andb_True. unfold passing.
  destruct (Z.eqb_spec (TotalPower b) 0), (Z.leb_spec thr (TotalPower b)); simpl;
    naive_solver lia.
Qed.

Lemma Int_Int64_power b : Int_Int64 (TotalPower b) = Ok (TotalPower b).
Proof.
  unfold Int_Int64, is_int64. rewrite TotalPower_sum.
  pose proof (int64_range (power_of b)).
  destruct (Z.leb_spec (- 2^63) (int64 (power_of b))), (Z.ltb_spec (int64 (power_of b)) (2^63));
    simpl; [done|lia..].
Qed.

(** One comparison of the loop. *)
Definition better (thr : Int) (targets : gmap string Dec) (c : Z * string)
    (p : string * ExchangeRateBallot) : Z * string :=
  if decide (counted thr targets p) then
    let pw := TotalPower p.2 in
    if (c.1 <? pw) || (c.1 =? 0) then (pw, p.1)
    else if (c.1 =? pw) && str_gt c.2 p.1 then (c.1, p.1) else c
  else c.

Lemma pick_step_spec thr lg r targets votes d b :
  pick_step thr (mkPick lg r targets votes) (d, b) =
  Ok (mkPick (better thr targets (lg, r) (d, b)).1 (better thr targets (lg, r) (d, b)).2
        (if decide (is_Some (targets !! d) /\ ~ passing thr b) then delete d targets else targets)
        (if decide (counted thr targets (d, b)) then votes else delete d votes)).
Proof.
  unfold better. destruct (decide (counted thr targets (d, b))) as [Hc|Hc].
  - pose proof Hc as [[t Ht] Hp]. simpl in Ht, Hp. rewrite decide_False by tauto.
    unfold pick_step. rewrite Ht, ballotIsPassing_spec, bool_decide_true by done.
    rewrite Int_Int64_power. simpl. by repeat case_match.
  - unfold counted in Hc. simpl in Hc. unfold pick_step. destruct (targets !! d) as [t|] eqn:Ed.
    + assert (~ passing thr b) as Hp by (intros ?; apply Hc; eauto).
      rewrite ballotIsPassing_spec, bool_decide_false by done.
      rewrite decide_True by eauto. done.
    + rewrite decide_False; [done|]. by intros [[? ?] _].
Qed.

(** The loop in closed form: targets and votes are filtered, and the best
    candidate is folded over the visited ballots. *)
Definition drop_failed (thr : Int) (targets0 : gmap string Dec) (l : list (string * ExchangeRateBallot))
    (targets : gmap string Dec) : gmap string Dec :=
  foldl (fun t p => if decide (is_Some (targets0 !! p.1) /\ ~ passing thr p.2)
                    then delete p.1 t else t) targets l.
Definition drop_uncounted (thr : Int) (targets0 : gmap string Dec)
    (l : list (string * ExchangeRateBallot)) (votes : gmap string ExchangeRateBallot) :=
  foldl (fun v p => if decide (counted thr targets0 p) then v else delete p.1 v) votes l.

Lemma pick_loop thr l : forall targets0 lg r targets votes,
  NoDup l.*1 -> (forall d, d ∈ l.*1 -> targets !! d = targets0 !! d) ->
  rfold (pick_step thr) (mkPick lg r targets votes) l =
  Ok (let c := foldl (better thr targets0) (lg, r) l in
      mkPick c.1 c.2 (drop_failed thr targets0 l targets) (drop_uncounted thr targets0 l votes)).
Proof.
  induction l as [|[d b] l IH]; intros targets0 lg r targets votes Hnd Ht; [done|].
  apply NoDup_cons in Hnd as [Hni Hnd]. cbn [rfold]. rewrite pick_step_spec. cbn [rbind].
  assert (targets !! d = targets0 !! d) as Ed by (apply Ht; simpl; left).
  assert (counted thr targets (d, b) <-> counted thr targets0 (d, b)) as Hcnt.
  { unfold counted. simpl. by rewrite Ed. }
  assert (better thr targets (lg, r) (d, b) = better thr targets0 (lg, r) (d, b)) as ->.
  { unfold better. by apply decide_ext. }
  rewrite (IH targets0).
  - f_equal. simpl. destruct (better thr targets0 (lg, r) (d, b)). simpl. f_equal.
    + f_equal. apply decide_ext. by rewrite Ed.
    + f_equal. by apply decide_ext.
  - done.
  - intros d' Hd'. rewrite <- Ht by (simpl; by right).
    destruct (decide _); [|done]. apply lookup_delete_ne. by intros ->.
Qed.

Lemma drop_failed_lookup thr targets0 l targets d : 
  drop_failed thr targets0 l targets !! d =
  if decide (Exists (fun p => p.1 = d /\ is_Some (targets0 !! d) /\ ~ passing thr p.2) l)
  then None else targets !! d.
Proof.
  revert targets. induction l as [|[d' b] l IH]; intros targets.
  - rewrite decide_False; [done|]. by intros ?%Exists_nil.
  - unfold drop_failed in *. simpl. rewrite IH. clear IH.
    destruct (decide (Exists _ l)) as [He|He].
    + rewrite decide_True; [done|]. by right.
    + destruct (decide (d' = d)) as [->|Hne].
      * destruct (decide (is_Some _ /\ _)) as [Hf|Hf].
        -- rewrite decide_True by (left; simpl; tauto). apply lookup_delete_eq.
        -- rewrite decide_False; [done|]. intros [H1|H1]%Exists_cons; [|done]. simpl in H1. tauto.
      * rewrite (decide_False (P := Exists _ (_ :: _))).
        -- destruct (decide _); [|done]. by apply lookup_delete_ne.
        -- intros [H1|H1]%Exists_cons; [|done]. simpl in H1. tauto.
Qed.

Lemma drop_uncounted_lookup thr targets0 l votes d :
  drop_uncounted thr targets0 l votes !! d =
  if decide (Exists (fun p => p.1 = d /\ ~ counted thr targets0 p) l) then None else votes !! d.
Proof.
  revert votes. induction l as [|[d' b] l IH]; intros votes.
  - rewrite decide_False; [done|]. by intros ?%Exists_nil.
  - unfold drop_uncounted in *. simpl. rewrite IH. clear IH.
    destruct (decide (Exists _ l)) as [He|He].
    + rewrite decide_True; [done|]. by right.
    + destruct (decide (d' = d)) as [->|Hne].
      * destruct (decide (counted thr targets0 (d, b))) as [Hf|Hf].
        -- rewrite decide_False; [done|]. intros [H1|H1]%Exists_cons; [|done]. simpl in H1. tauto.
        -- rewrite decide_True by (left; simpl; tauto). apply lookup_delete_eq.
      * rewrite (decide_False (P := Exists _ (_ :: _))).
        -- destruct (decide (counted _ _ _)); [done|]. by apply lookup_delete_ne.
        -- intros [H1|H1]%Exists_cons; [|done]. simpl in H1. tauto.
Qed.

(** The best candidate among the counted ballots of a list. *)
Definition best_in thr targets (l : list (string * ExchangeRateBallot)) (c : Z * string) : Prop :=
  (Forall (fun p => ~ counted thr targets p) l /\ c = (0, "")) \/
  ((exists b, (c.2, b) ∈ l /\ counted thr targets (c.2, b) /\ c.1 = TotalPower b) /\
   forall d b, (d, b) ∈ l -> counted thr targets (d, b) ->
     TotalPower b < c.1 \/ (TotalPower b = c.1 /\ str_le c.2 d)).

Lemma str_gt_spec a b : str_gt a b = true -> str_le b a.
Proof.
  unfold str_gt. rewrite negb_true_iff. intros Hab. destruct (str_le_total b a) as [?|Ha]; [done|].
  unfold str_le in Ha. congruence.
Qed.
Lemma str_gt_false a b : str_gt a b = false -> str_le a b.
Proof. unfold str_gt, str_le. by rewrite negb_false_iff. Qed.

Lemma best_in_snoc_counted thr targets l c d b :
  best_in thr targets l c -> counted thr targets (d, b) ->
  best_in thr targets (l ++ [(d, b)]) (better thr targets c (d, b)).
Proof.
  intros Hbest Hc. right. unfold better. rewrite decide_True by done. cbn [fst snd].
  assert ((d, b) ∈ l ++ [(d, b)]) as Hin by (apply elem_of_app; right; left).
  destruct Hbest as [[Hno ->]|[(b0 & Hb0 & Hc0 & E0) Hmax]]; cbn [fst snd].
  - rewrite orb_true_r. cbn [fst snd]. split; [by exists b|].
    intros d' b' [Hd'|Hd'%list_elem_of_singleton]%elem_of_app Hc'.
    + rewrite Forall_forall in Hno. by destruct (Hno _ Hd').
    + simplify_eq. by right.
  - assert (c.1 <> 0) as Hnz by (destruct Hc0 as [_ [? ?]]; simpl in *; congruence).
    destruct (Z.ltb_spec c.1 (TotalPower b)) as [Hlt|Hge]; cbn [orb fst snd].
    + split; [by exists b|].
      intros d' b' [Hd'|Hd'%list_elem_of_singleton]%elem_of_app Hc'; simplify_eq; [|by right].
      destruct (Hmax _ _ Hd' Hc') as [?|[? ?]]; left; lia.
    + destruct (Z.eqb_spec c.1 0); [done|]. cbn [orb].
      destruct (Z.eqb_spec c.1 (TotalPower b)) as [E|Hne]; cbn [andb].
      * destruct (str_gt c.2 d) eqn:Hgt; cbn [fst snd].
        -- apply str_gt_spec in Hgt. split; [by exists b|].
           intros d' b' [Hd'|Hd'%list_elem_of_singleton]%elem_of_app Hc'; simplify_eq; [|by right].
           destruct (Hmax _ _ Hd' Hc') as [?|[? ?]]; [by left|right]. split; [done|by etrans].
        -- apply str_gt_false in Hgt. split; [exists b0; rewrite elem_of_app; tauto|].
           intros d' b' [Hd'|Hd'%list_elem_of_singleton]%elem_of_app Hc'; simplify_eq; [by apply Hmax|].
           by right.
      * split; [exists b0; rewrite elem_of_app; tauto|].
        intros d' b' [Hd'|Hd'%list_elem_of_singleton]%elem_of_app Hc'; simplify_eq; [by apply Hmax|].
        left. lia.
Qed.

Lemma best_in_snoc thr targets l c p :
  best_in thr targets l c -> best_in thr targets (l ++ [p]) (better thr targets c p).
Proof.
  destruct p as [d b]. intros Hbest.
  destruct (decide (counted thr targets (d, b))) as [Hc|Hc]; [by apply best_in_snoc_counted|].
  unfold better. rewrite decide_False by done.
  destruct Hbest as [[Hno ->]|[(b0 & Hb0 & Hc0 & E0) Hmax]].
  - left. split; [|done]. apply Forall_app. split; [done|]. by repeat constructor.
  - right. split; [exists b0; rewrite elem_of_app; tauto|].
    intros d' b' [Hd'|Hd'%list_elem_of_singleton]%elem_of_app Hc'; [by apply Hmax|].
    by simplify_eq.
Qed.

Lemma best_in_foldl thr targets l :
  best_in thr targets l (foldl (better thr targets) (0, "") l).
Proof.
  induction l as [|p l IH] using rev_ind; [by left|].
  rewrite foldl_app. simpl. by apply best_in_snoc.
Qed.

Lemma best_in_reference thr targets l (m : gmap string ExchangeRateBallot) c :
  l ≡ₚ map_to_list m -> best_in thr targets l c ->
  is_reference (filter (counted thr targets) m) c.1 c.2.
Proof.
  intros Hl Hb. assert (forall d b, (d, b) ∈ l <-> m !! d = Some b) as Hin.
  { intros d b. by rewrite Hl, elem_of_map_to_list. }
  destruct Hb as [[Hno ->]|[(b & Hb & Hc & E) Hmax]].
  - left. split; [|done]. apply map_empty. intros d. apply map_lookup_filter_None. right.
    intros b Hd Hc. rewrite Forall_forall in Hno. apply (Hno (d, b)); [by apply Hin|done].
  - right. split.
    + exists b. split; [|done]. apply map_lookup_filter_Some. split; [by apply Hin|done].
    + intros d b' [Hd Hc']%map_lookup_filter_Some. apply Hmax; [by apply Hin|done].
Qed.

Section Pick.
Context {B SS DS : Type}.
Context `{SdkMath, StakingKeeper SS, !GoRuntimeLaws rt}.

Lemma drop_uncounted_filter thr targets l (m : gmap string ExchangeRateBallot) :
  l ≡ₚ map_to_list m -> drop_uncounted thr targets l m = filter (counted thr targets) m.
Proof using Type.
  intros Hl. apply map_eq. intros d. rewrite drop_uncounted_lookup.
  assert (forall b, (d, b) ∈ l <-> m !! d = Some b) as Hin.
  { intros b. by rewrite Hl, elem_of_map_to_list. }
  destruct (decide (Exists _ l)) as [([d' b] & Hb & E & Hc)%Exists_exists|Hno].
  - simpl in E. subst d'. symmetry. apply map_lookup_filter_None. right. intros b' Hb'.
    apply Hin in Hb. simpl in *. congruence.
  - destruct (m !! d) as [b|] eqn:E.
    + symmetry. apply map_lookup_filter_Some. split; [done|].
      destruct (decide (counted thr targets (d, b))); [done|]. destruct Hno.
      apply Exists_exists. exists (d, b). split; [by apply Hin|done].
    + symmetry. apply map_lookup_filter_None. by left.
Qed.

Lemma drop_failed_filter thr targets l (m : gmap string ExchangeRateBallot) :
  l ≡ₚ map_to_list m -> drop_failed thr targets l targets = filter (kept thr m) targets.
Proof using Type.
  intros Hl. apply map_eq. intros d. rewrite drop_failed_lookup.
  assert (forall b, (d, b) ∈ l <-> m !! d = Some b) as Hin.
  { intros b. by rewrite Hl, elem_of_map_to_list. }
  destruct (decide (Exists _ l)) as [([d' b] & Hb & E & _ & Hc)%Exists_exists|Hno].
  - simpl in E. subst d'. symmetry. apply map_lookup_filter_None. right. intros t _ Hk. unfold kept in Hk.
    apply Hin in Hb. simpl in *. by rewrite Hb in Hk.
  - destruct (targets !! d) as [t|] eqn:E.
    + symmetry. apply map_lookup_filter_Some. split; [done|]. unfold kept. simpl.
      destruct (m !! d) as [b|] eqn:Em; [|done].
      destruct (decide (passing thr b)); [done|]. destruct Hno.
      apply Exists_exists. exists (d, b). split; [by apply Hin|]. by split_and!; eauto.
    + symmetry. apply map_lookup_filter_None. by left.
Qed.

(** [PickReferenceTerra] without the visiting order. *)
Lemma PickReferenceTerra_result (s : State B SS DS) targets m thr :
  threshold_votes s = Ok thr ->
  exists lg r, is_reference (filter (counted thr targets) m) lg r /\
    PickReferenceTerra s targets m =
    Ok (mkPick lg r (filter (kept thr m) targets) (filter (counted thr targets) m)).
Proof using Type*.
  intros Ht. pose proof (map_range_perm 1 _ m) as Hl. unfold PickReferenceTerra. rewrite Ht.
  cbn [rbind]. rewrite (pick_loop _ _ targets); [|by rewrite Hl; apply NoDup_fst_map_to_list|done].
  do 2 eexists. split; 
    [|by rewrite (drop_failed_filter _ _ _ m), (drop_uncounted_filter _ _ _ m)].
  eapply best_in_reference; [done|]. apply best_in_foldl.
Qed.
End Pick.

(** ** Winners and claims *)

(** A vote wins inside the spread around the median, and when it abstains. *)
Definition wins (median spread : Dec) (v : VoteForTally) : Prop :=
  median - spread <= ExchangeRate v <= median + spread \/ ExchangeRate v <= 0.
#[export] Instance wins_dec m sp v : Decision (wins m sp v).
Proof. unfold wins. apply _. Defined.

(** What a win adds to a claim. *)
Definition bump (v : VoteForTally) (c : Claim) : Claim :=
  NewClaim (CPower c) (int64 (Weight c + Power v)) (int64 (WinCount c + 1)) (Recipient c).
Definition add_win `{Bech32} (claims : gmap string Claim) (v : VoteForTally) : gmap string Claim :=
  let key := ValString (Voter v) in
  <[key := bump v (default zero_claim (claims !! key))]> claims.

Lemma bump_comm v w c : bump v (bump w c) = bump w (bump v c).
Proof. unfold bump. simpl. f_equal; rewrite !int64_add_l; f_equal; lia. Qed.

Lemma add_win_comm `{Bech32} claims v w :
  add_win (add_win claims v) w = add_win (add_win claims w) v.
Proof.
  unfold add_win. cbv zeta. destruct (decide (ValString (Voter v) = ValString (Voter w))) as [->|Hne].
  - rewrite !lookup_insert_eq. simpl. rewrite !insert_insert_eq. by rewrite bump_comm.
  - rewrite !lookup_insert_ne by done. by apply insert_insert_ne.
Qed.

Section Claims.
Context `{SdkMathLaws, Bech32}.

Lemma dec_chk_no_err z : no_err (dec_chk z).
Proof using Type. intros e. unfold dec_chk. by destruct (dec_fits z). Qed.

(** The win test with the panics of its arithmetic. *)
Definition win_test (median spread : Dec) (v : VoteForTally) : res bool :=
  let! lo := Dec_Sub median spread in
  let! within :=
    if lo <=? ExchangeRate v then
      let! hi := Dec_Add median spread in Ok (ExchangeRate v <=? hi)
    else Ok false in
  Ok (within || negb (0 <? ExchangeRate v)).

Lemma tally_vote_spec m sp c v :
  tally_vote m sp c v = (let! w := win_test m sp v in Ok (if w : bool then add_win c v else c)).
Proof using Type.
  unfold tally_vote, win_test. destruct (Dec_Sub m sp) as [lo| |]; cbn [rbind]; [|done..].
  destruct (if lo <=? ExchangeRate v then _ else _) as [w| |]; cbn [rbind]; [|done..].
  by destruct (w || _).
Qed.

Lemma win_test_Ok m sp v w : win_test m sp v = Ok w -> w = bool_decide (wins m sp v).
Proof using Type*.
  unfold win_test. sdk_unfold. intros Hw. go_inv. sdk_inv.
  apply eq_bool_prop_intro. rewrite bool_decide_spec. unfold wins.
  destruct (Z.leb_spec (m - sp) (ExchangeRate v)); go_inv; sdk_inv.
  - rewrite orb_True. destruct (Z.leb_spec (ExchangeRate v) (m + sp)),
      (Z.ltb_spec 0 (ExchangeRate v)); simpl; naive_solver lia.
  - destruct (Z.ltb_spec 0 (ExchangeRate v)); simpl; naive_solver lia.
Qed.

Lemma win_test_no_err m sp v : no_err (win_test m sp v).
Proof using Type*.
  unfold win_test. sdk_unfold. apply no_err_bind; [apply dec_chk_no_err|]. intros lo.
  apply no_err_bind; [|done]. destruct (lo <=? ExchangeRate v); [|done].
  apply no_err_bind; [apply dec_chk_no_err|done].
Qed.

(** Votes may be counted in any order, also across ballots. *)
Lemma tally_vote_comm m1 sp1 v1 m2 sp2 v2 c :
  (let! c' := tally_vote m1 sp1 c v1 in tally_vote m2 sp2 c' v2) =
  (let! c' := tally_vote m2 sp2 c v2 in tally_vote m1 sp1 c' v1).
Proof using Type*.
  rewrite !tally_vote_spec. pose proof (win_test_no_err m1 sp1 v1) as N1.
  pose proof (win_test_no_err m2 sp2 v2) as N2.
  destruct (win_test m1 sp1 v1) as [w1|e1|] eqn:E1; [|by destruct (N1 e1)|];
  (destruct (win_test m2 sp2 v2) as [w2|e2|] eqn:E2; [|by destruct (N2 e2)|]);
    cbn [rbind]; rewrite ?tally_vote_spec, ?E1, ?E2; cbn [rbind]; try done.
  f_equal. destruct w1, w2; try done. apply add_win_comm.
Qed.

Lemma tally_votes_perm m sp c b1 b2 : b1 ≡ₚ b2 ->
  rfold (tally_vote m sp) c b1 = rfold (tally_vote m sp) c b2.
Proof using Type*. apply rfold_perm. intros. apply tally_vote_comm. Qed.

Lemma Tally_perm b1 b2 band c : ballot_eq b1 b2 -> Tally b1 band c = Tally b2 band c.
Proof using Type*.
  intros ((Hs1 & Hp1 & _) & (Hs2 & _ & _) & E). unfold Tally, reward_spread.
  rewrite (WeightedMedian_perm b1 b2), (StandardDeviation_perm _ b1 b2) by done.
  apply rbind_ext. intros sp. by rewrite (tally_votes_perm _ _ _ b1 b2).
Qed.

(** The claims after a ballot: a fold of the wins. *)
Lemma tally_votes_fold m sp c pb c' : rfold (tally_vote m sp) c pb = Ok c' ->
  c' = foldl add_win c (filter (wins m sp) pb).
Proof using Type*.
  revert c. induction pb as [|v pb IH]; intros c; [by intros [= ->]|].
  simpl. rewrite tally_vote_spec.
  intros (c1 & (w & ->%win_test_Ok & [= <-])%rbind_Ok & ->%IH)%rbind_Ok.
  rewrite filter_cons. destruct (decide (wins m sp v)).
  - by rewrite bool_decide_true.
  - by rewrite bool_decide_false.
Qed.
End Claims.

(** Claims of distinct winners do not interfere. *)
Lemma add_wins_lookup `{Bech32} claims l k :
  NoDup ((fun v => ValString (Voter v)) <$> l) ->
  (forall v, v ∈ l -> k = ValString (Voter v) ->
     foldl add_win claims l !! k = Some (bump v (default zero_claim (claims !! k)))) /\
  (k ∉ (fun v => ValString (Voter v)) <$> l -> foldl add_win claims l !! k = claims !! k).
Proof.
  revert claims. induction l as [|w l IH]; intros claims Hnd.
  - split; [by intros v ?%not_elem_of_nil|done].
  - apply NoDup_cons in Hnd as [Hni Hnd]. destruct (IH (add_win claims w) Hnd) as [IH1 IH2]. split.
    + intros v [->|Hv]%elem_of_cons ->; simpl.
      * rewrite IH2 by done. unfold add_win. by rewrite lookup_insert_eq.
      * rewrite (IH1 v) by done. unfold add_win at 1. rewrite lookup_insert_ne; [done|].
        intros E. apply Hni. rewrite E. apply list_elem_of_fmap. by exists v.
    + simpl. rewrite not_elem_of_cons. intros [Hne Hk]. rewrite IH2 by done.
      unfold add_win. by rewrite lookup_insert_ne.
Qed.

(** ** Claims grow by at most one vote per ballot *)

(** After [k] ballots: the same claimants, at most [k] wins, and a weight of at
    most [k] times the power. *)
Definition grown (k : Z) (c0 c : gmap string Claim) : Prop :=
  forall key, match c0 !! key, c !! key with
  | Some a, Some b => CPower b = CPower a /\ Recipient b = Recipient a /\
      0 <= Weight b <= k * CPower a /\ 0 <= WinCount b <= k
  | None, None => True
  | _, _ => False
  end.

Lemma grown_step `{Bech32Laws} k c0 c ws : grown k c0 c -> voted c0 ws -> NoDup (Voter <$> ws) ->
  0 <= k < 2^63 - 1 -> (forall key a, c0 !! key = Some a -> 0 <= CPower a /\ (k + 1) * CPower a < 2^63) ->
  grown (k + 1) c0 (foldl add_win c ws).
Proof.
  intros Hg Hv Hnd Hk Hb key. specialize (Hg key). pose proof (voted_keys _ _ Hv Hnd) as Hks.
  destruct (add_wins_lookup c ws key Hks) as [Hin Hout].
  destruct (decide (key ∈ (fun v => ValString (Voter v)) <$> ws)) as [Hi|Hn].
  - apply list_elem_of_fmap in Hi as (v & E & Hi). rewrite (Hin v Hi E).
    destruct (Hv v Hi) as (_ & a & Ha & Hp). subst key. rewrite Ha in *. destruct (Hb _ _ Ha).
    destruct (c !! ValString (Voter v)) as [b|]; [|done]. destruct Hg as (E1 & E2 & Hw & Hc). simpl.
    rewrite !int64_id by nia. split_and!; try done; nia.
  - rewrite (Hout Hn). destruct (c0 !! key) as [a|] eqn:Ea, (c !! key) as [b|]; try done.
    destruct (Hb _ _ Ea). destruct Hg as (E1 & E2 & Hw & Hc). split_and!; try done; nia.
Qed.

Lemma grown_refl c : map_Forall (fun _ a => Weight a = 0 /\ WinCount a = 0) c -> grown 0 c c.
Proof.
  intros Hc key. destruct (c !! key) as [a|] eqn:E; [|done].
  destruct (Hc _ _ E) as [-> ->]. split_and!; done || lia.
Qed.

(** ** The active set *)

(** Fresh claims, filed under the rendering of their recipient. *)
Definition fresh_claims `{Bech32} (c : gmap string Claim) : Prop :=
  map_Forall (fun k a => k = ValString (Recipient a) /\ Weight a = 0 /\ WinCount a = 0) c.

Lemma active_claims_fresh `{Bech32} get pr mx it : forall i c c',
  fresh_claims c -> active_claims get pr mx i it c = Ok c' -> fresh_claims c'.
Proof.
  induction it as [|a it IH]; intros i c c' Hc; simpl; [by intros [= <-]|].
  destruct (i <? mx); [|by intros [= <-]]. destruct (get a) as [v|]; [|done].
  destruct (IsBonded v); [|by apply IH]. apply IH. by apply map_Forall_insert_2.
Qed.

Lemma fresh_claims_empty `{Bech32} : fresh_claims ∅.
Proof. apply map_Forall_empty. Qed.

Lemma fresh_grown `{Bech32} c : fresh_claims c -> grown 0 c c.
Proof. intros Hc. apply grown_refl. intros k a Ha. by destruct (Hc _ _ Ha) as (_ & ? & ?). Qed.

(** Claims that grew from fresh ones. *)
Section Grown.
Context `{Bech32} (k : Z) (c0 c : gmap string Claim).
Hypothesis (Hf : fresh_claims c0) (Hg : grown k c0 c).

Lemma grown_lookup key b : c !! key = Some b ->
  exists a, c0 !! key = Some a /\ CPower b = CPower a /\ Recipient b = Recipient a /\
    0 <= Weight b <= k * CPower a /\ 0 <= WinCount b <= k /\ key = ValString (Recipient b).
Proof using Type*.
  intros Hb. specialize (Hg key). rewrite Hb in Hg. destruct (c0 !! key) as [a|] eqn:Ea; [|done].
  destruct Hg as (? & E & ? & ?). destruct (Hf _ _ Ea) as [-> _]. exists a. split_and!; try done; try lia.
  by rewrite E.
Qed.

Lemma grown_recipients k1 k2 b1 b2 : c !! k1 = Some b1 -> c !! k2 = Some b2 -> k1 <> k2 ->
  Recipient b1 <> Recipient b2.
Proof using Type*.
  intros (_ & _ & _ & _ & _ & _ & E1)%grown_lookup (_ & _ & _ & _ & _ & _ & E2)%grown_lookup Hne E.
  apply Hne. by rewrite E1, E2, E.
Qed.

Lemma grown_weights : zsum (fun p => Weight p.2) (map_to_list c) <=
  k * zsum (fun p => CPower p.2) (map_to_list c0).
Proof using Type*.
  rewrite <- zsum_mul_l. apply (zsum_map_le Weight (fun a => k * CPower a)). intros key.
  specialize (Hg key). destruct (c !! key), (c0 !! key); try done. tauto || lia.
Qed.
End Grown.

(** The active set of a block: powers are not negative, and their total stays
    within int64 when it is counted once per vote target. *)
Definition active_ok {B SS DS} `{Bech32, StakingKeeper SS} (s : State B SS DS) : Prop :=
  forall claims, active_claims (Validator (staking s)) (PowerReduction (staking s))
    (MaxValidators (staking s)) 0 (ValidatorsPowerStoreIterator (staking s)) ∅ = Ok claims ->
  map_Forall (fun _ c => 0 <= CPower c) claims /\
  zsum (fun p => CPower p.2) (map_to_list claims) *
    (1 + Z.of_nat (size (TobinTaxes (store s)))) < 2^63 /\
  Z.of_nat (size (TobinTaxes (store s))) < 2^62.

Lemma claims_total_nonneg (claims : gmap string Claim) : map_Forall (fun _ c => 0 <= CPower c) claims ->
  0 <= zsum (fun p => CPower p.2) (map_to_list claims).
Proof.
  intros Hc. apply zsum_nonneg, Forall_forall. intros [k c] Hin%elem_of_map_to_list. by apply (Hc k).
Qed.

Lemma claim_le_total (claims : gmap string Claim) k c : map_Forall (fun _ c => 0 <= CPower c) claims ->
  claims !! k = Some c -> CPower c <= zsum (fun p => CPower p.2) (map_to_list claims).
Proof.
  intros Hc E. rewrite <- (map_to_list_delete claims k c E), zsum_cons. simpl.
  pose proof (claims_total_nonneg (delete k claims)) as Hn.
  assert (0 <= zsum (fun p => CPower p.2) (map_to_list (delete k claims))); [|lia].
  apply Hn. by apply map_Forall_delete.
Qed.

Lemma clear_rates_spec `{Bech32} s : clear_rates s = set_rates ∅ s.
Proof.
  unfold clear_rates, IterateLunaExchangeRates.
  assert (forall l s, foldl (fun s p => DeleteLunaExchangeRate p.1 s) s l =
    set_rates (foldl (fun m (p : string * Dec) => delete p.1 m) (ExchangeRates s) l) s) as E.
  { intros l. induction l as [|p l IH]; intros s'; [by destruct s'|]. simpl. by rewrite IH. }
  rewrite E, foldl_delete_map; [done|apply kv_iter_perm].
Qed.

Lemma vote_targets_copy `{Bech32} s :
  foldl (fun m p => <[p.1 := p.2]> m) ∅ (IterateTobinTaxes s) = TobinTaxes s.
Proof. apply foldl_copy_map, kv_iter_perm. Qed.

Lemma counted_size thr (targets : gmap string Dec) (m : gmap string ExchangeRateBallot) :
  (size (filter (counted thr targets) m) <= size targets)%nat.
Proof.
  rewrite <- !size_dom. apply subseteq_size. intros d.
  rewrite !elem_of_dom. intros [b [_ [Ht _]]%map_lookup_filter_Some]. done.
Qed.
End OracleTallyFacts.
