(* ===== verification/OracleRef.v ===== *)
(** * A concrete oracle

    Reference instances of the oracle's remaining parameters and a small chain
    state (three validators, two vote targets) on which the model runs. *)

From S2P Require Import Prelude Sdk SdkRef Core OracleBallot OracleTypes OracleKeeper OracleTally.

Module OracleRef.
Export Ref.
Import Ballot OracleTypes OracleKeeper OracleTally.

(** A stand-in for the truncated hash, with its length. *)
#[export] Instance ref_hash : TmHash := {|
  tmhash_truncated s := str_take 20 (s +:+ "....................");
  TruncatedSize := 20 |}.

(** ** Parsing decimal coins: digits, an optional fraction, a denom *)

Definition digit (c : Ascii.ascii) : option Z :=
  let n := Ascii.nat_of_ascii c in
  if ((48 <=? n) && (n <=? 57))%nat then Some (Z.of_nat (n - 48)) else None.

(** The number of leading digits, their value, and the rest. *)
Fixpoint digits (acc : Z) (n : Z) (s : string) : Z * Z * string :=
  match s with
  | String c s' =>
      match digit c with Some d => digits (10 * acc + d) (n + 1) s' | None => (acc, n, s) end
  | EmptyString => (acc, n, s)
  end.

#[export] Instance ref_parser : CoinParser := fun s =>
  let '(i, n, rest) := digits 0 0 s in
  if n =? 0 then Err (Errorf "invalid decimal coin expression")
  else
    let '(amount, denom) :=
      match rest with
      | String c r =>
          if Ascii.eqb c (Ascii.ascii_of_nat 46) then
            let '(f, k, r') := digits 0 0 r in (NewDec i + f * 10 ^ (18 - k), r')
          else (NewDec i, rest)
      | EmptyString => (NewDec i, rest)
      end in
    if valid_denom denom then Ok (mkDecCoin denom amount)
    else Err (Errorf "invalid decimal coin expression").

(** ** A chain state *)

Definition valA : string := "aaaa".
Definition valB : string := "bbbb".
Definition valC : string := "cccc".

Definition demo_staking : RefStaking := mkStaking
  [validator_of valA 30000000 true false; validator_of valB 20000000 true false;
   validator_of valC 10000000 true false] 60000000 [].

Definition demo_vote (v : string) (usdr ukrw : Dec) : AggregateExchangeRateVote :=
  NewAggregateExchangeRateVote [mkTuple MicroSDRDenom usdr; mkTuple MicroKRWDenom ukrw] v.

(** Two validators agree, one abstains on the won. *)
Definition demo_store : Store := {|
  ExchangeRates := {[ MicroUSDDenom := OneDec ]};
  FeederDelegations := {[ valA := valB ]};
  MissCounters := {[ valC := 3 ]};
  Prevotes := {[ valB := NewAggregateExchangeRatePrevote "hash" valB 1 ]};
  Votes := {[ valA := demo_vote valA (NewDec 2) (NewDec 3000);
              valB := demo_vote valB (NewDec 2) (NewDec 3000);
              valC := demo_vote valC (NewDec 4) 0 ]};
  TobinTaxes := {[ MicroSDRDenom := DefaultTobinTax; MicroKRWDenom := DefaultTobinTax ]};
  KParams := DefaultParams |}.

Definition demo_bank : RefBank :=
  mkBank {[ module_address ModuleName := {[ MicroLunaDenom := 10 ^ 15; MicroSDRDenom := 10 ^ 9 ]} ]}
    {[ MicroLunaDenom := 10 ^ 16; MicroSDRDenom := 10 ^ 10 ]} ∅.

Definition demo_state : State RefBank RefStaking RefDistr :=
  mkState demo_store demo_bank demo_staking (mkDistr ∅ []) [].

(** The last block of the first vote period. *)
Definition demo_ctx : Ctx := mkCtx 4 0 "columbus-5".
Definition distrName : string := "distribution".

(** Its active set. *)
Definition demo_claims : gmap string Claim :=
  {[ ValString valA := NewClaim 30 0 0 valA; ValString valB := NewClaim 20 0 0 valB;
     ValString valC := NewClaim 10 0 0 valC ]}.

Definition demo_result : out (State RefBank RefStaking RefDistr) unit :=
  EndBlocker (rt := runtime1) distrName demo_ctx demo_state.

(** The run returns; its final state. *)
Definition demo_after : State RefBank RefStaking RefDistr := final demo_result demo_state.

Lemma demo_returns : EndBlocker (rt := runtime1) distrName demo_ctx demo_state = Ret tt demo_after.
Proof. apply returned_final. by vm_compute. Qed.
End OracleRef.
