(* ===== verification/OracleDeterminism.v ===== *)
(** * The end blocker does not depend on the Go runtime

    [EndBlocker] ranges over Go maps six times and sorts ballots with an unstable
    sort.  Every validator must compute the same state: this file relates the
    runs of two runtimes. *)

From S2P Require Import Prelude Sdk Core OracleBallot OracleTypes OracleKeeper OracleTally OracleVotes OracleTallyFacts OracleRef.

Module OracleDeterminism.
Import Ballot OracleTypes OracleKeeper OracleTally OracleVotes OracleTallyFacts.

(** ** States that agree on everything but the order of events *)

Definition st_eq {B SS DS} (s1 s2 : State B SS DS) : Prop :=
  store s1 = store s2 /\ bank s1 = bank s2 /\ staking s1 = staking s2 /\ distr s1 = distr s2 /\
  events s1 ≡ₚ events s2.

#[export] Instance st_eq_refl {B SS DS} : Reflexive (@st_eq B SS DS).
Proof. done. Qed.
#[export] Instance st_eq_sym {B SS DS} : Symmetric (@st_eq B SS DS).
Proof. intros s1 s2 (? & ? & ? & ? & ?). by split_and!. Qed.
#[export] Instance st_eq_trans {B SS DS} : Transitive (@st_eq B SS DS).
Proof.
  intros s1 s2 s3 (? & ? & ? & ? & ?) (? & ? & ? & ? & ?). split_and!; etrans; eauto.
Qed.

Section Frames.
Context {B SS DS : Type}.
Abbreviation OM := (M (State B SS DS)).

(** A computation that neither reads nor reorders the events. *)
Definition proper {A} (c : OM A) : Prop :=
  forall s1 s2, st_eq s1 s2 -> orel eq st_eq (c s1) (c s2).

Lemma proper_bind {A C} (c : OM A) (k : A -> OM C) :
  proper c -> (forall a, proper (k a)) -> proper (bind c k).
Proof using Type.
  intros Hc Hk s1 s2 Hs. eapply bind_orel; [by apply Hc|]. intros a1 a2 t1 t2 -> Ht. by apply Hk.
Qed.
Lemma proper_ret {A} (a : A) : proper (ret a).
Proof using Type. done. Qed.
Lemma proper_panic {A} : proper (panic : OM A).
Proof using Type. done. Qed.
Lemma proper_fail {A} e : proper (fail e : OM A).
Proof using Type. done. Qed.
Lemma proper_lift {A} (r : res A) : proper (lift r).
Proof using Type. intros s1 s2 Hs. unfold lift. by destruct r. Qed.
Lemma proper_gets {A} (f : State B SS DS -> A) :
  (forall s1 s2, st_eq s1 s2 -> f s1 = f s2) -> proper (gets f).
Proof using Type. intros Hf s1 s2 Hs. split; [by apply Hf|done]. Qed.
Lemma proper_on_store f : proper (on_store f).
Proof using Type. intros s1 s2 (E & ? & ? & ? & ?). split; [done|]. split_and!; simpl; congruence || done. Qed.
Lemma proper_emit e : proper (emit e).
Proof using Type. intros s1 s2 (? & ? & ? & ? & E). split; [done|]. split_and!; simpl; try done. by rewrite E. Qed.
Lemma proper_on_bank {A} (c : M B A) : proper (on_bank c).
Proof using Type.
  intros s1 s2 (? & E & ? & ? & ?). unfold on_bank, zoom. rewrite E.
  destruct (c (bank s2)); simpl; try split; done || by split_and!.
Qed.
Lemma proper_on_staking {A} (c : M SS A) : proper (on_staking c).
Proof using Type.
  intros s1 s2 (? & ? & E & ? & ?). unfold on_staking, zoom. rewrite E.
  destruct (c (staking s2)); simpl; try split; done || by split_and!.
Qed.
Lemma proper_on_distr {A} (c : M DS A) : proper (on_distr c).
Proof using Type.
  intros s1 s2 (? & ? & ? & E & ?). unfold on_distr, zoom. rewrite E.
  destruct (c (distr s2)); simpl; try split; done || by split_and!.
Qed.
Lemma proper_on_modules {A} (c : M (B * SS * DS) A) : proper (on_modules c).
Proof using Type.
  intros s1 s2 (? & E1 & E2 & E3 & ?). unfold on_modules, zoom. rewrite E1, E2, E3.
  destruct (c _) as [a [[b st] d]|e [[b st] d]|]; simpl; try split; done || by split_and!.
Qed.
Lemma proper_must {A} (c : OM A) : proper c -> proper (must c).
Proof using Type.
  intros Hc s1 s2 Hs. specialize (Hc s1 s2 Hs). unfold must.
  by destruct (c s1), (c s2).
Qed.
Lemma proper_mfor {A} (l : list A) (f : A -> OM unit) :
  (forall x, proper (f x)) -> proper (mfor l f).
Proof using Type.
  intros Hf. induction l; [apply proper_ret|]. by apply proper_bind.
Qed.
Lemma proper_mfold {A C} (f : C -> A -> OM C) c l :
  (forall c x, proper (f c x)) -> proper (mfold f c l).
Proof using Type.
  intros Hf. revert c. induction l; intros c; [apply proper_ret|]. by apply proper_bind.
Qed.
End Frames.

(** Reading the whole state is fine as long as the events are not used. *)
Lemma proper_gets_id {B SS DS A} (k : State B SS DS -> M (State B SS DS) A) :
  (forall s1 s2, st_eq s1 s2 -> forall s, k s1 s = k s2 s) -> (forall s, proper (k s)) ->
  proper (let* s := gets id in k s).
Proof.
  intros Hk Hp s1 s2 Hs. unfold bind, gets, id. rewrite (Hk s1 s2 Hs). by apply Hp.
Qed.

Create HintDb frames.
#[export] Hint Resolve proper_bind proper_ret proper_panic proper_fail proper_lift proper_on_store
  proper_emit proper_on_bank proper_on_staking proper_on_distr proper_on_modules proper_must proper_mfor
  proper_mfold : frames.

(** Discharge [proper] goals by following the structure of the code. *)
Ltac frame :=
  repeat match goal with
  | |- proper (bind _ _) => apply proper_bind; [|intros]
  | |- proper (mfor _ _) => apply proper_mfor; intros
  | |- proper (mfold _ _ _) => apply proper_mfold; intros
  | |- proper (must _) => apply proper_must
  | |- proper (gets _) => apply proper_gets; intros ? ? (? & ? & ? & ? & ?); simpl; congruence
  | |- proper (if ?b then _ else _) => destruct b
  | |- proper (match ?x with _ => _ end) => destruct x
  | |- proper _ => solve [eauto 3 with frames nocore]
  end.

Section Determinism.
Context {B SS DS : Type}.
Context `{HM : SdkMath, !SdkMathLaws, HC : SdkCoins, !SdkCoinsLaws, HA : Bech32, !Bech32Laws,
  HB : BankKeeper B, HS : StakingKeeper SS, !StakingLaws SS, HD : DistrKeeper DS, !DistrLaws DS,
  HL : SlashKeeper B SS DS, HG : GoStrings}.
Abbreviation St := (State B SS DS).
Abbreviation OM := (M (State B SS DS)).

Lemma proper_ApplyWhitelist wl vt : proper (ApplyWhitelist (B := B) (SS := SS) (DS := DS) wl vt).
Proof using Type. unfold ApplyWhitelist. frame. Qed.

Lemma proper_SlashAndReset ctx : proper (SlashAndResetMissCounters (B := B) (SS := SS) (DS := DS) ctx).
Proof using Type.
  unfold SlashAndResetMissCounters. apply proper_gets_id.
  - intros s1 s2 (E1 & _ & E3 & _) s. by rewrite E1, E3.
  - intros s. unfold slash_one. frame.
Qed.

(** ** Cross rates *)

(** The rates of the voters, when each votes once. *)
Lemma ToMap_lookup b (m : gmap string Dec) k r :
  NoDup (Voter <$> b) -> (forall v, v ∈ b -> m !! Voter v = None) ->
  foldl (fun m v => if 0 <? ExchangeRate v then <[Voter v := ExchangeRate v]> m else m) m b !! k
    = Some r <->
  m !! k = Some r \/ exists v, v ∈ b /\ Voter v = k /\ ExchangeRate v = r /\ 0 < r.
Proof using Type.
  revert m. induction b as [|v b IH]; intros m Hnd Hm.
  - simpl. split; [by left|]. intros [?|(v & Hv & _)]; [done|by apply not_elem_of_nil in Hv].
  - apply NoDup_cons in Hnd as [Hni Hnd]. simpl. rewrite IH; [|done|].
    + assert (m !! Voter v = None) as Hv by (apply Hm; left).
      destruct (Z.ltb_spec 0 (ExchangeRate v)).
      * destruct (decide (Voter v = k)) as [<-|Hne].
        -- rewrite lookup_insert_eq. split.
           ++ intros [[= <-]|(w & Hw & E & ?)]; [right; exists v; split_and!; [left|done..]|].
              destruct Hni. rewrite <- E. apply list_elem_of_fmap. by exists w.
           ++ intros [?|(w & [->|Hw]%elem_of_cons & E & <- & ?)]; [congruence|by left|].
              destruct Hni. rewrite <- E. apply list_elem_of_fmap. by exists w.
        -- rewrite lookup_insert_ne by done. setoid_rewrite elem_of_cons. naive_solver.
      * setoid_rewrite elem_of_cons. naive_solver lia.
    + intros w Hw. assert (Voter w <> Voter v).
      { intros E. apply Hni. rewrite <- E. apply list_elem_of_fmap. by exists w. }
      destruct (0 <? ExchangeRate v); [rewrite lookup_insert_ne by done|];
        apply Hm; by right.
Qed.

Lemma ToMap_perm b1 b2 : NoDup (Voter <$> b1) -> b1 ≡ₚ b2 -> ToMap b1 = ToMap b2.
Proof using Type.
  intros Hnd E. assert (NoDup (Voter <$> b2)) as Hnd2 by (by rewrite <- E).
  apply map_eq. intros k. apply option_eq. intros r. unfold ToMap.
  rewrite !ToMap_lookup by done. by setoid_rewrite E.
Qed.

Lemma cross_vote_no_err bases v : no_err (cross_vote bases v).
Proof using Type*.
  unfold cross_vote. repeat case_match; try done. apply no_err_bind; [|done].
  rewrite Dec_Quo_spec. case_match; [done|]. apply dec_chk_no_err.
Qed.

(** A cross vote keeps its voter, and its power or none. *)
Lemma cross_vote_same bases v v' : cross_vote bases v = Ok v' -> 0 <= Power v ->
  Voter v' = Voter v /\ 0 <= Power v' <= Power v.
Proof using Type.
  unfold cross_vote. intros Hv Hp. repeat case_match; go_inv; simplify_eq/=; split; done || lia.
Qed.

Lemma cross_votes_ok bases b c :
  Forall2 (fun x y => cross_vote bases x = Ok y) b c -> powers_ok b -> NoDup (Voter <$> b) ->
  powers_ok c /\ NoDup (Voter <$> c) /\ Voter <$> c = Voter <$> b.
Proof using Type.
  intros Hbc Hp Hn.
  assert (Voter <$> c = Voter <$> b /\ Forall (fun v => 0 <= Power v) c /\ power_of c <= power_of b)
    as (E & Hc & Hle); [|destruct Hp; split; [split; [done|lia]|by rewrite E]].
  destruct Hp as [Hp _]. clear Hn. induction Hbc as [|v v' b c Hv Hbc IH]; [done|].
  apply Forall_cons in Hp as [Hp1 Hp]. destruct (cross_vote_same _ _ _ Hv Hp1) as [E1 ?].
  destruct (IH Hp) as (E & Hc & Hle). rewrite !fmap_cons, E1, E, !zsum_cons.
  split_and!; [done|constructor; [lia|done]|lia].
Qed.

Lemma ToCrossRateWithSort_rel (rt1 rt2 : GoRuntime) `{!GoRuntimeLaws rt1, !GoRuntimeLaws rt2}
    b1 b2 bases : ballot_eq b1 b2 ->
  (ToCrossRateWithSort (H := HM) (H0 := rt1) b1 bases = Panic /\
   ToCrossRateWithSort (H0 := rt2) b2 bases = Panic) \/
  exists c1 c2, ToCrossRateWithSort (H0 := rt1) b1 bases = Ok c1 /\
    ToCrossRateWithSort (H0 := rt2) b2 bases = Ok c2 /\ ballot_eq c1 c2 /\
    Voter <$> c1 ≡ₚ Voter <$> b1.
Proof using Type*.
  intros ((Hs1 & Hp1 & Hn1) & (Hs2 & Hp2 & Hn2) & E).
  unfold ToCrossRateWithSort, ToCrossRate. rewrite !rfold_rmap.
  destruct (rmap_perm (cross_vote bases) b1 b2 (cross_vote_no_err bases) E)
    as [[-> ->]|(c1 & c2 & E1 & E2 & Ec)]; [by left|right].
  rewrite E1, E2. simpl. do 2 eexists. split_and!; [done..| |].
  - destruct (cross_votes_ok _ _ _ (rmap_Forall2 _ _ _ E1) Hp1 Hn1) as (? & ? & _).
    destruct (cross_votes_ok _ _ _ (rmap_Forall2 _ _ _ E2) Hp2 Hn2) as (? & ? & _).
    split_and!; [by apply sort_good|by apply sort_good|by rewrite !sort_Sort_perm].
  - destruct (cross_votes_ok _ _ _ (rmap_Forall2 _ _ _ E1) Hp1 Hn1) as (_ & _ & Ev).
    by rewrite sort_Sort_perm, Ev.
Qed.

(** ** Tallying the ballots *)

(** Whole ballots may be counted in any order. *)
Lemma tally_ballots_comm m1 sp1 b1 m2 sp2 b2 (c : gmap string Claim) :
  (let! c' := rfold (tally_vote m1 sp1) c b1 in rfold (tally_vote m2 sp2) c' b2) =
  (let! c' := rfold (tally_vote m2 sp2) c b2 in rfold (tally_vote m1 sp1) c' b1).
Proof using Type*.
  set (step := fun (c : gmap string Claim) (i : Dec * Dec * VoteForTally) =>
    tally_vote i.1.1 i.1.2 c i.2).
  assert (forall m sp c b, rfold (tally_vote m sp) c b =
    rfold step c ((fun v => (m, sp, v)) <$> b)) as E by (intros; by rewrite rfold_fmap).
  set (i1 := (fun v => (m1, sp1, v)) <$> b1). set (i2 := (fun v => (m2, sp2, v)) <$> b2).
  trans (rfold step c (i1 ++ i2)); [rewrite rfold_app, E; apply rbind_ext; intros; apply E|].
  trans (rfold step c (i2 ++ i1)).
  - apply rfold_perm; [|apply Permutation_app_comm]. intros. apply tally_vote_comm.
  - rewrite rfold_app, E. apply rbind_ext. intros. symmetry. apply E.
Qed.

Lemma tally_votes_no_err m sp (c : gmap string Claim) b : no_err (rfold (tally_vote m sp) c b).
Proof using Type*.
  apply rfold_no_err. intros c' v. rewrite tally_vote_spec.
  apply no_err_bind; [apply win_test_no_err|done].
Qed.

Lemma reward_spread_no_err b m band : no_err (reward_spread b m band).
Proof using Type*.
  unfold reward_spread. sdk_unfold. simpl. rewrite Dec_Mul_spec.
  apply no_err_bind; [apply dec_chk_no_err|]. intros. by destruct (StandardDeviation b m).
Qed.

(** The parts of a ballot's tally that do not depend on the claims. *)
Definition prepare {rt : GoRuntime} (band : Dec) (refT : string) (mapRT : gmap string Dec)
    (rateRT : Dec) (p : string * ExchangeRateBallot) : res (Dec * Dec * ExchangeRateBallot * Dec) :=
  let isRT := String.eqb p.1 refT in
  let! b := if isRT then Ok p.2 else ToCrossRateWithSort p.2 mapRT in
  let m := WeightedMedian b in
  let! sp := reward_spread b m band in
  let! rate := if isRT then Ok m else Dec_Quo rateRT m in
  Ok (m, sp, b, rate).

Definition record_rate (d : string) (rate : Dec) (s : St) : St :=
  mkState (SetLunaExchangeRate d rate (store s)) (bank s) (staking s) (distr s)
    (events s ++ [EventExchangeRateUpdate d rate]).

Definition finish (d : string) (rate : Dec) (s : St) (r : res (gmap string Claim))
    : out St (gmap string Claim) :=
  match r with Ok c => Ret c (record_rate d rate s) | _ => Halt end.

Lemma ToCross_no_err {rt : GoRuntime} b m : no_err (ToCrossRateWithSort b m).
Proof using Type*.
  unfold ToCrossRateWithSort. apply no_err_bind; [|done]. apply rfold_no_err.
  intros cb v. apply no_err_bind; [apply cross_vote_no_err|done].
Qed.

Lemma tally_denom_prepare {rt : GoRuntime} band refT mapRT rateRT c p (s : St) :
  tally_denom band refT mapRT rateRT c p s =
  match prepare band refT mapRT rateRT p with
  | Ok (m, sp, b, rate) => finish p.1 rate s (rfold (tally_vote m sp) c b)
  | _ => Halt
  end.
Proof using Type*.
  destruct p as [d b0]. unfold tally_denom, prepare. simpl. unfold bind at 1, lift at 1.
  assert (no_err (if String.eqb d refT then Ok b0 else ToCrossRateWithSort b0 mapRT)) as N.
  { destruct (String.eqb d refT); [done|apply ToCross_no_err]. }
  destruct (if String.eqb d refT then Ok b0 else _) as [b|e|]; [|by destruct (N e)|done].
  cbn [rbind]. unfold Tally. pose proof (reward_spread_no_err b (WeightedMedian b) band) as N1.
  destruct (reward_spread b _ band) as [sp|e|]; [|by destruct (N1 e)|done]. cbn [rbind].
  pose proof (tally_votes_no_err (WeightedMedian b) sp c b) as N2. unfold finish.
  assert (no_err (if String.eqb d refT then Ok (WeightedMedian b) else Dec_Quo rateRT (WeightedMedian b)))
    as N3.
  { destruct (String.eqb d refT); [done|]. rewrite Dec_Quo_spec.
    case_match; [done|apply dec_chk_no_err]. }
  destruct (rfold _ c b) as [c'|e|] eqn:Er; [|by destruct (N2 e)|]; cbn [rbind]; unfold bind, lift;
    set (rate := if String.eqb d refT then Ok (WeightedMedian b)
                 else Dec_Quo rateRT (WeightedMedian b)) in *;
    clearbody rate; (destruct rate as [rate|e|]; [|by destruct (N3 e)|]);
    cbn [rbind]; by rewrite ?Er.
Qed.

Lemma tally_denom_rel (rt1 rt2 : GoRuntime) `{!GoRuntimeLaws rt1, !GoRuntimeLaws rt2}
    band refT mapRT rateRT c d b1 b2 (s : St) : ballot_eq b1 b2 ->
  tally_denom (rt := rt1) band refT mapRT rateRT c (d, b1) s =
  tally_denom (rt := rt2) band refT mapRT rateRT c (d, b2) s.
Proof using Type*.
  intros Hb. unfold tally_denom. destruct (String.eqb d refT).
  - unfold bind at 1 5, lift at 1 4. by rewrite (Tally_perm b1 b2).
  - unfold bind at 1 5, lift at 1 4.
    destruct (ToCrossRateWithSort_rel rt1 rt2 b1 b2 mapRT Hb)
      as [[-> ->]|(c1 & c2 & -> & -> & Hc & _)]; [done|]. by rewrite (Tally_perm c1 c2).
Qed.

Lemma tally_denom_proper {rt : GoRuntime} band refT mapRT rateRT c p :
  proper (tally_denom (B := B) (SS := SS) (DS := DS) band refT mapRT rateRT c p).
Proof using Type. destruct p. unfold tally_denom, SetLunaExchangeRateWithEvent. frame. Qed.

Lemma record_rate_comm d1 r1 d2 r2 (s : St) : d1 <> d2 ->
  st_eq (record_rate d2 r2 (record_rate d1 r1 s)) (record_rate d1 r1 (record_rate d2 r2 s)).
Proof using Type.
  intros Hne. unfold record_rate, SetLunaExchangeRate, set_rates. split_and!; simpl; try done.
  - f_equal. by apply insert_insert_ne.
  - rewrite <- !app_assoc. f_equiv. apply Permutation_swap.
Qed.

Lemma tally_denom_comm {rt : GoRuntime} band refT mapRT rateRT p q :
  p.1 <> q.1 -> step_commute eq st_eq (tally_denom (B := B) (SS := SS) (DS := DS) band refT mapRT rateRT) p q.
Proof using Type*.
  intros Hne c s _ _. unfold bind. rewrite !tally_denom_prepare.
  destruct (prepare _ _ _ _ p) as [[[[m1 sp1] b1] r1]|e|] eqn:Ep;
    destruct (prepare _ _ _ _ q) as [[[[m2 sp2] b2] r2]|e'|] eqn:Eq; try done.
  - pose proof (tally_ballots_comm m1 sp1 b1 m2 sp2 b2 c) as Hc. unfold finish.
    destruct (rfold (tally_vote m1 sp1) c b1) as [c1| |] eqn:E1,
      (rfold (tally_vote m2 sp2) c b2) as [c2| |] eqn:E2; simpl in Hc;
      rewrite ?tally_denom_prepare, ?Ep, ?Eq; unfold finish; rewrite <- ?Hc; try done;
      try (rewrite Hc; done).
    destruct (rfold (tally_vote m2 sp2) c1 b2); try done.
    split; [done|]. by apply record_rate_comm.
  - unfold finish. destruct (rfold _ c b1); [|done..]. by rewrite tally_denom_prepare, Eq.
  - unfold finish. destruct (rfold _ c b1); [|done..]. by rewrite tally_denom_prepare, Eq.
  - unfold finish. destruct (rfold _ c b2); [|done..]. by rewrite tally_denom_prepare, Ep.
  - unfold finish. destruct (rfold _ c b2); [|done..]. by rewrite tally_denom_prepare, Ep.
Qed.

(** Maps of ballots that agree up to ties. *)
Definition votes_eq (m1 m2 : gmap string ExchangeRateBallot) : Prop :=
  forall d, option_Forall2 ballot_eq (m1 !! d) (m2 !! d).

(** The entries of [m1] with the ballots of [m2], in the order of [m1]. *)
Lemma votes_eq_reorder m1 m2 l : votes_eq m1 m2 -> l ≡ₚ map_to_list m1 ->
  ((fun p => (p.1, default [] (m2 !! p.1))) <$> l) ≡ₚ map_to_list m2.
Proof using Type.
  intros Hm Hl. apply NoDup_Permutation.
  - apply (NoDup_fmap_1 fst). rewrite <- list_fmap_compose. simpl.
    rewrite Hl. apply NoDup_fst_map_to_list.
  - apply NoDup_map_to_list.
  - intros [d b]. rewrite elem_of_map_to_list, list_elem_of_fmap. specialize (Hm d). split.
    + intros ([d' b'] & [= -> ->] & Hin). rewrite Hl in Hin. apply elem_of_map_to_list in Hin.
      simpl in *. rewrite Hin in Hm. by inversion Hm.
    + intros Hd. rewrite Hd in Hm. inversion Hm as [b1 ? Hb E1|]; subst.
      exists (d, b1). simpl. rewrite Hd. split; [done|]. rewrite Hl. by apply elem_of_map_to_list.
Qed.

Lemma tally_loop_rel (rt1 rt2 : GoRuntime) `{!GoRuntimeLaws rt1, !GoRuntimeLaws rt2}
    band refT mapRT rateRT c m1 m2 n (s : St) : votes_eq m1 m2 ->
  orel eq st_eq (mfold (tally_denom (rt := rt1) band refT mapRT rateRT) c (map_range (GoRuntime := rt1) n m1) s)
    (mfold (tally_denom (rt := rt2) band refT mapRT rateRT) c (map_range (GoRuntime := rt2) n m2) s).
Proof using Type*.
  intros Hm. pose proof (map_range_perm (rt := rt1) n _ m1) as Hl1.
  set (g := fun p : string * ExchangeRateBallot => (p.1, default [] (m2 !! p.1))).
  assert (mfold (tally_denom (rt := rt1) band refT mapRT rateRT) c (map_range (GoRuntime := rt1) n m1) s =
    mfold (tally_denom (rt := rt2) band refT mapRT rateRT) c (g <$> map_range (GoRuntime := rt1) n m1) s) as ->.
  { assert (forall p, p ∈ map_range (GoRuntime := rt1) n m1 -> m1 !! p.1 = Some p.2) as Hin.
    { intros [d b] Hp. rewrite Hl1 in Hp. by apply elem_of_map_to_list in Hp. }
    clear Hl1. revert c s Hin.
    induction (map_range (GoRuntime := rt1) n m1) as [|[d b] l IH]; intros c s Hin; [done|].
    rewrite fmap_cons. cbn [mfold]. change (g (d, b)) with (d, default [] (m2 !! d)).
    unfold bind. assert (ballot_eq b (default [] (m2 !! d))) as Hb.
    { specialize (Hin (d, b)). specialize (Hm d). simpl in Hin. rewrite Hin in Hm by left.
      by inversion Hm. }
    rewrite (tally_denom_rel rt1 rt2 _ _ _ _ _ _ _ _ _ Hb).
    destruct (tally_denom _ _ _ _ _ _ s); [|done..]. apply IH. intros p Hp. apply Hin. by right. }
  assert (g <$> map_range (GoRuntime := rt1) n m1 ≡ₚ map_to_list m2) as Hg
    by (by apply (votes_eq_reorder m1)).
  apply (mfold_perm eq st_eq _ (fun p q => p.1 <> q.1)); [..|done|done].
  - intros x y Hxy E. by apply Hxy.
  - intros p _ b1 b2 s1 s2 <- Hs. by apply tally_denom_proper.
  - intros p q _ _. apply tally_denom_comm.
  - apply (ForallOrdPairs_keys fst). rewrite Hg. apply NoDup_fst_map_to_list.
  - by rewrite Hg, map_range_perm.
Qed.

Lemma tally_all_rel (rt1 rt2 : GoRuntime) `{!GoRuntimeLaws rt1, !GoRuntimeLaws rt2}
    band c lg1 lg2 r t1 t2 m1 m2 (s : St) : votes_eq m1 m2 ->
  orel eq st_eq (tally_all (rt := rt1) band (mkPick lg1 r t1 m1) c s)
    (tally_all (rt := rt2) band (mkPick lg2 r t2 m2) c s).
Proof using Type*.
  intros Hm. unfold tally_all. simpl. destruct (String.eqb r ""); [done|].
  assert (ToMap (default [] (m1 !! r)) = ToMap (default [] (m2 !! r)) /\
    WeightedMedian (default [] (m1 !! r)) = WeightedMedian (default [] (m2 !! r))) as [-> ->].
  { specialize (Hm r). inversion Hm as [b1 b2 ((Hs1 & Hp1 & Hn1) & (Hs2 & _) & E)|]; [|done].
    simpl. split; [by apply ToMap_perm|by apply WeightedMedian_perm]. }
  by apply tally_loop_rel.
Qed.

(** ** The claims after the tally *)

Lemma cross_votes_voted bases b c claims :
  Forall2 (fun x y => cross_vote bases x = Ok y) b c -> voted claims b -> voted claims c.
Proof using Type.
  intros Hbc Hv y Hy. destruct (list_elem_of_lookup_1 _ _ Hy) as [i Hi].
  destruct (Forall2_lookup_r _ _ _ _ _ Hbc Hi) as (x & Hx & Hxy).
  destruct (Hv x) as (Ha & a & Ec & Hp); [by eapply list_elem_of_lookup_2|].
  destruct (cross_vote_same _ _ _ Hxy) as [E ?]; [lia|]. rewrite E. split; [done|].
  exists a. split; [done|lia].
Qed.

Lemma prepare_voted {rt : GoRuntime} `{!GoRuntimeLaws rt} band refT mapRT rateRT claims d b m sp b' rate :
  good_ballot b -> voted claims b ->
  prepare band refT mapRT rateRT (d, b) = Ok (m, sp, b', rate) ->
  good_ballot b' /\ voted claims b'.
Proof using Type*.
  intros Hb Hv. unfold prepare. simpl. destruct (String.eqb d refT); [intros ?; by go_inv|].
  intros (b1 & Hc & Hr)%rbind_Ok.
  assert (good_ballot b1 /\ voted claims b1) as Hg; [|by go_inv]. clear Hr.
  unfold ToCrossRateWithSort, ToCrossRate in Hc. rewrite rfold_rmap in Hc. go_inv.
  match goal with HR : rmap _ _ = Ok _ |- _ => apply rmap_Forall2 in HR as Hf end.
  destruct Hb as (_ & Hp & Hn). destruct (cross_votes_ok _ _ _ Hf Hp Hn) as (? & ? & _).
  split; [by apply sort_good|]. intros v Hin. rewrite sort_Sort_perm in Hin.
  by eapply cross_votes_voted.
Qed.

Lemma filter_NoDup_voters m sp b : NoDup (Voter <$> b) -> NoDup (Voter <$> filter (wins m sp) b).
Proof using Type.
  induction b as [|v b IH]; intros Hnd; [done|]. apply NoDup_cons in Hnd as [Hni Hnd].
  rewrite filter_cons. destruct (decide _) as [_|_]; [|by apply IH]. simpl.
  constructor; [|by apply IH]. intros (w & E & [_ Hw]%list_elem_of_filter)%list_elem_of_fmap.
  apply Hni. rewrite E. apply list_elem_of_fmap. by exists w.
Qed.

Lemma tally_loop_grown {rt : GoRuntime} `{!GoRuntimeLaws rt} band refT mapRT rateRT c0 l :
  Forall (fun p => good_ballot p.2 /\ voted c0 p.2) l ->
  forall k c (s : St) c' s', grown k c0 c -> 0 <= k -> k + Z.of_nat (length l) < 2^63 - 1 ->
  (forall key a, c0 !! key = Some a ->
     0 <= CPower a /\ (k + Z.of_nat (length l)) * CPower a < 2^63) ->
  mfold (tally_denom band refT mapRT rateRT) c l s = Ret c' s' ->
  grown (k + Z.of_nat (length l)) c0 c'.
Proof using Type*.
  induction 1 as [|[d b] l [Hb Hv] Hl IH]; intros k c s c' s' Hg Hk Hlen Hbd.
  - simpl. unfold ret. intros [= <- _]. by rewrite Z.add_0_r.
  - cbn [mfold]. intros (c1 & s1 & Ht & Hr)%bind_Ret. rewrite tally_denom_prepare in Ht.
    destruct (prepare _ _ _ _ _) as [[[[m sp] b'] rate]| |] eqn:Ep; [|done..].
    destruct (prepare_voted _ _ _ _ _ _ _ _ _ _ _ Hb Hv Ep) as [(_ & _ & Hn') Hv'].
    unfold finish in Ht. destruct (rfold _ c b') as [c1'| |] eqn:Er; [|done..].
    injection Ht as <- <-. apply tally_votes_fold in Er as ->. cbn [length] in *.
    replace (k + Z.of_nat (S (length l))) with (k + 1 + Z.of_nat (length l)) in * by lia.
    eapply IH; [|lia|lia|done|exact Hr]. apply grown_step; [done| |by apply filter_NoDup_voters|lia|].
    + intros v [_ Hin]%list_elem_of_filter. by apply Hv'.
    + intros key a Ha. destruct (Hbd key a Ha). split; [done|nia].
Qed.

(** ** Miss counting *)

Lemma count_miss_comm n p q :
  step_commute eq st_eq (fun _ => count_miss (B := B) (SS := SS) (DS := DS) n) p q.
Proof using Type.
  intros [] s _ _. unfold count_miss, bind.
  destruct (WinCount p.2 =? n), (WinCount q.2 =? n); try done.
  split; [done|]. split_and!; try done. simpl.
  unfold SetMissCounter, set_misses, GetMissCounter. simpl. f_equal.
  destruct (decide (Recipient p.2 = Recipient q.2)) as [->|Hne].
  - by rewrite !lookup_insert_eq, !insert_insert_eq.
  - rewrite !lookup_insert_ne by done. by apply insert_insert_ne.
Qed.

Lemma count_misses_rel n l1 l2 (s1 s2 : St) : l1 ≡ₚ l2 -> st_eq s1 s2 ->
  orel eq st_eq (mfor l1 (count_miss n) s1) (mfor l2 (count_miss n) s2).
Proof using Type.
  intros Hl Hs. rewrite !mfor_mfold.
  apply (mfold_perm eq st_eq _ (fun _ _ => True)); [done|..|done|done|done].
  - intros p _ b1 b2 t1 t2 <- Ht. unfold count_miss. destruct (_ =? _); [done|].
    by apply proper_on_store.
  - intros p q _ _ _. apply count_miss_comm.
  - apply ForallOrdPairs_True.
Qed.

(** ** Rewards *)

(** The coin one denom adds to the period's rewards. *)
Definition period_coin (ratio : Dec) (b : B) (denom : string) : res (option DecCoin) :=
  let pool := GetBalance b (GetModuleAddress ModuleName) denom in
  if Amount pool =? 0 then Ok None
  else
    let! a := Dec_Mul (NewDec (Amount pool)) ratio in
    let! c := NewDecCoinFromDec denom a in
    Ok (Some c).

Lemma period_coin_no_err ratio b d : no_err (period_coin ratio b d).
Proof using Type*.
  unfold period_coin. case_match; [done|]. apply no_err_bind.
  - rewrite Dec_Mul_spec. apply dec_chk_no_err.
  - intros a. apply no_err_bind; [|done]. intros e. rewrite NewDecCoinFromDec_spec. by case_match.
Qed.

Lemma period_coin_weak ratio b d c : period_coin ratio b d = Ok (Some c) -> decoins_weak [c].
Proof using Type*.
  unfold period_coin. case_match; [done|]. intros Hc. go_inv.
  match goal with HN : NewDecCoinFromDec _ _ = Ok _ |- _ =>
    by apply NewDecCoinFromDec_weak in HN as [_ ?] end.
Qed.

Definition add_coin (pr : DecCoins) (o : option DecCoin) : res DecCoins :=
  match o with None => Ok pr | Some c => DecCoins_Add pr [c] end.

Lemma add_period_reward_spec ratio pr d (s : St) :
  add_period_reward ratio pr d s =
  match period_coin ratio (bank s) d with
  | Ok o => lift (add_coin pr o) s
  | _ => Halt
  end.
Proof using Type*.
  pose proof (period_coin_no_err ratio (bank s) d) as N.
  unfold add_period_reward, period_coin, GetRewardPool in *. unfold bind, gets.
  destruct (Amount _ =? 0); [done|]. unfold lift at 1.
  destruct (Dec_Mul _ _) as [a|e|]; [|by destruct (N e)|done]. simpl in *. unfold lift at 1.
  destruct (NewDecCoinFromDec d a) as [c|e|]; [done|by destruct (N e)|done].
Qed.

Abbreviation same_rewards := (fun a b : DecCoins => a = b /\ decoins_ok a).

Lemma add_coin_cases pr ratio b d o : decoins_ok pr -> period_coin ratio b d = Ok o ->
  (exists x, add_coin pr o = Ok x /\ decoins_ok x) \/ add_coin pr o = Panic.
Proof using Type*.
  intros Hok Ho. destruct o as [c|]; simpl; [|left; by exists pr].
  apply period_coin_weak in Ho. apply decoins_ok_weak in Hok.
  destruct (DecCoins_Add_cases pr [c] Hok Ho) as [[_ (x & E & Hx & _)]|[E _]];
    [left; by exists x|by right].
Qed.

Lemma add_coin_comm pr ratio b d1 d2 o1 o2 : decoins_ok pr ->
  period_coin ratio b d1 = Ok o1 -> period_coin ratio b d2 = Ok o2 ->
  (let! x := add_coin pr o1 in add_coin x o2) = (let! x := add_coin pr o2 in add_coin x o1).
Proof using Type*.
  intros Hok H1' H2'. destruct o1 as [c1|], o2 as [c2|]; simpl; try done.
  - apply DecCoins_Add_comm; [by apply decoins_ok_weak|by eapply period_coin_weak..].
  - by destruct (DecCoins_Add pr [c1]).
  - by destruct (DecCoins_Add pr [c2]).
Qed.

Lemma add_period_reward_proper ratio d :
  step_proper same_rewards st_eq (add_period_reward (B := B) (SS := SS) (DS := DS) ratio) d.
Proof using Type*.
  intros b1 b2 s1 s2 [<- Hok] Hs. rewrite !add_period_reward_spec.
  destruct Hs as (? & E & ? & ? & ?). rewrite E.
  destruct (period_coin ratio (bank s2) d) as [o| |] eqn:Ec; try done.
  destruct (add_coin_cases _ _ _ _ _ Hok Ec) as [(x & -> & Hx)| ->]; simpl; [|done].
  split; [done|]. by split_and!.
Qed.

Lemma add_period_reward_comm ratio d1 d2 :
  step_commute same_rewards st_eq (add_period_reward (B := B) (SS := SS) (DS := DS) ratio) d1 d2.
Proof using Type*.
  intros b s [_ Hok] _. unfold bind. rewrite !add_period_reward_spec.
  assert (forall e, period_coin ratio (bank s) e = Panic \/
    exists o, period_coin ratio (bank s) e = Ok o) as Hcase.
  { intros e. pose proof (period_coin_no_err ratio (bank s) e) as N.
    destruct (period_coin ratio (bank s) e) as [o|er|]; [eauto|by destruct (N er)|by left]. }
  assert (forall x y o, period_coin ratio (bank s) x = Ok o -> period_coin ratio (bank s) y = Panic ->
    match lift (add_coin b o) s with
    | Ret a s' => add_period_reward ratio a y s' | Fail e s' => Fail e s' | Halt => Halt end = Halt)
    as Hstop.
  { intros x y o Ex Ey. destruct (add_coin_cases _ _ _ _ _ Hok Ex) as [(z & -> & _)| ->]; [|done].
    simpl. by rewrite add_period_reward_spec, Ey. }
  destruct (Hcase d1) as [E1|[o1 E1]], (Hcase d2) as [E2|[o2 E2]]; rewrite E1, E2; try done.
  - by rewrite (Hstop d2 d1).
  - by rewrite (Hstop d1 d2).
  - pose proof (add_coin_comm b ratio (bank s) d1 d2 o1 o2 Hok E1 E2) as Hc.
    destruct (add_coin_cases _ _ _ _ _ Hok E1) as [(x1 & A1 & Hx1)|A1];
      destruct (add_coin_cases _ _ _ _ _ Hok E2) as [(x2 & A2 & Hx2)|A2];
      rewrite A1, A2 in *; simpl in *; rewrite ?add_period_reward_spec, ?E1, ?E2; try done.
    + rewrite Hc. destruct (add_coin_cases _ _ _ _ _ Hx2 E1) as [(x & -> & Hx)| ->]; done.
    + by rewrite Hc.
    + by rewrite <- Hc.
Qed.

(** What one winner gets, before looking the validator up. *)
Definition winner_coins (pr : DecCoins) (sum : Z) (w : Claim) : res Coins :=
  let! share := Dec_QuoInt64 (NewDec (Weight w)) sum in
  let! scaled := DecCoins_MulDec pr share in
  let! rc := DecCoins_TruncateDecimal scaled in
  Ok (fst rc).

Lemma winner_coins_cases pr sum w : decoins_ok pr -> 0 < sum -> 0 <= Weight w ->
  (exists rc, winner_coins pr sum w = Ok rc /\ coins_ok rc /\
     forall d, amt rc d =
       Z.quot (dec_round (damt pr d * Z.quot (NewDec (Weight w)) sum)) P18) \/
  winner_coins pr sum w = Panic.
Proof using Type*.
  intros Hok Hs Hw. unfold winner_coins. sdk_unfold.
  destruct (Z.eqb_spec sum 0); [lia|]. simpl.
  assert (0 <= Z.quot (NewDec (Weight w)) sum) as Hq.
  { apply Z.quot_pos; unfold NewDec, P18; lia. }
  apply decoins_ok_weak in Hok.
  destruct (DecCoins_MulDec_cases pr _ Hok Hq) as [(c & -> & Hc & Ec)| ->]; simpl; [|by right].
  destruct (DecCoins_TruncateDecimal_cases c Hc) as [(t & r & -> & Ht & Et)| ->]; simpl; [|by right].
  left. exists t. split_and!; [done|done|]. intros d. by rewrite Et, Ec.
Qed.

Definition set_distr (d : DS) (s : St) : St :=
  mkState (store s) (bank s) (staking s) d (events s).

(** Pay one winner: the distribution record and the running total. *)
Definition pay (dr : Coins) (v : ValidatorI) (rc : Coins) (s : St) : out St Coins :=
  match NewDecCoinsFromCoins rc with
  | Ok tokens =>
      match AllocateTokensToValidator v tokens (distr s), Coins_Add dr rc with
      | Ret _ d, Ok c => Ret c (set_distr d s)
      | _, _ => Halt
      end
  | _ => Halt
  end.

Lemma reward_winner_spec pr sum dr p (s : St) : decoins_ok pr -> coins_ok dr -> 0 < sum ->
  0 <= Weight p.2 ->
  reward_winner pr sum dr p s =
  match winner_coins pr sum p.2, Validator (staking s) (Recipient p.2) with
  | Ok rc, Some v => if Coins_IsZero rc then Ret dr s else pay dr v rc s
  | _, _ => Halt
  end.
Proof using Type*.
  intros Hok Hdr Hs Hw. unfold reward_winner, bind at 1, gets.
  pose proof (winner_coins_cases pr sum p.2 Hok Hs Hw) as Hc. unfold winner_coins in *.
  unfold bind, lift.
  destruct (Dec_QuoInt64 _ sum) as [share| |]; simpl in *;
    [|by destruct Hc as [(? & ? & _)|?]|done].
  destruct (DecCoins_MulDec pr share) as [scaled| |]; simpl in *;
    [|by destruct Hc as [(? & ? & _)|?]|done].
  destruct (DecCoins_TruncateDecimal scaled) as [[rc r]| |]; simpl in *;
    [|by destruct Hc as [(? & ? & _)|?]|done].
  destruct (Validator (staking s) (Recipient p.2)) as [v|]; [|done].
  destruct (Coins_IsZero rc); [done|]. unfold pay.
  destruct Hc as [(rc' & [= <-] & Hrc & _)|?]; [|done].
  destruct (NewDecCoinsFromCoins_Ok rc Hrc) as (tokens & -> & _).
  unfold on_distr, zoom. pose proof (alloc_no_fail v tokens (distr s)) as Hnf.
  destruct (AllocateTokensToValidator v tokens (distr s)) as [[] d|e d|]; [|by destruct (Hnf e d)|done].
  destruct (Coins_Add_cases dr rc Hdr Hrc) as [[_ (c & -> & _)]|[-> _]]; done.
Qed.

Abbreviation same_coins := (fun a b : Coins => a = b /\ coins_ok a).

Lemma pay_ok dr v rc s c s' : coins_ok dr -> coins_ok rc -> pay dr v rc s = Ret c s' ->
  Coins_Add dr rc = Ok c /\ coins_ok c /\ staking s' = staking s.
Proof using Type*.
  unfold pay. intros Hdr Hrc Hp. destruct (NewDecCoinsFromCoins rc); [|done..].
  destruct (AllocateTokensToValidator _ _ _); [|done..].
  destruct (Coins_Add_cases dr rc Hdr Hrc) as [[_ (c' & E & Hc' & _)]|[E _]]; rewrite E in *; [|done].
  by injection Hp as <- <-.
Qed.

(** Two payments in a row. *)
Lemma pay_pay dr v1 rc1 t1 v2 rc2 t2 (s : St) :
  NewDecCoinsFromCoins rc1 = Ok t1 -> NewDecCoinsFromCoins rc2 = Ok t2 ->
  match pay dr v1 rc1 s with Ret c s' => pay c v2 rc2 s' | Fail e s' => Fail e s' | Halt => Halt end =
  match (do* AllocateTokensToValidator v1 t1 in AllocateTokensToValidator v2 t2) (distr s),
    (let! c := Coins_Add dr rc1 in Coins_Add c rc2) with
  | Ret _ d, Ok c => Ret c (set_distr d s)
  | _, _ => Halt
  end.
Proof using Type*.
  intros E1 E2. unfold pay. rewrite E1, E2. unfold bind.
  pose proof (alloc_no_fail v1 t1 (distr s)) as N1.
  destruct (AllocateTokensToValidator v1 t1 (distr s)) as [[] d1|e d1|];
    [|by destruct (N1 e d1)|done].
  destruct (Coins_Add dr rc1) as [c1| |]; simpl; [|by destruct (AllocateTokensToValidator _ _ _)..].
  done.
Qed.

Lemma pay_comm dr v1 rc1 v2 rc2 (s : St) : GetOperator v1 <> GetOperator v2 ->
  coins_ok dr -> coins_ok rc1 -> coins_ok rc2 ->
  match pay dr v1 rc1 s with Ret c s' => pay c v2 rc2 s' | Fail e s' => Fail e s' | Halt => Halt end =
  match pay dr v2 rc2 s with Ret c s' => pay c v1 rc1 s' | Fail e s' => Fail e s' | Halt => Halt end.
Proof using Type*.
  intros Hne Hdr H1' H2'.
  destruct (NewDecCoinsFromCoins_Ok rc1 H1') as (t1 & E1 & _).
  destruct (NewDecCoinsFromCoins_Ok rc2 H2') as (t2 & E2 & _).
  rewrite (pay_pay _ _ _ t1 _ _ t2), (pay_pay _ _ _ t2 _ _ t1) by done.
  by rewrite (alloc_commute v1 v2), (Coins_Add_comm dr rc1 rc2) by done.
Qed.

(** A winner's payment, if any; [None] when the code panics. *)
Definition plan (pr : DecCoins) (sum : Z) (st : SS) (w : Claim)
    : option (option (ValidatorI * Coins)) :=
  match winner_coins pr sum w, Validator st (Recipient w) with
  | Ok rc, Some v => Some (if Coins_IsZero rc then None else Some (v, rc))
  | _, _ => None
  end.
Definition act (dr : Coins) (o : option (ValidatorI * Coins)) (s : St) : out St Coins :=
  match o with None => Ret dr s | Some (v, rc) => pay dr v rc s end.

Section Winners.
Context (pr : DecCoins) (sum : Z).
Hypothesis (Hpr : decoins_ok pr).
Hypothesis (Hsum : 0 < sum).

Lemma reward_winner_plan dr p (s : St) : coins_ok dr -> 0 <= Weight p.2 ->
  reward_winner pr sum dr p s =
  match plan pr sum (staking s) p.2 with Some o => act dr o s | None => Halt end.
Proof using Type*.
  intros Hdr Hw. rewrite reward_winner_spec by done. unfold plan.
  destruct (winner_coins pr sum p.2), (Validator (staking s) (Recipient p.2)); try done.
  by destruct (Coins_IsZero _).
Qed.

Lemma plan_pay st w v rc : 0 <= Weight w -> plan pr sum st w = Some (Some (v, rc)) ->
  coins_ok rc /\ GetOperator v = Recipient w.
Proof using Type*.
  intros Hw. unfold plan.
  destruct (winner_coins_cases pr sum w Hpr Hsum Hw) as [(rc' & -> & Hrc & _)| ->]; [|done].
  destruct (Validator st (Recipient w)) as [v'|] eqn:Ev; [|done].
  destruct (Coins_IsZero rc'); [done|]. intros [= <- <-]. split; [done|].
  by eapply Validator_operator.
Qed.

Lemma act_cases dr w (s : St) o : coins_ok dr -> 0 <= Weight w ->
  plan pr sum (staking s) w = Some o ->
  act dr o s = Halt \/ exists c s', act dr o s = Ret c s' /\ coins_ok c /\ staking s' = staking s.
Proof using Type*.
  intros Hdr Hw Ho. destruct o as [[v rc]|]; simpl; [|right; by exists dr, s].
  destruct (plan_pay _ _ _ _ Hw Ho) as [Hrc _].
  destruct (pay dr v rc s) as [c s'|e s'|] eqn:Ep; [right|exfalso|by left].
  - destruct (pay_ok _ _ _ _ _ _ Hdr Hrc Ep) as (_ & Hc & Hs). by exists c, s'.
  - revert Ep. unfold pay. by repeat case_match.
Qed.

Lemma act_comm dr w1 w2 (s : St) o1 o2 : coins_ok dr -> 0 <= Weight w1 -> 0 <= Weight w2 ->
  Recipient w1 <> Recipient w2 ->
  plan pr sum (staking s) w1 = Some o1 -> plan pr sum (staking s) w2 = Some o2 ->
  match act dr o1 s with Ret c s' => act c o2 s' | Fail e s' => Fail e s' | Halt => Halt end =
  match act dr o2 s with Ret c s' => act c o1 s' | Fail e s' => Fail e s' | Halt => Halt end.
Proof using Type*.
  intros Hdr Hw1 Hw2 Hne P1 P2. destruct o1 as [[v1 rc1]|], o2 as [[v2 rc2]|]; simpl; try done.
  - destruct (plan_pay _ _ _ _ Hw1 P1) as [? E1]. destruct (plan_pay _ _ _ _ Hw2 P2) as [? E2].
    apply pay_comm; [congruence|done..].
  - by destruct (pay dr v1 rc1 s).
  - by destruct (pay dr v2 rc2 s).
Qed.

Lemma reward_winner_comm p q : 0 <= Weight p.2 -> 0 <= Weight q.2 ->
  Recipient p.2 <> Recipient q.2 ->
  step_commute same_coins st_eq (reward_winner (B := B) (SS := SS) (DS := DS) pr sum) p q.
Proof using Type*.
  intros Hp Hq Hne dr s [_ Hdr] _. unfold bind. rewrite !reward_winner_plan by done.
  assert (forall (x y : string * Claim) o, 0 <= Weight x.2 -> 0 <= Weight y.2 ->
    plan pr sum (staking s) x.2 = Some o ->
    match act dr o s with Ret c s' => reward_winner pr sum c y s'
      | Fail e s' => Fail e s' | Halt => Halt end =
    match plan pr sum (staking s) y.2 with
    | Some o' => match act dr o s with Ret c s' => act c o' s'
                 | Fail e s' => Fail e s' | Halt => Halt end
    | None => Halt end) as Hseq.
  { intros x y o Hx Hy Ho. destruct (act_cases dr _ s o Hdr Hx Ho) as [-> |(c & s' & -> & Hc & Es)].
    - by destruct (plan pr sum (staking s) y.2).
    - by rewrite reward_winner_plan, Es. }
  destruct (plan pr sum (staking s) p.2) as [op|] eqn:Pp.
  - rewrite (Hseq p q op) by done. destruct (plan pr sum (staking s) q.2) as [oq|] eqn:Pq; [|done].
    rewrite (Hseq q p oq), Pp by done. rewrite (act_comm dr p.2 q.2 s op oq) by done.
    destruct (act_cases dr _ s oq Hdr Hq Pq) as [-> |(c & s' & -> & Hc & Es)]; [done|].
    rewrite <- Es in Pp. destruct (act_cases c _ s' op Hc Hp Pp) as [-> |(c' & s'' & -> & Hc' & _)];
      done.
  - destruct (plan pr sum (staking s) q.2) as [oq|] eqn:Pq; [|done].
    by rewrite (Hseq q p oq), Pp by done.
Qed.

Lemma reward_winner_proper p : 0 <= Weight p.2 ->
  step_proper same_coins st_eq (reward_winner (B := B) (SS := SS) (DS := DS) pr sum) p.
Proof using Type*.
  intros Hp b1 b2 s1 s2 [<- Hb] Hs. rewrite !reward_winner_plan by done.
  pose proof Hs as (? & ? & E3 & E4 & ?). rewrite E3.
  destruct (plan pr sum (staking s2) p.2) as [o|] eqn:Po; [|done].
  destruct o as [[v rc]|]; simpl; [|done]. destruct (plan_pay _ _ _ _ Hp Po) as [Hrc _].
  unfold pay. rewrite E4. destruct (NewDecCoinsFromCoins rc); [|done..].
  destruct (AllocateTokensToValidator _ _ _); [|done..].
  destruct (Coins_Add_cases b1 rc Hb Hrc) as [[_ (c & -> & Hc & _)]|[-> _]]; [|done].
  simpl. split; [done|]. by split_and!.
Qed.
End Winners.

Lemma reward_loop_rel (rt1 rt2 : GoRuntime) `{!GoRuntimeLaws rt1, !GoRuntimeLaws rt2}
    distrName vp rdw (vt : gmap string Dec) (claims : gmap string Claim) (s1 s2 : St) :
  st_eq s1 s2 -> map_Forall (fun _ c => 0 <= Weight c) claims ->
  zsum (fun p => Weight p.2) (map_to_list claims) < 2^63 ->
  (forall k1 k2 c1 c2, claims !! k1 = Some c1 -> claims !! k2 = Some c2 -> k1 <> k2 ->
     Recipient c1 <> Recipient c2) ->
  orel eq st_eq (RewardBallotWinners (rt := rt1) distrName vp rdw vt claims s1)
    (RewardBallotWinners (rt := rt2) distrName vp rdw vt claims s2).
Proof using Type*.
  intros Hs Hw Hsum Hrec. unfold RewardBallotWinners.
  pose proof (map_range_perm (rt := rt1) 4 _ claims) as P1.
  pose proof (map_range_perm (rt := rt2) 4 _ claims) as P2.
  assert (forall l, l ≡ₚ map_to_list claims ->
    foldl (fun t p => int64 (t + Weight p.2)) 0 l = zsum (fun p => Weight p.2) (map_to_list claims))
    as Hfold.
  { intros l Hl. etrans; [exact (foldl_int64 (fun p : string * Claim => Weight p.2) l 0)|].
    rewrite Z.add_0_l, Hl. apply int64_id. split; [|done]. trans 0; [lia|].
    apply zsum_nonneg. apply Forall_forall. intros [k c] Hin%elem_of_map_to_list. by apply (Hw k). }
  rewrite (Hfold _ P1), (Hfold _ P2). set (total := zsum _ _).
  assert (0 <= total) as Hpos.
  { apply zsum_nonneg. apply Forall_forall. intros [k c] Hin%elem_of_map_to_list. by apply (Hw k). }
  destruct (Z.eqb_spec total 0) as [|Hnz]; [done|].
  eapply bind_orel; [by apply (proper_lift (B := B) (SS := SS) (DS := DS))|].
  intros ratio ? t1 t2 <- Ht.
  eapply (bind_orel same_rewards).
  { apply (mfold_perm same_rewards st_eq _ (fun _ _ => True)); [done|..|done].
    - intros d _. apply add_period_reward_proper.
    - intros d1 d2 _ _ _. apply add_period_reward_comm.
    - apply ForallOrdPairs_True.
    - by rewrite !map_range_perm.
    - split; [done|apply decoins_ok_nil]. }
  intros pr ? u1 u2 [<- Hpr] Hu. eapply (bind_orel same_coins).
  { assert (forall p, p ∈ map_range (GoRuntime := rt1) 5 claims -> claims !! p.1 = Some p.2) as Hin.
    { intros [k c] Hp. rewrite map_range_perm in Hp. by apply elem_of_map_to_list in Hp. }
    apply (mfold_perm same_coins st_eq _ (fun p q => p.1 <> q.1)); [..|done].
    - intros x y Hxy E. by apply Hxy.
    - intros p Hp. apply reward_winner_proper; [done|lia|]. by apply (Hw p.1), Hin.
    - intros p q Hp Hq Hne. apply reward_winner_comm; [done|lia| | |].
      + by apply (Hw p.1), Hin.
      + by apply (Hw q.1), Hin.
      + by apply (Hrec p.1 q.1); [apply Hin..|].
    - apply (ForallOrdPairs_keys fst). rewrite map_range_perm. apply NoDup_fst_map_to_list.
    - by rewrite !map_range_perm.
    - split; [done|apply coins_ok_nil]. }
  intros dr ? v1 v2 [<- _] Hv. by apply proper_must; [apply proper_on_bank|].
Qed.

(** ** The picks of two runtimes agree *)

Lemma ballot_eq_power b1 b2 : ballot_eq b1 b2 -> TotalPower b1 = TotalPower b2.
Proof using Type. intros (_ & _ & E). by rewrite !TotalPower_sum, E. Qed.

Lemma passing_eq thr b1 b2 : ballot_eq b1 b2 -> passing thr b1 <-> passing thr b2.
Proof using Type. intros E. unfold passing. by rewrite (ballot_eq_power b1 b2). Qed.

Lemma votes_eq_counted thr targets m1 m2 : votes_eq m1 m2 ->
  votes_eq (filter (counted thr targets) m1) (filter (counted thr targets) m2).
Proof using Type.
  intros Hm d. specialize (Hm d). rewrite !map_lookup_filter.
  inversion Hm as [b1 b2 Hb E1 E2|E1 E2]; simpl; [|constructor].
  assert (counted thr targets (d, b1) <-> counted thr targets (d, b2)) as Hc.
  { unfold counted. simpl. by rewrite (passing_eq thr b1 b2). }
  destruct (decide (counted thr targets (d, b1))) as [H1'|H1'].
  - rewrite option_guard_True, option_guard_True by tauto. by constructor.
  - rewrite option_guard_False, option_guard_False by tauto. constructor.
Qed.

Lemma votes_eq_kept thr m1 m2 (targets : gmap string Dec) : votes_eq m1 m2 ->
  filter (kept thr m1) targets = filter (kept thr m2) targets.
Proof using Type.
  intros Hm. apply map_filter_ext. intros d t _. unfold kept. simpl. specialize (Hm d).
  inversion Hm as [b1 b2 Hb E1 E2|E1 E2]; [by apply passing_eq|done].
Qed.

Lemma votes_eq_reference m1 m2 lg r : votes_eq m1 m2 -> is_reference m1 lg r -> is_reference m2 lg r.
Proof using Type.
  intros Hm [(-> & -> & ->)|[(b & Eb & ->) Hmax]].
  - left. split; [|done]. apply map_empty. intros d. specialize (Hm d).
    rewrite lookup_empty in Hm. by inversion Hm.
  - right. split.
    + specialize (Hm r). rewrite Eb in Hm. inversion Hm as [? b2 Hb E1 E2|]; subst.
      exists b2. split; [done|by apply ballot_eq_power].
    + intros d b2 E2. specialize (Hm d). rewrite E2 in Hm. inversion Hm as [b1 ? Hb E1|]; subst.
      rewrite <- (ballot_eq_power b1 b2) by done. by apply (Hmax d).
Qed.

Lemma PickReferenceTerra_rel (rt1 rt2 : GoRuntime) `{!GoRuntimeLaws rt1, !GoRuntimeLaws rt2}
    (s : St) targets m1 m2 : votes_eq m1 m2 ->
  (PickReferenceTerra (rt := rt1) s targets m1 = Panic /\
   PickReferenceTerra (rt := rt2) s targets m2 = Panic) \/
  (exists e, PickReferenceTerra (rt := rt1) s targets m1 = Err e /\
   PickReferenceTerra (rt := rt2) s targets m2 = Err e) \/
  exists thr lg r, let t := filter (kept thr m1) targets in
    PickReferenceTerra (rt := rt1) s targets m1 =
      Ok (mkPick lg r t (filter (counted thr targets) m1)) /\
    PickReferenceTerra (rt := rt2) s targets m2 =
      Ok (mkPick lg r t (filter (counted thr targets) m2)).
Proof using Type.
  intros Hm. destruct (threshold_votes s) as [thr|e|] eqn:Et.
  - right; right.
    destruct (PickReferenceTerra_result (rt := rt1) s targets m1 thr Et) as (l1 & r1 & R1 & E1).
    destruct (PickReferenceTerra_result (rt := rt2) s targets m2 thr Et) as (l2 & r2 & R2 & E2).
    apply (votes_eq_reference _ (filter (counted thr targets) m2)) in R1;
      [|by apply votes_eq_counted].
    destruct (is_reference_unique _ _ _ _ _ R1 R2) as [-> ->].
    exists thr, l2, r2. simpl. by rewrite E1, E2, (votes_eq_kept thr m1 m2).
  - right; left. exists e. unfold PickReferenceTerra. by rewrite Et.
  - left. unfold PickReferenceTerra. by rewrite Et.
Qed.

(** ** The end of a vote period *)

Lemma orel_refl {A} (o : out St A) : orel eq st_eq o o.
Proof using Type. by destruct o. Qed.

(** The ballots that are tallied are well formed. *)
Lemma counted_ballots {rt : GoRuntime} `{!GoRuntimeLaws rt} s claims thr targets d b :
  votes_wf s -> claims_ok claims ->
  filter (counted thr targets) (OrganizeBallotByDenom s claims) !! d = Some b ->
  good_ballot b /\ voted claims b.
Proof using Type*.
  intros Hs Hc [Hd _]%map_lookup_filter_Some.
  destruct (OrganizeBallotByDenom_good s claims d b Hs Hc Hd) as (Hp & Hg & _). split; [done|].
  destruct (stored_votes_wf s Hs) as [Hl _]. destruct Hc as [Hn _].
  intros v Hv. rewrite Hp in Hv. by apply (ballot_for_voted claims d (stored_votes s)).
Qed.

(** The claims the tally leaves: grown by at most one vote per target. *)
Lemma tally_all_grown {rt : GoRuntime} `{!GoRuntimeLaws rt} band st claims thr targets lg r t s' c' s'' :
  votes_wf st -> fresh_claims claims -> map_Forall (fun _ c => 0 <= CPower c) claims ->
  zsum (fun p => CPower p.2) (map_to_list claims) * (1 + Z.of_nat (size targets)) < 2^63 ->
  Z.of_nat (size targets) < 2^62 ->
  tally_all (B := B) (SS := SS) (DS := DS) band
    (mkPick lg r t (filter (counted thr targets) (OrganizeBallotByDenom st claims))) claims s'
    = Ret c' s'' ->
  exists k, 0 <= k <= Z.of_nat (size targets) /\ grown k claims c'.
Proof using Type*.
  intros Hv Hf Hn Hsum Hsz. pose proof (claims_total_nonneg _ Hn) as Htot.
  assert (claims_ok claims) as Hc by (split; [done|nia]).
  set (m := filter _ _). unfold tally_all. simpl. destruct (String.eqb r "").
  { unfold ret. intros [= <- _]. exists 0. split; [lia|by apply fresh_grown]. }
  pose proof (map_range_perm (rt := rt) 2 _ m) as Hl.
  assert (length (map_range (GoRuntime := rt) 2 m) = size m) as Hlen.
  { by rewrite Hl, length_map_to_list. }
  pose proof (counted_size thr targets (OrganizeBallotByDenom st claims)) as Hle. fold m in Hle.
  intros Ht. apply tally_loop_grown with (c0 := claims) (k := 0) in Ht; [|..].
  - rewrite Hlen in Ht. exists (Z.of_nat (size m)). split; [lia|done].
  - apply Forall_forall. intros [d b] Hin. rewrite Hl in Hin. apply elem_of_map_to_list in Hin.
    by eapply counted_ballots.
  - by apply fresh_grown.
  - lia.
  - rewrite Hlen. lia.
  - intros key a Ha. rewrite Hlen. pose proof (claim_le_total _ _ _ Hn Ha).
    specialize (Hn _ _ Ha). simpl in Hn. split; [done|nia].
Qed.

Lemma OrganizeBallotByDenom_votes_eq (rt1 rt2 : GoRuntime) `{!GoRuntimeLaws rt1, !GoRuntimeLaws rt2}
    s claims : votes_wf s -> claims_ok claims ->
  votes_eq (OrganizeBallotByDenom (rt := rt1) s claims) (OrganizeBallotByDenom (rt := rt2) s claims).
Proof using Type*. intros Hs Hc d. by apply OrganizeBallotByDenom_rel. Qed.

Lemma end_vote_period_rel (rt1 rt2 : GoRuntime) `{!GoRuntimeLaws rt1, !GoRuntimeLaws rt2}
    distrName ctx params (s : St) : votes_wf (store s) -> active_ok s ->
  orel eq st_eq (end_vote_period (rt := rt1) distrName ctx params s)
    (end_vote_period (rt := rt2) distrName ctx params s).
Proof using Type*.
  intros Hv Ha. unfold end_vote_period.
  eapply bind_orel_run; [apply orel_refl|]. intros ? ? ? ? [= <- <-] [= <- <-] _ _.
  eapply bind_orel_run; [apply (proper_lift (B := B) (SS := SS) (DS := DS)); done|].
  intros claims ? ? ? [Ec ->]%lift_Ret [_ ->]%lift_Ret <- _. rewrite vote_targets_copy.
  destruct (Ha claims Ec) as (Hn & Hsum & Hsz).
  pose proof (active_claims_fresh _ _ _ _ _ _ _ fresh_claims_empty Ec) as Hf.
  pose proof (claims_total_nonneg _ Hn) as Htot.
  eapply bind_orel_run; [apply (proper_on_store (B := B) (SS := SS) (DS := DS)); done|].
  intros [] [] s0 ? [= <-] [= <-] _ _.
  eapply (bind_orel_run (fun _ _ => True)); [by split|].
  intros ? ? s0 ? [= <- <-] [= <- <-] _ _. cbn [store]. rewrite clear_rates_spec.
  set (s0 := mkState (set_rates ∅ (store s)) _ _ _ _).
  assert (votes_wf (set_rates ∅ (store s))) as Hv0 by exact Hv.
  assert (claims_ok claims) as Hc by (split; [done|nia]).
  eapply (bind_orel_run (fun _ _ => True)).
  { destruct (PickReferenceTerra_rel rt1 rt2 s (TobinTaxes (store s)) _ _
      (OrganizeBallotByDenom_votes_eq rt1 rt2 _ claims Hv0 Hc))
      as [[-> ->]|[(e & -> & ->)|(thr & lg & r & -> & ->)]]; done. }
  intros pick1 pick2 ? ? [Ep1 ->]%lift_Ret [Ep2 ->]%lift_Ret _ _.
  destruct (PickReferenceTerra_rel rt1 rt2 s (TobinTaxes (store s)) _ _
    (OrganizeBallotByDenom_votes_eq rt1 rt2 _ claims Hv0 Hc))
    as [[E1 E2]|[(e & E1 & E2)|(thr & lg & r & E1 & E2)]]; rewrite E1 in Ep1; rewrite E2 in Ep2;
    [done|done|]. injection Ep1 as <-. injection Ep2 as <-.
  eapply bind_orel_run.
  { apply tally_all_rel, votes_eq_counted, OrganizeBallotByDenom_votes_eq; done. }
  intros c' ? t1 t2 Hr1 _ <- Ht. simpl.
  destruct (tally_all_grown _ _ _ _ _ _ _ _ _ _ _ Hv0 Hf Hn Hsum Hsz Hr1) as (k & Hk & Hg).
  eapply bind_orel; [apply count_misses_rel; [by rewrite !map_range_perm|done]|].
  intros _ _ u1 u2 _ Hu. eapply bind_orel.
  { apply (reward_loop_rel rt1 rt2); [exact Hu|..].
    - intros key b Hb. destruct (grown_lookup _ _ _ Hf Hg _ _ Hb) as (a & _ & _ & _ & ? & _). lia.
    - pose proof (grown_weights _ _ _ Hf Hg). nia.
    - intros k1 k2 b1 b2. by apply (grown_recipients k claims). }
  intros _ _ v1 v2 _ Hv'. eapply bind_orel; [by apply proper_on_store|].
  intros _ _ w1 w2 _ Hw. by apply proper_ApplyWhitelist.
Qed.

Lemma EndBlocker_rel (rt1 rt2 : GoRuntime) `{!GoRuntimeLaws rt1, !GoRuntimeLaws rt2}
    distrName ctx (s : St) : votes_wf (store s) -> active_ok s ->
  orel eq st_eq (EndBlocker (rt := rt1) distrName ctx s) (EndBlocker (rt := rt2) distrName ctx s).
Proof using Type*.
  intros Hv Ha. unfold EndBlocker. unfold bind at 1 5, gets.
  eapply bind_orel_run; [by apply (proper_lift (B := B) (SS := SS) (DS := DS))|].
  intros b ? t1 t2 R1 R2 <- _. apply lift_Ret in R1 as [_ ->]. apply lift_Ret in R2 as [_ ->].
  eapply bind_orel.
  { destruct b; [by apply end_vote_period_rel|done]. }
  intros _ _ u1 u2 _ Hu.
  eapply bind_orel; [by apply (proper_lift (B := B) (SS := SS) (DS := DS))|].
  intros e ? v1 v2 <- Hv'. destruct e; [by apply proper_SlashAndReset|done].
Qed.

End Determinism.

(** ** The demo state meets the hypotheses *)

Import OracleRef.

Lemma demo_votes_wf : votes_wf (store demo_state).
Proof.
  intros k v Hkv. unfold demo_state, demo_store in Hkv. simpl in Hkv.
  repeat (apply lookup_insert_Some in Hkv as [[<- <-]|[_ Hkv]]; [split_and!; [done..|]|]).
  3: apply lookup_singleton_Some in Hkv as [<- <-]; split_and!; [done..|].
  all: apply (bool_decide_unpack _); vm_compute; exact I.
Qed.

Lemma demo_active_ok : active_ok demo_state.
Proof.
  assert (active_claims (Validator (staking demo_state)) (PowerReduction (staking demo_state))
    (MaxValidators (staking demo_state)) 0 (ValidatorsPowerStoreIterator (staking demo_state)) ∅
    = Ok demo_claims) as E0 by (by vm_compute).
  intros claims E. rewrite E0 in E. injection E as <-.
  split_and!; [|by vm_compute..].
  intros k c Hkc. unfold demo_claims in Hkc.
  repeat (apply lookup_insert_Some in Hkc as [[_ <-]|[_ Hkc]]; [done|]).
  by apply lookup_singleton_Some in Hkc as [_ <-].
Qed.
End OracleDeterminism.
