(* ===== verification/OracleEndBlock.v ===== *)
(** * What the end of a vote period does to the oracle store

    The exchange rates written, the votes cleared, the misses counted and the
    vote targets installed by [EndBlocker], for a run that returns. *)

From S2P Require Import Prelude Sdk SdkRef Core OracleBallot OracleTypes OracleKeeper OracleTally OracleVotes OracleTallyFacts OracleRef OracleDeterminism.

Module OracleEndBlock.
Import Ballot OracleTypes OracleKeeper OracleTally OracleVotes OracleTallyFacts OracleDeterminism.

(** ** Parts of the store a computation leaves alone *)

Section Keeps.
Context {B SS DS : Type}.
Abbreviation OM := (M (State B SS DS)).

Definition keeps {X A} (f : Store -> X) (c : OM A) : Prop :=
  forall s a s', c s = Ret a s' -> f (store s') = f (store s).

Context {X : Type} (f : Store -> X).

Lemma keeps_bind {A C} (c : OM A) (k : A -> OM C) :
  keeps f c -> (forall a, keeps f (k a)) -> keeps f (bind c k).
Proof using Type.
  intros Hc Hk s b s' (a & s1 & H1 & H2)%bind_Ret. by rewrite (Hk _ _ _ _ H2), (Hc _ _ _ H1).
Qed.
Lemma keeps_ret {A} (a : A) : keeps f (ret a).
Proof using Type. by intros s b s' [= <- <-]. Qed.
Lemma keeps_fail {A} e : keeps f (fail e : OM A).
Proof using Type. done. Qed.
Lemma keeps_panic {A} : keeps f (panic : OM A).
Proof using Type. done. Qed.
Lemma keeps_lift {A} (r : res A) : keeps f (lift r).
Proof using Type. by intros s a s' [_ ->]%lift_Ret. Qed.
Lemma keeps_gets {A} (g : State B SS DS -> A) : keeps f (gets g).
Proof using Type. by intros s a s' [= <- <-]. Qed.
Lemma keeps_emit e : keeps f (emit e).
Proof using Type. by intros s a s' [= <- <-]. Qed.
Lemma keeps_on_bank {A} (c : M B A) : keeps f (on_bank c).
Proof using Type. by intros s a s' (t & _ & ->)%zoom_Ret. Qed.
Lemma keeps_on_staking {A} (c : M SS A) : keeps f (on_staking c).
Proof using Type. by intros s a s' (t & _ & ->)%zoom_Ret. Qed.
Lemma keeps_on_distr {A} (c : M DS A) : keeps f (on_distr c).
Proof using Type. by intros s a s' (t & _ & ->)%zoom_Ret. Qed.
Lemma keeps_on_modules {A} (c : M (B * SS * DS) A) : keeps f (on_modules c).
Proof using Type. by intros s a s' ([[b st] d] & _ & ->)%zoom_Ret. Qed.
Lemma keeps_must {A} (c : OM A) : keeps f c -> keeps f (must c).
Proof using Type. intros Hc s a s' H. rewrite must_Ret in H. by apply (Hc _ _ _ H). Qed.
Lemma keeps_on_store g : (forall st, f (g st) = f st) -> keeps f (on_store g).
Proof using Type. intros Hg s a s' [= <- <-]. apply Hg. Qed.
Lemma keeps_mfold {A C} (g : C -> A -> OM C) c l :
  (forall c x, keeps f (g c x)) -> keeps f (mfold g c l).
Proof using Type.
  intros Hg. revert c. induction l; intros c; [apply keeps_ret|]. by apply keeps_bind.
Qed.
Lemma keeps_mfor {A} (l : list A) (g : A -> OM unit) :
  (forall x, keeps f (g x)) -> keeps f (mfor l g).
Proof using Type. intros Hg. induction l; [apply keeps_ret|]. by apply keeps_bind. Qed.
End Keeps.

Create HintDb keeping.
#[export] Hint Resolve keeps_ret keeps_fail keeps_panic keeps_lift keeps_gets keeps_emit
  keeps_on_bank keeps_on_staking keeps_on_distr keeps_on_modules : keeping.

(** Discharge [keeps] goals by following the structure of the code. *)
Ltac keep :=
  repeat match goal with
  | |- keeps _ (bind _ _) => apply keeps_bind; [|intros]
  | |- keeps _ (mfor _ _) => apply keeps_mfor; intros
  | |- keeps _ (mfold _ _ _) => apply keeps_mfold; intros
  | |- keeps _ (must _) => apply keeps_must
  | |- keeps _ (if ?b then _ else _) => destruct b
  | |- keeps _ (match ?x with _ => _ end) => destruct x
  | |- keeps _ (on_store _) => apply keeps_on_store; intros; done
  | |- keeps _ _ => solve [eauto 3 with keeping nocore]
  end.

(** ** Clearing the ballots *)

Section Stores.
Context `{Bech32}.

(** A prevote outlives a vote period and is dropped after it. *)
Definition expired (ctx : Ctx) (votePeriod : Z) (p : AggregateExchangeRatePrevote) : bool :=
  int64 (uint64 (SubmitBlock p + votePeriod)) <? BlockHeight ctx.

Lemma ClearBallots_spec ctx vp s :
  ClearBallots ctx vp s =
  set_votes ∅ (set_prevotes (filter (fun p => expired ctx vp p.2 = false) (Prevotes s)) s).
Proof using Type.
  unfold ClearBallots, IterateAggregateExchangeRateVotes, IterateAggregateExchangeRatePrevotes.
  assert (forall l s, foldl (fun s (p : string * AggregateExchangeRatePrevote) =>
    if int64 (uint64 (SubmitBlock p.2 + vp)) <? BlockHeight ctx
    then DeleteAggregateExchangeRatePrevote p.1 s else s) s l =
    set_prevotes (foldl (fun m p => if expired ctx vp p.2 then delete p.1 m else m)
      (Prevotes s) l) s) as E1.
  { intros l. induction l as [|p l IH]; intros s'; [by destruct s'|]. simpl. rewrite IH.
    unfold expired. by destruct (int64 _ <? _). }
  assert (forall l s, foldl (fun s (p : string * AggregateExchangeRateVote) =>
    DeleteAggregateExchangeRateVote p.1 s) s l =
    set_votes (foldl (fun m p => delete p.1 m) (Votes s) l) s) as E2.
  { intros l. induction l as [|p l IH]; intros s'; [by destruct s'|]. simpl. by rewrite IH. }
  rewrite E1, E2, foldl_delete_map by apply kv_iter_perm.
  by rewrite (foldl_delete_if (fun p => expired ctx vp p.2)) by apply kv_iter_perm.
Qed.

Lemma ClearTobinTaxes_spec s : ClearTobinTaxes s = set_tobin ∅ s.
Proof using Type.
  unfold ClearTobinTaxes, IterateTobinTaxes.
  assert (forall l s, foldl (fun s (p : string * Dec) => set_tobin (delete p.1 (TobinTaxes s)) s) s l =
    set_tobin (foldl (fun m p => delete p.1 m) (TobinTaxes s) l) s) as E.
  { intros l. induction l as [|p l IH]; intros s'; [by destruct s'|]. simpl. by rewrite IH. }
  rewrite E, foldl_delete_map; [done|apply kv_iter_perm].
Qed.
End Stores.

(** ** The phases of a vote period's end *)

Section EndBlock.
Context {B SS DS : Type}.
Context `{HM : SdkMath, !SdkMathLaws, HC : SdkCoins, !SdkCoinsLaws, HA : Bech32, !Bech32Laws,
  HB : BankKeeper B, HS : StakingKeeper SS, !StakingLaws SS, HD : DistrKeeper DS, !DistrLaws DS,
  HL : SlashKeeper B SS DS, HG : GoStrings}.
Context {rt : GoRuntime} `{!GoRuntimeLaws rt}.
Abbreviation St := (State B SS DS).
Abbreviation OM := (M (State B SS DS)).

(** The active set of a state. *)
Definition active_set (s : St) : res (gmap string Claim) :=
  active_claims (Validator (staking s)) (PowerReduction (staking s))
    (MaxValidators (staking s)) 0 (ValidatorsPowerStoreIterator (staking s)) ∅.

Definition cleared (s : St) : St :=
  mkState (set_rates ∅ (store s)) (bank s) (staking s) (distr s) (events s).

(** The ballots of a block, those that pass, and the targets left. *)
Definition ballots_of (s : St) (claims : gmap string Claim) : gmap string ExchangeRateBallot :=
  OrganizeBallotByDenom (store s) claims.
Definition passed (s : St) (claims : gmap string Claim) (thr : Int) :=
  filter (counted thr (TobinTaxes (store s))) (ballots_of s claims).
Definition targets_left (s : St) (claims : gmap string Claim) (thr : Int) :=
  filter (kept thr (ballots_of s claims)) (TobinTaxes (store s)).

Lemma end_vote_period_phases distrName ctx params (s s' : St) :
  end_vote_period distrName ctx params s = Ret tt s' ->
  exists claims thr lg r c s1 s2 s3,
    active_set s = Ok claims /\ threshold_votes s = Ok thr /\
    is_reference (passed s claims thr) lg r /\
    tally_all (RewardBand params) (mkPick lg r (targets_left s claims thr) (passed s claims thr))
      claims (cleared s) = Ret c s1 /\
    mfor (map_range 6 c) (count_miss (Z.of_nat (size (targets_left s claims thr)))) s1 = Ret tt s2 /\
    RewardBallotWinners distrName (int64 (VotePeriod params))
      (int64 (RewardDistributionWindow params)) (targets_left s claims thr) c s2 = Ret tt s3 /\
    ApplyWhitelist (Whitelist params) (targets_left s claims thr)
      (mkState (ClearBallots ctx (VotePeriod params) (store s3)) (bank s3) (staking s3) (distr s3)
         (events s3)) = Ret tt s'.
Proof using Type*.
  unfold end_vote_period. rewrite bind_Ret. intros (? & ? & [= <- <-] & R).
  rewrite bind_Ret in R; destruct R as (claims & ? & [Hc ->]%lift_Ret & R). rewrite vote_targets_copy in R.
  rewrite bind_Ret in R; destruct R as ([] & ? & [= <-] & R). rewrite clear_rates_spec in R.
  rewrite bind_Ret in R; destruct R as (? & ? & [= <- <-] & R).
  rewrite bind_Ret in R; destruct R as (pick & ? & [Hp ->]%lift_Ret & R). cbn [store] in Hp.
  destruct (threshold_votes s) as [thr| |] eqn:Ht;
    [|unfold PickReferenceTerra in Hp; by rewrite Ht in Hp..].
  destruct (PickReferenceTerra_result s (TobinTaxes (store s)) (ballots_of s claims) thr Ht)
    as (lg & r & Hr & E). change (OrganizeBallotByDenom _ claims) with (ballots_of s claims) in Hp.
  rewrite E in Hp. injection Hp as <-.
  rewrite bind_Ret in R; destruct R as (c & s1 & Htal & R). rewrite bind_Ret in R; destruct R as ([] & s2 & Hmiss & R).
  rewrite bind_Ret in R; destruct R as ([] & s3 & Hrew & R). rewrite bind_Ret in R; destruct R as ([] & ? & [= <-] & R).
  by exists claims, thr, lg, r, c, s1, s2, s3.
Qed.

(** A tally that panics takes the whole end of the period with it. *)
Lemma end_vote_period_halts distrName ctx params (s : St) claims thr :
  active_set s = Ok claims -> threshold_votes s = Ok thr ->
  exists lg r, is_reference (passed s claims thr) lg r /\
    (tally_all (RewardBand params) (mkPick lg r (targets_left s claims thr) (passed s claims thr))
       claims (cleared s) = Halt -> end_vote_period distrName ctx params s = Halt).
Proof using Type*.
  intros Hc Ht.
  destruct (PickReferenceTerra_result s (TobinTaxes (store s)) (ballots_of s claims) thr Ht)
    as (lg & r & Hr & E). exists lg, r. split; [done|]. intros Rt.
  unfold end_vote_period, bind, gets, lift, id. fold (active_set s). rewrite Hc, vote_targets_copy.
  cbn [on_store modify store]. unfold on_store, modify. cbn [store]. rewrite clear_rates_spec.
  change (OrganizeBallotByDenom _ claims) with (ballots_of s claims). rewrite E.
  unfold cleared, targets_left, passed in Rt. by rewrite Rt.
Qed.

(** ** The ballots, as the stored votes determine them *)

(** The votes of the active set for a denom, and the denoms that pass. *)
Definition cast (s : St) (claims : gmap string Claim) (d : string) : ExchangeRateBallot :=
  ballot_for claims d (stored_votes (store s)).
Definition passes (s : St) (claims : gmap string Claim) (thr : Int) (d : string) : Prop :=
  is_Some (TobinTaxes (store s) !! d) /\ passing thr (cast s claims d).

Lemma passing_perm thr b1 b2 : b1 ≡ₚ b2 -> passing thr b1 <-> passing thr b2.
Proof using Type. intros E. unfold passing. by rewrite E. Qed.

Lemma passed_lookup s claims thr d b : votes_wf (store s) -> claims_ok claims ->
  passed s claims thr !! d = Some b ->
  passes s claims thr d /\ b ≡ₚ cast s claims d /\ good_ballot b /\ b <> [].
Proof using Type*.
  intros Hv Hc [Hb [Ht Hp]]%map_lookup_filter_Some.
  destruct (OrganizeBallotByDenom_good _ _ _ _ Hv Hc Hb) as (E & Hg & Hne).
  split_and!; try done. split; [done|]. by apply (passing_perm _ _ _ E).
Qed.

Lemma passes_passed s claims thr d : passes s claims thr d ->
  exists b, passed s claims thr !! d = Some b.
Proof using Type*.
  intros [Ht Hp]. pose proof (OrganizeBallotByDenom_lookup (store s) claims d) as E.
  fold (cast s claims d) in E. destruct (cast s claims d) as [|v b] eqn:Ec.
  - by destruct Hp as [[] _].
  - exists (sort_Sort Less (v :: b)). apply map_lookup_filter_Some. split; [done|]. split; [done|].
    eapply passing_perm; [apply sort_Sort_perm|done].
Qed.

(** ** Cross rates *)

(** [w] is the vote [v] expressed against the reference ballot: the quotient of
    the voter's two rates, with its power, when the voter gave both; an
    abstention otherwise. *)
Definition crosses (ref : ExchangeRateBallot) (v w : VoteForTally) : Prop :=
  Voter w = Voter v /\ VDenom w = VDenom v /\
  ((exists u, u ∈ ref /\ Voter u = Voter v /\ 0 < ExchangeRate u /\ 0 < ExchangeRate v /\
      Dec_Quo (ExchangeRate u) (ExchangeRate v) = Ok (ExchangeRate w) /\ Power w = Power v) \/
   ((ExchangeRate v <= 0 \/ forall u, u ∈ ref -> Voter u = Voter v -> ExchangeRate u <= 0) /\
    ExchangeRate w = 0 /\ Power w = 0)).

Lemma crosses_perm b1 b2 v w : b1 ≡ₚ b2 -> crosses b1 v w -> crosses b2 v w.
Proof using Type.
  intros E (? & ? & Hc). split_and!; [done..|].
  destruct Hc as [(u & Hu & ?)|[Hn ?]]; [left; exists u; by rewrite <- E|right].
  split; [|done]. destruct Hn as [?|Hn]; [by left|right]. intros u. rewrite <- E. apply Hn.
Qed.

Lemma cross_vote_crosses ref v w :
  NoDup (Voter <$> ref) -> cross_vote (ToMap ref) v = Ok w -> crosses ref v w.
Proof using Type.
  intros Hnd. unfold cross_vote.
  assert (forall r, ToMap ref !! Voter v = Some r <->
    exists u, u ∈ ref /\ Voter u = Voter v /\ ExchangeRate u = r /\ 0 < r) as Hm.
  { intros r. unfold ToMap. rewrite ToMap_lookup by done. rewrite lookup_empty. naive_solver. }
  destruct (ToMap ref !! Voter v) as [r|] eqn:Er.
  - destruct (proj1 (Hm r) eq_refl) as (u & Hu & Eu & <- & Hpos).
    destruct (Z.ltb_spec 0 (ExchangeRate v)); intros Hc; go_inv.
    + split_and!; [done..|left]. exists u. by split_and!.
    + injection Hc as <-. split_and!; [done..|right]. split_and!; [by left|done..].
  - intros [= <-]. split_and!; [done..|right]. split_and!; [right|done..].
    intros u Hu E. destruct (Z.le_gt_cases (ExchangeRate u) 0) as [?|Hpos]; [done|].
    assert (None = Some (ExchangeRate u)) as ?; [|done].
    apply Hm. exists u. split_and!; [done..|lia].
Qed.

(** The cross ballot of a passed denom and its median. *)
Lemma cross_ballot ref b bref bd c : bref ≡ₚ ref -> bd ≡ₚ b -> NoDup (Voter <$> bref) ->
  good_ballot bd -> bd <> [] -> ToCrossRateWithSort bd (ToMap bref) = Ok c ->
  exists cross, Forall2 (crosses ref) b cross /\ is_median cross (WeightedMedian c).
Proof using Type*.
  intros Er Eb Hnd (_ & Hp & Hn) Hne. unfold ToCrossRateWithSort, ToCrossRate. rewrite rfold_rmap.
  intros (c0 & Hc & [= <-])%rbind_Ok. simpl in Hc. go_inv.
  match goal with HR : rmap _ _ = Ok _ |- _ => apply rmap_Forall2 in HR as Hf end.
  destruct (cross_votes_ok _ _ _ Hf Hp Hn) as (Hp' & Hn' & _).
  assert (Forall2 (crosses ref) bd c0) as Hf'.
  { eapply Forall2_impl; [exact Hf|]. intros v w Hw. eapply crosses_perm; [exact Er|].
    by apply cross_vote_crosses. }
  destruct (Permutation_Forall2 Eb Hf') as (cross & Ec & Hcross). exists cross. split; [done|].
  destruct (sort_good c0 Hp' Hn') as (Hs & Hp1 & _).
  assert (sort_Sort Less c0 ≡ₚ cross) as Ecs by (by rewrite sort_Sort_perm).
  apply (proj1 (is_median_perm _ _ Ecs _ _ eq_refl)).
  apply WeightedMedian_is_median; [done|done|]. intros E0.
  pose proof (sort_Sort_perm _ Less c0) as E1. rewrite E0 in E1. apply Permutation_nil_l in E1.
  subst c0. apply Forall2_nil_inv_r in Hf'. done.
Qed.

(** ** The tally's effect on the store and on the claims *)

Section TallyRun.
Context (band : Dec) (r : string) (mapRT : gmap string Dec) (rateRT : Dec).

Definition rate_of (p : string * ExchangeRateBallot) : Dec :=
  match prepare band r mapRT rateRT p with Ok (_, _, _, rate) => rate | _ => 0 end.
Definition winners_of (p : string * ExchangeRateBallot) : list VoteForTally :=
  match prepare band r mapRT rateRT p with Ok (m, sp, b, _) => filter (wins m sp) b | _ => [] end.

Lemma tally_loop_run l : forall c (s : St) c' s',
  mfold (tally_denom band r mapRT rateRT) c l s = Ret c' s' ->
  (forall p, p ∈ l -> exists x, prepare band r mapRT rateRT p = Ok x) /\
  store s' = set_rates (foldl (fun m p => <[p.1 := rate_of p]> m) (ExchangeRates (store s)) l)
    (store s) /\
  c' = foldl add_win c (l ≫= winners_of).
Proof using Type*.
  induction l as [|p l IH]; intros c s c' s'.
  - intros [= <- <-]. split_and!; [by intros p ?%not_elem_of_nil|by destruct (store s)|done].
  - intros (c1 & s1 & R1 & R2)%bind_Ret. rewrite tally_denom_prepare in R1.
    destruct (prepare _ _ _ _ p) as [[[[m sp] b] rate]| |] eqn:Ep; [|done..].
    unfold finish in R1. destruct (rfold _ c b) as [c2| |] eqn:Ec; [|done..].
    injection R1 as <- <-. apply tally_votes_fold in Ec as ->.
    destruct (IH _ _ _ _ R2) as (H1' & H2' & H3'). split_and!.
    + intros q [->|Hq]%elem_of_cons; [by eexists|by apply H1'].
    + assert (rate_of p = rate) as Er by (unfold rate_of; by rewrite Ep).
      rewrite H2'. simpl. by rewrite Er.
    + assert (winners_of p = filter (wins m sp) b) as Ew by (unfold winners_of; by rewrite Ep).
      rewrite H3'. cbn [mbind list_bind]. by rewrite foldl_app, Ew.
Qed.
End TallyRun.

(** The rates after the tally, one per passed ballot. *)
Lemma tally_all_rates band lg r targets votes claims (s : St) c s' :
  r <> "" ->
  let rates := rate_of band r (ToMap (default [] (votes !! r))) (WeightedMedian (default [] (votes !! r))) in
  tally_all band (mkPick lg r targets votes) claims (cleared s) = Ret c s' ->
  (forall d b, votes !! d = Some b -> exists x,
     prepare band r (ToMap (default [] (votes !! r))) (WeightedMedian (default [] (votes !! r))) (d, b) = Ok x) /\
  store s' = set_rates (map_imap (fun d b => Some (rates (d, b))) votes) (store s).
Proof using Type*.
  intros Hr rates. unfold tally_all. cbn [referenceTerra pVotes].
  rewrite (proj2 (String.eqb_neq _ _) Hr).
  intros (Hp & Hst & _)%tally_loop_run. pose proof (map_range_perm 2 _ votes) as Hl. split.
  - intros d b Hd. apply Hp. rewrite Hl. by apply elem_of_map_to_list.
  - rewrite Hst.
    trans (set_rates (foldl (fun m p => <[p.1 := rates p]> m) ∅ (map_range 2 votes)) (store s)); [done|].
    f_equal. exact (foldl_insert_imap rates _ votes Hl).
Qed.

(** ** What the rest of the period's end leaves alone *)

Lemma keeps_RewardBallotWinners {X} (f : Store -> X) distrName vp w vt c :
  keeps f (RewardBallotWinners (B := B) (SS := SS) (DS := DS) distrName vp w vt c).
Proof using Type. unfold RewardBallotWinners, add_period_reward, reward_winner. keep. Qed.

Lemma keeps_ApplyWhitelist {X} (f : Store -> X) wl vt :
  (forall m st, f (set_tobin m st) = f st) ->
  keeps f (ApplyWhitelist (B := B) (SS := SS) (DS := DS) wl vt).
Proof using Type.
  intros Hf. unfold ApplyWhitelist. keep; apply keeps_on_store; intros st.
  - rewrite ClearTobinTaxes_spec. apply Hf.
  - apply Hf.
Qed.

Lemma keeps_count_miss {X} (f : Store -> X) l n :
  (forall m st, f (set_misses m st) = f st) ->
  keeps f (mfor l (count_miss (B := B) (SS := SS) (DS := DS) n)).
Proof using Type.
  intros Hf. unfold count_miss. keep. apply keeps_on_store. intros st. apply Hf.
Qed.

Lemma keeps_SlashAndReset {X} (f : Store -> X) ctx :
  (forall m st, f (set_misses m st) = f st) ->
  keeps f (SlashAndResetMissCounters (B := B) (SS := SS) (DS := DS) ctx).
Proof using Type.
  intros Hf. unfold SlashAndResetMissCounters, slash_one. keep; apply keeps_on_store; intros st; apply Hf.
Qed.

(** ** The exchange rates *)

(** The reference denom has the most power of the denoms that pass, and is the
    first in alphabetical order among equals. *)
Definition leads (votes : string -> ExchangeRateBallot) (pass : string -> Prop) (r : string) : Prop :=
  pass r /\ forall d, pass d -> power_of (votes d) < power_of (votes r) \/
    (power_of (votes d) = power_of (votes r) /\ str_le r d).

(** The rates a vote period must leave, given the votes cast for each denom and
    the denoms that pass: the rate of the reference denom [r] is the median of its
    votes, and the rate of any other denom is the quotient of that rate and the
    median of the denom's cross rates. *)
Definition rates_spec (votes : string -> ExchangeRateBallot) (pass : string -> Prop)
    (rates : gmap string Dec) : Prop :=
  (forall d, is_Some (rates !! d) <-> pass d) /\
  ((forall d, ~ pass d) \/
   exists r rateRT, leads votes pass r /\ rates !! r = Some rateRT /\ is_median (votes r) rateRT /\
     (forall d, pass d -> d <> r -> exists cross m rate,
        Forall2 (crosses (votes r)) (votes d) cross /\ is_median cross m /\
        Dec_Quo rateRT m = Ok rate /\ rates !! d = Some rate)).

Lemma passed_passes s claims thr d : votes_wf (store s) -> claims_ok claims ->
  is_Some (passed s claims thr !! d) <-> passes s claims thr d.
Proof using Type*.
  intros Hv Hc. split; [|apply passes_passed].
  intros [b Hb]. by destruct (passed_lookup _ _ _ _ _ Hv Hc Hb) as [? _].
Qed.

Lemma reference_leads (s : St) claims thr lg r : votes_wf (store s) -> claims_ok claims ->
  is_reference (passed s claims thr) lg r ->
  (forall d, ~ passes s claims thr d) \/ leads (cast s claims) (passes s claims thr) r.
Proof using Type*.
  intros Hv Hc Href.
  assert (forall d b, passed s claims thr !! d = Some b -> TotalPower b = power_of (cast s claims d))
    as Hpow.
  { intros d b Hb. destruct (passed_lookup _ _ _ _ _ Hv Hc Hb) as (_ & E & (_ & Hp & _) & _).
    by rewrite TotalPower_ok, E. }
  destruct Href as [(Hemp & _ & ->)|[(br & Hbr & ->) Hmax]].
  - left. intros d Hd%passed_passes; [|done..]. rewrite Hemp, lookup_empty in Hd. by destruct Hd.
  - right. split; [by apply passed_passes; [..|exists br]|].
    intros d Hd. apply passed_passes in Hd as [b Hb]; [|done..].
    rewrite <- (Hpow _ _ Hb), <- (Hpow _ _ Hbr). by apply Hmax.
Qed.

Lemma tally_rates band lg r targets claims thr (s : St) c s' :
  votes_wf (store s) -> claims_ok claims -> TobinTaxes (store s) !! "" = None ->
  is_reference (passed s claims thr) lg r ->
  tally_all band (mkPick lg r targets (passed s claims thr)) claims (cleared s) = Ret c s' ->
  rates_spec (cast s claims) (passes s claims thr) (ExchangeRates (store s')).
Proof using Type*.
  intros Hv Hc Ht Href.
  pose proof (reference_leads _ _ _ _ _ Hv Hc Href) as Hlead.
  pose proof (fun d => passed_passes s claims thr d Hv Hc) as Hpass.
  destruct Href as [(Hemp & _ & ->)|[(br & Hbr & ->) _]].
  { rewrite Hemp. unfold tally_all. cbn. intros [= _ <-]. split.
    - intros d. rewrite <- Hpass, Hemp. simpl. by rewrite !lookup_empty.
    - left. intros d Hd%Hpass. rewrite Hemp, lookup_empty in Hd. by destruct Hd. }
  destruct (passed_lookup _ _ _ _ _ Hv Hc Hbr) as (Hpr & Er & (Hsr & Hpwr & Hnr) & Hner).
  assert (r <> "") as Hr by (intros ->; destruct Hpr as [[? E0] _]; congruence).
  intros Hrun. apply tally_all_rates in Hrun as [Hprep Est]; [|done]. rewrite Hbr in Hprep, Est.
  change (default [] (Some br)) with br in Hprep, Est. rewrite Est. cbn [set_rates ExchangeRates]. split.
  - intros d. rewrite <- Hpass, map_lookup_imap. destruct (passed s claims thr !! d); simpl; by split.
  - right. exists r, (WeightedMedian br). split_and!.
    + destruct Hlead as [Hno|?]; [by destruct (Hno r)|done].
    + rewrite map_lookup_imap, Hbr. simpl. unfold rate_of, prepare.
      destruct (Hprep _ _ Hbr) as [x Ex]. unfold prepare in Ex. simpl in *. rewrite String.eqb_refl in *.
      cbn [rbind] in *. by destruct (reward_spread _ _ _).
    + apply (proj1 (is_median_perm _ _ Er _ _ eq_refl)). by apply WeightedMedian_is_median.
    + intros d Hd Hne. destruct (proj2 (Hpass d) Hd) as [b Hb].
      destruct (passed_lookup _ _ _ _ _ Hv Hc Hb) as (_ & Ed & Hg & Hned).
      destruct (Hprep _ _ Hb) as [x Ex]. pose proof Ex as Ex'. unfold prepare in Ex'. simpl in Ex'.
      rewrite (proj2 (String.eqb_neq _ _) Hne) in Ex'.
      apply rbind_Ok in Ex' as (cb & Hcb & (sp & Hsp & (rate & Hq & [= <-])%rbind_Ok)%rbind_Ok).
      destruct (cross_ballot _ _ _ _ _ Er Ed Hnr Hg Hned Hcb) as (cross & Hcr & Hm).
      exists cross, (WeightedMedian cb), rate. split_and!; [done..|].
      rewrite map_lookup_imap, Hb. simpl. unfold rate_of. by rewrite Ex.
Qed.

(** ** The end blocker *)

Lemma EndBlocker_run distrName ctx (s s' : St) :
  EndBlocker distrName ctx s = Ret tt s' ->
  let params := KParams (store s) in
  exists endVote endSlash s1,
    IsPeriodLastBlock ctx (VotePeriod params) = Ok endVote /\
    (if endVote : bool then end_vote_period distrName ctx params s = Ret tt s1 else s1 = s) /\
    IsPeriodLastBlock ctx (SlashWindow params) = Ok endSlash /\
    (if endSlash : bool then SlashAndResetMissCounters ctx s1 = Ret tt s' else s' = s1).
Proof using Type.
  unfold EndBlocker. intros (? & ? & [= <- <-] & R)%bind_Ret.
  rewrite bind_Ret in R. destruct R as (ev & ? & [Hev ->]%lift_Ret & R).
  rewrite bind_Ret in R. destruct R as ([] & s1 & Hv & R).
  rewrite bind_Ret in R. destruct R as (es & ? & [Hes ->]%lift_Ret & R).
  exists ev, es, s1. split_and!; [done| |done|].
  - destruct ev; [done|]. by injection Hv as <-.
  - destruct es; [done|]. by injection R as <-.
Qed.

(** The active set fits. *)
Lemma active_claims_ok (s : St) claims : active_ok s -> active_set s = Ok claims -> claims_ok claims.
Proof using Type.
  intros Ha Hc. destruct (Ha claims Hc) as (Hn & Hsum & _). split; [done|].
  pose proof (claims_total_nonneg _ Hn). nia.
Qed.

(** What happens after the tally does not touch a part [f] of the store. *)
Lemma after_tally_keeps {X} (f : Store -> X) distrName ctx params vt c n l (s1 s2 s3 s' : St) :
  (forall m st, f (set_misses m st) = f st) -> (forall m st, f (set_tobin m st) = f st) ->
  (forall m st, f (set_votes m st) = f st) -> (forall m st, f (set_prevotes m st) = f st) ->
  mfor l (count_miss n) s1 = Ret tt s2 ->
  RewardBallotWinners distrName (int64 (VotePeriod params))
    (int64 (RewardDistributionWindow params)) vt c s2 = Ret tt s3 ->
  ApplyWhitelist (Whitelist params) vt
    (mkState (ClearBallots ctx (VotePeriod params) (store s3)) (bank s3) (staking s3) (distr s3)
       (events s3)) = Ret tt s' ->
  f (store s') = f (store s1).
Proof using Type.
  intros Fm Ft Fv Fp R1 R2 R3. rewrite (keeps_ApplyWhitelist f _ _ Ft _ _ _ R3). cbn [store].
  rewrite ClearBallots_spec, Fv, Fp, (keeps_RewardBallotWinners f _ _ _ _ _ _ _ _ R2).
  by rewrite (keeps_count_miss f _ _ Fm _ _ _ R1).
Qed.

(** ** Properties *)

(** C2. The exchange rates of a vote period. When the end blocker ends a vote
    period, exactly the vote targets whose ballots pass get a rate; the reference
    denom is the passing denom with the most power (the first alphabetically among
    equals) and its rate is the weighted median of the votes of the active set;
    every other rate is the reference rate divided by the weighted median of the
    denom's cross rates. Earlier rates are gone. (The spec of the module has the
    weighted median of its own votes for every denom; see the findings.) *)
Theorem EndBlocker_rates distrName ctx (s s' : St) :
  votes_wf (store s) -> active_ok s -> TobinTaxes (store s) !! "" = None ->
  IsPeriodLastBlock ctx (VotePeriod (KParams (store s))) = Ok true ->
  EndBlocker distrName ctx s = Ret tt s' ->
  exists claims thr, active_set s = Ok claims /\ threshold_votes s = Ok thr /\
    rates_spec (cast s claims) (passes s claims thr) (ExchangeRates (store s')).
Proof using Type*.
  intros Hv Ha Ht Hl R. destruct (EndBlocker_run _ _ _ _ R) as (ev & es & s0 & Hev & Rv & _ & Rs).
  rewrite Hl in Hev. injection Hev as <-.
  destruct (end_vote_period_phases _ _ _ _ _ Rv)
    as (claims & thr & lg & r & c & s1 & s2 & s3 & Hc & Hthr & Href & Rt & Rm & Rr & Ra).
  exists claims, thr. split_and!; [done..|].
  assert (ExchangeRates (store s') = ExchangeRates (store s0)) as ->.
  { destruct es; [|by subst]. by apply (keeps_SlashAndReset ExchangeRates _) in Rs. }
  rewrite (after_tally_keeps ExchangeRates _ _ _ _ _ _ _ _ _ _ _
    ltac:(done) ltac:(done) ltac:(done) ltac:(done) Rm Rr Ra).
  eapply tally_rates; try done. by eapply active_claims_ok.
Qed.

(** Votes live for one period.  Ending a vote period removes every vote and
    exactly the prevotes whose reveal period is over; the parameters and the
    feeder delegations stay.  On any other block the end blocker leaves votes,
    prevotes and rates as they are. *)
Theorem EndBlocker_ballots distrName ctx (s s' : St) :
  EndBlocker distrName ctx s = Ret tt s' ->
  let vp := VotePeriod (KParams (store s)) in
  KParams (store s') = KParams (store s) /\
  FeederDelegations (store s') = FeederDelegations (store s) /\
  (IsPeriodLastBlock ctx vp = Ok true ->
     Votes (store s') = ∅ /\
     Prevotes (store s') = filter (fun p => expired ctx vp p.2 = false) (Prevotes (store s))) /\
  (IsPeriodLastBlock ctx vp = Ok false ->
     Votes (store s') = Votes (store s) /\ Prevotes (store s') = Prevotes (store s) /\
     ExchangeRates (store s') = ExchangeRates (store s) /\
     TobinTaxes (store s') = TobinTaxes (store s)).
Proof using Type*.
  intros R vp. destruct (EndBlocker_run _ _ _ _ R) as (ev & es & s0 & Hev & Rv & _ & Rs). fold vp in Hev.
  assert (forall X (f : Store -> X), (forall m st, f (set_misses m st) = f st) ->
    f (store s') = f (store s0)) as Hslash.
  { intros X f Hf. destruct es; [|by subst]. by eapply keeps_SlashAndReset. }
  rewrite !(Hslash _ KParams), !(Hslash _ FeederDelegations), !(Hslash _ Votes), !(Hslash _ Prevotes),
    !(Hslash _ ExchangeRates), !(Hslash _ TobinTaxes) by done.
  rewrite Hev. destruct ev; [|subst s0; by split_and!].
  destruct (end_vote_period_phases _ _ _ _ _ Rv)
    as (claims & thr & lg & r & c & s1 & s2 & s3 & _ & _ & _ & Rt & Rm & Rr & Ra).
  assert (forall X (f : Store -> X), (forall m st, f (set_rates m st) = f st) ->
    f (store s1) = f (store s)) as Htal.
  { intros X f Hf. unfold tally_all in Rt. cbn in Rt. destruct (String.eqb r "").
    - injection Rt as _ <-. apply Hf.
    - apply tally_loop_run in Rt as (_ & -> & _). rewrite Hf. apply Hf. }
  split_and!; [..|done].
  - rewrite (after_tally_keeps KParams _ _ _ _ _ _ _ _ _ _ _
    ltac:(done) ltac:(done) ltac:(done) ltac:(done) Rm Rr Ra). by apply Htal.
  - rewrite (after_tally_keeps FeederDelegations _ _ _ _ _ _ _ _ _ _ _
    ltac:(done) ltac:(done) ltac:(done) ltac:(done) Rm Rr Ra).
    by apply Htal.
  - intros _. split.
    + rewrite (keeps_ApplyWhitelist Votes _ _ ltac:(done) _ _ _ Ra). simpl. by rewrite ClearBallots_spec.
    + rewrite (keeps_ApplyWhitelist Prevotes _ _ ltac:(done) _ _ _ Ra). simpl.
      rewrite ClearBallots_spec. simpl. f_equal.
      rewrite (keeps_RewardBallotWinners Prevotes _ _ _ _ _ _ _ _ Rr).
      rewrite (keeps_count_miss Prevotes _ _ ltac:(done) _ _ _ Rm). by apply Htal.
Qed.
End EndBlock.

(** ** Witnesses *)

Import OracleRef.

Lemma EndBlocker_rates_witness : exists claims thr,
  active_set demo_state = Ok claims /\ threshold_votes demo_state = Ok thr /\
  rates_spec (cast demo_state claims) (passes demo_state claims thr)
    (ExchangeRates (store demo_after)).
Proof.
  apply (EndBlocker_rates (rt := runtime1) distrName demo_ctx demo_state demo_after);
    [apply demo_votes_wf|apply demo_active_ok|by vm_compute|by vm_compute|apply demo_returns].
Defined.

Lemma EndBlocker_ballots_witness :
  Votes (store demo_after) = ∅ /\
  Prevotes (store demo_after) =
    filter (fun p => expired demo_ctx (VotePeriod (KParams demo_store)) p.2 = false)
      (Prevotes demo_store).
Proof.
  apply (EndBlocker_ballots (rt := runtime1) distrName demo_ctx demo_state demo_after demo_returns).
  by vm_compute.
Defined.
End OracleEndBlock.
