(* ===== verification/OracleMisses.v ===== *)
(** * Winners, misses and slashing

    Who wins a ballot, whose miss counter grows at the end of a vote period, and
    what the end of a slash window does to the counters. *)

From S2P Require Import Prelude Sdk SdkRef Core OracleBallot OracleTypes OracleKeeper OracleTally OracleVotes OracleTallyFacts OracleRef OracleDeterminism OracleEndBlock.

Module OracleMisses.
Import Ballot OracleTypes OracleKeeper OracleTally OracleVotes OracleTallyFacts OracleDeterminism.
Import OracleEndBlock.

(** ** Counting *)

(** A sum of counters that are at most one counts the entries with one. *)
Lemma length_bind_count {A C} (P : C -> Prop) `{!forall x, Decision (P x)} (f : A -> list C)
    (Q : A -> Prop) `{!forall x, Decision (Q x)} (l : list A) :
  (forall a, a ∈ l -> length (filter P (f a)) = if decide (Q a) then 1%nat else 0%nat) ->
  length (filter P (l ≫= f)) = length (filter Q l).
Proof.
  induction l as [|a l IH]; intros Hf; [done|]. cbn [mbind list_bind].
  rewrite filter_app, length_app, filter_cons, Hf by left. rewrite IH.
  - by destruct (decide (Q a)).
  - intros a' Ha'. apply Hf. by right.
Qed.

(** Two finite sets, one inside the other, of one size. *)
Lemma subset_same_size (X Y : gset string) : X ⊆ Y -> size X = size Y -> X = Y.
Proof. intros Hs E. apply leibniz_equiv, set_subseteq_size_equiv; [done|lia]. Qed.

(** How often a validator wins. *)
Lemma add_wins_count `{Bech32Laws} v ws : forall claims a,
  addr_ok v = true -> (forall w, w ∈ ws -> addr_ok (Voter w) = true) ->
  claims !! ValString v = Some a -> - 2^63 <= WinCount a < 2^63 ->
  exists b, foldl add_win claims ws !! ValString v = Some b /\ Recipient b = Recipient a /\
    WinCount b = int64 (WinCount a + Z.of_nat (length (filter (fun w => Voter w = v) ws))).
Proof.
  induction ws as [|w ws IH]; intros claims a Hv Hws Ha Hr.
  - exists a. rewrite Z.add_0_r, int64_id by lia. done.
  - assert (addr_ok (Voter w) = true) as Hw by (apply Hws; left).
    assert (forall x, x ∈ ws -> addr_ok (Voter x) = true) as Hws' by (intros; apply Hws; by right).
    simpl. unfold add_win at 2. rewrite filter_cons. destruct (decide (Voter w = v)) as [<-|Hne].
    + destruct (IH (add_win claims w) (bump w a) Hv Hws') as (b & E1 & E2 & E3).
      * unfold add_win. by rewrite lookup_insert_eq, Ha.
      * apply int64_range.
      * exists b. unfold add_win in E1. rewrite Ha in E1. split_and!; [by rewrite Ha|done|].
        rewrite E3. simpl. rewrite int64_add_l. f_equal. lia.
    + apply IH; [done|done| |done]. rewrite lookup_insert_ne; [done|].
      intros E. by apply ValString_inj in E.
Qed.

(** A validator votes once in a ballot. *)
Lemma NoDup_voter_eq (pb : ExchangeRateBallot) v w :
  NoDup (Voter <$> pb) -> v ∈ pb -> w ∈ pb -> Voter v = Voter w -> v = w.
Proof.
  intros Hn Hv Hw E. induction pb as [|x pb IH]; [by apply not_elem_of_nil in Hv|].
  apply NoDup_cons in Hn as [Hni Hn].
  apply elem_of_cons in Hv as [->|Hv], Hw as [->|Hw]; [done|..|by apply IH].
  - destruct Hni. rewrite E. apply list_elem_of_fmap. by exists w.
  - destruct Hni. rewrite <- E. apply list_elem_of_fmap. by exists v.
Qed.

Lemma count_voter (ws : ExchangeRateBallot) v : NoDup (Voter <$> ws) ->
  length (filter (fun w => Voter w = v) ws) = if decide (v ∈ Voter <$> ws) then 1%nat else 0%nat.
Proof.
  induction ws as [|w ws IH]; intros Hn; [done|]. apply NoDup_cons in Hn as [Hni Hn].
  rewrite filter_cons, fmap_cons. destruct (decide (Voter w = v)) as [<-|Hne].
  - rewrite decide_True by left. simpl. rewrite IH by done. by rewrite decide_False.
  - rewrite IH by done. apply decide_ext. rewrite elem_of_cons. naive_solver.
Qed.

(** The entries of a map that satisfy [Q] number as many as a larger set only
    when they make up that set. *)
Lemma count_all {V} (m : gmap string V) (T : gset string) (Q : string * V -> Prop)
    `{!forall p, Decision (Q p)} l : l ≡ₚ map_to_list m -> dom m ⊆ T ->
  (length (filter Q l) <= size T)%nat /\
  (length (filter Q l) = size T <-> forall d, d ∈ T -> exists b, m !! d = Some b /\ Q (d, b)).
Proof.
  intros Hl Hd. assert (NoDup (filter Q l).*1) as Hnd.
  { eapply sublist_NoDup; [|eapply fmap_sublist, sublist_filter].
    rewrite Hl. apply NoDup_fst_map_to_list. }
  set (W := list_to_set (filter Q l).*1 : gset string).
  assert (length (filter Q l) = size W) as ->.
  { unfold W. by rewrite size_list_to_set, length_fmap. }
  assert (forall d, d ∈ W <-> exists b, m !! d = Some b /\ Q (d, b)) as HW.
  { intros d. unfold W. rewrite elem_of_list_to_set, list_elem_of_fmap. split.
    - intros ([d' b] & -> & [HQ Hin]%list_elem_of_filter). rewrite Hl in Hin.
      apply elem_of_map_to_list in Hin. by exists b.
    - intros (b & Hb & HQ). exists (d, b). split; [done|]. apply list_elem_of_filter.
      split; [done|]. rewrite Hl. by apply elem_of_map_to_list. }
  assert (W ⊆ T) as HWT.
  { intros d (b & Hb & _)%HW. apply Hd. by apply elem_of_dom_2 in Hb. }
  split; [by apply subseteq_size|]. split.
  - intros E d Hdt. apply HW. by rewrite (subset_same_size _ _ HWT E).
  - intros Ha. f_equal. apply set_eq. intros d. split; [apply HWT|]. intros Hdt. by apply HW, Ha.
Qed.

Section Misses.
Context {B SS DS : Type}.
Context `{HM : SdkMath, !SdkMathLaws, HC : SdkCoins, !SdkCoinsLaws, HA : Bech32, !Bech32Laws,
  HB : BankKeeper B, HS : StakingKeeper SS, !StakingLaws SS, HD : DistrKeeper DS, !DistrLaws DS,
  HL : SlashKeeper B SS DS, HG : GoStrings}.
Context {rt : GoRuntime} `{!GoRuntimeLaws rt}.
Abbreviation St := (State B SS DS).
Abbreviation OM := (M (State B SS DS)).

(** ** One ballot *)

Lemma Tally_run pb band claims m claims' : Tally pb band claims = Ok (m, claims') ->
  exists sp, m = WeightedMedian pb /\ reward_spread pb m band = Ok sp /\
    claims' = foldl add_win claims (filter (wins m sp) pb).
Proof using Type*.
  unfold Tally. intros (sp & Hsp & (c & Hc & [= <- <-])%rbind_Ok)%rbind_Ok.
  exists sp. split_and!; [done..|]. by apply tally_votes_fold in Hc.
Qed.

(** The spread is at least half of the reward band around the median. *)
Lemma reward_spread_ge pb m band sp : reward_spread pb m band = Ok sp ->
  dec_round (m * Z.quot band 2) <= sp.
Proof using Type*.
  unfold reward_spread. sdk_unfold. simpl. intros R. go_inv. sdk_unfold. sdk_inv.
  destruct (StandardDeviation pb m) as [sd|]; [|done]. injection R1 as <-.
  destruct (Z.ltb_spec (dec_round (m * Z.quot band 2)) sd); lia.
Qed.

(** Tallying a ballot: the result is the weighted median; a voter whose rate
    lies within the spread of it, or who abstains, has its vote's power and one
    win added to its claim; the claims of all others stay.  The spread is never
    less than half of the reward band around the median. *)
Theorem Tally_correct pb band (claims claims' : gmap string Claim) m :
  good_ballot pb -> pb <> [] -> voted claims pb -> Tally pb band claims = Ok (m, claims') ->
  exists sp, is_median pb m /\ dec_round (m * Z.quot band 2) <= sp /\
    (forall v a, v ∈ pb -> claims !! ValString (Voter v) = Some a ->
       claims' !! ValString (Voter v) = Some (if decide (wins m sp v) then bump v a else a)) /\
    (forall k, (forall v, v ∈ pb -> k <> ValString (Voter v)) -> claims' !! k = claims !! k).
Proof using Type*.
  intros (Hs & Hp & Hn) Hne Hv Ht. destruct (Tally_run _ _ _ _ _ Ht) as (sp & -> & Hsp & ->).
  exists sp. set (ws := filter (wins (WeightedMedian pb) sp) pb).
  assert (NoDup ((fun v => ValString (Voter v)) <$> ws)) as Hnd.
  { apply (voted_keys claims); [|by apply filter_NoDup_voters].
    intros v [_ Hin]%list_elem_of_filter. by apply Hv. }
  split_and!; [by apply WeightedMedian_is_median|by eapply reward_spread_ge|..].
  - intros v a Hin Ha. destruct (add_wins_lookup claims ws (ValString (Voter v)) Hnd) as [H1' H2'].
    destruct (decide (wins _ sp v)) as [Hw|Hw].
    + rewrite (H1' v) by (done || by apply list_elem_of_filter). by rewrite Ha.
    + rewrite H2'; [done|]. intros (w & E & [Hw' Hin']%list_elem_of_filter)%list_elem_of_fmap.
      destruct Hw. apply ValString_inj in E; [|by apply (Hv v)|by apply (Hv w)].
      by rewrite (NoDup_voter_eq pb v w).
  - intros k Hk. destruct (add_wins_lookup claims ws k Hnd) as [_ H2']. apply H2'.
    intros (w & E & [_ Hin']%list_elem_of_filter)%list_elem_of_fmap. by apply (Hk w).
Qed.

(** ** The ballots that are tallied, and who wins them *)

(** The sorted ballot tallied for [d]: its votes for the reference denom, its
    cross rates otherwise. *)
Definition tallied (votes : string -> ExchangeRateBallot) (r d : string) (b : ExchangeRateBallot)
    : Prop :=
  rate_sorted b /\
  if decide (d = r) then b ≡ₚ votes d
  else exists cross, Forall2 (crosses (votes r)) (votes d) cross /\ b ≡ₚ cross.

(** [v] votes within the spread around the median, or abstains. *)
Definition winner (votes : string -> ExchangeRateBallot) (r : string) (band : Dec) (d v : string)
    : Prop :=
  exists b sp w, tallied votes r d b /\ reward_spread b (WeightedMedian b) band = Ok sp /\
    w ∈ b /\ Voter w = v /\ wins (WeightedMedian b) sp w.

(** A voter's cross vote is determined by its two votes. *)
Lemma crosses_functional ref v w1 w2 :
  NoDup (Voter <$> ref) -> crosses ref v w1 -> crosses ref v w2 -> w1 = w2.
Proof using Type.
  intros Hnd (E1 & D1 & C1) (E2 & D2 & C2). destruct w1 as [r1 d1 v1 p1], w2 as [r2 d2 v2 p2].
  simpl in *. subst.
  destruct C1 as [(u1 & Hu1 & Ev1 & Hp1 & Hv1 & Q1 & ->)|(N1 & -> & ->)],
    C2 as [(u2 & Hu2 & Ev2 & Hp2 & Hv2 & Q2 & ->)|(N2 & -> & ->)]; [..|done].
  - assert (u1 = u2) as <- by (apply (NoDup_voter_eq ref); [done..|congruence]). congruence.
  - exfalso. destruct N2 as [?|N2]; [lia|]. specialize (N2 _ Hu1 Ev1). lia.
  - exfalso. destruct N1 as [?|N1]; [lia|]. specialize (N1 _ Hu2 Ev2). lia.
Qed.

Lemma tallied_unique votes r d b1 b2 : NoDup (Voter <$> votes r) ->
  tallied votes r d b1 -> tallied votes r d b2 -> b1 ≡ₚ b2.
Proof using Type.
  intros Hnd [_ H1'] [_ H2']. destruct (decide (d = r)); [by rewrite H1', H2'|].
  destruct H1' as (c1 & F1 & ->), H2' as (c2 & F2 & ->).
  assert (c1 = c2) as ->; [|done]. revert c2 F2.
  induction F1 as [|v w b c Hw F1 IH]; intros c2 F2; inversion F2 as [|? w2 ? c2' Hw2 F2']; [done|].
  subst. f_equal; [by eapply crosses_functional|by apply IH].
Qed.

(** Equal ballots up to ties have the same winners. *)
Lemma winner_iff votes r band d v b sp : NoDup (Voter <$> votes r) -> powers_ok b ->
  tallied votes r d b -> reward_spread b (WeightedMedian b) band = Ok sp ->
  winner votes r band d v <-> v ∈ Voter <$> filter (wins (WeightedMedian b) sp) b.
Proof using Type*.
  intros Hnd Hp Hb Hsp. rewrite list_elem_of_fmap. split.
  - intros (b' & sp' & w & Hb' & Hsp' & Hw & Ev & Hwin).
    pose proof (tallied_unique _ _ _ _ _ Hnd Hb' Hb) as E. destruct Hb as [Hs _], Hb' as [Hs' _].
    assert (WeightedMedian b' = WeightedMedian b) as Em
      by (apply WeightedMedian_perm; [by rewrite E|done..]).
    assert (sp' = sp) as ->.
    { rewrite Em in Hsp'. unfold reward_spread in Hsp, Hsp'.
      rewrite (StandardDeviation_perm _ b' b) in Hsp' by done. congruence. }
    exists w. split; [done|]. apply list_elem_of_filter. rewrite <- Em, <- E. done.
  - intros (w & -> & [Hwin Hw]%list_elem_of_filter). by exists b, sp, w.
Qed.

(** What the code prepares for a passed denom is the tallied ballot. *)
Lemma prepare_tallied band r votes brr d b m sp b' rate : brr ≡ₚ votes r -> b ≡ₚ votes d ->
  good_ballot brr -> good_ballot b ->
  prepare band r (ToMap brr) (WeightedMedian brr) (d, b) = Ok (m, sp, b', rate) ->
  tallied votes r d b' /\ good_ballot b' /\ m = WeightedMedian b' /\
  reward_spread b' (WeightedMedian b') band = Ok sp.
Proof using Type*.
  intros Er Ed (Hsr & Hpr & Hnr) Hg. unfold prepare, tallied. simpl.
  destruct (String.eqb_spec d r) as [->|Hne].
  - intros R. go_inv. rewrite decide_True by done. by destruct Hg.
  - intros (c & Hc & R)%rbind_Ok. go_inv. rewrite decide_False by done.
    unfold ToCrossRateWithSort, ToCrossRate in Hc. rewrite rfold_rmap in Hc. go_inv.
    match goal with HR : rmap _ _ = Ok _ |- _ => apply rmap_Forall2 in HR as Hf end.
    destruct Hg as (_ & Hp & Hn). destruct (cross_votes_ok _ _ _ Hf Hp Hn) as (Hp' & Hn' & _).
    pose proof (sort_good _ Hp' Hn') as Hgood. split_and!; try done; [by destruct Hgood|].
    match type of Hf with Forall2 _ _ ?c =>
      assert (Forall2 (crosses (votes r)) b c) as Hf' end.
    { eapply Forall2_impl; [exact Hf|]. intros v w Hw. eapply crosses_perm; [exact Er|].
      by apply cross_vote_crosses. }
    destruct (Permutation_Forall2 Ed Hf') as (cross & Ec & Hcross). exists cross.
    split; [done|]. by rewrite sort_Sort_perm.
Qed.

(** ** Counting misses *)

(** The loop adds one to the counter of every claim with another win count. *)
Lemma count_misses_run n l : forall (s s' : St),
  ForallOrdPairs (fun p q => Recipient p.2 <> Recipient q.2) l ->
  mfor l (count_miss n) s = Ret tt s' ->
  forall v, GetMissCounter (store s') v =
    if decide (Exists (fun p => Recipient p.2 = v /\ WinCount p.2 <> n) l)
    then uint64 (GetMissCounter (store s) v + 1) else GetMissCounter (store s) v.
Proof using Type.
  induction l as [|p l IH]; intros s s' Hnd.
  - intros [= <-] v. rewrite decide_False; [done|]. by intros ?%Exists_nil.
  - inversion Hnd as [|? ? Hp Hnd']; subst. intros ([] & s1 & R1 & R2)%bind_Ret v.
    rewrite (IH _ _ Hnd' R2 v). clear IH R2. unfold count_miss in R1.
    destruct (Z.eqb_spec (WinCount p.2) n) as [E|Hne]; injection R1 as <-.
    + erewrite decide_ext; [done|]. rewrite Exists_cons. naive_solver.
    + cbn [store]. destruct (decide (Recipient p.2 = v)) as [Ev|Hv].
      * rewrite decide_False, decide_True; [|by left|].
        -- unfold GetMissCounter, SetMissCounter. simpl. rewrite Ev. by rewrite lookup_insert_eq.
        -- rewrite Exists_exists. rewrite Forall_forall in Hp. intros (q & Hq & E & _).
           apply (Hp q Hq). congruence.
      * assert (GetMissCounter (SetMissCounter (Recipient p.2)
          (uint64 (GetMissCounter (store s) (Recipient p.2) + 1)) (store s)) v =
          GetMissCounter (store s) v) as ->.
        { unfold GetMissCounter, SetMissCounter. simpl. by rewrite lookup_insert_ne. }
        erewrite decide_ext; [done|]. rewrite Exists_cons. naive_solver.
Qed.

(** Two claims of the active set have different recipients. *)
Lemma claims_distinct (claims : gmap string Claim) l : l ≡ₚ map_to_list claims ->
  map_Forall (fun k a => k = ValString (Recipient a)) claims ->
  ForallOrdPairs (fun p q => Recipient p.2 <> Recipient q.2) l.
Proof using Type.
  intros Hl Hk. assert (NoDup l.*1) as Hnd by (rewrite Hl; apply NoDup_fst_map_to_list).
  assert (Forall (fun p => p.1 = ValString (Recipient p.2)) l) as Hf.
  { apply Forall_forall. intros [k a] Hin. rewrite Hl in Hin. apply elem_of_map_to_list in Hin.
    by apply Hk. }
  clear Hl. induction Hf as [|p l Hp Hf IH]; constructor.
  - apply NoDup_cons in Hnd as [Hni _]. rewrite Forall_forall in *. intros q Hq E.
    apply Hni. apply list_elem_of_fmap. exists q. split; [|done]. by rewrite Hp, (Hf q Hq), E.
  - apply IH. by apply NoDup_cons in Hnd as [_ ?].
Qed.

(** The vote targets that count: those nobody voted on, and those that pass. *)
Definition left_target (s : St) (claims : gmap string Claim) (thr : Int) (d : string) : Prop :=
  is_Some (TobinTaxes (store s) !! d) /\ (cast s claims d = [] \/ passing thr (cast s claims d)).

Lemma targets_left_spec (s : St) claims thr d :
  d ∈ dom (targets_left s claims thr) <-> left_target s claims thr d.
Proof using Type*.
  unfold targets_left, left_target. rewrite elem_of_dom.
  pose proof (OrganizeBallotByDenom_lookup (store s) claims d) as E. fold (cast s claims d) in E.
  assert (forall t, kept thr (ballots_of s claims) (d, t) <->
    cast s claims d = [] \/ passing thr (cast s claims d)) as Hk.
  { intros t. unfold kept, ballots_of. simpl. rewrite E.
    destruct (cast s claims d) as [|v b] eqn:Ec; [naive_solver|].
    rewrite (passing_perm thr (sort_Sort Less (v :: b)) (v :: b)) by apply sort_Sort_perm. naive_solver. }
  split.
  - intros [t [Ht Hkt]%map_lookup_filter_Some]. split; [by exists t|]. by apply (Hk t).
  - intros [[t Ht] Hkt]. exists t. apply map_lookup_filter_Some. split; [done|]. by apply Hk.
Qed.

Lemma passed_dom (s : St) claims thr : dom (passed s claims thr) ⊆ dom (targets_left s claims thr).
Proof using Type*.
  intros d Hd. apply elem_of_dom in Hd as [b [Hb [Ht Hp]]%map_lookup_filter_Some].
  apply elem_of_dom. destruct Ht as [t Ht]. simpl in *. exists t. apply map_lookup_filter_Some.
  split; [done|]. unfold kept. simpl. by rewrite Hb.
Qed.

(** Who won everything. *)
Definition won_all (s : St) (claims : gmap string Claim) (thr : Int) (r v : string) : Prop :=
  forall d, left_target s claims thr d ->
    passes s claims thr d /\ winner (cast s claims) r (RewardBand (KParams (store s))) d v.

Lemma winners_of_spec (s : St) claims thr r br d b v :
  votes_wf (store s) -> claims_ok claims ->
  passed s claims thr !! r = Some br -> passed s claims thr !! d = Some b ->
  (exists x, prepare (RewardBand (KParams (store s))) r (ToMap br) (WeightedMedian br) (d, b) = Ok x) ->
  let ws := winners_of (RewardBand (KParams (store s))) r (ToMap br) (WeightedMedian br) (d, b) in
  NoDup (Voter <$> ws) /\ voted claims ws /\
  (v ∈ Voter <$> ws <-> winner (cast s claims) r (RewardBand (KParams (store s))) d v).
Proof using Type*.
  intros Hv Hc Hbr Hb [[[[m sp] b'] rate] Hx] ws.
  destruct (passed_lookup _ _ _ _ _ Hv Hc Hbr) as (_ & Er & Hgr & _).
  destruct (passed_lookup _ _ _ _ _ Hv Hc Hb) as (_ & Ed & Hg & _).
  destruct (prepare_tallied _ _ (cast s claims) _ _ _ _ _ _ _ Er Ed Hgr Hg Hx) as (Ht & Hg' & -> & Hsp).
  assert (ws = filter (wins (WeightedMedian b') sp) b') as ->.
  { unfold ws, winners_of. by rewrite Hx. }
  destruct (stored_votes_wf _ Hv) as [Hl _]. destruct (Hc) as [Hn _].
  assert (voted claims b) as Hvb.
  { intros w Hw. rewrite Ed in Hw. by apply (ballot_for_voted claims d (stored_votes (store s))). }
  destruct (prepare_voted _ _ _ _ _ _ _ _ _ _ _ Hg Hvb Hx) as [(_ & Hp' & Hnd') Hv'].
  split_and!; [by apply filter_NoDup_voters|intros w [_ Hw]%list_elem_of_filter; by apply Hv'|].
  symmetry. apply winner_iff; try done. rewrite <- Er. by destruct Hgr as (_ & _ & ?).
Qed.

(** When no ballot passed, a validator won everything exactly when nothing is left. *)
Lemma nothing_passed (s : St) claims thr r v : passed s claims thr = ∅ ->
  0 = Z.of_nat (size (targets_left s claims thr)) <-> won_all s claims thr r v.
Proof using Type*.
  intros Hemp. set (T := targets_left s claims thr). unfold won_all. rewrite <- size_dom. split.
  - intros E d Hd%targets_left_spec. fold T in Hd.
    assert (size (dom T) = 0%nat) as E' by lia. apply size_empty_inv in E'. set_solver.
  - intros Hall. destruct (decide (dom T = ∅)) as [->|Hne]; [by rewrite size_empty|].
    apply set_choose_L in Hne as [d Hd]. apply targets_left_spec, Hall in Hd as [Hd _].
    apply passes_passed in Hd as [b Hb]. by rewrite Hemp in Hb.
Qed.

Lemma tally_wins (s : St) claims thr lg r targets c s1 key a :
  votes_wf (store s) -> active_ok s -> active_set s = Ok claims ->
  TobinTaxes (store s) !! "" = None -> is_reference (passed s claims thr) lg r ->
  tally_all (RewardBand (KParams (store s))) (mkPick lg r targets (passed s claims thr))
    claims (cleared s) = Ret c s1 ->
  claims !! key = Some a -> addr_ok (Recipient a) = true ->
  exists b, c !! key = Some b /\ Recipient b = Recipient a /\
    (WinCount b = Z.of_nat (size (targets_left s claims thr)) <->
     won_all s claims thr r (Recipient a)).
Proof using Type*.
  intros Hv Hact Hset Ht0 Href Rt Ha Hok. pose proof (active_claims_ok _ _ Hact Hset) as Hc.
  destruct (Hact claims Hset) as (Hn & _ & Hsz).
  pose proof (active_claims_fresh _ _ _ _ _ _ _ fresh_claims_empty Hset) as Hfr.
  destruct (Hfr _ _ Ha) as (-> & _ & Hw0). clear Hfr.
  set (T := targets_left s claims thr).
  assert (size T <= size (TobinTaxes (store s)))%nat as Hle.
  { unfold T, targets_left. rewrite <- !size_dom. apply subseteq_size, dom_filter_subseteq. }
  destruct Href as [(Hemp & _ & ->)|[(br & Hbr & ->) _]].
  - rewrite Hemp in Rt. injection Rt as <- _. exists a. split_and!; [done..|]. rewrite Hw0. by apply nothing_passed.
  - destruct (passed_lookup _ _ _ _ _ Hv Hc Hbr) as ([[? E0] _] & _).
    unfold tally_all in Rt. cbn [referenceTerra pVotes] in Rt.
    rewrite (proj2 (String.eqb_neq r "")) in Rt by congruence. rewrite Hbr in Rt.
    apply tally_loop_run in Rt as (Hprep & _ & ->). change (default [] (Some br)) with br in *.
    set (l := map_range 2 (passed s claims thr)) in *.
    assert (l ≡ₚ map_to_list (passed s claims thr)) as Hl by apply map_range_perm.
    set (W := winners_of _ _ _ _).
    assert (forall p, p ∈ l -> passed s claims thr !! p.1 = Some p.2) as Hin.
    { intros [d b] Hp. rewrite Hl in Hp. by apply elem_of_map_to_list in Hp. }
    assert (forall p, p ∈ l -> NoDup (Voter <$> W p) /\ voted claims (W p) /\
      (Recipient a ∈ Voter <$> W p <->
       winner (cast s claims) r (RewardBand (KParams (store s))) p.1 (Recipient a))) as HW.
    { intros [d b] Hp. apply (winners_of_spec s claims thr r br d b); try done; [by apply Hin in Hp|by apply Hprep]. }
    destruct (add_wins_count (Recipient a) (l ≫= W) claims a Hok) as (b & E1 & E2 & E3);
      [|done|lia|].
    { intros w (p & Hw & Hp)%list_elem_of_bind. apply (HW p Hp). done. }
    exists b. split_and!; [done..|]. rewrite E3, Hw0.
    rewrite (length_bind_count _ _ (fun p => Recipient a ∈ Voter <$> W p)).
    2: { intros p Hp. apply count_voter. by apply HW. }
    destruct (count_all (passed s claims thr) (dom T) (fun p => Recipient a ∈ Voter <$> W p) l Hl
      (passed_dom s claims thr)) as [Hcle Hiff].
    rewrite size_dom in Hcle, Hiff. rewrite int64_id by lia. rewrite Z.add_0_l, Nat2Z.inj_iff, Hiff.
    unfold won_all. setoid_rewrite <- targets_left_spec. split.
    + intros Hall d Hd. destruct (Hall d Hd) as (bd & Hbd & Hwin).
      assert ((d, bd) ∈ l) as Hdl by (rewrite Hl; by apply elem_of_map_to_list).
      destruct (passed_lookup _ _ _ _ _ Hv Hc Hbd) as [? _]. split; [done|]. by apply (HW _ Hdl).
    + intros Hall d Hd. destruct (Hall d Hd) as [Hp Hwin]. destruct (passes_passed _ _ _ _ Hp) as [bd Hbd].
      assert ((d, bd) ∈ l) as Hdl by (rewrite Hl; by apply elem_of_map_to_list).
      exists bd. split; [done|]. by apply (HW _ Hdl).
Qed.

(** C14. Miss counting at the end of a vote period. The counter of a validator of
    the active set grows by one exactly when some remaining vote target (one that
    passed, or that nobody voted on) was not won by the validator; a validator
    that wins every remaining target, and one outside of the active set, keeps its
    counter. Ballots of other denoms are judged by their cross rates against the
    leading denom. (The spec counts every whitelisted denom, also one whose ballot
    was cast and failed; see the findings.) *)
Theorem EndBlocker_misses distrName ctx (s s' : St) :
  votes_wf (store s) -> active_ok s -> TobinTaxes (store s) !! "" = None ->
  IsPeriodLastBlock ctx (VotePeriod (KParams (store s))) = Ok true ->
  IsPeriodLastBlock ctx (SlashWindow (KParams (store s))) = Ok false ->
  EndBlocker distrName ctx s = Ret tt s' ->
  exists claims thr r, active_set s = Ok claims /\ threshold_votes s = Ok thr /\
    ((forall d, ~ passes s claims thr d) \/ leads (cast s claims) (passes s claims thr) r) /\
    (forall key a, claims !! key = Some a -> addr_ok (Recipient a) = true ->
       (won_all s claims thr r (Recipient a) ->
        GetMissCounter (store s') (Recipient a) = GetMissCounter (store s) (Recipient a)) /\
       (~ won_all s claims thr r (Recipient a) ->
        GetMissCounter (store s') (Recipient a) =
          uint64 (GetMissCounter (store s) (Recipient a) + 1))) /\
    (forall v, (forall key a, claims !! key = Some a -> Recipient a <> v) ->
       GetMissCounter (store s') v = GetMissCounter (store s) v).
Proof using Type*.
  intros Hv Ha Ht Hl Hsl R. destruct (EndBlocker_run _ _ _ _ R) as (ev & es & s0 & Hev & Rv & Hes & Rs).
  rewrite Hl in Hev. injection Hev as <-. rewrite Hsl in Hes. injection Hes as <-. subst s0.
  destruct (end_vote_period_phases _ _ _ _ _ Rv)
    as (claims & thr & lg & r & c & s1 & s2 & s3 & Hc & Hthr & Href & Rt & Rm & Rr & Ra).
  exists claims, thr, r. split; [done|]. split; [done|].
  split; [by apply (reference_leads _ _ _ lg _ Hv (active_claims_ok _ _ Ha Hc))|].
  pose proof (active_claims_fresh _ _ _ _ _ _ _ fresh_claims_empty Hc) as Hf.
  destruct (Ha claims Hc) as (Hn & Hsum & Hsz).
  destruct (tally_all_grown _ _ _ _ _ _ _ _ _ _ _ Hv Hf Hn Hsum Hsz Rt) as (k & _ & Hg).
  assert (forall v, GetMissCounter (store s') v = GetMissCounter (store s2) v) as E'.
  { intros v. rewrite (keeps_ApplyWhitelist (fun st => GetMissCounter st v) _ _ ltac:(done) _ _ _ Ra).
    cbn [store]. rewrite ClearBallots_spec.
    by rewrite <- (keeps_RewardBallotWinners (fun st => GetMissCounter st v) _ _ _ _ _ _ _ _ Rr). }
  assert (forall v, GetMissCounter (store s1) v = GetMissCounter (store s) v) as E1.
  { intros v. unfold tally_all in Rt. cbn in Rt. destruct (String.eqb r "").
    - by injection Rt as _ <-.
    - by apply tally_loop_run in Rt as (_ & -> & _). }
  assert (ForallOrdPairs (fun p q => Recipient p.2 <> Recipient q.2) (map_range 6 c)) as Hd.
  { eapply claims_distinct; [apply map_range_perm|]. intros key b Hb.
    by destruct (grown_lookup _ _ _ Hf Hg _ _ Hb) as (_ & _ & _ & _ & _ & _ & ?). }
  pose proof (count_misses_run _ _ _ _ Hd Rm) as Hm.
  assert (forall p, p ∈ map_range 6 c <-> c !! p.1 = Some p.2) as Hin.
  { intros [key b]. rewrite map_range_perm. apply elem_of_map_to_list. }
  split.
  - intros key a Hka Hok.
    destruct (tally_wins s claims thr lg r _ c s1 key a Hv Ha Hc Ht Href Rt Hka Hok) as (b & Hb & Er & Hw).
    rewrite !E', !Hm, !E1. split; intros Hwon.
    + rewrite decide_False; [done|]. intros ([key' b'] & Hb'%Hin & E & Hne)%Exists_exists. simpl in *.
      destruct (decide (key' = key)) as [->|Hk]; [rewrite Hb in Hb'; simplify_eq; by apply Hne, Hw|].
      apply (grown_recipients k claims c Hf Hg key' key b' b); [done..|congruence].
    + rewrite decide_True; [done|]. apply Exists_exists. exists (key, b). split; [by apply Hin|].
      split; [done|]. by rewrite Hw.
  - intros v Hno. rewrite E', Hm, decide_False; [done|].
    intros ([key b] & Hb%Hin & E & _)%Exists_exists. simpl in *.
    destruct (grown_lookup _ _ _ Hf Hg _ _ Hb) as (a & Hka & _ & Er & _). apply (Hno _ _ Hka). congruence.
Qed.

(** ** Slashing *)

(** The share of vote periods without a miss. *)
Definition valid_rate (n missCounter : Z) : Dec :=
  Z.quot (NewDec (int64 (uint64 (n - missCounter)))) (int64 n).

(** The modules that slashing reaches, and the punishment as an operation on them. *)
Definition modules (s : St) : B * SS * DS := (bank s, staking s, distr s).

Definition punish (height : Z) (fraction : Dec) (pr : Int) (operator : string) : M (B * SS * DS) unit :=
  let* val := gets (fun t => Validator t.1.2 operator) in
  match val with
  | None => panic
  | Some validator =>
      if IsBonded validator && negb (IsJailed validator) then
        let* consAddr := must (lift (GetConsAddr validator)) in
        do* Slash consAddr height (GetConsensusPower validator pr) fraction in
        zoom (fun t => t.1.2) (fun st t => (t.1.1, st, t.2)) (Jail consAddr)
      else ret tt
  end.

(** Punish the operators whose valid rate is too low, in store order. *)
Definition punish_all (height n : Z) (minValid fraction : Dec) (pr : Int) (l : list (string * Z))
    : M (B * SS * DS) unit :=
  mfor (filter (fun p => valid_rate n p.2 < minValid) l)
    (fun p => punish height fraction pr p.1).

Lemma punish_run (height : Z) fraction pr operator (s s' : St) :
  (let* val := gets (fun s => Validator (staking s) operator) in
   match val with
   | None => panic
   | Some validator =>
       if IsBonded validator && negb (IsJailed validator) then
         let* consAddr := must (lift (GetConsAddr validator)) in
         do* on_modules (Slash consAddr height (GetConsensusPower validator pr) fraction) in
         on_staking (Jail consAddr)
       else ret tt
   end) s = Ret tt s' ->
  punish height fraction pr operator (modules s) = Ret tt (modules s') /\ store s' = store s.
Proof using Type.
  unfold punish, modules, bind, gets. cbn [fst snd].
  destruct (Validator (staking s) operator) as [val|]; [|done].
  destruct (IsBonded val && negb (IsJailed val)); [|by intros [= <-]].
  unfold must, lift. destruct (GetConsAddr val) as [ca| |]; [|done..].
  unfold on_modules, on_staking, zoom.
  destruct (Slash ca height _ _ _) as [[] [[b st] d]| |]; [|done..].
  cbn [staking fst snd]. destruct (Jail ca st) as [[] t'| |]; [|done..]. by intros [= <-].
Qed.

Lemma slash_loop height n mv fr pr l : forall (s s' : St), int64 n <> 0 ->
  mfor l (slash_one height n mv fr pr) s = Ret tt s' ->
  punish_all height n mv fr pr l (modules s) = Ret tt (modules s') /\
  store s' = set_misses (foldl (fun m p => delete p.1 m) (MissCounters (store s)) l) (store s).
Proof using Type*.
  induction l as [|[op miss] l IH]; intros s s' Hn.
  - intros [= <-]. split; [done|]. by destruct (store s).
  - intros ([] & s1 & R1 & R2)%bind_Ret. unfold slash_one in R1. sdk_unfold.
    rewrite (proj2 (Z.eqb_neq _ _) Hn) in R1.
    apply bind_Ret in R1 as (rate & ? & [[= <-] ->]%lift_Ret & R1). fold (valid_rate n miss) in R1.
    apply bind_Ret in R1 as ([] & s2 & Rp & [= <-]).
    destruct (IH _ _ Hn R2) as (Hst & Hstore). cbn [store] in *. change (modules _) with (modules s2) in Hst at 1.
    unfold punish_all. rewrite filter_cons. simpl.
    destruct (Z.ltb_spec (valid_rate n miss) mv) as [Hlt|Hge].
    + apply punish_run in Rp as (Hp & Es). rewrite decide_True by done.
      split; [|by rewrite Hstore, Es]. apply bind_Ret. by exists tt, (modules s2).
    + injection Rp as <-. rewrite decide_False by lia. by split.
Qed.

(** Dividing an integral decimal and truncating is integer division. *)
Lemma quot_NewDec a b : 0 <= a -> 0 < b -> Z.quot (Z.quot (NewDec a) b) P18 = a / b.
Proof using Type.
  intros Ha Hb. unfold NewDec. assert (0 < P18) by done.
  rewrite (Z.quot_div_nonneg (a * P18)) by nia.
  rewrite Z.quot_div_nonneg by (try lia; apply Z.div_pos; nia).
  rewrite Zdiv.Zdiv_Zdiv by lia. by rewrite Z.div_mul_cancel_r by lia.
Qed.

(** C15. The end of a slash window.  [SlashAndResetMissCounters] removes every miss
    counter and changes nothing else of the oracle's store; of the bank, the
    staking module and the distribution it changes exactly what slashing and then
    jailing does, in store order, of the bonded unjailed validators whose share of
    valid votes in the window is below the minimum. *)
Theorem SlashAndReset_correct ctx (s s' : St) :
  let p := KParams (store s) in
  0 < VotePeriod p < 2^63 -> VotePeriod p <= SlashWindow p < 2^63 ->
  SlashAndResetMissCounters ctx s = Ret tt s' ->
  store s' = set_misses ∅ (store s) /\
  punish_all (int64 (BlockHeight ctx - ValidatorUpdateDelay - 1)) (SlashWindow p / VotePeriod p)
    (MinValidPerWindow p) (SlashFraction p) (PowerReduction (staking s))
    (IterateMissCounters (store s)) (modules s) = Ret tt (modules s').
Proof using Type*.
  intros p Hv Hw. unfold SlashAndResetMissCounters. intros (? & ? & [= <- <-] & R)%bind_Ret.
  fold p in R. sdk_unfold. rewrite !(int64_id (VotePeriod p)), !(int64_id (SlashWindow p)) in R by lia.
  rewrite (proj2 (Z.eqb_neq (VotePeriod p) 0)) in R by lia.
  apply bind_Ret in R as (q & ? & [[= <-] ->]%lift_Ret & R).
  apply bind_Ret in R as (t & ? & [Ht ->]%lift_Ret & R). sdk_unfold. sdk_inv.
  apply bind_Ret in R as (n & ? & [Hi ->]%lift_Ret & R).
  assert (Z.quot (Z.quot (NewDec (SlashWindow p)) (VotePeriod p)) P18 = SlashWindow p / VotePeriod p) as E.
  { by apply quot_NewDec; lia. }
  rewrite E in Hi. assert (1 <= SlashWindow p / VotePeriod p <= SlashWindow p) as Hb.
  { split; [apply Z.div_le_lower_bound; lia|apply Z.div_le_upper_bound; nia]. }
  unfold Int_Int64, is_int64 in Hi.
  destruct (Z.leb_spec (-2^63) (SlashWindow p / VotePeriod p)); [|lia].
  destruct (Z.ltb_spec (SlashWindow p / VotePeriod p) (2^63)); [|lia]. injection Hi as <-.
  rewrite uint64_id in R by lia.
  apply slash_loop in R as (Hst & Hs); [|rewrite int64_id by lia; lia].
  split; [|done]. rewrite Hs. by rewrite foldl_delete_map by apply kv_iter_perm.
Qed.
End Misses.

(** ** Witnesses *)

Import OracleRef.

Definition demo_ballot : ExchangeRateBallot :=
  [NewVoteForTally (NewDec 2) "usdr" valB 20; NewVoteForTally (NewDec 2) "usdr" valA 30;
   NewVoteForTally (NewDec 9) "usdr" valC 10].
Definition demo_tally : Dec * gmap string Claim :=
  value (Tally demo_ballot (NewDecWithPrec 2 2) demo_claims) (0, ∅).

Lemma demo_ballot_good : good_ballot demo_ballot.
Proof.
  split_and!.
  - repeat constructor; simpl; unfold NewDec, P18; lia.
  - split; [|done]. repeat constructor; simpl; lia.
  - apply (bool_decide_unpack _). by vm_compute.
Qed.

Lemma demo_voted : voted demo_claims demo_ballot.
Proof.
  intros v Hv. apply list_elem_of_In in Hv. destruct Hv as [<-|[<-|[<-|[]]]]; (split; [by vm_compute|]);
    eexists; (split; [by vm_compute|]); simpl; lia.
Qed.

Lemma Tally_correct_witness : exists sp,
  is_median demo_ballot demo_tally.1 /\
  dec_round (demo_tally.1 * Z.quot (NewDecWithPrec 2 2) 2) <= sp /\
  (forall v a, v ∈ demo_ballot -> demo_claims !! ValString (Voter v) = Some a ->
     demo_tally.2 !! ValString (Voter v) = Some (if decide (wins demo_tally.1 sp v) then bump v a else a)) /\
  (forall k, (forall v, v ∈ demo_ballot -> k <> ValString (Voter v)) -> demo_tally.2 !! k = demo_claims !! k).
Proof.
  apply (Tally_correct demo_ballot (NewDecWithPrec 2 2) demo_claims demo_tally.2 demo_tally.1);
    [apply demo_ballot_good|done|apply demo_voted|].
  rewrite <- surjective_pairing. apply succeeded_value. by vm_compute.
Defined.

Lemma EndBlocker_misses_witness : exists claims thr r,
  active_set demo_state = Ok claims /\ threshold_votes demo_state = Ok thr /\
  ((forall d, ~ passes demo_state claims thr d) \/
   leads (cast demo_state claims) (passes demo_state claims thr) r) /\
  (forall key a, claims !! key = Some a -> addr_ok (Recipient a) = true ->
     (won_all demo_state claims thr r (Recipient a) ->
      GetMissCounter (store demo_after) (Recipient a) = GetMissCounter (store demo_state) (Recipient a)) /\
     (~ won_all demo_state claims thr r (Recipient a) ->
      GetMissCounter (store demo_after) (Recipient a) =
        uint64 (GetMissCounter (store demo_state) (Recipient a) + 1))) /\
  (forall v, (forall key a, claims !! key = Some a -> Recipient a <> v) ->
     GetMissCounter (store demo_after) v = GetMissCounter (store demo_state) v).
Proof.
  apply (EndBlocker_misses (rt := runtime1) distrName demo_ctx demo_state demo_after);
    [apply demo_votes_wf|apply demo_active_ok|by vm_compute..|apply demo_returns].
Defined.

(** A validator that missed the whole window. *)
Definition lazy_state : State RefBank RefStaking RefDistr :=
  mkState (set_misses {[ valC := SlashWindow DefaultParams / VotePeriod DefaultParams ]} demo_store)
    demo_bank demo_staking (mkDistr ∅ []) [].
Definition lazy_after : State RefBank RefStaking RefDistr :=
  final (SlashAndResetMissCounters demo_ctx lazy_state) lazy_state.

Lemma SlashAndReset_correct_witness :
  store lazy_after = set_misses ∅ (store lazy_state) /\
  punish_all (int64 (4 - ValidatorUpdateDelay - 1))
    (SlashWindow DefaultParams / VotePeriod DefaultParams) (MinValidPerWindow DefaultParams)
    (SlashFraction DefaultParams) (PowerReduction demo_staking)
    (IterateMissCounters (store lazy_state)) (modules lazy_state) = Ret tt (modules lazy_after).
Proof.
  apply (SlashAndReset_correct demo_ctx lazy_state lazy_after); [done..|].
  apply returned_final. by vm_compute.
Defined.

(** The lazy validator is slashed. *)
Example lazy_is_slashed : length (slashes (staking lazy_after)) = 1%nat.
Proof. vm_compute. reflexivity. Qed.
End OracleMisses.
