(* ===== verification/OracleRewards.v ===== *)
(** * Rewards

    What [RewardBallotWinners] pays: every winner its share of the period's
    rewards, and never more than the oracle's pool holds. *)

From S2P Require Import Prelude Sdk SdkRef Core OracleBallot OracleTypes OracleKeeper OracleTally OracleVotes OracleTallyFacts OracleRef OracleDeterminism.

Module OracleRewards.
Import Ballot OracleTypes OracleKeeper OracleTally OracleVotes OracleTallyFacts OracleDeterminism.

(** The coins of a denom that a weight of [w] out of [W] earns from [P]. *)
Definition reward_share `{SdkMath} (P : Dec) (W w : Z) : Z :=
  Z.quot (dec_round (P * Z.quot (NewDec w) W)) P18.

(** ** The arithmetic of the shares *)

Section Shares.
Context `{SdkMathLaws}.

Lemma reward_share_bound P W w : 0 <= P -> 0 < W -> 0 <= w ->
  0 <= reward_share P W w /\ 2 * P18 * W * reward_share P W w <= 2 * P * w + W.
Proof using Type*.
  intros HP HW Hw. unfold reward_share, NewDec. assert (0 < P18) as H18 by done.
  rewrite (Z.quot_div_nonneg (w * P18)) by nia.
  assert (0 <= (w * P18) / W) as Hq by (apply Z.div_pos; nia).
  pose proof (Z.mul_div_le (w * P18) W HW) as Hle.
  set (q := w * P18 / W) in *.
  pose proof (dec_round_nonneg (P * q) ltac:(nia)) as Hr0.
  pose proof (dec_round_near (P * q)) as Hnear. set (r := dec_round (P * q)) in *.
  rewrite Z.quot_div_nonneg by lia. pose proof (Z.div_pos r P18 Hr0 H18) as Hd0.
  pose proof (Z.mul_div_le r P18 H18) as Hd. split; [done|].
  assert (2 * (r * P18) <= 2 * (P * q) + P18) as H2r by lia.
  assert (W * (2 * (r * P18)) <= 2 * P * (w * P18) + W * P18) as H3 by nia.
  assert (2 * W * r <= 2 * P * w + W) as H4 by nia.
  set (x := r / P18) in *. nia.
Qed.

(** All shares together stay below [P], up to a rounding of half a unit each. *)
Lemma reward_shares_bound {A} P W (f : A -> Z) l : 0 <= P -> 0 < W ->
  Forall (fun a => 0 <= f a) l -> zsum f l <= W ->
  0 <= zsum (fun a => reward_share P W (f a)) l /\
  2 * P18 * zsum (fun a => reward_share P W (f a)) l <= 2 * P + Z.of_nat (length l).
Proof using Type*.
  intros HP HW Hf Hsum.
  assert (0 <= zsum (fun a => reward_share P W (f a)) l /\
    2 * P18 * W * zsum (fun a => reward_share P W (f a)) l
      <= 2 * P * zsum f l + W * Z.of_nat (length l)) as [H1 H2].
  { clear Hsum. induction Hf as [|a l Ha Hf [IH1 IH2]]; [rewrite !zsum_nil; simpl; lia|].
    destruct (reward_share_bound P W (f a) HP HW Ha) as [B1 B2].
    rewrite !zsum_cons. cbn [length]. rewrite Nat2Z.inj_succ. split; [lia|nia]. }
  split; [done|]. set (S := zsum (fun a => reward_share P W (f a)) l) in *. assert (0 < P18) as H18 by done.
  assert (2 * P * zsum f l <= 2 * P * W) as Hpw by (apply Z.mul_le_mono_nonneg_l; lia).
  assert (W * (2 * P18 * S) <= W * (2 * P + Z.of_nat (length l))) as H3 by lia.
  by apply Z.mul_le_mono_pos_l in H3.
Qed.
End Shares.

Section Rewards.
Context {B SS DS : Type}.
Context `{HM : SdkMath, !SdkMathLaws, HC : SdkCoins, !SdkCoinsLaws, HA : Bech32, !Bech32Laws,
  HB : BankKeeper B, !BankLaws B, HS : StakingKeeper SS, !StakingLaws SS, HD : DistrKeeper DS, HL : SlashKeeper B SS DS,
  !DistrLaws DS, HG : GoStrings}.
Context {rt : GoRuntime} `{!GoRuntimeLaws rt}.
Abbreviation St := (State B SS DS).

(** ** The rewards of a period *)

Abbreviation oracle := (GetModuleAddress ModuleName).

Lemma add_period_reward_run ratio pr d (s : St) pr' s' : decoins_ok pr ->
  add_period_reward ratio pr d s = Ret pr' s' ->
  s' = s /\ decoins_ok pr' /\
  forall d', damt pr' d' = damt pr d' + ind (d = d') (bal (bank s) oracle d * ratio).
Proof using Type*.
  intros Hpr. rewrite add_period_reward_spec. unfold period_coin.
  change (Amount (GetBalance (bank s) oracle d)) with (bal (bank s) oracle d).
  destruct (Z.eqb_spec (bal (bank s) oracle d) 0) as [E0|Hnz].
  - intros [= <- <-]. split_and!; [done..|]. intros d'. rewrite E0. unfold ind.
    destruct (decide (d = d')); lia.
  - rewrite Dec_Mul_spec.
    replace (NewDec (bal (bank s) oracle d) * ratio) with (bal (bank s) oracle d * ratio * P18)
      by (unfold NewDec; lia).
    rewrite dec_round_mul. destruct (dec_chk _) as [a| |] eqn:Ea; [|done..]. sdk_inv. cbn [rbind].
    destruct (NewDecCoinFromDec d _) as [c| |] eqn:Ec; [|done..]. cbn [rbind add_coin].
    apply NewDecCoinFromDec_weak in Ec as [-> Hw].
    destruct (DecCoins_Add_cases pr _ (decoins_ok_weak _ Hpr) Hw) as [[_ (x & -> & Hx & Ex)]|[-> _]];
      [|done]. intros [= <- <-]. split_and!; [done..|]. intros d'. rewrite Ex. f_equal.
    unfold damt, ind. rewrite zsum_cons, zsum_nil. simpl. destruct (decide (d = d')); lia.
Qed.

Lemma period_rewards_run ratio ds : forall pr (s : St) pr' s', NoDup ds -> decoins_ok pr ->
  mfold (add_period_reward ratio) pr ds s = Ret pr' s' ->
  s' = s /\ decoins_ok pr' /\
  forall d, damt pr' d = damt pr d + (if decide (d ∈ ds) then bal (bank s) oracle d * ratio else 0).
Proof using Type*.
  induction ds as [|x ds IH]; intros pr s pr' s' Hnd Hpr.
  - intros [= <- <-]. split_and!; [done..|]. intros d. rewrite decide_False by apply not_elem_of_nil. lia.
  - apply NoDup_cons in Hnd as [Hni Hnd]. intros (pr1 & s1 & R1 & R2)%bind_Ret.
    destruct (add_period_reward_run _ _ _ _ _ _ Hpr R1) as (-> & Hpr1 & E1).
    destruct (IH _ _ _ _ Hnd Hpr1 R2) as (-> & Hpr' & E2). split_and!; [done..|]. intros d.
    rewrite E2, E1. unfold ind. destruct (decide (x = d)) as [<-|Hne].
    + rewrite decide_False, decide_True by (done || left). lia.
    + erewrite (decide_ext (d ∈ ds) (d ∈ x :: ds)); [|rewrite elem_of_cons; naive_solver]. lia.
Qed.

(** ** The payments *)

Lemma reward_winner_run pr W dr p (s : St) dr' s' :
  decoins_ok pr -> coins_ok dr -> 0 < W -> 0 <= Weight p.2 ->
  reward_winner pr W dr p s = Ret dr' s' ->
  bank s' = bank s /\ coins_ok dr' /\
  forall d, amt dr' d = amt dr d + reward_share (damt pr d) W (Weight p.2).
Proof using Type*.
  intros Hpr Hdr HW Hw. rewrite reward_winner_spec by done.
  destruct (winner_coins_cases pr W p.2 Hpr HW Hw) as [(rc & -> & Hrc & Erc)| ->]; [|done].
  destruct (Validator _ _) as [v|]; [|done]. destruct (Coins_IsZero rc) eqn:Ez.
  - intros [= <- <-]. split_and!; [done..|]. intros d. unfold reward_share. rewrite <- Erc.
    rewrite Coins_IsZero_spec in Ez. destruct rc as [|c rc]; [unfold amt at 3; rewrite zsum_nil; lia|].
    destruct Hrc as [_ [[_ Hc] _]%Forall_cons]. simpl in Ez.
    apply andb_true_iff in Ez as [Ez%Z.eqb_eq _]. lia.
  - unfold pay. destruct (NewDecCoinsFromCoins rc) as [tk| |]; [|done..].
    destruct (AllocateTokensToValidator v tk (distr s)) as [[] t| |]; [|done..].
    destruct (Coins_Add_cases dr rc Hdr Hrc) as [[_ (c & -> & Hc & Ec)]|[-> _]]; [|done].
    intros [= <- <-]. split_and!; [done..|]. intros d. by rewrite Ec, Erc.
Qed.

Lemma reward_winners_run pr W l : forall dr (s : St) dr' s',
  decoins_ok pr -> coins_ok dr -> 0 < W -> Forall (fun p => 0 <= Weight p.2) l ->
  mfold (reward_winner pr W) dr l s = Ret dr' s' ->
  bank s' = bank s /\ coins_ok dr' /\
  forall d, amt dr' d = amt dr d + zsum (fun p => reward_share (damt pr d) W (Weight p.2)) l.
Proof using Type*.
  induction l as [|p l IH]; intros dr s dr' s' Hpr Hdr HW Hl.
  - intros [= <- <-]. split_and!; [done..|]. intros d. rewrite zsum_nil. lia.
  - apply Forall_cons in Hl as [Hp Hl]. intros (dr1 & s1 & R1 & R2)%bind_Ret.
    destruct (reward_winner_run _ _ _ _ _ _ _ Hpr Hdr HW Hp R1) as (E1 & Hdr1 & A1).
    destruct (IH _ _ _ _ Hpr Hdr1 HW Hl R2) as (E2 & Hdr' & A2).
    split_and!; [congruence|done|]. intros d. rewrite A2, A1, zsum_cons. lia.
Qed.

(** The rewards of a period for one denom: the pool times the ratio of the
    period to the distribution window. *)
Definition period_reward (b : B) (vt : gmap string Dec) (ratio : Dec) (d : string) : Dec :=
  if decide (d = MicroLunaDenom \/ is_Some (vt !! d)) then bal b oracle d * ratio else 0.

(** The ratio of a period is at most one. *)
Lemma period_ratio vp window : 0 <= vp <= window -> 0 < window -> 0 <= Z.quot (NewDec vp) window <= P18.
Proof using Type.
  intros Hvp Hw. assert (0 < P18) as H18 by done.
  assert (0 <= vp * P18 <= window * P18) as Hq by (clear - Hvp H18; nia).
  unfold NewDec. rewrite Z.quot_div_nonneg by lia.
  split; [apply Z.div_pos; lia|apply Z.div_le_upper_bound; lia].
Qed.

(** All shares together are at most what the oracle's account holds. *)
Lemma rewards_within (b : B) (vt : gmap string Dec) ratio (winners : gmap string Claim) d :
  let W := zsum (fun p => Weight p.2) (map_to_list winners) in
  0 <= ratio <= P18 -> 0 < W -> Z.of_nat (size winners) < 2 * P18 ->
  Forall (fun p : string * Claim => 0 <= Weight p.2) (map_to_list winners) ->
  zsum (fun p => reward_share (period_reward b vt ratio d) W (Weight p.2)) (map_to_list winners) <= bal b oracle d.
Proof using Type*.
  intros W Hratio HW Hn Hf. assert (0 < P18) as H18 by done. pose proof (bal_nonneg b oracle d) as Hb.
  assert (0 <= period_reward b vt ratio d <= bal b oracle d * P18) as HP
    by (unfold period_reward; clear - Hratio Hb; destruct (decide _); nia).
  destruct (reward_shares_bound (period_reward b vt ratio d) W (fun p : string * Claim => Weight p.2)
    (map_to_list winners)) as [_ Hbound]; [lia|lia|done|done|].
  rewrite length_map_to_list in Hbound. clear - Hbound HP Hn H18. nia.
Qed.

(** C13. Rewards are paid in proportion and from the pool.  The coins that leave the
    oracle's account for the distribution module are, denom by denom, the sum of
    the winners' truncated shares of the period's rewards, and never exceed what
    the account holds; no other balance and no supply changes. *)
Theorem rewards_solvent distrName vp window (vt : gmap string Dec) (winners : gmap string Claim)
    (s s' : St) :
  0 <= vp <= window -> 0 < window -> vt !! MicroLunaDenom = None ->
  map_Forall (fun _ c => 0 <= Weight c) winners ->
  let W := zsum (fun p => Weight p.2) (map_to_list winners) in
  W < 2^63 -> Z.of_nat (size winners) < 2 * P18 ->
  RewardBallotWinners distrName vp window vt winners s = Ret tt s' ->
  exists paid, coins_ok paid /\
    moved (bank s) (bank s') oracle (GetModuleAddress distrName) paid /\
    forall d, amt paid d <= bal (bank s) oracle d /\
      (0 < W -> amt paid d = zsum (fun p => reward_share
         (period_reward (bank s) vt (Z.quot (NewDec vp) window) d) W (Weight p.2)) (map_to_list winners)).
Proof using Type*.
  intros Hvp Hw Hluna Hwts W HWlt Hn. unfold RewardBallotWinners.
  assert (Forall (fun p : string * Claim => 0 <= Weight p.2) (map_to_list winners)) as Hf.
  { apply Forall_forall. intros [k c] Hin%elem_of_map_to_list. by apply (Hwts k). }
  assert (0 <= W) as HW0 by (by apply zsum_nonneg).
  assert (foldl (fun t p => int64 (t + Weight p.2)) 0 (map_range 4 winners) = W) as ->.
  { etrans; [exact (foldl_int64 (fun p : string * Claim => Weight p.2) _ 0)|].
    rewrite Z.add_0_l, map_range_perm. apply int64_id. lia. }
  destruct (Z.eqb_spec W 0) as [E0|Hnz].
  { intros [= <-]. exists []. split; [apply coins_ok_nil|]. split.
    - split; [|done]. intros a d. rewrite amt_dens by apply not_elem_of_nil. unfold ind.
      repeat destruct (decide _); lia.
    - intros d. rewrite amt_dens by apply not_elem_of_nil. split; [apply bal_nonneg|lia]. }
  intros R. apply bind_Ret in R as (ratio & ? & [Hr ->]%lift_Ret & R). sdk_unfold.
  destruct (Z.eqb_spec window 0); [lia|]. injection Hr as <-. set (ratio := Z.quot (NewDec vp) window) in *.
  apply bind_Ret in R as (pr & s1 & R1 & R). apply bind_Ret in R as (dr & s2 & R2 & R3).
  rewrite must_Ret in R3. apply zoom_Ret in R3 as (b' & Rb & ->). cbn [bank].
  assert (NoDup (MicroLunaDenom :: (map_range 3 vt).*1)) as Hnd.
  { constructor; [|rewrite map_range_perm; apply NoDup_fst_map_to_list].
    intros ([k v] & E & Hin)%list_elem_of_fmap. simpl in E. subst k.
    rewrite map_range_perm in Hin. apply elem_of_map_to_list in Hin. congruence. }
  destruct (period_rewards_run _ _ _ _ _ _ Hnd decoins_ok_nil R1) as (-> & Hpr & Epr).
  assert (Forall (fun p : string * Claim => 0 <= Weight p.2) (map_range 5 winners)) as Hf5
    by (by rewrite map_range_perm).
  assert (0 < W) as HWpos by lia.
  destruct (reward_winners_run _ _ _ _ _ _ _ Hpr coins_ok_nil HWpos Hf5 R2) as (Eb & Hdr & Edr).
  rewrite Eb in Rb.
  assert (forall d, damt pr d = period_reward (bank s) vt ratio d) as Epd.
  { intros d. rewrite Epr, damt_dens by apply not_elem_of_nil. unfold period_reward.
    erewrite decide_ext; [done|]. rewrite elem_of_cons, map_range_perm, list_elem_of_fmap.
    split; intros [->|Hd]; [by left| |by left|].
    - destruct Hd as ([k v] & -> & Hin). apply elem_of_map_to_list in Hin. right. by exists v.
    - destruct Hd as [v Hv]. right. exists (d, v). split; [done|]. by apply elem_of_map_to_list. }
  assert (forall d, amt dr d = zsum (fun p => reward_share (period_reward (bank s) vt ratio d) W
    (Weight p.2)) (map_to_list winners)) as Ed.
  { intros d. rewrite Edr, amt_dens, Epd by apply not_elem_of_nil. by rewrite map_range_perm. }
  exists dr. split; [done|]. split; [by eapply send_m2m|]. intros d. split; [|by rewrite Ed].
  rewrite Ed. apply rewards_within; [by apply period_ratio|lia|done..].
Qed.
End Rewards.

(** ** Witness *)

Import OracleRef.

Definition demo_winners : gmap string Claim :=
  {[ ValString valA := NewClaim 30 60 2 valA; ValString valB := NewClaim 20 20 1 valB ]}.
Definition rewarded : State RefBank RefStaking RefDistr :=
  final (RewardBallotWinners (rt := runtime1) distrName 5 100 (TobinTaxes demo_store) demo_winners
    demo_state) demo_state.

Lemma rewards_solvent_witness : exists paid, coins_ok paid /\
  moved (bank demo_state) (bank rewarded) (GetModuleAddress ModuleName) (GetModuleAddress distrName) paid /\
  forall d, amt paid d <= bal (bank demo_state) (GetModuleAddress ModuleName) d /\
    (0 < 80 -> amt paid d = zsum (fun p => reward_share
       (period_reward (bank demo_state) (TobinTaxes demo_store) (Z.quot (NewDec 5) 100) d) 80
       (Weight p.2)) (map_to_list demo_winners)).
Proof.
  apply (rewards_solvent (rt := runtime1) distrName 5 100 (TobinTaxes demo_store) demo_winners
    demo_state rewarded); [lia|lia|by vm_compute| |by vm_compute..|].
  - intros k c Hkc. unfold demo_winners in Hkc.
    apply lookup_insert_Some in Hkc as [[_ <-]|[_ [_ <-]%lookup_singleton_Some]]; simpl; lia.
  - apply returned_final. by vm_compute.
Defined.

(** Something is paid. *)
Example rewarded_luna : bal (bank rewarded) (GetModuleAddress distrName) MicroLunaDenom = 5 * 10 ^ 13.
Proof. vm_compute. reflexivity. Qed.
End OracleRewards.
