(* ===== verification/OracleHandlers.v ===== *)
(** * The oracle's message handlers

    Who may vote, the commit-reveal protocol of prevote and vote, and the
    invariant of the stored votes along any sequence of messages. *)

From S2P Require Import Prelude Sdk SdkRef Core OracleBallot OracleTypes OracleKeeper OracleTally OracleVotes OracleRef.

Module OracleHandlers.
Import Ballot OracleTypes OracleKeeper OracleVotes.

Section Handlers.
Context {B SS DS : Type}.
Context `{HM : SdkMath, HC : SdkCoins, HA : Bech32, HT : TmHash, HP : CoinParser,
  HB : BankKeeper B, HS : StakingKeeper SS, HD : DistrKeeper DS}.
Abbreviation St := (State B SS DS).

(** [feeder] may vote for [val], a bonded validator: it is the validator
    itself or the delegate. *)
Definition may_vote (s : St) (feeder val : string) : Prop :=
  (feeder = val \/ GetFeederDelegation (store s) val = feeder) /\
  exists v, Validator (staking s) val = Some v /\ IsBonded v = true.

Lemma ValidateFeeder_Ok s feeder val :
  ValidateFeeder s feeder val = Ok tt <-> may_vote s feeder val.
Proof using Type.
  unfold ValidateFeeder, may_vote.
  rewrite <- (String.eqb_eq feeder val), <- (String.eqb_eq _ feeder), <- orb_true_iff.
  destruct (_ || _); simpl; [|split; [done|by intros [? _]]].
  destruct (Validator (staking s) val) as [v|]; [|split; [done|by intros (_ & ? & ? & _)]].
  destruct (IsBonded v) eqn:E.
  - split; [|done]. intros _. split; [done|by exists v].
  - split; [done|]. intros (_ & w & [= <-] & Hw). congruence.
Qed.

(** *** The vote handler *)

(** The state after an accepted vote: the vote replaces the prevote. *)
Definition after_vote (msg : MsgAggregateExchangeRateVote) (val : string)
    (ts : ExchangeRateTuples) (s : St) : St :=
  mkState
    (DeleteAggregateExchangeRatePrevote val
       (SetAggregateExchangeRateVote val (NewAggregateExchangeRateVote ts val) (store s)))
    (bank s) (staking s) (distr s)
    (events s ++ [EventAggregateVote (mv_Validator msg) (mv_ExchangeRates msg);
                  EventMessage (mv_Feeder msg)]).

(** What an accepted vote needs. *)
Record vote_accepted (ctx : Ctx) (msg : MsgAggregateExchangeRateVote) (s : St)
    (val : string) (ts : ExchangeRateTuples) : Prop := {
  va_val : ValAddressFromBech32 (mv_Validator msg) = Ok val;
  va_feeder : exists f, AccAddressFromBech32 (mv_Feeder msg) = Ok f /\ may_vote s f val;
  va_tuples : ParseExchangeRateTuples (mv_ExchangeRates msg) = Ok ts;
  va_targets : Forall (fun t => is_Some (TobinTaxes (store s) !! TDenom t)) ts;
  va_prevote : exists pv, Prevotes (store s) !! val = Some pv /\
    VotePeriod (KParams (store s)) <> 0 /\
    uint64 (uint64 (BlockHeight ctx) / VotePeriod (KParams (store s)) -
            SubmitBlock pv / VotePeriod (KParams (store s))) = 1 /\
    Hash pv = AggregateVoteHash_String
      (GetAggregateVoteHash (mv_Salt msg) (mv_ExchangeRates msg) val) }.

Lemma targets_loop st ts :
  rfold (fun (_ : unit) t => if IsVoteTarget st (TDenom t) then Ok tt else Err ErrUnknownDenom)
    tt ts = Ok tt <-> Forall (fun t => is_Some (TobinTaxes st !! TDenom t)) ts.
Proof using Type.
  induction ts as [|t ts IH]; [done|]. simpl. rewrite Forall_cons, <- IH.
  unfold IsVoteTarget, GetTobinTax. destruct (TobinTaxes st !! TDenom t); simpl; [|].
  - split; [intros ?; split; eauto|tauto].
  - split; [done|]. by intros [[? ?] _].
Qed.

Lemma wrap_err_Ok {A} (r : res A) e a : wrap_err r e = Ok a <-> r = Ok a.
Proof using Type. by destruct r. Qed.

(** Running the handler on a message that meets the conditions. *)
Lemma vote_run ctx msg s val ts :
  vote_accepted ctx msg s val ts ->
  AggregateExchangeRateVote_ ctx msg s = Ret tt (after_vote msg val ts s).
Proof using Type.
  intros [Hv (f & Hf & Hmay) Hts Htg (pv & Hpv & Hp & Hper & Hh)].
  unfold AggregateExchangeRateVote_, bind, lift, gets, id. rewrite Hv, Hf.
  apply ValidateFeeder_Ok in Hmay. rewrite Hmay.
  unfold GetAggregateExchangeRatePrevote. rewrite Hpv. simpl. unfold reveal_period_ok.
  destruct (Z.eqb_spec (VotePeriod (KParams (store s))) 0); [done|]. rewrite Hper. simpl.
  rewrite Hts. simpl. apply targets_loop in Htg. rewrite Htg, Hh, String.eqb_refl. simpl.
  unfold after_vote, emit, on_store, modify. simpl. by rewrite <- app_assoc.
Qed.

Lemma vote_inv ctx msg s s' :
  AggregateExchangeRateVote_ ctx msg s = Ret tt s' ->
  exists val ts, vote_accepted ctx msg s val ts.
Proof using Type.
  unfold AggregateExchangeRateVote_. intros Hr.
  apply bind_Ret in Hr as (val & ? & [Hv ->]%lift_Ret & Hr).
  apply bind_Ret in Hr as (f & ? & [Hf ->]%lift_Ret & Hr).
  apply bind_Ret in Hr as (? & ? & [= <- <-] & Hr).
  apply bind_Ret in Hr as ([] & ? & [Hmay%ValidateFeeder_Ok ->]%lift_Ret & Hr).
  apply bind_Ret in Hr as (pv & ? & [Hpv%wrap_err_Ok ->]%lift_Ret & Hr).
  apply bind_Ret in Hr as (ok & ? & [Hok ->]%lift_Ret & Hr).
  destruct ok; [|done]. simpl in Hr.
  apply bind_Ret in Hr as (ts & ? & [Hts%wrap_err_Ok ->]%lift_Ret & Hr).
  apply bind_Ret in Hr as ([] & ? & [Htg%targets_loop ->]%lift_Ret & Hr).
  destruct (String.eqb_spec (Hash pv) (AggregateVoteHash_String
    (GetAggregateVoteHash (mv_Salt msg) (mv_ExchangeRates msg) val))) as [Hh|]; [|done].
  exists val, ts. split; [done|by exists f|done|done|]. exists pv.
  unfold GetAggregateExchangeRatePrevote in Hpv. unfold reveal_period_ok in Hok.
  destruct (Prevotes (store s) !! val); [|done]. injection Hpv as ->.
  destruct (Z.eqb_spec (VotePeriod (KParams (store s))) 0); [done|].
  injection Hok as Hok%Z.eqb_eq. by split_and!.
Qed.

(** *** The prevote handler *)

Definition after_prevote (ctx : Ctx) (msg : MsgAggregateExchangeRatePrevote) (val hash : string)
    (s : St) : St :=
  mkState
    (SetAggregateExchangeRatePrevote val
       (NewAggregateExchangeRatePrevote hash val (uint64 (BlockHeight ctx))) (store s))
    (bank s) (staking s) (distr s)
    (events s ++ [EventAggregatePrevote (mp_Validator msg); EventMessage (mp_Feeder msg)]).

Record prevote_accepted (msg : MsgAggregateExchangeRatePrevote) (s : St) (val hash : string)
    : Prop := {
  pa_val : ValAddressFromBech32 (mp_Validator msg) = Ok val;
  pa_feeder : exists f, AccAddressFromBech32 (mp_Feeder msg) = Ok f /\ may_vote s f val;
  pa_hash : AggregateVoteHashFromHexString (mp_Hash msg) = Ok hash }.

Lemma prevote_run ctx msg s val hash : prevote_accepted msg s val hash ->
  AggregateExchangeRatePrevote_ ctx msg s = Ret tt (after_prevote ctx msg val hash s).
Proof using Type.
  intros [Hv (f & Hf & Hmay%ValidateFeeder_Ok) Hh].
  unfold AggregateExchangeRatePrevote_, bind, lift, gets, id. rewrite Hv, Hf, Hmay, Hh. simpl.
  unfold after_prevote, emit, on_store, modify. simpl. by rewrite <- app_assoc.
Qed.

Lemma prevote_inv ctx msg s s' : AggregateExchangeRatePrevote_ ctx msg s = Ret tt s' ->
  exists val hash, prevote_accepted msg s val hash.
Proof using Type.
  unfold AggregateExchangeRatePrevote_. intros Hr.
  apply bind_Ret in Hr as (val & ? & [Hv ->]%lift_Ret & Hr).
  apply bind_Ret in Hr as (f & ? & [Hf ->]%lift_Ret & Hr).
  apply bind_Ret in Hr as (? & ? & [= <- <-] & Hr).
  apply bind_Ret in Hr as ([] & ? & [Hmay%ValidateFeeder_Ok ->]%lift_Ret & Hr).
  apply bind_Ret in Hr as (hash & ? & [Hh%wrap_err_Ok ->]%lift_Ret & _).
  exists val, hash. by split; [|exists f|].
Qed.

Lemma delegate_inv msg (s s' : St) : DelegateFeedConsent msg s = Ret tt s' ->
  exists op del, ValAddressFromBech32 (md_Operator msg) = Ok op /\
    AccAddressFromBech32 (md_Delegate msg) = Ok del /\ is_Some (Validator (staking s) op) /\
    store s' = SetFeederDelegation op del (store s).
Proof using Type.
  unfold DelegateFeedConsent. intros Hr.
  apply bind_Ret in Hr as (op & ? & [Ho ->]%lift_Ret & Hr).
  apply bind_Ret in Hr as (del & ? & [Hd ->]%lift_Ret & Hr).
  apply bind_Ret in Hr as (? & ? & [= <- <-] & Hr).
  destruct (Validator (staking s) op) as [v|] eqn:Ev; [|done].
  exists op, del. split_and!; [done|done|by rewrite Ev|].
  unfold bind, on_store, emit, modify in Hr. simpl in Hr. by injection Hr as <-.
Qed.

(** ** Properties *)

(** Voting rights: [ValidateFeeder] accepts exactly the validator itself and
    its delegated feeder, for a bonded validator; otherwise it reports missing
    permission first and a missing or unbonded validator second. *)
Theorem ValidateFeeder_spec (s : St) feeder val :
  (ValidateFeeder s feeder val = Ok tt <-> may_vote s feeder val) /\
  (feeder <> val -> GetFeederDelegation (store s) val <> feeder ->
   ValidateFeeder s feeder val = Err ErrNoVotingPermission) /\
  ((feeder = val \/ GetFeederDelegation (store s) val = feeder) -> ~ may_vote s feeder val ->
   ValidateFeeder s feeder val = Err ErrNoValidatorFound).
Proof using Type.
  split; [apply ValidateFeeder_Ok|]. unfold ValidateFeeder.
  rewrite <- (String.eqb_eq feeder val), <- (String.eqb_eq _ feeder), <- orb_true_iff.
  split.
  - intros H1 H2. apply not_true_is_false in H1 as ->. apply not_true_is_false in H2 as ->. done.
  - intros Hp Hn. rewrite Hp. simpl. destruct (Validator (staking s) val) as [v|] eqn:Ev; [|done].
    destruct (IsBonded v) eqn:Eb; [|done]. destruct Hn. split; [|by exists v].
    rewrite <- (String.eqb_eq feeder val), <- (String.eqb_eq _ feeder), <- orb_true_iff. done.
Qed.

(** C27. The vote handler accepts a vote exactly when the feeder may vote, a
    prevote of the validator exists whose hash commits to the revealed salt and
    rates, the prevote was made in the previous vote period, and every denom is
    a vote target; it then stores the parsed vote, deletes the prevote and
    changes nothing else. *)
Theorem vote_handler_spec ctx msg (s s' : St) :
  AggregateExchangeRateVote_ ctx msg s = Ret tt s' <->
  exists val ts, vote_accepted ctx msg s val ts /\ s' = after_vote msg val ts s.
Proof using Type.
  split.
  - intros Hr. destruct (vote_inv ctx msg s s' Hr) as (val & ts & Ha). exists val, ts.
    split; [done|]. rewrite (vote_run ctx msg s val ts Ha) in Hr. by injection Hr.
  - intros (val & ts & Ha & ->). by apply vote_run.
Qed.

(** The prevote handler accepts a prevote exactly when the feeder may vote
    and the hash is a hex string; it files the hash under the validator with the
    height of the block, replacing an earlier prevote. *)
Theorem prevote_handler_spec ctx msg (s s' : St) :
  AggregateExchangeRatePrevote_ ctx msg s = Ret tt s' <->
  exists val hash, prevote_accepted msg s val hash /\ s' = after_prevote ctx msg val hash s.
Proof using Type.
  split.
  - intros Hr. destruct (prevote_inv ctx msg s s' Hr) as (val & hash & Ha). exists val, hash.
    split; [done|]. rewrite (prevote_run ctx msg s val hash Ha) in Hr. by injection Hr.
  - intros (val & hash & Ha & ->). by apply prevote_run.
Qed.

Context `{!Bech32Laws}.

(** Commit and reveal: a prevote that commits to a salt and rates, followed
    by the reveal in the next vote period, is accepted and leaves the rates as
    the validator's vote. *)
Theorem commit_reveal (ctx1 ctx2 : Ctx) (s : St) salt rates val feeder ts :
  let p := VotePeriod (KParams (store s)) in
  addr_ok val = true -> addr_ok feeder = true -> may_vote s feeder val ->
  ParseExchangeRateTuples rates = Ok ts ->
  Forall (fun t => is_Some (TobinTaxes (store s) !! TDenom t)) ts ->
  0 < p -> 0 <= BlockHeight ctx1 < 2^63 -> 0 <= BlockHeight ctx2 < 2^63 ->
  BlockHeight ctx2 / p = BlockHeight ctx1 / p + 1 ->
  exists s1 s2,
    AggregateExchangeRatePrevote_ ctx1
      (mkMsgPrevote (AggregateVoteHash_String (GetAggregateVoteHash salt rates val))
         (AccString feeder) (ValString val)) s = Ret tt s1 /\
    AggregateExchangeRateVote_ ctx2
      (mkMsgVote salt rates (AccString feeder) (ValString val)) s1 = Ret tt s2 /\
    Votes (store s2) !! val = Some (NewAggregateExchangeRateVote ts val) /\
    Prevotes (store s2) !! val = None.
Proof using Type*.
  intros p Hv Hf Hmay Hts Htg Hp H1 H2 Hnext.
  set (hash := GetAggregateVoteHash salt rates val).
  set (pm := mkMsgPrevote (AggregateVoteHash_String hash) (AccString feeder) (ValString val)).
  assert (prevote_accepted pm s val hash) as Hpa.
  { split; simpl; [by apply ValAddress_roundtrip| |].
    - exists feeder. split; [by apply AccAddress_roundtrip|done].
    - apply hex_decode_encode. }
  assert (vote_accepted ctx2 (mkMsgVote salt rates (AccString feeder) (ValString val))
    (after_prevote ctx1 pm val hash s) val ts) as Hva.
  { split; simpl; [by apply ValAddress_roundtrip| |done|done|].
    - exists feeder. split; [by apply AccAddress_roundtrip|done].
    - unfold SetAggregateExchangeRatePrevote, set_prevotes. cbn [KParams Prevotes]. fold p.
      eexists. rewrite lookup_insert_eq. split; [done|]. split; [lia|]. cbn [SubmitBlock Hash].
      unfold NewAggregateExchangeRatePrevote. cbn [SubmitBlock Hash].
      rewrite (uint64_id (BlockHeight ctx1)), (uint64_id (BlockHeight ctx2)) by lia.
      rewrite Hnext.
      replace (BlockHeight ctx1 / p + 1 - BlockHeight ctx1 / p) with 1 by lia. done. }
  do 2 eexists. split_and!; [by apply prevote_run|by apply vote_run| |]; simpl.
  - by rewrite lookup_insert_eq.
  - by rewrite lookup_delete_eq.
Qed.
End Handlers.

(** ** Witnesses *)

Import OracleRef.

Lemma demo_may_vote : may_vote demo_state valB valA.
Proof. split; [by right|]. by exists (validator_of valA 30000000 true false). Qed.

Lemma ValidateFeeder_spec_witness : ValidateFeeder demo_state valB valA = Ok tt.
Proof. exact (proj2 (proj1 (ValidateFeeder_spec demo_state valB valA)) demo_may_vote). Defined.

Lemma commit_reveal_witness : exists s1 s2,
  AggregateExchangeRatePrevote_ (mkCtx 1 0 "columbus-5")
    (mkMsgPrevote (AggregateVoteHash_String (GetAggregateVoteHash "salt" "2.5usdr,3000ukrw" valA))
       (AccString valB) (ValString valA)) demo_state = Ret tt s1 /\
  AggregateExchangeRateVote_ (mkCtx 6 0 "columbus-5")
    (mkMsgVote "salt" "2.5usdr,3000ukrw" (AccString valB) (ValString valA)) s1 = Ret tt s2 /\
  Votes (store s2) !! valA = Some (NewAggregateExchangeRateVote
    [mkTuple "usdr" 2500000000000000000; mkTuple "ukrw" (NewDec 3000)] valA) /\
  Prevotes (store s2) !! valA = None.
Proof.
  apply (commit_reveal (mkCtx 1 0 "columbus-5") (mkCtx 6 0 "columbus-5") demo_state "salt"
    "2.5usdr,3000ukrw" valA valB); try (vm_compute; reflexivity || split; discriminate || reflexivity).
  - exact demo_may_vote.
  - repeat constructor; vm_compute; eauto.
Defined.
End OracleHandlers.
