(* ===== verification/OracleCommands.v ===== *)
(** * The oracle's commands

    What [terrad tx oracle] signs and sends ([x/oracle/client/cli/tx.go]), the
    constructors and signers of the messages ([x/oracle/types/msgs.go]), and that a
    validator who runs [aggregate-prevote] and then [aggregate-vote] with the same
    arguments casts its vote. *)

From S2P Require Import Prelude Sdk SdkRef Core OracleBallot OracleTypes OracleKeeper OracleTally OracleVotes OracleRef OracleHandlers.

Module OracleCommands.
Import Ballot OracleTypes OracleKeeper OracleVotes OracleHandlers.

Section Messages.
Context `{HM : SdkMath, HA : Bech32, HT : TmHash, HP : CoinParser}.

(** ** Constructors and signers *)

Definition NewMsgAggregateExchangeRatePrevote (hash feeder validator : string) : MsgAggregateExchangeRatePrevote :=
  mkMsgPrevote (AggregateVoteHash_String hash) (AccString feeder) (ValString validator).
Definition NewMsgAggregateExchangeRateVote (salt exchangeRates feeder validator : string)
    : MsgAggregateExchangeRateVote :=
  mkMsgVote salt exchangeRates (AccString feeder) (ValString validator).
Definition NewMsgDelegateFeedConsent (operatorAddress feederAddress : string) : MsgDelegateFeedConsent :=
  mkMsgDelegate (ValString operatorAddress) (AccString feederAddress).

(** [if err != nil { panic(err) }] *)
Definition must_address (r : res string) : res (list string) :=
  match r with Ok a => Ok [a] | _ => Panic end.
Definition prevote_GetSigners (msg : MsgAggregateExchangeRatePrevote) : res (list string) :=
  must_address (AccAddressFromBech32 (mp_Feeder msg)).
Definition vote_GetSigners (msg : MsgAggregateExchangeRateVote) : res (list string) :=
  must_address (AccAddressFromBech32 (mv_Feeder msg)).
(** The operator's bytes, taken for an account address. *)
Definition delegate_GetSigners (msg : MsgDelegateFeedConsent) : res (list string) :=
  must_address (ValAddressFromBech32 (md_Operator msg)).

(** ** Commands *)

(** [voter] is the address of the key that signs; the result is the message that
    is broadcast. *)

Definition cobra_args := Errorf "accepts a different number of arguments".

Definition GetCmdDelegateFeederPermission (voter : string) (args : list string) : res MsgDelegateFeedConsent :=
  match args with
  | [feederStr] =>
      let! feeder := AccAddressFromBech32 feederStr in
      let msg := NewMsgDelegateFeedConsent voter feeder in
      let! _ := MsgDelegate_ValidateBasic msg in
      Ok msg
  | _ => Err cobra_args
  end.

(** The arguments of the two voting commands: salt, rates and perhaps a
    validator.  The rates must parse; without a validator the voter votes for
    itself. *)
Definition voting_args (voter : string) (args : list string) : res (string * string * string) :=
  match args with
  | salt :: exchangeRatesStr :: rest =>
      if (1 <? length rest)%nat then Err cobra_args
      else
        let! _ := wrap_err (ParseExchangeRateTuples exchangeRatesStr)
                    (Errorf "given exchange_rates is not a valid format") in
        let! validator := match rest with
                          | arg :: _ => ValAddressFromBech32 arg
                          | [] => Ok voter
                          end in
        Ok (salt, exchangeRatesStr, validator)
  | _ => Err cobra_args
  end.

Definition GetCmdAggregateExchangeRatePrevote (voter : string) (args : list string)
    : res MsgAggregateExchangeRatePrevote :=
  let! (salt, exchangeRatesStr, validator) := voting_args voter args in
  let hash := GetAggregateVoteHash salt exchangeRatesStr validator in
  let msg := NewMsgAggregateExchangeRatePrevote hash voter validator in
  let! _ := MsgPrevote_ValidateBasic msg in
  Ok msg.

Definition GetCmdAggregateExchangeRateVote (voter : string) (args : list string)
    : res MsgAggregateExchangeRateVote :=
  let! (salt, exchangeRatesStr, validator) := voting_args voter args in
  let msg := NewMsgAggregateExchangeRateVote salt exchangeRatesStr voter validator in
  let! _ := MsgVote_ValidateBasic msg in
  Ok msg.
End Messages.

(** The hash has the length that the package names. *)
Class TmHashLaws `{TmHash} : Prop :=
  truncated_length s : String.length (tmhash_truncated s) = TruncatedSize.

(** ** Theorems *)

Section Facts.
Context {B SS DS : Type}.
Context `{HM : SdkMath, HC : SdkCoins, HA : Bech32, HT : TmHash, HP : CoinParser,
  HB : BankKeeper B, HS : StakingKeeper SS, HD : DistrKeeper DS}.
Context `{!Bech32Laws, !TmHashLaws}.
Abbreviation St := (State B SS DS).

Lemma hex_length s : String.length (hex_EncodeToString s) = (String.length s * 2)%nat.
Proof using Type. induction s as [|c s IH]; [done|]. cbn. rewrite IH. lia. Qed.

Lemma must_address_valid r e a : wrap_err r e = Ok a -> must_address r = Ok [a].
Proof using Type. by destruct r; intros [= ->]. Qed.

(** A message that passes its check has one signer, which can be read without a
    panic: the feeder, or the operator whose rights are delegated. *)
Lemma oracle_signers :
  (forall msg, MsgPrevote_ValidateBasic msg = Ok tt ->
    exists a, prevote_GetSigners msg = Ok [a] /\ AccAddressFromBech32 (mp_Feeder msg) = Ok a) /\
  (forall msg, MsgVote_ValidateBasic msg = Ok tt ->
    exists a, vote_GetSigners msg = Ok [a] /\ AccAddressFromBech32 (mv_Feeder msg) = Ok a) /\
  (forall msg, MsgDelegate_ValidateBasic msg = Ok tt ->
    exists a, delegate_GetSigners msg = Ok [a] /\ ValAddressFromBech32 (md_Operator msg) = Ok a).
Proof using Type.
  split_and!; intros msg R.
  - unfold MsgPrevote_ValidateBasic in R. apply rbind_Ok in R as (? & _ & R). destruct (negb _); [done|].
    apply rbind_Ok in R as (a & Ha%wrap_err_Ok & _). exists a. unfold prevote_GetSigners. by rewrite Ha.
  - apply rbind_Ok in R as (a & Ha%wrap_err_Ok & _). exists a. unfold vote_GetSigners. by rewrite Ha.
  - apply rbind_Ok in R as (a & Ha%wrap_err_Ok & _). exists a. unfold delegate_GetSigners. by rewrite Ha.
Qed.

Lemma voting_args_inv voter args salt rates val : addr_ok voter = true ->
  voting_args voter args = Ok (salt, rates, val) ->
  addr_ok val = true /\ exists ts, ParseExchangeRateTuples rates = Ok ts.
Proof using Type*.
  intros Hv R. destruct args as [|s [|r rest]]; [done..|]. unfold voting_args in R.
  destruct (1 <? length rest)%nat; [done|].
  apply rbind_Ok in R as (ts & Hts%wrap_err_Ok & R). apply rbind_Ok in R as (v & Hval & [= -> -> ->]).
  split; [|by exists ts]. destruct rest as [|arg rest]; [by injection Hval as <-|by eapply ValAddress_valid].
Qed.

(** C28. The two voting commands complete the commit-reveal protocol.  Whenever
    [aggregate-vote] is willing to sign, [aggregate-prevote] is with the same
    arguments, and the voter is the one signer of both messages.  When the voter
    may vote for the validator and all named denoms are vote targets, sending the
    prevote and, in the next vote period, the vote leaves exactly the rates of the
    argument as the validator's vote. *)
Theorem commands_commit_reveal (ctx1 ctx2 : Ctx) (s : St) voter args salt rates val ts vm :
  let p := VotePeriod (KParams (store s)) in
  addr_ok voter = true -> voting_args voter args = Ok (salt, rates, val) ->
  GetCmdAggregateExchangeRateVote voter args = Ok vm ->
  may_vote s voter val -> ParseExchangeRateTuples rates = Ok ts ->
  Forall (fun t => is_Some (TobinTaxes (store s) !! TDenom t)) ts ->
  0 < p -> 0 <= BlockHeight ctx1 < 2^63 -> 0 <= BlockHeight ctx2 < 2^63 ->
  BlockHeight ctx2 / p = BlockHeight ctx1 / p + 1 ->
  exists pm s1 s2,
    GetCmdAggregateExchangeRatePrevote voter args = Ok pm /\
    prevote_GetSigners pm = Ok [voter] /\ vote_GetSigners vm = Ok [voter] /\
    AggregateExchangeRatePrevote_ ctx1 pm s = Ret tt s1 /\
    AggregateExchangeRateVote_ ctx2 vm s1 = Ret tt s2 /\
    Votes (store s2) !! val = Some (NewAggregateExchangeRateVote ts val) /\
    Prevotes (store s2) !! val = None.
Proof using Type*.
  intros p Hf Harg Hvm Hmay Hts Htg Hp Hh1 Hh2 Hnext.
  destruct (voting_args_inv _ _ _ _ _ Hf Harg) as [Hv _].
  unfold GetCmdAggregateExchangeRateVote in Hvm. rewrite Harg in Hvm. cbn in Hvm.
  apply rbind_Ok in Hvm as ([] & _ & [= <-]).
  destruct (commit_reveal ctx1 ctx2 s salt rates val voter ts) as (s1 & s2 & R1 & R2 & R3); try done.
  eexists _, s1, s2. split_and!; [| | |exact R1|exact R2|apply R3..].
  - unfold GetCmdAggregateExchangeRatePrevote. rewrite Harg. cbn [rbind].
    unfold MsgPrevote_ValidateBasic, NewMsgAggregateExchangeRatePrevote. cbn [mp_Hash mp_Feeder mp_Validator].
    unfold AggregateVoteHashFromHexString, AggregateVoteHash_String. rewrite hex_decode_encode. cbn [wrap_err rbind].
    rewrite hex_length. unfold GetAggregateVoteHash at 1. rewrite truncated_length, Nat.eqb_refl. cbn [negb].
    by rewrite AccAddress_roundtrip, ValAddress_roundtrip.
  - unfold prevote_GetSigners. cbn. by rewrite AccAddress_roundtrip.
  - unfold vote_GetSigners. cbn. by rewrite AccAddress_roundtrip.
Qed.

(** [set-feeder]: the signer is the validator itself, and once the message has run
    the given account, and nobody else but the validator, may vote for it. *)
Lemma command_sets_feeder voter feederStr msg (s s' : St) : addr_ok voter = true ->
  GetCmdDelegateFeederPermission voter [feederStr] = Ok msg -> DelegateFeedConsent msg s = Ret tt s' ->
  delegate_GetSigners msg = Ok [voter] /\
  exists feeder, AccAddressFromBech32 feederStr = Ok feeder /\ GetFeederDelegation (store s') voter = feeder.
Proof using Type*.
  intros Hv R Rs. cbn in R. apply rbind_Ok in R as (feeder & Hf & R). apply rbind_Ok in R as (? & _ & [= <-]).
  apply delegate_inv in Rs as (op & del & Ho & Hd & _ & Es). cbn in Ho, Hd.
  rewrite ValAddress_roundtrip in Ho by done. injection Ho as <-.
  rewrite AccAddress_roundtrip in Hd by (by eapply AccAddress_valid). injection Hd as <-.
  split; [unfold delegate_GetSigners; cbn; by rewrite ValAddress_roundtrip|].
  exists feeder. split; [done|]. rewrite Es. unfold GetFeederDelegation, SetFeederDelegation. cbn.
  by rewrite lookup_insert_eq.
Qed.
End Facts.

(** ** Runs *)

Import OracleRef.

#[local] Instance ref_hash_laws : TmHashLaws.
Proof.
  intros s. cbn [tmhash_truncated ref_hash TruncatedSize]. unfold str_take.
  assert (forall n u, (n <= String.length u)%nat -> String.length (String.substring 0 n u) = n) as Hs.
  { induction n as [|n IH]; intros [|c u] Hn; cbn in *; [done..|lia|]. rewrite IH; lia. }
  apply Hs. induction s as [|c s IH]; [done|]. cbn [String.length String.append]. by apply Nat.le_le_succ_r.
Qed.

Definition args : list string := ["salt"; "2.5usdr,3000ukrw"; ValString valA].

Lemma commands_commit_reveal_witness : exists pm s1 s2 vm,
  GetCmdAggregateExchangeRatePrevote valB args = Ok pm /\
  AggregateExchangeRatePrevote_ (mkCtx 1 0 "columbus-5") pm demo_state = Ret tt s1 /\
  AggregateExchangeRateVote_ (mkCtx 6 0 "columbus-5") vm s1 = Ret tt s2 /\
  Votes (store s2) !! valA = Some (NewAggregateExchangeRateVote
    [mkTuple "usdr" 2500000000000000000; mkTuple "ukrw" (NewDec 3000)] valA).
Proof.
  destruct (commands_commit_reveal (mkCtx 1 0 "columbus-5") (mkCtx 6 0 "columbus-5") demo_state valB args
    "salt" "2.5usdr,3000ukrw" valA [mkTuple "usdr" 2500000000000000000; mkTuple "ukrw" (NewDec 3000)]
    (NewMsgAggregateExchangeRateVote "salt" "2.5usdr,3000ukrw" valB valA))
    as (pm & s1 & s2 & Rp & _ & _ & R1 & R2 & R3 & _);
    [by vm_compute|by vm_compute|by vm_compute|exact demo_may_vote|by vm_compute| |done..|].
  - repeat constructor; vm_compute; eauto.
  - exists pm, s1, s2, (NewMsgAggregateExchangeRateVote "salt" "2.5usdr,3000ukrw" valB valA).
    exact (conj Rp (conj R1 (conj R2 R3))).
Defined.

(** The prevote command takes a salt that no vote may have: what it commits to
    cannot be revealed. *)
Example long_salt_committed :
  (exists pm, GetCmdAggregateExchangeRatePrevote valB ["pepper"; "2.5usdr"; ValString valA] = Ok pm) /\
  GetCmdAggregateExchangeRateVote valB ["pepper"; "2.5usdr"; ValString valA] = Err ErrInvalidSaltLength.
Proof. split; [eexists|]; vm_compute; reflexivity. Qed.
End OracleCommands.
