(* ===== verification/OracleGenesis.v ===== *)
(** * Oracle genesis and queries: [x/oracle/genesis.go], [x/oracle/keeper/querier.go] *)

From S2P Require Import Prelude Sdk SdkRef Core OracleBallot OracleTypes OracleKeeper OracleTally OracleRef.

Module OracleGenesis.
Import Ballot OracleTypes OracleKeeper.

(** ** Genesis *)

Record FeederDelegation := mkDelegation { FeederAddress : string; DValidatorAddress : string }.
Record MissCounter := mkMiss { MValidatorAddress : string; Misses : Z }.

Record GenesisState := mkGenesis {
  GParams : Params;
  GExchangeRates : list ExchangeRateTuple;
  GFeederDelegations : list FeederDelegation;
  GMissCounters : list MissCounter;
  GPrevotes : list AggregateExchangeRatePrevote;
  GVotes : list AggregateExchangeRateVote;
  GTobinTaxes : list (string * Dec) }.

Definition DefaultGenesisState : GenesisState := mkGenesis DefaultParams [] [] [] [] [] [].
Definition ValidateGenesis (data : GenesisState) : res unit := Validate (GParams data).

(** [ParamSetPairs] with their validators, as [Subspace.SetParamSet] runs them. *)
Definition validate_param_set (p : Params) : res unit :=
  let! _ := validateVotePeriod (VotePeriod p) in
  let! _ := validateVoteThreshold (VoteThreshold p) in
  let! _ := validateRewardBand (RewardBand p) in
  let! _ := validateRewardDistributionWindow (RewardDistributionWindow p) in
  let! _ := validateWhitelist (Whitelist p) in
  let! _ := validateSlashFraction (SlashFraction p) in
  let! _ := validateSlashWindow (SlashWindow p) in
  validateMinValidPerWindow (MinValidPerWindow p).

Section Genesis.
Context `{Bech32}.

(** [if err != nil { panic(err) }] *)
Definition must_ok {A} (r : res A) : res A := match r with Err _ => Panic | o => o end.

Definition init_delegation (s : Store) (d : FeederDelegation) : res Store :=
  let! voter := must_ok (ValAddressFromBech32 (DValidatorAddress d)) in
  let! feeder := must_ok (AccAddressFromBech32 (FeederAddress d)) in
  Ok (SetFeederDelegation voter feeder s).
Definition init_miss (s : Store) (mc : MissCounter) : res Store :=
  let! operator := must_ok (ValAddressFromBech32 (MValidatorAddress mc)) in
  Ok (SetMissCounter operator (Misses mc) s).
Definition init_prevote (s : Store) (ap : AggregateExchangeRatePrevote) : res Store :=
  let! valAddr := must_ok (ValAddressFromBech32 (PVoter ap)) in
  Ok (SetAggregateExchangeRatePrevote valAddr ap s).
Definition init_vote (s : Store) (av : AggregateExchangeRateVote) : res Store :=
  let! valAddr := must_ok (ValAddressFromBech32 (AVoter av)) in
  Ok (SetAggregateExchangeRateVote valAddr av s).

Definition InitGenesis (moduleAccount : bool) (data : GenesisState) (s : Store) : res Store :=
  let! s := rfold init_delegation s (GFeederDelegations data) in
  let s := foldl (fun s ex => SetLunaExchangeRate (TDenom ex) (TExchangeRate ex) s)
             s (GExchangeRates data) in
  let! s := rfold init_miss s (GMissCounters data) in
  let! s := rfold init_prevote s (GPrevotes data) in
  let! s := rfold init_vote s (GVotes data) in
  let s :=
    if (0 <? length (GTobinTaxes data))%nat
    then foldl (fun s t => SetTobinTax t.1 t.2 s) s (GTobinTaxes data)
    else foldl (fun s item => SetTobinTax (Name item) (TobinTax item) s)
           s (Whitelist (GParams data)) in
  let! _ := must_ok (validate_param_set (GParams data)) in
  let s := SetParams (GParams data) s in
  if moduleAccount then Ok s else Panic.

Definition ExportGenesis (s : Store) : GenesisState := {|
  GParams := KParams s;
  GExchangeRates := (fun p => mkTuple p.1 p.2) <$> IterateLunaExchangeRates s;
  GFeederDelegations :=
    (fun p => mkDelegation (AccString p.2) (ValString p.1)) <$> IterateFeederDelegations s;
  GMissCounters := (fun p => mkMiss (ValString p.1) p.2) <$> IterateMissCounters s;
  GPrevotes := (IterateAggregateExchangeRatePrevotes s).*2;
  GVotes := (IterateAggregateExchangeRateVotes s).*2;
  GTobinTaxes := IterateTobinTaxes s |}.

(** ** Queries; a nil request is [None] *)

Definition StatusInvalidArgument := SdkError "rpc: invalid argument".

Definition with_denom {A} (req : option string) (f : string -> res A) : res A :=
  match req with
  | None => Err StatusInvalidArgument
  | Some denom => if (String.length denom =? 0)%nat then Err StatusInvalidArgument else f denom
  end.
Definition with_validator {A} (req : option string) (f : string -> res A) : res A :=
  match req with
  | None => Err StatusInvalidArgument
  | Some addr => let! valAddr := wrap_err (ValAddressFromBech32 addr) StatusInvalidArgument in
                 f valAddr
  end.

Definition query_exchange_rate (s : Store) (req : option string) : res Dec :=
  with_denom req (GetLunaExchangeRate s).
Definition query_exchange_rates `{SdkCoins} (s : Store) : res DecCoins :=
  rfold (fun acc p => let! c := NewDecCoinFromDec p.1 p.2 in Ok (acc ++ [c]))
    [] (IterateLunaExchangeRates s).
Definition query_tobin_tax (s : Store) (req : option string) : res Dec :=
  with_denom req (GetTobinTax s).
Definition query_tobin_taxes (s : Store) : DenomList :=
  (fun p => mkDenom p.1 p.2) <$> IterateTobinTaxes s.
Definition query_actives (s : Store) : list string := (IterateLunaExchangeRates s).*1.
Definition query_vote_targets (s : Store) : list string := GetVoteTargets s.
Definition query_feeder_delegation (s : Store) (req : option string) : res string :=
  with_validator req (fun v => Ok (AccString (GetFeederDelegation s v))).
Definition query_miss_counter (s : Store) (req : option string) : res Z :=
  with_validator req (fun v => Ok (GetMissCounter s v)).
Definition query_aggregate_prevote (s : Store) (req : option string) :=
  with_validator req (GetAggregateExchangeRatePrevote s).
Definition query_aggregate_prevotes (s : Store) :=
  (IterateAggregateExchangeRatePrevotes s).*2.
Definition query_aggregate_vote (s : Store) (req : option string) :=
  with_validator req (GetAggregateExchangeRateVote s).
Definition query_aggregate_votes (s : Store) := (IterateAggregateExchangeRateVotes s).*2.

(** ** Export and import *)

(** A store whose records are filed under the addresses they render. *)
Record store_wf (s : Store) : Prop := {
  wf_feeders : map_Forall (fun v f => addr_ok v = true /\ addr_ok f = true) (FeederDelegations s);
  wf_misses : map_Forall (fun v _ => addr_ok v = true) (MissCounters s);
  wf_prevotes : map_Forall (fun v p => addr_ok v = true /\ PVoter p = ValString v) (Prevotes s);
  wf_votes : map_Forall (fun v a => addr_ok v = true /\ AVoter a = ValString v) (Votes s);
  wf_targets : TobinTaxes s <> ∅;
  wf_params : validate_param_set (KParams s) = Ok tt }.

Definition empty_store (p : Params) : Store := mkStore ∅ ∅ ∅ ∅ ∅ ∅ p.

(** Importing the encoded entries of a map, one after the other, restores it. *)
Lemma restore_map {V X} (get : Store -> gmap string V) (set : gmap string V -> Store -> Store)
    (enc : string * V -> X) (step : Store -> X -> res Store) (l : list (string * V))
    (m : gmap string V) s :
  l ≡ₚ map_to_list m ->
  (forall m s, get (set m s) = m) -> (forall m m' s, set m (set m' s) = set m s) ->
  (forall s, set (get s) s = s) -> get s = ∅ ->
  (forall k v s, m !! k = Some v -> step s (enc (k, v)) = Ok (set (<[k := v]> (get s)) s)) ->
  rfold step s (enc <$> l) = Ok (set m s).
Proof using Type.
  intros Hl Hgs Hss Hsg He Hstep.
  assert (forall l s, (forall k v, (k, v) ∈ l -> m !! k = Some v) ->
    rfold step s (enc <$> l) = Ok (set (foldl (fun m p => <[p.1 := p.2]> m) (get s) l) s)) as Hr.
  { clear Hl He s. intros l'. induction l' as [|[k v] l' IH]; intros s Hin; simpl; [by rewrite Hsg|].
    rewrite Hstep by (apply Hin; left). simpl. rewrite IH by (intros; apply Hin; by right).
    by rewrite Hgs, Hss. }
  rewrite Hr, He, (foldl_copy_map l m Hl); [done|].
  intros k v Hin. rewrite Hl in Hin. by apply elem_of_map_to_list.
Qed.

Lemma restore_plain {V X} (get : Store -> gmap string V) (set : gmap string V -> Store -> Store)
    (enc : string * V -> X) (step : Store -> X -> Store) (l : list (string * V))
    (m : gmap string V) s :
  l ≡ₚ map_to_list m ->
  (forall m s, get (set m s) = m) -> (forall m m' s, set m (set m' s) = set m s) ->
  (forall s, set (get s) s = s) -> get s = ∅ ->
  (forall k v s, m !! k = Some v -> step s (enc (k, v)) = set (<[k := v]> (get s)) s) ->
  foldl step s (enc <$> l) = set m s.
Proof using Type.
  intros Hl Hgs Hss Hsg He Hstep.
  assert (rfold (fun s x => Ok (step s x)) s (enc <$> l) = Ok (set m s)) as Hr.
  { apply (restore_map get set enc _ l m s); try done. intros. by rewrite Hstep. }
  assert (forall (l : list X) s, rfold (fun s x => Ok (step s x)) s l = Ok (foldl step s l)) as Hf.
  { intros l'. induction l' as [|x l' IH]; intros s'; [done|]. apply IH. }
  rewrite Hf in Hr. by injection Hr.
Qed.

Context `{!Bech32Laws}.

(** Genesis round trip: importing an exported oracle store into an empty
    module restores it, every record included. *)
Theorem oracle_genesis_roundtrip (s : Store) (p : Params) :
  store_wf s -> InitGenesis true (ExportGenesis s) (empty_store p) = Ok s.
Proof using Type*.
  intros [Hf Hm Hp Hv Ht Hpar]. unfold InitGenesis, ExportGenesis. cbn [GFeederDelegations
    GExchangeRates GMissCounters GPrevotes GVotes GTobinTaxes GParams].
  unfold IterateFeederDelegations.
  rewrite (restore_map FeederDelegations set_feeders) with (m := FeederDelegations s);
    [|apply kv_iter_perm|done|done|by intros []|done|].
  2: { intros k v st Hk. destruct (Hf _ _ Hk) as [Hk1 Hk2]. unfold init_delegation. simpl.
    by rewrite ValAddress_roundtrip, AccAddress_roundtrip. }
  cbn [rbind]. unfold IterateLunaExchangeRates.
  rewrite (restore_plain ExchangeRates set_rates) with (m := ExchangeRates s);
    [|apply kv_iter_perm|done|done|by intros []|done|done].
  unfold IterateMissCounters.
  rewrite (restore_map MissCounters set_misses) with (m := MissCounters s);
    [|apply kv_iter_perm|done|done|by intros []|done|].
  2: { intros k v st Hk. unfold init_miss. simpl. by rewrite ValAddress_roundtrip by apply (Hm _ _ Hk). }
  cbn [rbind]. unfold IterateAggregateExchangeRatePrevotes.
  rewrite (restore_map Prevotes set_prevotes snd) with (m := Prevotes s);
    [|apply kv_iter_perm|done|done|by intros []|done|].
  2: { intros k v st Hk. destruct (Hp _ _ Hk) as [Hk1 Hk2]. unfold init_prevote. simpl.
    by rewrite Hk2, ValAddress_roundtrip. }
  cbn [rbind]. unfold IterateAggregateExchangeRateVotes.
  rewrite (restore_map Votes set_votes snd) with (m := Votes s);
    [|apply kv_iter_perm|done|done|by intros []|done|].
  2: { intros k v st Hk. destruct (Hv _ _ Hk) as [Hk1 Hk2]. unfold init_vote. simpl.
    by rewrite Hk2, ValAddress_roundtrip. }
  cbn [rbind]. assert (length (IterateTobinTaxes s) <> 0%nat) as Hlen.
  { unfold IterateTobinTaxes. rewrite (Permutation_length (kv_iter_perm GetTobinTaxKey (TobinTaxes s))).
    rewrite length_map_to_list. intros E%map_size_empty_iff. done. }
  rewrite (proj2 (Nat.ltb_lt _ _)) by lia. rewrite Hpar. cbn [must_ok rbind]. f_equal.
  rewrite <- (list_fmap_id (IterateTobinTaxes s)). unfold IterateTobinTaxes.
  rewrite (restore_plain TobinTaxes set_tobin id) with (m := TobinTaxes s);
    [|apply kv_iter_perm|done|done|by intros []|done|done].
  by destruct s.
Qed.
End Genesis.

Import OracleRef.

Lemma demo_store_wf : store_wf demo_store.
Proof.
  split; [intros k x Hkx; unfold demo_store in Hkx; cbn in Hkx; map_entries Hkx; by vm_compute..| |].
  - intros E. assert (size (TobinTaxes demo_store) = 2%nat) as Hs by (by vm_compute).
    by rewrite E in Hs.
  - by vm_compute.
Qed.

Lemma oracle_genesis_roundtrip_witness :
  InitGenesis true (ExportGenesis demo_store) (empty_store DefaultParams) = Ok demo_store.
Proof. apply (oracle_genesis_roundtrip demo_store DefaultParams), demo_store_wf. Defined.
End OracleGenesis.
