(* ===== verification/OracleMachine.v ===== *)
(** * The oracle as a state machine

    Messages, end blockers, parameter changes and the other modules move the
    oracle from state to state.  This file has the message dispatch of
    [x/oracle/handler.go], the steps, and what holds along every sequence of
    them. *)

From S2P Require Import Prelude Sdk SdkRef Core OracleBallot OracleTypes OracleKeeper OracleTally OracleVotes OracleTallyFacts OracleRef OracleDeterminism OracleEndBlock OracleHandlers OracleGenesis.

Module OracleMachine.
Import Ballot OracleTypes OracleKeeper OracleTally OracleVotes OracleTallyFacts OracleDeterminism.
Import OracleEndBlock OracleHandlers OracleGenesis.

(** The messages the oracle routes; [MsgOther] is any other type. *)
Inductive OracleMsg :=
  | MsgDelegate (msg : MsgDelegateFeedConsent)
  | MsgPrevote (msg : MsgAggregateExchangeRatePrevote)
  | MsgVote (msg : MsgAggregateExchangeRateVote)
  | MsgOther.

Section Machine.
Context {B SS DS : Type}.
Context `{HM : SdkMath, HC : SdkCoins, HA : Bech32, HT : TmHash, HP : CoinParser,
  HB : BankKeeper B, HS : StakingKeeper SS, HD : DistrKeeper DS, HL : SlashKeeper B SS DS, HG : GoStrings, rt : GoRuntime}.
Abbreviation St := (State B SS DS).
Abbreviation OM := (M (State B SS DS)).

Definition NewHandler (ctx : Ctx) (msg : OracleMsg) : OM unit :=
  match msg with
  | MsgDelegate m => DelegateFeedConsent m
  | MsgPrevote m => AggregateExchangeRatePrevote_ ctx m
  | MsgVote m => AggregateExchangeRateVote_ ctx m
  | MsgOther => fail ErrUnknownRequest
  end.

(** A transaction with one message: a failed one changes nothing. *)
Definition deliver (ctx : Ctx) (msg : OracleMsg) (s : St) : St :=
  match NewHandler ctx msg s with Ret _ s' => s' | _ => s end.
Definition deliver_all (txs : list (Ctx * OracleMsg)) (s : St) : St :=
  foldl (fun s tx => deliver tx.1 tx.2 s) s txs.

(** ** What one message can do to the store *)

Lemma handler_store ctx msg (s s' : St) : NewHandler ctx msg s = Ret tt s' ->
  (exists op del, store s' = SetFeederDelegation op del (store s)) \/
  (exists val hash, store s' = SetAggregateExchangeRatePrevote val
     (NewAggregateExchangeRatePrevote hash val (uint64 (BlockHeight ctx))) (store s)) \/
  (exists m val ts, vote_accepted ctx m s val ts /\
     store s' = DeleteAggregateExchangeRatePrevote val
       (SetAggregateExchangeRateVote val (NewAggregateExchangeRateVote ts val) (store s))).
Proof using Type.
  destruct msg as [m|m|m|]; simpl; intros R; [..|done].
  - left. destruct (delegate_inv _ _ _ R) as (op & del & _ & _ & _ & E). by exists op, del.
  - right; left. destruct (prevote_inv _ _ _ _ R) as (val & hash & Ha).
    rewrite (prevote_run _ _ _ _ _ Ha) in R. injection R as <-. by exists val, hash.
  - right; right. destruct (vote_inv _ _ _ _ R) as (val & ts & Ha).
    rewrite (vote_run _ _ _ _ _ Ha) in R. injection R as <-. by exists m, val, ts.
Qed.

(** ** Steps *)

Inductive step : relation St :=
  (** an accepted message *)
  | step_msg ctx msg s s' : NewHandler ctx msg s = Ret tt s' -> step s s'
  (** the end of a block *)
  | step_end distrName ctx s s' : EndBlocker distrName ctx s = Ret tt s' -> step s s'
  (** governance sets the parameters, which the param subspace validates *)
  | step_params p s : validate_param_set p = Ok tt ->
      step s (mkState (SetParams p (store s)) (bank s) (staking s) (distr s) (events s))
  (** the other modules change their own state; a new block has no events yet *)
  | step_other b st d ev s : step s (mkState (store s) b st d ev).

Abbreviation steps := (rtc step).

(** ** The invariant *)

Definition names_ok (l : DenomList) : Prop :=
  Forall (fun d => Name d <> "" /\ 0 <= TobinTax d <= OneDec) l.

Record inv (s : St) : Prop := {
  inv_votes : votes_wf (store s);
  inv_whitelist : names_ok (Whitelist (KParams (store s)));
  inv_noname : TobinTaxes (store s) !! "" = None;
  inv_tobin : map_Forall (fun _ t => 0 <= t <= OneDec) (TobinTaxes (store s)) }.

Lemma whitelist_names l : validateWhitelist l = Ok tt -> names_ok l.
Proof using Type.
  unfold validateWhitelist, names_ok. induction l as [|d l IH]; [done|].
  intros ([] & Hd & Hl)%rbind_Ok. constructor; [|by apply IH]. revert Hd.
  destruct (Z.ltb_spec OneDec (TobinTax d)), (Z.ltb_spec (TobinTax d) 0); try done.
  destruct (Name d); [done|]. intros _. split; [done|lia].
Qed.

Lemma validate_param_set_names p : validate_param_set p = Ok tt -> names_ok (Whitelist p).
Proof using Type.
  unfold validate_param_set. intros R. go_inv.
  repeat match goal with u : unit |- _ => destruct u end. by apply whitelist_names.
Qed.

(** Installing the whitelist. *)
Definition whitelist_taxes (l : DenomList) : gmap string Dec :=
  foldl (fun m i => <[Name i := TobinTax i]> m) ∅ l.

Lemma ApplyWhitelist_spec wl vt (s s' : St) : ApplyWhitelist wl vt s = Ret tt s' ->
  store s' = if whitelist_changed wl vt then set_tobin (whitelist_taxes wl) (store s) else store s.
Proof using Type.
  unfold ApplyWhitelist. destruct (whitelist_changed wl vt); [|by intros [= <-]].
  intros ([] & s1 & [= <-] & R)%bind_Ret. rewrite ClearTobinTaxes_spec in R.
  assert (forall l (s s' : St), mfor l (fun item =>
        do* on_store (SetTobinTax (Name item) (TobinTax item)) in
        let* known := gets (fun s => GetDenomMetaData (bank s) (Name item)) in
        match known with
        | Some _ => ret tt
        | None =>
            let* md := lift (denom_metadata (Name item)) in
            on_bank (modify (SetDenomMetaData md))
        end) s = Ret tt s' ->
    store s' = set_tobin (foldl (fun m i => <[Name i := TobinTax i]> m) (TobinTaxes (store s)) l)
      (store s)) as Hl.
  { clear. induction l as [|i l IH]; intros s s'; [intros [= <-]; by destruct (store s)|].
    intros ([] & s1 & R1 & R2)%bind_Ret. rewrite (IH _ _ R2). clear IH R2.
    apply bind_Ret in R1 as ([] & s2 & [= <-] & R1).
    match type of R1 with ?c ?t = _ => assert (keeps id c) as Hk by keep end.
    apply Hk in R1. unfold id in R1. by rewrite R1. }
  apply Hl in R. by rewrite R.
Qed.

Lemma whitelist_taxes_ok l d t : names_ok l -> whitelist_taxes l !! d = Some t ->
  d <> "" /\ 0 <= t <= OneDec.
Proof using Type.
  unfold whitelist_taxes.
  assert (forall (l : DenomList) (m : gmap string Dec), names_ok l ->
    (forall d t, m !! d = Some t -> d <> "" /\ 0 <= t <= OneDec) ->
    forall d t, foldl (fun m i => <[Name i := TobinTax i]> m) m l !! d = Some t ->
    d <> "" /\ 0 <= t <= OneDec) as Hf; [|intros Hl; by apply Hf].
  clear. induction l as [|i l IH]; intros m Hl Hm; [done|].
  apply Forall_cons in Hl as [Hi Hl]. apply IH; [done|].
  intros d t [[<- <-]|[_ ?]]%lookup_insert_Some; [done|by eapply Hm].
Qed.

Context `{!SdkMathLaws, !SdkCoinsLaws, !Bech32Laws, !StakingLaws SS, !DistrLaws DS, !GoRuntimeLaws rt}.

Lemma end_vote_period_effect distrName ctx params (s s' : St) :
  end_vote_period distrName ctx params s = Ret tt s' ->
  KParams (store s') = KParams (store s) /\ Votes (store s') = ∅ /\
  (TobinTaxes (store s') = TobinTaxes (store s) \/
   TobinTaxes (store s') = whitelist_taxes (Whitelist params)).
Proof using Type*.
  intros R. destruct (end_vote_period_phases _ _ _ _ _ R)
    as (claims & thr & lg & r & c & s1 & s2 & s3 & _ & _ & _ & Rt & Rm & Rr & Ra).
  assert (forall X (f : Store -> X), (forall m st, f (set_rates m st) = f st) ->
    (forall m st, f (set_misses m st) = f st) -> f (store s3) = f (store s)) as E3.
  { intros X f F1 F2. rewrite (keeps_RewardBallotWinners f _ _ _ _ _ _ _ _ Rr).
    rewrite (keeps_count_miss f _ _ F2 _ _ _ Rm). unfold tally_all in Rt. cbn in Rt.
    destruct (String.eqb r "").
    - injection Rt as _ <-. apply F1.
    - apply tally_loop_run in Rt as (_ & -> & _). rewrite F1. apply F1. }
  apply ApplyWhitelist_spec in Ra. cbn [store] in Ra. rewrite ClearBallots_spec in Ra. rewrite Ra.
  destruct (whitelist_changed _ _); cbn [KParams Votes TobinTaxes set_tobin set_votes set_prevotes].
  - split_and!; [by apply E3|done|by right].
  - split_and!; [by apply E3|done|left; by apply E3].
Qed.

Lemma EndBlocker_effect distrName ctx (s s' : St) : EndBlocker distrName ctx s = Ret tt s' ->
  KParams (store s') = KParams (store s) /\
  (Votes (store s') = Votes (store s) \/ Votes (store s') = ∅) /\
  (TobinTaxes (store s') = TobinTaxes (store s) \/
   TobinTaxes (store s') = whitelist_taxes (Whitelist (KParams (store s)))).
Proof using Type*.
  intros R. destruct (EndBlocker_run _ _ _ _ R) as (ev & es & s1 & _ & Rv & _ & Rs).
  assert (forall X (f : Store -> X), (forall m st, f (set_misses m st) = f st) ->
    f (store s') = f (store s1)) as Hs.
  { intros X f Hf. destruct es; [|by subst]. by eapply keeps_SlashAndReset. }
  rewrite (Hs _ KParams), (Hs _ Votes), (Hs _ TobinTaxes) by done. destruct ev.
  - destruct (end_vote_period_effect _ _ _ _ _ Rv) as (? & ? & ?). by split_and!; [|right|].
  - subst s1. by split_and!; [|left|left].
Qed.

Lemma step_inv s s' : step s s' -> inv s -> inv s'.
Proof using Type*.
  intros Hst [Hv Hw Hn Ht]. destruct Hst as [ctx msg s s' R|distrName ctx s s' R|p s Hp|].
  - destruct (handler_store _ _ _ _ R) as [(op & del & E)|[(val & hash & E)|(m & val & ts & Ha & E)]];
      split; rewrite E; try done.
    unfold votes_wf. simpl. apply map_Forall_insert_2; [|done]. split_and!; [done|..].
    + eapply ValAddress_valid, Ha.
    + eapply ParseExchangeRateTuples_denoms, Ha.
  - destruct (EndBlocker_effect _ _ _ _ R) as (Ep & Ev & Et).
    assert (votes_wf (store s')) by (unfold votes_wf; destruct Ev as [->| ->]; [done|apply map_Forall_empty]).
    assert (names_ok (Whitelist (KParams (store s')))) by (by rewrite Ep).
    destruct Et as [Et|Et]; split; rewrite ?Et; try done.
    + apply eq_None_not_Some. intros [t [? _]%whitelist_taxes_ok]; done.
    + intros d t [_ ?]%whitelist_taxes_ok; done.
  - split; try done. simpl. by apply validate_param_set_names.
  - by split.
Qed.

Lemma steps_inv s s' : steps s s' -> inv s -> inv s'.
Proof using Type*. induction 1; [done|]. intros. by eapply IHrtc, step_inv. Qed.

(** C7. The oracle's invariant: along every sequence of accepted messages, end
    blockers, validated parameter changes and changes of other modules, each
    stored vote is filed under a valid address, names each denom once and carries
    its voter's rendering, the whitelist names its denoms, and every tobin tax
    lies in [[0, 1]]. *)
Theorem oracle_invariant (s s' : St) : inv s -> steps s s' -> inv s'.
Proof using Type*. intros Hi Hs. by eapply steps_inv. Qed.

(** Consensus safety of the oracle's end blocker.  Go iterates its maps in an
    unspecified order and sorts unstably.  In every state that the oracle reaches
    from well-formed votes, two nodes whose runtimes make different choices end a
    block with the same outcome: both halt, both fail with the same error, or
    both reach states that differ in the order of emitted events only.  The
    powers of the staking module must fit in int64. *)
Theorem EndBlocker_deterministic (rt' : GoRuntime) `{!GoRuntimeLaws rt'} distrName ctx (s0 s : St) :
  inv s0 -> steps s0 s -> active_ok s ->
  orel eq st_eq (EndBlocker (rt := rt) distrName ctx s) (EndBlocker (rt := rt') distrName ctx s).
Proof using Type*.
  intros Hi Hs Ha. apply EndBlocker_rel; [done..| |done]. eapply inv_votes, steps_inv; done.
Qed.

(** ** A vote is final within its period *)

(** The block period of a height. *)
Definition period_of (vp h : Z) : Z := uint64 h / vp.

(** The validator voted, and a later prevote belongs to the same period. *)
Record has_voted (vp n : Z) (val : string) (v : AggregateExchangeRateVote) (s : St) : Prop := {
  hv_period : VotePeriod (KParams (store s)) = vp;
  hv_vote : Votes (store s) !! val = Some v;
  hv_prevote : forall pv, Prevotes (store s) !! val = Some pv -> SubmitBlock pv / vp = n }.

Lemma deliver_voted vp n val v ctx msg s : period_of vp (BlockHeight ctx) = n ->
  has_voted vp n val v s -> has_voted vp n val v (deliver ctx msg s).
Proof using Type.
  intros Hn [Hp Hv Hpv]. unfold deliver. destruct (NewHandler ctx msg s) as [[] s'| |] eqn:R; [|done..].
  destruct (handler_store _ _ _ _ R) as [(op & del & E)|[(w & hash & E)|(m & w & ts & Ha & E)]];
    split; rewrite E; try done; cbn.
  - intros pv [[-> <-]|[_ ?]]%lookup_insert_Some; [|by apply Hpv]. exact Hn.
  - destruct (decide (w = val)) as [->|Hne]; [|by rewrite lookup_insert_ne].
    exfalso. destruct Ha as [_ _ _ _ (pv & Hl & _ & Hper & _)]. rewrite Hp in Hper.
    rewrite (Hpv _ Hl) in Hper. unfold period_of in Hn. rewrite Hn, Z.sub_diag in Hper. done.
  - intros pv [_ Hl]%lookup_delete_Some. by apply Hpv.
Qed.

(** C12. One vote per period: once a validator's vote is accepted, no sequence of
    messages in blocks of the same vote period, by anybody, replaces or removes
    it. *)
Theorem vote_final ctx msg (s s1 : St) txs :
  AggregateExchangeRateVote_ ctx msg s = Ret tt s1 ->
  let vp := VotePeriod (KParams (store s)) in
  Forall (fun tx => period_of vp (BlockHeight tx.1) = period_of vp (BlockHeight ctx)) txs ->
  exists val v, ValAddressFromBech32 (mv_Validator msg) = Ok val /\
    Votes (store s1) !! val = Some v /\ Votes (store (deliver_all txs s1)) !! val = Some v.
Proof using Type.
  intros R vp Htx. destruct (vote_inv _ _ _ _ R) as (val & ts & Ha).
  rewrite (vote_run _ _ _ _ _ Ha) in R. injection R as <-.
  set (v := NewAggregateExchangeRateVote ts val). exists val, v. split; [apply Ha|].
  assert (has_voted vp (period_of vp (BlockHeight ctx)) val v (after_vote msg val ts s)) as Hh.
  { split; [done|by apply lookup_insert_eq|]. intros pv. cbn. by rewrite lookup_delete_eq. }
  split; [apply Hh|]. revert Hh. generalize (after_vote msg val ts s).
  induction Htx as [|tx txs Htx _ IH]; intros t Ht; [apply Ht|].
  apply IH. by apply deliver_voted.
Qed.
End Machine.

(** ** Witnesses *)

Import OracleRef.

Lemma demo_inv : inv demo_state.
Proof.
  split; [apply demo_votes_wf| |by vm_compute|].
  { apply whitelist_names. by vm_compute. }
  intros d t Ht. cbn [store demo_state demo_store TobinTaxes] in Ht.
  apply lookup_insert_Some in Ht as [[_ <-]|[_ [_ <-]%lookup_singleton_Some]];
    split; vm_compute; discriminate.
Qed.

Lemma oracle_invariant_witness : inv demo_after.
Proof.
  apply (oracle_invariant (rt := runtime1) demo_state demo_after); [apply demo_inv|].
  apply rtc_once. apply (step_end distrName demo_ctx). apply demo_returns.
Defined.

Lemma EndBlocker_deterministic_witness :
  orel eq st_eq (EndBlocker (rt := runtime1) distrName demo_ctx demo_state)
    (EndBlocker (rt := runtime2) distrName demo_ctx demo_state).
Proof.
  apply (EndBlocker_deterministic (rt := runtime1) runtime2 distrName demo_ctx demo_state demo_state);
    [apply demo_inv|apply rtc_refl|apply demo_active_ok].
Defined.

(** A validator that committed to its rates in the first period reveals them in
    the second, and tries to vote again. *)
Definition reveal_msg : MsgAggregateExchangeRateVote :=
  mkMsgVote "salt" "2.5usdr,3000ukrw" (AccString valA) (ValString valA).
Definition committed : State RefBank RefStaking RefDistr :=
  deliver (mkCtx 1 0 "columbus-5") (MsgPrevote
    (mkMsgPrevote (AggregateVoteHash_String (GetAggregateVoteHash "salt" "2.5usdr,3000ukrw" valA))
       (AccString valA) (ValString valA))) demo_state.
Definition revealed : State RefBank RefStaking RefDistr :=
  final (AggregateExchangeRateVote_ (mkCtx 6 0 "columbus-5") reveal_msg committed) committed.

Lemma vote_final_witness : exists val v,
  ValAddressFromBech32 (ValString valA) = Ok val /\ Votes (store revealed) !! val = Some v /\
  Votes (store (deliver_all [(mkCtx 7 0 "columbus-5", MsgVote reveal_msg)] revealed)) !! val = Some v.
Proof.
  apply (vote_final (mkCtx 6 0 "columbus-5") reveal_msg committed revealed).
  - apply returned_final. by vm_compute.
  - by repeat constructor.
Defined.
End OracleMachine.
