(* ===== verification/OracleFindings.v ===== *)
(** * Behaviours of the oracle worth knowing

    Concrete runs, from states that satisfy the oracle's invariant, in which the
    code does not do what its comments suggest. *)

From S2P Require Import Prelude Sdk SdkRef Core OracleBallot OracleTypes OracleKeeper OracleTally OracleVotes OracleTallyFacts OracleRef OracleDeterminism OracleEndBlock OracleHandlers OracleGenesis OracleMachine.

Module OracleFindings.
Import Ballot OracleTypes OracleKeeper OracleTally OracleVotes OracleTallyFacts OracleDeterminism.
Import OracleEndBlock OracleMachine.

(** ** No voter in common *)

Section Halts.
Context {B SS DS : Type}.
Context `{HM : SdkMath, !SdkMathLaws, HC : SdkCoins, !SdkCoinsLaws, HA : Bech32, !Bech32Laws,
  HB : BankKeeper B, HS : StakingKeeper SS, !StakingLaws SS, HD : DistrKeeper DS, !DistrLaws DS,
  HL : SlashKeeper B SS DS, HG : GoStrings}.
Context {rt : GoRuntime} `{!GoRuntimeLaws rt}.
Abbreviation St := (State B SS DS).

(** The tally has no error path. *)
Lemma tally_all_no_fail band pick claims (s : St) e s' : tally_all band pick claims s <> Fail e s'.
Proof using Type*.
  unfold tally_all. destruct (String.eqb _ _); [done|]. revert claims s.
  induction (map_range 2 (pVotes pick)) as [|p l IH]; intros claims s; [done|]. cbn [mfold]. unfold bind.
  rewrite tally_denom_prepare. destruct (prepare _ _ _ _ p) as [[[[m sp] b] rate]| |]; [|done..].
  unfold finish. destruct (rfold _ claims b); [apply IH|done..].
Qed.

(** At most one denom leads. *)
Lemma leads_unique votes pass r r' : leads votes pass r -> leads votes pass r' -> r = r'.
Proof using Type.
  intros [P1 L1] [P2 L2]. destruct (L1 _ P2) as [?|[? ?]], (L2 _ P1) as [?|[? ?]]; try lia.
  by apply (anti_symm str_le).
Qed.

(** Votes that share no voter with the reference become abstentions, and the
    median of abstentions is zero. *)
Lemma disjoint_median ref b cross m :
  (forall u v, u ∈ ref -> v ∈ b -> Voter u = Voter v -> ExchangeRate u <= 0 \/ ExchangeRate v <= 0) ->
  Forall2 (crosses ref) b cross -> is_median cross m -> m = 0.
Proof using Type.
  intros Hd Hc [(w & -> & Hw)%list_elem_of_fmap _].
  apply list_elem_of_lookup in Hw as [i Hw]. destruct (Forall2_lookup_r _ _ _ _ _ Hc Hw) as (v & Hv & _ & _ & Hx).
  apply list_elem_of_lookup_2 in Hv. destruct Hx as [(u & Hu & E & ? & ? & _)|(_ & -> & _)]; [|done].
  destruct (Hd u v Hu Hv E); lia.
Qed.

(** C40. When a chain halts.  At the end of a vote period, let [r] be the reference
    denom and [d] another denom whose ballot passes, such that no active validator
    gave a positive rate for both: the cross rates of [d] are all abstentions,
    their median is zero, and the end blocker divides the reference rate by it.
    It panics, whatever the other votes are, and the block cannot end. *)
Theorem disjoint_voters_halt distrName ctx (s : St) claims thr r d :
  votes_wf (store s) -> active_ok s -> TobinTaxes (store s) !! "" = None ->
  IsPeriodLastBlock ctx (VotePeriod (KParams (store s))) = Ok true ->
  active_set s = Ok claims -> threshold_votes s = Ok thr ->
  leads (cast s claims) (passes s claims thr) r -> passes s claims thr d -> d <> r ->
  (forall u v, u ∈ cast s claims r -> v ∈ cast s claims d -> Voter u = Voter v ->
     ExchangeRate u <= 0 \/ ExchangeRate v <= 0) ->
  EndBlocker distrName ctx s = Halt.
Proof using Type*.
  intros Hv Ha Ht Hl Hc Hthr Hlead Hd Hne Hdis.
  destruct (end_vote_period_halts distrName ctx (KParams (store s)) s claims thr Hc Hthr) as (lg & r' & Href & Hh).
  assert (tally_all (RewardBand (KParams (store s))) (mkPick lg r' (targets_left s claims thr)
    (passed s claims thr)) claims (cleared s) = Halt) as Rt.
  { destruct (tally_all _ _ claims _) as [c s'|e s'|] eqn:Rt; [|by apply tally_all_no_fail in Rt|done]. exfalso.
    apply tally_rates in Rt as [_ [Hno|(r1 & rate & Hl1 & _ & _ & Hx)]]; try done;
      [by apply (Hno d)| |by eapply active_claims_ok].
    pose proof (leads_unique _ _ _ _ Hlead Hl1) as <-.
    destruct (Hx d Hd Hne) as (cross & m & q & Hcr & Hm & Hq & _).
    rewrite (disjoint_median _ _ _ _ Hdis Hcr Hm), Dec_Quo_spec in Hq. done. }
  unfold EndBlocker, bind, gets, lift. rewrite Hl. by rewrite (Hh Rt).
Qed.
End Halts.

Import OracleRef.

(** A state of the demo chain with other votes, targets and parameters. *)
Definition with_votes (votes : gmap string AggregateExchangeRateVote) (taxes : gmap string Dec)
    (p : Params) (stake : RefStaking) : State RefBank RefStaking RefDistr :=
  mkState (set_votes votes (set_tobin taxes (SetParams p demo_store))) demo_bank stake (mkDistr ∅ []) [].

Definition two_taxes : gmap string Dec :=
  {[ MicroSDRDenom := DefaultTobinTax; MicroKRWDenom := DefaultTobinTax ]}.

(** ** Two halves of the power vote on different denoms *)

Definition even_staking : RefStaking := mkStaking
  [validator_of valA 30000000 true false; validator_of valB 30000000 true false] 60000000 [].

(** The four messages, all accepted by the handlers: each validator commits to a
    vote on one denom in the first period and reveals it in the second. *)
Definition commit (v rates : string) : MsgAggregateExchangeRatePrevote :=
  mkMsgPrevote (AggregateVoteHash_String (GetAggregateVoteHash "salt" rates v)) (AccString v) (ValString v).
Definition reveal (v rates : string) : MsgAggregateExchangeRateVote :=
  mkMsgVote "salt" rates (AccString v) (ValString v).
Definition split_run : M (State RefBank RefStaking RefDistr) unit :=
  do* AggregateExchangeRatePrevote_ (mkCtx 1 0 "columbus-5") (commit valA "2usdr") in
  do* AggregateExchangeRatePrevote_ (mkCtx 1 0 "columbus-5") (commit valB "3000ukrw") in
  do* AggregateExchangeRateVote_ (mkCtx 6 0 "columbus-5") (reveal valA "2usdr") in
  AggregateExchangeRateVote_ (mkCtx 6 0 "columbus-5") (reveal valB "3000ukrw").
Definition split_start : State RefBank RefStaking RefDistr :=
  with_votes ∅ two_taxes DefaultParams even_staking.
Definition split_state : State RefBank RefStaking RefDistr := final (split_run split_start) split_start.
Definition split_ctx : Ctx := mkCtx 9 0 "columbus-5".
Definition split_claims : gmap string Claim :=
  {[ ValString valA := NewClaim 30 0 0 valA; ValString valB := NewClaim 30 0 0 valB ]}.

Lemma split_returns : split_run split_start = Ret tt split_state.
Proof. apply returned_final. by vm_compute. Qed.

Lemma split_votes : votes_wf (store split_state).
Proof.
  assert (Votes (store split_state) =
    {[ valA := NewAggregateExchangeRateVote [mkTuple MicroSDRDenom (NewDec 2)] valA;
       valB := NewAggregateExchangeRateVote [mkTuple MicroKRWDenom (NewDec 3000)] valB ]}) as E
    by (vm_compute; reflexivity).
  intros k v Hkv. rewrite E in Hkv.
  apply lookup_insert_Some in Hkv as [[<- <-]|[_ [<- <-]%lookup_singleton_Some]];
    (split_and!; [done..|]); apply NoDup_singleton.
Qed.

Lemma split_active : active_ok split_state.
Proof.
  assert (active_set split_state = Ok split_claims) as E0 by (by vm_compute).
  intros claims E. fold (active_set split_state) in E. rewrite E0 in E. injection E as <-.
  split_and!; [|by vm_compute..]. intros k c Hkc. unfold split_claims in Hkc.
  by apply lookup_insert_Some in Hkc as [[_ <-]|[_ [_ <-]%lookup_singleton_Some]].
Qed.

(** Both denoms are targets, both ballots pass with the same power, and the won is
    the first of the two in the alphabet. *)
Lemma split_leads : leads (cast split_state split_claims) (passes split_state split_claims 30) MicroKRWDenom.
Proof.
  split; [apply (bool_decide_unpack _); by vm_compute|]. intros d [[t Ht] _]. right.
  assert (TobinTaxes (store split_state) = two_taxes) as E by (by vm_compute). rewrite E in Ht. unfold two_taxes in Ht.
  apply lookup_insert_Some in Ht as [[<- _]|[_ [<- _]%lookup_singleton_Some]]; split; by vm_compute.
Qed.

Lemma disjoint_voters_halt_witness :
  split_run split_start = Ret tt split_state /\
  EndBlocker (rt := runtime1) distrName split_ctx split_state = Halt.
Proof.
  split; [apply split_returns|].
  apply (disjoint_voters_halt (rt := runtime1) distrName split_ctx split_state split_claims 30
    MicroKRWDenom MicroSDRDenom).
  - apply split_votes.
  - apply split_active.
  - by vm_compute.
  - by vm_compute.
  - by vm_compute.
  - by vm_compute.
  - apply split_leads.
  - apply (bool_decide_unpack _). by vm_compute.
  - done.
  - intros u v Hu Hv E. vm_compute in Hu, Hv.
    apply list_elem_of_singleton in Hu as ->. apply list_elem_of_singleton in Hv as ->. done.
Defined.

(** ** A denom leaves the whitelist while its ballot fails *)

(** [uusd] is still a target; the whitelist has two other denoms. *)
Definition delist_params : Params :=
  let p := DefaultParams in
  mkParams (VotePeriod p) (VoteThreshold p) (RewardBand p) (RewardDistributionWindow p)
    [mkDenom MicroSDRDenom DefaultTobinTax; mkDenom MicroKRWDenom DefaultTobinTax]
    (SlashFraction p) (SlashWindow p) (MinValidPerWindow p).

Definition delist_state (with_usd : bool) : State RefBank RefStaking RefDistr :=
  let usd := if with_usd then [mkTuple MicroUSDDenom (NewDec 3)] else [] in
  with_votes
    {[ valA := demo_vote valA (NewDec 2) (NewDec 3000);
       valB := demo_vote valB (NewDec 2) (NewDec 3000);
       valC := NewAggregateExchangeRateVote
         ([mkTuple MicroSDRDenom (NewDec 2); mkTuple MicroKRWDenom (NewDec 3000)] ++ usd) valC ]}
    (<[MicroUSDDenom := DefaultTobinTax]> two_taxes) delist_params demo_staking.

(** The vote targets after the end of the period. *)
Definition targets_after (s : State RefBank RefStaking RefDistr) : gmap string Dec :=
  TobinTaxes (store (final (EndBlocker (rt := runtime1) distrName demo_ctx s) s)).

(** A denom taken off the whitelist is dropped from the vote targets at the
    end of the period, unless a ballot for it was cast and failed: the failed
    ballot is removed from the targets before they are compared with the
    whitelist, so the change goes unnoticed and the denom stays a target. *)
Theorem delisted_target_survives :
  targets_after (delist_state false) !! MicroUSDDenom = None /\
  targets_after (delist_state true) !! MicroUSDDenom = Some DefaultTobinTax.
Proof. split; vm_compute; reflexivity. Qed.
End OracleFindings.
