(* ===== verification/Market.v ===== *)
(** * The market module: [x/market]

    The constant-product market between Terra stablecoins and Luna: the pool
    delta, the swap computation, the swap messages, parameters, queries and
    genesis.  The oracle is used through an interface that [OracleKeeper.v]
    implements. *)

From S2P Require Import Prelude Sdk Core.

Module Market.

Definition ModuleName : string := "market".
(** [oracletypes.ModuleName] *)
Definition OracleModuleName : string := "oracle".

Definition ErrRecursiveSwap := Registered ModuleName 2.
Definition ErrNoEffectivePrice := Registered ModuleName 3.
Definition ErrZeroSwapCoin := Registered ModuleName 4.
Definition ErrInvalidCoins := SdkError "invalid coins".
Definition ErrInvalidAddress := SdkError "invalid address".
Definition ErrPanic := SdkError "panic".
Definition StatusInvalidArgument := SdkError "rpc: invalid argument".
Definition StatusInternal := SdkError "rpc: internal".

(** ** Expected keepers ([expected_keepers.go]) *)

Class OracleReader (O : Type) := {
  GetLunaExchangeRate : O -> string -> res Dec;
  GetTobinTax : O -> string -> res Dec;
}.

(** What the market may assume of an oracle state: reading never panics, one
    Luna is worth one Luna, and Tobin taxes lie in [[0, 1]]. *)
Class OracleOk {O} `{OracleReader O} (o : O) : Prop := {
  rate_no_panic d : GetLunaExchangeRate o d <> Panic;
  rate_luna : GetLunaExchangeRate o MicroLunaDenom = Ok OneDec;
  tobin_no_panic d : GetTobinTax o d <> Panic;
  tobin_range d t : GetTobinTax o d = Ok t -> 0 <= t <= OneDec;
}.

(** ** Parameters ([params.go]) *)

Record Params := mkParams {
  BasePool : Dec;
  PoolRecoveryPeriod : Z;         (* uint64 *)
  MinStabilitySpread : Dec }.

Definition DefaultParams : Params := {|
  BasePool := NewDec (1000000 * MicroUnit);
  PoolRecoveryPeriod := BlocksPerDay;
  MinStabilitySpread := NewDecWithPrec 2 2 |}.

Definition Validate (p : Params) : res unit :=
  if BasePool p <? 0 then Err (Errorf "mint base pool should be positive or zero")
  else if PoolRecoveryPeriod p =? 0 then Err (Errorf "pool recovery period should be positive")
  else if (MinStabilitySpread p <? 0) || (OneDec <? MinStabilitySpread p)
  then Err (Errorf "market minimum stability spead should be a value between [0,1]")
  else Ok tt.

Definition validateBasePool (v : Dec) : res unit :=
  if v <? 0 then Err (Errorf "mint base pool must be positive or zero") else Ok tt.
Definition validatePoolRecoveryPeriod (v : Z) : res unit :=
  if v <=? 0 then Err (Errorf "pool recovery period must be positive") else Ok tt.
Definition validateMinStabilitySpread (v : Dec) : res unit :=
  if v <? 0 then Err (Errorf "min spread must be positive or zero")
  else if OneDec <? v then Err (Errorf "min spread is too large") else Ok tt.

(** ** Messages ([msgs.go]) *)

Record MsgSwap := mkMsgSwap { Trader : string; OfferCoin : Coin; AskDenom : string }.
Record MsgSwapSend := mkMsgSwapSend {
  FromAddress : string; ToAddress : string; SOfferCoin : Coin; SAskDenom : string }.
Record MsgSwapResponse := mkSwapResponse { SwapCoin : Coin; SwapFee : Coin }.

(** [BigInt().BitLen()] *)
Definition BitLen (z : Z) : Z := if z =? 0 then 0 else Z.log2 (Z.abs z) + 1.

Definition valid_address (r : res string) : res unit :=
  match r with Ok _ => Ok tt | Err _ => Err ErrInvalidAddress | Panic => Panic end.

Definition valid_offer (offer : Coin) (askDenom : string) : res unit :=
  if (Amount offer <=? 0) || (100 <? BitLen (Amount offer)) then Err ErrInvalidCoins
  else if String.eqb (Denom offer) askDenom then Err ErrRecursiveSwap
  else Ok tt.

Definition MsgSwap_ValidateBasic `{Bech32} (msg : MsgSwap) : res unit :=
  let! _ := valid_address (AccAddressFromBech32 (Trader msg)) in
  valid_offer (OfferCoin msg) (AskDenom msg).
Definition MsgSwapSend_ValidateBasic `{Bech32} (msg : MsgSwapSend) : res unit :=
  let! _ := valid_address (AccAddressFromBech32 (FromAddress msg)) in
  let! _ := valid_address (AccAddressFromBech32 (ToAddress msg)) in
  valid_offer (SOfferCoin msg) (SAskDenom msg).

(** ** State *)

Inductive Event :=
  | EventSwap (offer : Coin) (trader recipient : string) (swapCoin swapFee : Coin).

(** The store holds one value, the pool delta ([TerraPoolDeltaKey]). *)
Record Keeper := mkKeeper { TerraPoolDelta : option Dec; KParams : Params }.
Record State (O B : Type) := mkState {
  keeper : Keeper; oracle : O; bank : B; events : list Event }.
Arguments mkState {O B} _ _ _ _.
Arguments keeper {O B} _.
Arguments oracle {O B} _.
Arguments bank {O B} _.
Arguments events {O B} _.

Definition GetTerraPoolDelta (k : Keeper) : Dec := default ZeroDec (TerraPoolDelta k).
Definition SetTerraPoolDelta (delta : Dec) (k : Keeper) : Keeper :=
  mkKeeper (Some delta) (KParams k).
Definition SetParams (p : Params) (k : Keeper) : Keeper := mkKeeper (TerraPoolDelta k) p.

Section Pools.
Context `{SdkMath}.

Definition ReplenishPools (k : Keeper) : res Keeper :=
  let poolDelta := GetTerraPoolDelta k in
  let poolRecoveryPeriod := int64 (PoolRecoveryPeriod (KParams k)) in
  let! poolRegressionAmt := Dec_QuoInt64 poolDelta poolRecoveryPeriod in
  let! poolDelta := Dec_Sub poolDelta poolRegressionAmt in
  Ok (SetTerraPoolDelta poolDelta k).

(** [abci.go] *)
Definition EndBlocker (k : Keeper) : res Keeper := ReplenishPools k.
End Pools.

(** ** Swaps ([swap.go]) *)

Section Swaps.
Context {O : Type} `{SdkMath, SdkCoins, OracleReader O}.

Definition effective_price (o : O) (denom : string) : res Dec :=
  match GetLunaExchangeRate o denom with
  | Ok r => Ok r
  | Err _ => Err ErrNoEffectivePrice
  | Panic => Panic
  end.

Definition ComputeInternalSwap (o : O) (offerCoin : DecCoin) (askDenom : string) : res DecCoin :=
  if String.eqb (DDenom offerCoin) askDenom then Ok offerCoin
  else
    let! offerRate := effective_price o (DDenom offerCoin) in
    let! askRate := effective_price o askDenom in
    let! m := Dec_Mul (DAmount offerCoin) askRate in
    let! retAmount := Dec_Quo m offerRate in
    if retAmount <=? 0 then Err ErrInvalidCoins
    else NewDecCoinFromDec askDenom retAmount.

Definition ApplySwapToPool (o : O) (k : Keeper) (offerCoin : Coin) (askCoin : DecCoin)
    : res Keeper :=
  let offerLuna := String.eqb (Denom offerCoin) MicroLunaDenom in
  let askLuna := String.eqb (DDenom askCoin) MicroLunaDenom in
  if negb offerLuna && negb askLuna then Ok k
  else
    let terraPoolDelta := GetTerraPoolDelta k in
    let! terraPoolDelta :=
      if negb offerLuna && askLuna then
        let! oc := NewDecCoinFromCoin offerCoin in
        let! offerBaseCoin := ComputeInternalSwap o oc MicroSDRDenom in
        Dec_Add terraPoolDelta (DAmount offerBaseCoin)
      else Ok terraPoolDelta in
    let! terraPoolDelta :=
      if offerLuna && negb askLuna then
        let! askBaseCoin := ComputeInternalSwap o askCoin MicroSDRDenom in
        Dec_Sub terraPoolDelta (DAmount askBaseCoin)
      else Ok terraPoolDelta in
    Ok (SetTerraPoolDelta terraPoolDelta k).

(** The constant-product spread between the pools, before the minimum. *)
Definition pool_spread (basePool terraPoolDelta : Dec) (offerLuna : bool)
    (baseOfferAmount : Dec) : res Dec :=
  let! cp := Dec_Mul basePool basePool in
  let! terraPool := Dec_Add basePool terraPoolDelta in
  let! lunaPool := Dec_Quo cp terraPool in
  let '(offerPool, askPool) :=
    if negb offerLuna then (terraPool, lunaPool) else (lunaPool, terraPool) in
  let! filled := Dec_Add offerPool baseOfferAmount in
  let! rest := Dec_Quo cp filled in
  let! askBaseAmount := Dec_Sub askPool rest in
  let! lost := Dec_Sub baseOfferAmount askBaseAmount in
  Dec_Quo lost baseOfferAmount.

Definition ComputeSwap (o : O) (k : Keeper) (offerCoin : Coin) (askDenom : string)
    : res (DecCoin * Dec) :=
  if String.eqb (Denom offerCoin) askDenom then Err ErrRecursiveSwap
  else
    let! oc := NewDecCoinFromCoin offerCoin in
    let! baseOfferDecCoin := ComputeInternalSwap o oc MicroSDRDenom in
    let! retDecCoin := ComputeInternalSwap o baseOfferDecCoin askDenom in
    let offerLuna := String.eqb (Denom offerCoin) MicroLunaDenom in
    if negb offerLuna && negb (String.eqb askDenom MicroLunaDenom) then
      let! offerTobinTax := GetTobinTax o (Denom offerCoin) in
      let! askTobinTax := GetTobinTax o askDenom in
      Ok (retDecCoin, if offerTobinTax <? askTobinTax then askTobinTax else offerTobinTax)
    else
      let minSpread := MinStabilitySpread (KParams k) in
      let! spread := pool_spread (BasePool (KParams k)) (GetTerraPoolDelta k) offerLuna
                       (DAmount baseOfferDecCoin) in
      Ok (retDecCoin, if spread <? minSpread then minSpread else spread).

Definition simulateSwap (o : O) (k : Keeper) (offerCoin : Coin) (askDenom : string) : res Coin :=
  if String.eqb askDenom (Denom offerCoin) then Err ErrRecursiveSwap
  else if 100 <? BitLen (Amount offerCoin) then Err ErrInvalidCoins
  else
    let! cs := match ComputeSwap o k offerCoin askDenom with
               | Err _ => Err ErrPanic
               | r => r
               end in
    let '(swapCoin, spread) := cs in
    let! swapCoin :=
      if 0 <? spread then
        let! swapFeeAmt := Dec_Mul spread (DAmount swapCoin) in
        if 0 <? swapFeeAmt then
          let! swapFee := NewDecCoinFromDec (DDenom swapCoin) swapFeeAmt in
          DecCoin_Sub swapCoin swapFee
        else Ok swapCoin
      else Ok swapCoin in
    let! r := DecCoin_TruncateDecimal swapCoin in
    Ok (fst r).
End Swaps.

(** ** The message server ([msg_server.go]) *)

Section Server.
Context {O B : Type} `{SdkMath, SdkCoins, Bech32, OracleReader O, BankKeeper B}.
Abbreviation MM := (M (State O B)).

Definition on_keeper (f : State O B -> res Keeper) : MM unit := fun s =>
  match f s with
  | Ok k => Ret tt (mkState k (oracle s) (bank s) (events s))
  | Err e => Fail e s
  | Panic => Halt
  end.
Definition on_bank {A} (c : M B A) : MM A :=
  zoom bank (fun b s => mkState (keeper s) (oracle s) b (events s)) c.
Definition emit (e : Event) : MM unit := modify (fun s =>
  mkState (keeper s) (oracle s) (bank s) (events s ++ [e])).

Definition handleSwapRequest (trader receiver : string) (offerCoin : Coin) (askDenom : string)
    : MM MsgSwapResponse :=
  let* s := gets id in
  let* cs := lift (ComputeSwap (oracle s) (keeper s) offerCoin askDenom) in
  let '(swapDecCoin, spread) := cs in
  let* feeDecCoin := lift (
    if 0 <? spread then
      let! a := Dec_Mul spread (DAmount swapDecCoin) in
      NewDecCoinFromDec (DDenom swapDecCoin) a
    else NewDecCoin (DDenom swapDecCoin) 0) in
  let* net := lift (Dec_Sub (DAmount swapDecCoin) (DAmount feeDecCoin)) in
  let swapDecCoin := mkDecCoin (DDenom swapDecCoin) net in
  do* on_keeper (fun s => ApplySwapToPool (oracle s) (keeper s) offerCoin swapDecCoin) in
  let* offerCoins := lift (NewCoins [offerCoin]) in
  do* on_bank (SendCoinsFromAccountToModule trader ModuleName offerCoins) in
  do* on_bank (BurnCoins ModuleName offerCoins) in
  let* td := lift (DecCoin_TruncateDecimal swapDecCoin) in
  let '(swapCoin, decimalCoin) := td in
  if negb (0 <? Amount swapCoin) then fail ErrZeroSwapCoin
  else
    let* feeDecCoin := lift (DecCoin_Add feeDecCoin decimalCoin) in
    let* fd := lift (DecCoin_TruncateDecimal feeDecCoin) in
    let feeCoin := fst fd in
    let* minted := lift (Coin_Add swapCoin feeCoin) in
    let* mintCoins := lift (NewCoins [minted]) in
    do* on_bank (MintCoins ModuleName mintCoins) in
    let* swapCoins := lift (NewCoins [swapCoin]) in
    do* on_bank (SendCoinsFromModuleToAccount ModuleName receiver swapCoins) in
    do* (if 0 <? Amount feeCoin then
           let* feeCoins := lift (NewCoins [feeCoin]) in
           on_bank (SendCoinsFromModuleToModule ModuleName OracleModuleName feeCoins)
         else ret tt) in
    do* emit (EventSwap offerCoin trader receiver swapCoin feeCoin) in
    ret (mkSwapResponse swapCoin feeCoin).

Definition Swap (msg : MsgSwap) : MM MsgSwapResponse :=
  let* addr := lift (AccAddressFromBech32 (Trader msg)) in
  handleSwapRequest addr addr (OfferCoin msg) (AskDenom msg).

Definition SwapSend (msg : MsgSwapSend) : MM MsgSwapResponse :=
  let* fromAddr := lift (AccAddressFromBech32 (FromAddress msg)) in
  let* toAddr := lift (AccAddressFromBech32 (ToAddress msg)) in
  handleSwapRequest fromAddr toAddr (SOfferCoin msg) (SAskDenom msg).
End Server.

(** ** Queries ([querier.go]) *)

(** [sdk.ParseCoinNormalized] *)
Class CoinNormalizer := ParseCoinNormalized : string -> res Coin.

(** The request is [None] when the pointer is nil. *)
Definition query_swap {O} `{SdkMath, SdkCoins, OracleReader O, CoinNormalizer}
    (o : O) (k : Keeper) (req : option (string * string)) : res Coin :=
  match req with
  | None => Err StatusInvalidArgument
  | Some (offerStr, askDenom) =>
      if negb (ValidateDenom askDenom) then Err StatusInvalidArgument
      else
        let! offerCoin := match ParseCoinNormalized offerStr with
                          | Err _ => Err StatusInvalidArgument
                          | r => r
                          end in
        match simulateSwap o k offerCoin askDenom with
        | Err _ => Err StatusInternal
        | r => r
        end
  end.
Definition query_params (k : Keeper) : Params := KParams k.
Definition query_terra_pool_delta (k : Keeper) : Dec := GetTerraPoolDelta k.

(** ** Genesis ([genesis.go]) *)

Record GenesisState := mkGenesis { GParams : Params; GTerraPoolDelta : Dec }.
Definition DefaultGenesisState : GenesisState := mkGenesis DefaultParams ZeroDec.
Definition ValidateGenesis (data : GenesisState) : res unit := Validate (GParams data).

(** The parameter subspace runs its validators on every write and panics. *)
Definition validate_param_set (p : Params) : res unit :=
  let! _ := validateBasePool (BasePool p) in
  let! _ := validatePoolRecoveryPeriod (PoolRecoveryPeriod p) in
  validateMinStabilitySpread (MinStabilitySpread p).

Definition InitGenesis (moduleAccount : bool) (data : GenesisState) (k : Keeper) : res Keeper :=
  match validate_param_set (GParams data) with
  | Ok _ =>
      let k := SetTerraPoolDelta (GTerraPoolDelta data) (SetParams (GParams data) k) in
      if moduleAccount then Ok k else Panic
  | _ => Panic
  end.
Definition ExportGenesis (k : Keeper) : GenesisState :=
  mkGenesis (KParams k) (GetTerraPoolDelta k).
End Market.
