(* ===== verification/MarketFacts.v ===== *)
(** * What the market computes

    Replenishing the pools, the oracle-price conversion and the spread of a
    swap. *)

From S2P Require Import Prelude Sdk SdkRef Core Market.

Module MarketFacts.
Import Market.

(** ** Replenishing the pools *)

Section Replenish.
Context `{SdkMathLaws}.

(** One block's regression towards the base pool. *)
Definition regress (p d : Z) : Z := d - Z.quot d p.

Lemma regress_abs p d : 0 < p -> Z.abs (regress p d) = Z.abs d - Z.abs d / p.
Proof using Type.
  intros Hp. unfold regress. destruct (Z.le_ge_cases 0 d) as [Hd|Hd].
  - rewrite Z.quot_div_nonneg by lia. pose proof (Z.div_le_upper_bound d p d Hp ltac:(nia)).
    rewrite !Z.abs_eq by lia. lia.
  - assert (Z.quot d p = - ((- d) / p)) as ->.
    { rewrite <- (Z.opp_involutive d) at 1. rewrite Z.quot_opp_l by lia.
      by rewrite Z.quot_div_nonneg by lia. }
    pose proof (Z.div_le_upper_bound (-d) p (-d) Hp ltac:(nia)).
    rewrite (Z.abs_neq d), Z.abs_neq by lia. lia.
Qed.

Lemma regress_sign p d : 0 < p -> (0 <= d -> 0 <= regress p d) /\ (d <= 0 -> regress p d <= 0).
Proof using Type.
  intros Hp. unfold regress. split; intros Hd.
  - rewrite Z.quot_div_nonneg by lia. pose proof (Z.div_le_upper_bound d p d Hp ltac:(nia)). lia.
  - rewrite <- (Z.opp_involutive d), Z.quot_opp_l, Z.quot_div_nonneg by lia.
    pose proof (Z.div_le_upper_bound (-d) p (-d) Hp ltac:(nia)). lia.
Qed.

Lemma regress_shrinks p d : 0 < p ->
  Z.abs (regress p d) <= Z.abs d /\ (p <= Z.abs d -> Z.abs (regress p d) < Z.abs d) /\
  (Z.abs d < p -> regress p d = d).
Proof using Type.
  intros Hp. rewrite regress_abs by done. split_and!.
  - pose proof (Z.div_pos (Z.abs d) p). lia.
  - intros Hd. pose proof (Z.div_le_lower_bound (Z.abs d) p 1). lia.
  - intros Hd. unfold regress. assert (Z.quot d p = 0) as -> by (apply Z.quot_small_iff; lia). lia.
Qed.

(** The end blocker takes one such step. *)
Lemma EndBlocker_step k : let p := PoolRecoveryPeriod (KParams k) in
  0 < p < 2^63 -> dec_fits (GetTerraPoolDelta k) = true ->
  EndBlocker k = Ok (SetTerraPoolDelta (regress p (GetTerraPoolDelta k)) k).
Proof using Type*.
  intros p Hp Hf. unfold EndBlocker, ReplenishPools. fold p. rewrite int64_id by lia. sdk_unfold.
  destruct (Z.eqb_spec p 0); [lia|]. simpl. rewrite Dec_Sub_spec. unfold dec_chk.
  rewrite (dec_fits_down _ (GetTerraPoolDelta k)); [done| |done].
  exact (proj1 (regress_shrinks p (GetTerraPoolDelta k) (proj1 Hp))).
Qed.

(** [n] blocks without swaps. *)
Fixpoint blocks (n : nat) (k : Keeper) : res Keeper :=
  match n with O => Ok k | S n => let! k' := EndBlocker k in blocks n k' end.

Lemma blocks_run n : forall k, let p := PoolRecoveryPeriod (KParams k) in
  0 < p < 2^63 -> dec_fits (GetTerraPoolDelta k) = true ->
  exists k', blocks n k = Ok k' /\ KParams k' = KParams k /\
    GetTerraPoolDelta k' = Nat.iter n (regress p) (GetTerraPoolDelta k).
Proof using Type*.
  induction n as [|n IH]; intros k p Hp Hf; [by exists k|].
  cbn [blocks]. rewrite EndBlocker_step by done. cbn [rbind]. fold p.
  destruct (IH (SetTerraPoolDelta (regress p (GetTerraPoolDelta k)) k)) as (k' & E & Ep & Ed).
  - done.
  - eapply dec_fits_down; [|exact Hf]. exact (proj1 (regress_shrinks p _ (proj1 Hp))).
  - exists k'. split_and!; [done..|]. rewrite Ed. fold p. by rewrite Nat.iter_succ_r.
Qed.

Lemma iter_regress p n : forall d, 0 < p ->
  Z.abs (Nat.iter n (regress p) d) <= Z.abs d /\
  (0 <= d -> 0 <= Nat.iter n (regress p) d) /\ (d <= 0 -> Nat.iter n (regress p) d <= 0) /\
  (Z.abs d <= Z.of_nat n -> Z.abs (Nat.iter n (regress p) d) < p).
Proof using Type.
  induction n as [|n IH]; intros d Hp; [simpl; lia|]. rewrite Nat.iter_succ_r.
  destruct (IH (regress p d) Hp) as (IH1 & IH2 & IH3 & IH4).
  destruct (regress_shrinks p d Hp) as (R1 & R2 & R3), (regress_sign p d Hp) as [S1 S2].
  split_and!; [lia|auto|auto|]. intros Hd.
  destruct (Z.lt_ge_cases (Z.abs d) p) as [Hlt|Hge]; [lia|]. apply IH4. specialize (R2 Hge). lia.
Qed.

(** C32. The pools recover.  Without swaps the end blocker never halts, moves the
    pool delta towards zero without changing its sign, and after finitely many
    blocks leaves less than [PoolRecoveryPeriod] decimal units of it, for every
    recovery period below [2^63]. *)
Theorem pools_recover k n : let p := PoolRecoveryPeriod (KParams k) in
  let d := GetTerraPoolDelta k in
  0 < p < 2^63 -> dec_fits d = true ->
  exists k', blocks n k = Ok k' /\ KParams k' = KParams k /\
    Z.abs (GetTerraPoolDelta k') <= Z.abs d /\
    (0 <= d -> 0 <= GetTerraPoolDelta k') /\ (d <= 0 -> GetTerraPoolDelta k' <= 0) /\
    (Z.abs d <= Z.of_nat n -> Z.abs (GetTerraPoolDelta k') < p).
Proof using Type*.
  intros p d Hp Hf. destruct (blocks_run n k Hp Hf) as (k' & E & Ep & Ed).
  exists k'. rewrite Ed. fold p d.
  destruct (iter_regress p n d (proj1 Hp)) as (? & ? & ? & ?). by split_and!.
Qed.
End Replenish.

Section ReplenishWitness.
Import Ref.
Lemma pools_recover_witness : exists k',
  blocks 3 (mkKeeper (Some 3) (mkParams 100 2 0)) = Ok k' /\
  KParams k' = mkParams 100 2 0 /\ Z.abs (GetTerraPoolDelta k') <= 3 /\
  (0 <= 3 -> 0 <= GetTerraPoolDelta k') /\ (3 <= 0 -> GetTerraPoolDelta k' <= 0) /\
  (3 <= Z.of_nat 3 -> Z.abs (GetTerraPoolDelta k') < 2).
Proof. apply (pools_recover (mkKeeper (Some 3) (mkParams 100 2 0)) 3); [done|by vm_compute]. Defined.
End ReplenishWitness.

(** ** Quotients of decimals *)

Section Quotients.
Context `{SdkMathLaws}.

(** The value of [Dec_Quo], before its overflow check. *)
Definition dquo (a b : Dec) : Dec := dec_round (Z.quot (a * P18 * P18) b).

Lemma Dec_Quo_Ok a b r : Dec_Quo a b = Ok r -> b <> 0 /\ r = dquo a b.
Proof using Type*.
  rewrite Dec_Quo_spec. destruct (Z.eqb_spec b 0); [done|]. intros Hr. by sdk_inv.
Qed.

Lemma dquo_nonneg a b : 0 <= a -> 0 < b -> 0 <= dquo a b.
Proof using Type*.
  intros Ha Hb. apply dec_round_nonneg, Z.quot_pos; [|done].
  assert (0 < P18) by done. apply Z.mul_nonneg_nonneg; [nia|lia].
Qed.

Lemma dquo_le a b k : 0 < b -> 0 <= k -> a * P18 <= k * b -> dquo a b <= k.
Proof using Type*.
  intros Hb Hk Hle. apply dec_round_le_mul. assert (0 < P18) as H18 by done.
  destruct (Z.le_ge_cases 0 a) as [Ha|Ha].
  - rewrite Z.quot_div_nonneg by nia. apply Z.div_le_upper_bound; [done|]. nia.
  - trans 0; [|nia]. rewrite <- (Z.opp_involutive (a * P18 * P18)), Z.quot_opp_l by lia.
    assert (0 <= Z.quot (- (a * P18 * P18)) b); [|lia]. apply Z.quot_pos; [nia|done].
Qed.

Lemma dquo_mono a b1 b2 : 0 <= a -> 0 < b1 <= b2 -> dquo a b2 <= dquo a b1.
Proof using Type*.
  intros Ha Hb. apply dec_round_mono. assert (0 < P18) as H18 by done.
  rewrite !Z.quot_div_nonneg by nia. apply Z.div_le_compat_l; nia.
Qed.

(** The other pool's quotient does not exceed this pool once anything was
    added: the rounding of [cp / b] is less than one unit. *)
Lemma dquo_dquo cp b x : 0 <= cp -> 0 < b -> 0 < x -> dquo cp (dquo cp b + x) <= b.
Proof using Type*.
  intros Hcp Hb Hx. pose proof (dquo_nonneg cp b Hcp Hb) as HL.
  apply dquo_le; [lia|lia|]. unfold dquo in *. assert (0 < P18) as H18 by done.
  rewrite Z.quot_div_nonneg in * by nia. set (q := cp * P18 * P18 / b) in *.
  pose proof (dec_round_near q) as Hn. set (L := dec_round q) in *.
  pose proof (Z.mul_succ_div_gt (cp * P18 * P18) b Hb) as Hq. fold q in Hq.
  assert (2 * q <= 2 * (L * P18) + P18) as Hn' by lia.
  assert (2 <= P18) as H2 by done.
  assert (cp * P18 * P18 <= b * (L * P18 + P18)) as Hm by nia.
  assert (P18 * (cp * P18) <= P18 * (b * (L + x))) as Hp by nia.
  by apply Z.mul_le_mono_pos_l in Hp.
Qed.

(** [r] is the decimal quotient of [a] by [b], up to less than one unit of its last
    digit. *)
Definition quotient_of (r a b : Dec) : Prop := Z.abs (r * b - a * P18) < b.

Lemma dquo_quotient a b : 0 < b -> quotient_of (dquo a b) a b.
Proof using Type*.
  intros Hb. unfold quotient_of, dquo. set (q := Z.quot (a * P18 * P18) b).
  pose proof (dec_round_near q) as Hn. set (r := dec_round q) in *.
  assert (Z.abs (q * b - a * P18 * P18) < b) as Hq.
  { unfold q. pose proof (Z.quot_rem (a * P18 * P18) b ltac:(lia)).
    pose proof (Z.rem_bound_abs (a * P18 * P18) b ltac:(lia)). lia. }
  assert (2 < P18) as H2 by done. apply (Z.mul_lt_mono_pos_l (2 * P18)); [lia|].
  assert (Z.abs (2 * P18 * (r * b - a * P18)) <= Z.abs (2 * (r * P18 - q)) * b + 2 * Z.abs (q * b - a * P18 * P18))
    as Hs by nia.
  rewrite Z.abs_mul in Hs. rewrite (Z.abs_eq (2 * P18)) in Hs by lia. nia.
Qed.
End Quotients.

(** ** The spread *)

Section Spread.
Context {O : Type} `{SdkMathLaws, !SdkCoins, !SdkCoinsLaws, HO : OracleReader O}.

Lemma pool_spread_le base delta offerLuna x r :
  0 <= base -> 0 < base + delta -> 0 < x ->
  pool_spread base delta offerLuna x = Ok r -> r <= OneDec.
Proof using Type*.
  intros Hb Hd Hx. unfold pool_spread. rewrite !Dec_Mul_spec, Dec_Add_spec. intros R.
  apply rbind_Ok in R as (cp & Hcp & R). sdk_inv. set (cp := dec_round (base * base)) in *.
  assert (0 <= cp) as Hcp0 by (apply dec_round_nonneg; nia).
  apply rbind_Ok in R as (T & HT & R). sdk_inv. set (T := base + delta) in *.
  apply rbind_Ok in R as (L & [_ ->]%Dec_Quo_Ok & R).
  pose proof (dquo_nonneg cp T Hcp0 Hd) as HL.
  assert (forall offerPool askPool,
    (let! filled := Dec_Add offerPool x in
     let! rest := Dec_Quo cp filled in
     let! askBaseAmount := Dec_Sub askPool rest in
     let! lost := Dec_Sub x askBaseAmount in
     Dec_Quo lost x) = Ok r ->
    dquo cp (offerPool + x) <= askPool -> r <= OneDec) as Hcore.
  { clear R. intros op ap R Hle. sdk_unfold.
    apply rbind_Ok in R as (f & Hf & R). sdk_inv.
    apply rbind_Ok in R as (rest & [_ ->]%Dec_Quo_Ok & R). rewrite Dec_Sub_spec in R.
    apply rbind_Ok in R as (ask & Hask & R). sdk_inv. rewrite Dec_Sub_spec in R.
    apply rbind_Ok in R as (lost & Hlost & R). sdk_inv. apply Dec_Quo_Ok in R as [_ ->].
    apply dquo_le; [done|done|]. unfold OneDec. assert (0 < P18) by done. nia. }
  destruct offerLuna; cbn [negb] in R.
  - apply (Hcore _ _ R). by apply dquo_dquo.
  - apply (Hcore _ _ R). apply dquo_mono; [done|lia].
Qed.

(** The spread of the constant-product curve.  The Luna pool is what the product
    of the base pools leaves beside the Terra pool; the offer [x] fills one pool,
    the curve takes [paid] out of the other so that the product stays, and the
    spread is the share of [x] that is not paid; each quotient up to less than one
    unit of its last digit. *)
Definition curve_spread (basePool delta : Dec) (offerLuna : bool) (x sp : Dec) : Prop :=
  let product := dec_round (basePool * basePool) in
  let terraPool := basePool + delta in
  exists lunaPool paid, quotient_of lunaPool product terraPool /\
    let '(offerPool, askPool) := if offerLuna then (lunaPool, terraPool) else (terraPool, lunaPool) in
    quotient_of (askPool - paid) product (offerPool + x) /\ quotient_of sp (x - paid) x.

Lemma pool_spread_curve base delta offerLuna x r :
  0 <= base -> 0 < base + delta -> 0 < x ->
  pool_spread base delta offerLuna x = Ok r -> curve_spread base delta offerLuna x r.
Proof using Type*.
  intros Hb Hd Hx. unfold pool_spread. rewrite !Dec_Mul_spec, Dec_Add_spec. intros R.
  apply rbind_Ok in R as (cp & Hcp & R). sdk_inv. set (cp := dec_round (base * base)) in *.
  assert (0 <= cp) as Hcp0 by (apply dec_round_nonneg; nia).
  apply rbind_Ok in R as (T & HT & R). sdk_inv. set (T := base + delta) in *.
  apply rbind_Ok in R as (L & [_ ->]%Dec_Quo_Ok & R).
  pose proof (dquo_nonneg cp T Hcp0 Hd) as HL.
  exists (dquo cp T). fold cp T.
  destruct offerLuna; cbn [negb] in R;
    (apply rbind_Ok in R as (f & Hf & R); rewrite Dec_Add_spec in Hf; sdk_inv;
     apply rbind_Ok in R as (rest & [_ ->]%Dec_Quo_Ok & R);
     apply rbind_Ok in R as (ask & Hask & R); rewrite Dec_Sub_spec in Hask; sdk_inv;
     apply rbind_Ok in R as (lost & Hlost & R); rewrite Dec_Sub_spec in Hlost; sdk_inv;
     apply Dec_Quo_Ok in R as [_ ->]).
  - exists (T - dquo cp (dquo cp T + x)). split_and!; [by apply dquo_quotient| |by apply dquo_quotient].
    replace (T - (T - dquo cp (dquo cp T + x))) with (dquo cp (dquo cp T + x)) by lia.
    apply dquo_quotient. lia.
  - exists (dquo cp T - dquo cp (T + x)). split_and!; [by apply dquo_quotient| |by apply dquo_quotient].
    replace (dquo cp T - (dquo cp T - dquo cp (T + x))) with (dquo cp (T + x)) by lia.
    apply dquo_quotient. lia.
Qed.

(** Oracle-price conversion. *)
Definition convert (a askRate offerRate : Dec) : Dec := dquo (dec_round (a * askRate)) offerRate.

Lemma ComputeInternalSwap_Ok o c ask r : ComputeInternalSwap o c ask = Ok r ->
  (DDenom c = ask /\ r = c) \/
  (DDenom c <> ask /\ DDenom r = ask /\ 0 < DAmount r /\ exists ro ra,
     GetLunaExchangeRate o (DDenom c) = Ok ro /\ GetLunaExchangeRate o ask = Ok ra /\
     DAmount r = convert (DAmount c) ra ro).
Proof using Type*.
  unfold ComputeInternalSwap. destruct (String.eqb_spec (DDenom c) ask) as [E|Hne].
  { intros [= <-]. by left. }
  intros R. right. unfold effective_price in R.
  destruct (GetLunaExchangeRate o (DDenom c)) as [ro| |] eqn:Eo; [|done..].
  destruct (GetLunaExchangeRate o ask) as [ra| |] eqn:Ea; [|done..]. cbn [rbind] in R.
  rewrite Dec_Mul_spec in R. apply rbind_Ok in R as (m & Hm & R). sdk_inv.
  apply rbind_Ok in R as (a & [_ ->]%Dec_Quo_Ok & R).
  destruct (Z.leb_spec (dquo (dec_round (DAmount c * ra)) ro) 0); [done|].
  apply NewDecCoinFromDec_weak in R as [-> _]. split_and!; [done..|]. by exists ro, ra.
Qed.

Lemma ComputeInternalSwap_pos o c ask r : ComputeInternalSwap o c ask = Ok r -> 0 < DAmount c ->
  DDenom r = ask /\ 0 < DAmount r.
Proof using Type*. intros [[? ->]|(_ & ? & ? & _)]%ComputeInternalSwap_Ok ?; done. Qed.

(** The parts of a swap computation that succeeds. *)
Lemma ComputeSwap_Ok o k offer ask ret spread : 0 < Amount offer ->
  ComputeSwap o k offer ask = Ok (ret, spread) ->
  Denom offer <> ask /\ ValidateDenom (Denom offer) = true /\
  exists base, ComputeInternalSwap o (mkDecCoin (Denom offer) (NewDec (Amount offer))) MicroSDRDenom = Ok base /\
    ComputeInternalSwap o base ask = Ok ret /\ 0 < DAmount base /\ DDenom ret = ask /\ 0 < DAmount ret /\
    ((Denom offer <> MicroLunaDenom /\ ask <> MicroLunaDenom /\ exists t1 t2,
        GetTobinTax o (Denom offer) = Ok t1 /\ GetTobinTax o ask = Ok t2 /\ spread = Z.max t1 t2) \/
     ((Denom offer = MicroLunaDenom \/ ask = MicroLunaDenom) /\ exists sp,
        pool_spread (BasePool (KParams k)) (GetTerraPoolDelta k)
          (String.eqb (Denom offer) MicroLunaDenom) (DAmount base) = Ok sp /\
        spread = Z.max (MinStabilitySpread (KParams k)) sp)).
Proof using Type*.
  intros Ha. unfold ComputeSwap. destruct (String.eqb_spec (Denom offer) ask) as [|Hne]; [done|].
  intros R. rewrite NewDecCoinFromCoin_spec in R.
  destruct (ValidateDenom (Denom offer)) eqn:Ev; [|done]. destruct (Z.leb_spec 0 (Amount offer)); [|lia].
  cbn [andb rbind] in R. apply rbind_Ok in R as (base & Hb & R). apply rbind_Ok in R as (rt & Hr & R).
  assert (0 < NewDec (Amount offer)) as Hpos by (unfold NewDec, P18; lia).
  destruct (ComputeInternalSwap_pos _ _ _ _ Hb Hpos) as [_ Hbp].
  destruct (ComputeInternalSwap_pos _ _ _ _ Hr Hbp) as [Hrd Hrp].
  split; [done|]. split; [done|].
  destruct (String.eqb_spec (Denom offer) MicroLunaDenom) as [El|Hl],
    (String.eqb_spec ask MicroLunaDenom) as [Eal|Hal]; cbn [negb andb] in R.
  4: { apply rbind_Ok in R as (t1 & Ht1 & R). apply rbind_Ok in R as (t2 & Ht2 & [= <- <-]).
    exists base. split_and!; [done..|]. left. split_and!; [done..|]. exists t1, t2.
    split_and!; [done..|]. destruct (Z.ltb_spec t1 t2); lia. }
  all: apply rbind_Ok in R as (sp & Hs & [= <- <-]); exists base; split_and!; [done..|right];
    (split; [tauto|]); exists sp; (split; [done|]);
    destruct (Z.ltb_spec sp (MinStabilitySpread (KParams k))); lia.
Qed.

(** C30. The spread of a swap lies in [[0, 1]], so a fee never exceeds the swap.
    Between two Terra denoms it is the larger of their tobin taxes.  With Luna on
    one side it is the spread of the constant-product curve at the oracle value of
    the offer, or the minimum stability spread when that is larger: the offer fills
    one pool, the other pool pays what keeps the product of the pools, and the
    spread is the share of the offer that is not paid, each quotient up to less
    than one unit of its last digit.  The returned coin has the asked denom and a
    positive amount.  It needs an oracle with tobin taxes in [[0, 1]] and a Terra
    pool that is not empty. *)
Theorem ComputeSwap_spread (o : O) `{!OracleOk o} k offer ask ret spread :
  0 <= MinStabilitySpread (KParams k) <= OneDec -> 0 <= BasePool (KParams k) ->
  0 < BasePool (KParams k) + GetTerraPoolDelta k -> 0 < Amount offer ->
  ComputeSwap o k offer ask = Ok (ret, spread) ->
  0 <= spread <= OneDec /\ DDenom ret = ask /\ 0 < DAmount ret /\
  (Denom offer <> MicroLunaDenom -> ask <> MicroLunaDenom -> exists t1 t2,
     GetTobinTax o (Denom offer) = Ok t1 /\ GetTobinTax o ask = Ok t2 /\ spread = Z.max t1 t2) /\
  (Denom offer = MicroLunaDenom \/ ask = MicroLunaDenom -> exists value sp,
     ComputeInternalSwap o (mkDecCoin (Denom offer) (NewDec (Amount offer))) MicroSDRDenom = Ok value /\
     curve_spread (BasePool (KParams k)) (GetTerraPoolDelta k)
       (String.eqb (Denom offer) MicroLunaDenom) (DAmount value) sp /\
     spread = Z.max (MinStabilitySpread (KParams k)) sp).
Proof using Type*.
  intros Hmin Hbase Hpool Ha R.
  destruct (ComputeSwap_Ok _ _ _ _ _ _ Ha R) as (_ & _ & base & Hv & _ & Hbp & Hd & Hp & Hs).
  destruct Hs as [(Hl & Hal & t1 & t2 & E1 & E2 & ->)|(Hl & sp & Hsp & ->)].
  - pose proof (tobin_range _ _ E1). pose proof (tobin_range _ _ E2).
    split_and!; [lia|lia|done|done|by intros _ _; exists t1, t2|]. intros [?|?]; done.
  - pose proof (pool_spread_le _ _ _ _ _ Hbase Hpool Hbp Hsp).
    split_and!; [lia|lia|done|done|by destruct Hl|]. intros _. exists base, sp.
    split_and!; [done|by apply pool_spread_curve|done].
Qed.
End Spread.
End MarketFacts.
