(* ===== verification/MarketSwap.v ===== *)
(** * Settling a swap

    The effects of a swap message on balances, supply and the pool, and the
    agreement of the swap query with it. *)

From S2P Require Import Prelude Sdk SdkRef Core Market MarketFacts.

Module MarketSwap.
Import Market MarketFacts.

Section Swap.
Context {O B : Type} `{SdkMathLaws, !SdkCoins, !SdkCoinsLaws, !Bech32, HO : OracleReader O,
  HB : BankKeeper B, !BankLaws B}.
Abbreviation St := (State O B).

(** The fee on a gross amount, as a decimal. *)
Definition fee_of (spread gross : Dec) : Dec :=
  if 0 <? spread then dec_round (spread * gross) else 0.

(** The state changes of a settled swap. *)
Record settled (s s' : St) (trader receiver : string) (offer : Coin) (ask : string)
    (gross spread : Dec) (resp : MsgSwapResponse) : Prop := {
  st_swap : Denom (SwapCoin resp) = ask /\ Amount (SwapCoin resp) = (gross - fee_of spread gross) / P18 /\
    0 < Amount (SwapCoin resp);
  st_fee : Denom (SwapFee resp) = ask /\ 0 <= Amount (SwapFee resp);
  st_total : Amount (SwapCoin resp) + Amount (SwapFee resp) = gross / P18;
  st_bal a d : bal (bank s') a d = bal (bank s) a d
    - ind (a = trader /\ Denom offer = d) (Amount offer)
    + ind (a = receiver /\ ask = d) (Amount (SwapCoin resp))
    + ind (a = GetModuleAddress OracleModuleName /\ ask = d) (Amount (SwapFee resp));
  st_supply d : supply (bank s') d = supply (bank s) d - ind (Denom offer = d) (Amount offer)
    + ind (ask = d) (gross / P18);
  st_pool : ApplySwapToPool (oracle s) (keeper s) offer (mkDecCoin ask (gross - fee_of spread gross))
    = Ok (keeper s');
  st_oracle : oracle s' = oracle s }.

Lemma on_keeper_Ret (f : St -> res Keeper) s s' : on_keeper f s = Ret tt s' ->
  exists k, f s = Ok k /\ s' = mkState k (oracle s) (bank s) (events s).
Proof using Type. unfold on_keeper. destruct (f s) as [k| |]; [|done..]. intros [= <-]. by exists k. Qed.

(** The fee computed by the handler. *)
Lemma fee_coin_Ok spread (c f : DecCoin) :
  (if 0 <? spread then
     let! a := Dec_Mul spread (DAmount c) in NewDecCoinFromDec (DDenom c) a
   else NewDecCoin (DDenom c) 0) = Ok f ->
  f = mkDecCoin (DDenom c) (fee_of spread (DAmount c)).
Proof using Type*.
  unfold fee_of. destruct (0 <? spread).
  - rewrite Dec_Mul_spec. intros (a & Ha & R)%rbind_Ok. sdk_inv.
    by apply NewDecCoinFromDec_weak in R as [-> _].
  - rewrite NewDecCoin_spec. destruct (ValidateDenom _); [|done]. simpl. by intros [= <-].
Qed.

(** Swap and fee make up the whole gross amount. *)
Lemma swap_amounts gross f sw fee r1 r2 (denom : string) :
  DecCoin_TruncateDecimal (mkDecCoin denom (gross - f)) = Ok (sw, r1) ->
  DecCoin_TruncateDecimal (mkDecCoin denom (f + DAmount r1)) = Ok (fee, r2) ->
  Denom sw = denom /\ Denom fee = denom /\ Amount sw = (gross - f) / P18 /\ 0 <= Amount fee /\
  Amount sw + Amount fee = gross / P18.
Proof using Type*.
  intros (Ed & _ & Hn & _ & E1 & E2)%TruncateDecimal_Ok (Ed' & _ & Hn' & _ & E3 & _)%TruncateDecimal_Ok.
  simpl in *. split_and!; try done. rewrite E3, E2. unfold NewDec.
  replace (f + (gross - f - Amount sw * P18)) with (gross + (- Amount sw) * P18) by lia.
  rewrite Z.div_add by done. lia.
Qed.

(** The bank's part: offer in and burned, swap and fee minted and sent. *)
Lemma swap_bank_moves (b b1 b2 b3 b4 b5 : B) trader receiver offer sw fee mint :
  coins_ok [offer] -> coins_ok [mint] -> coins_ok [sw] -> Denom sw = Denom mint ->
  Denom fee = Denom mint -> Amount mint = Amount sw + Amount fee ->
  SendCoinsFromAccountToModule trader ModuleName [offer] b = Ret tt b1 ->
  BurnCoins ModuleName [offer] b1 = Ret tt b2 ->
  MintCoins ModuleName [mint] b2 = Ret tt b3 ->
  SendCoinsFromModuleToAccount ModuleName receiver [sw] b3 = Ret tt b4 ->
  (Amount fee = 0 /\ b5 = b4 \/
   coins_ok [fee] /\ SendCoinsFromModuleToModule ModuleName OracleModuleName [fee] b4 = Ret tt b5) ->
  (forall a d, bal b5 a d = bal b a d
    - ind (a = trader /\ Denom offer = d) (Amount offer)
    + ind (a = receiver /\ Denom mint = d) (Amount sw)
    + ind (a = GetModuleAddress OracleModuleName /\ Denom mint = d) (Amount fee)) /\
  (forall d, supply b5 d = supply b d - ind (Denom offer = d) (Amount offer)
    + ind (Denom mint = d) (Amount mint)).
Proof using Type*.
  intros Ho Hm Hs Es Ef Et [B1 S1]%send_a2m [B2 S2]%burn_spec [B3 S3]%mint_spec [B4 S4]%send_m2a Hfee;
    try done.
  assert ((forall a d, bal b5 a d = bal b4 a d - ind (a = GetModuleAddress ModuleName) (amt [fee] d)
      + ind (a = GetModuleAddress OracleModuleName) (amt [fee] d)) /\
    (forall d, supply b5 d = supply b4 d)) as [B5 S5].
  { destruct Hfee as [[E0 ->]|[Hf [B5 S5]%send_m2m]]; [|done|done]. split; [|done].
    intros a d. rewrite amt_one, E0. unfold ind. repeat destruct (decide _); lia. }
  split.
  - intros a d. rewrite B5, B4, B3, B2, B1. rewrite !amt_one, Es, Ef, Et. rewrite <- !ind_and.
    unfold ind. repeat destruct (decide _); lia.
  - intros d. rewrite S5, S4, S3, S2, S1. by rewrite !amt_one.
Qed.

(** The fee goes to the oracle's account, unless there is none. *)
Lemma pay_fee_run fee (k : Keeper) (o : O) b4 ev (s6 : St) : 0 <= Amount fee ->
  (if 0 <? Amount fee then
     let* feeCoins := lift (NewCoins [fee]) in
     on_bank (SendCoinsFromModuleToModule ModuleName OracleModuleName feeCoins)
   else ret tt) (mkState k o b4 ev) = Ret tt s6 ->
  exists b5, s6 = mkState k o b5 ev /\ (Amount fee = 0 /\ b5 = b4 \/
    coins_ok [fee] /\ SendCoinsFromModuleToModule ModuleName OracleModuleName [fee] b4 = Ret tt b5).
Proof using Type*.
  intros Hfn R5. destruct (Z.ltb_spec 0 (Amount fee)) as [Hfp|].
  - apply bind_Ret in R5 as (fc & ? & [Hfc ->]%lift_Ret & (b5 & R5 & ->)%zoom_Ret).
    destruct (NewCoins_pos _ _ Hfp Hfc) as [-> Hfok]. exists b5. split; [done|]. by right.
  - injection R5 as <-. exists b4. split; [done|]. left. split; [lia|done].
Qed.

Lemma handleSwap_settles trader receiver offer ask (s s' : St) resp : 0 < Amount offer ->
  handleSwapRequest trader receiver offer ask s = Ret resp s' ->
  exists gross spread, ComputeSwap (oracle s) (keeper s) offer ask = Ok (gross, spread) /\
    settled s s' trader receiver offer ask (DAmount gross) spread resp.
Proof using Type*.
  intros Ha. unfold handleSwapRequest. intros R.
  apply bind_Ret in R as (? & ? & [= <- <-] & R).
  apply bind_Ret in R as ([gross spread] & ? & [Hcs ->]%lift_Ret & R).
  exists gross, spread. split; [done|]. pose proof (ComputeSwap_Ok _ _ _ _ _ _ Ha Hcs)
    as (_ & Hval & base & _ & _ & _ & <- & Hgp & _).
  apply bind_Ret in R as (f & ? & [->%fee_coin_Ok ->]%lift_Ret & R). cbn [DDenom DAmount] in R.
  rewrite Dec_Sub_spec in R. apply bind_Ret in R as (net & ? & [Hnet ->]%lift_Ret & R). sdk_inv.
  set (fee0 := fee_of spread (DAmount gross)) in *.
  apply bind_Ret in R as ([] & s1 & (k & Hk & ->)%on_keeper_Ret & R).
  apply bind_Ret in R as (oc & ? & [Hoc ->]%lift_Ret & R).
  destruct (NewCoins_pos _ _ Ha Hoc) as [-> Hok].
  apply bind_Ret in R as ([] & s2 & (b1 & R1 & ->)%zoom_Ret & R).
  apply bind_Ret in R as ([] & s3 & (b2 & R2 & ->)%zoom_Ret & R). cbn [bank] in R1, R2.
  apply bind_Ret in R as ([sw dc] & ? & [Hsw ->]%lift_Ret & R).
  destruct (Z.ltb_spec 0 (Amount sw)) as [Hswp|]; [|done]. cbn [negb] in R.
  rewrite DecCoin_Add_spec in R. apply bind_Ret in R as (f' & ? & [Hf' ->]%lift_Ret & R).
  cbn [DDenom DAmount] in Hf'. destruct (decide _) as [Ed|]; [|done].
  rewrite Dec_Add_spec in Hf'. apply rbind_Ok in Hf' as (fa & Hfa & [= <-]). sdk_inv.
  apply bind_Ret in R as ([fee dc'] & ? & [Hfee ->]%lift_Ret & R). cbn [fst] in R.
  destruct (swap_amounts _ _ _ _ _ _ _ Hsw Hfee) as (Esd & Efd & Esa & Hfn & Etot).
  rewrite Coin_Add_spec, Esd, Efd in R. apply bind_Ret in R as (mint & ? & [Hmint ->]%lift_Ret & R).
  rewrite decide_True in Hmint by done. rewrite Int_Add_spec in Hmint.
  apply rbind_Ok in Hmint as (ma & Hma & [= <-]). sdk_inv.
  apply bind_Ret in R as (mc & ? & [Hmc ->]%lift_Ret & R).
  apply NewCoins_pos in Hmc as [-> Hmok]; [|simpl; lia].
  apply bind_Ret in R as ([] & s4 & (b3 & R3 & ->)%zoom_Ret & R).
  apply bind_Ret in R as (sc & ? & [Hsc ->]%lift_Ret & R).
  destruct (NewCoins_pos _ _ Hswp Hsc) as [-> Hsok].
  apply bind_Ret in R as ([] & s5 & (b4 & R4 & ->)%zoom_Ret & R). cbn [bank] in R3, R4.
  apply bind_Ret in R as ([] & s6 & R5 & R). apply bind_Ret in R as ([] & s7 & [= <-] & [= <- <-]).
  apply pay_fee_run in R5 as (b5 & -> & Hb5); [|done].
  destruct (swap_bank_moves (bank s) b1 b2 b3 b4 b5 trader receiver offer sw fee
    (mkCoin (DDenom gross) (Amount sw + Amount fee))) as [Hbal Hsup]; try done.
  split; cbn [SwapCoin SwapFee bank keeper oracle]; try done.
  simpl in Hsup. by rewrite Etot in Hsup.
Qed.

(** ** Properties *)

(** C3. A swap settles exactly. When a [MsgSwap] or a [MsgSwapSend] succeeds, the
    trader loses the offer, the receiver gains the swapped coins and the oracle
    account the fee; nobody else's balance changes. The offer is burned and the
    swap and fee are minted, together exactly the truncated oracle-price value of
    the offer, so rounding neither creates nor loses a coin. (A comment and the
    specs say that the fee is burned; the code mints it for the oracle account;
    see the findings.) *)
Theorem swap_settles (s s' : St) resp :
  (forall msg, 0 < Amount (OfferCoin msg) -> Swap msg s = Ret resp s' ->
   exists trader gross spread, AccAddressFromBech32 (Trader msg) = Ok trader /\
     ComputeSwap (oracle s) (keeper s) (OfferCoin msg) (AskDenom msg) = Ok (gross, spread) /\
     settled s s' trader trader (OfferCoin msg) (AskDenom msg) (DAmount gross) spread resp) /\
  (forall msg, 0 < Amount (SOfferCoin msg) -> SwapSend msg s = Ret resp s' ->
   exists from to gross spread, AccAddressFromBech32 (FromAddress msg) = Ok from /\
     AccAddressFromBech32 (ToAddress msg) = Ok to /\
     ComputeSwap (oracle s) (keeper s) (SOfferCoin msg) (SAskDenom msg) = Ok (gross, spread) /\
     settled s s' from to (SOfferCoin msg) (SAskDenom msg) (DAmount gross) spread resp).
Proof using Type*.
  split; intros msg Ha.
  - intros (a & ? & [Ea ->]%lift_Ret & R)%bind_Ret.
    destruct (handleSwap_settles _ _ _ _ _ _ _ Ha R) as (g & sp & ? & ?). by exists a, g, sp.
  - intros (a & ? & [Ea ->]%lift_Ret & R)%bind_Ret.
    apply bind_Ret in R as (b & ? & [Eb ->]%lift_Ret & R).
    destruct (handleSwap_settles _ _ _ _ _ _ _ Ha R) as (g & sp & ? & ?). by exists a, b, g, sp.
Qed.

(** C31. The swap query tells the truth: the coin that the simulation of a swap
    reports is the coin the trader receives when the same swap is executed. *)
Theorem simulate_agrees trader receiver offer ask (s s' : St) resp :
  0 < Amount offer -> BitLen (Amount offer) <= 100 ->
  handleSwapRequest trader receiver offer ask s = Ret resp s' ->
  simulateSwap (oracle s) (keeper s) offer ask = Ok (SwapCoin resp).
Proof using Type*.
  intros Ha Hb R. pose proof R as R0. unfold handleSwapRequest in R0.
  apply bind_Ret in R0 as (? & ? & [= <- <-] & R0).
  apply bind_Ret in R0 as ([gross spread] & ? & [Hcs ->]%lift_Ret & R0).
  apply bind_Ret in R0 as (f & ? & [Hf ->]%lift_Ret & R0). pose proof Hf as Hf'.
  apply fee_coin_Ok in Hf' as ->. cbn [DDenom DAmount] in R0.
  apply bind_Ret in R0 as (net & ? & [Hnet ->]%lift_Ret & R0). pose proof Hnet as Hnet'.
  rewrite Dec_Sub_spec in Hnet'. apply dec_chk_Ok in Hnet' as [_ ->].
  apply bind_Ret in R0 as ([] & s1 & _ & R0). apply bind_Ret in R0 as (oc & s2 & _ & R0).
  apply bind_Ret in R0 as ([] & s3 & _ & R0). apply bind_Ret in R0 as ([] & s4 & _ & R0).
  apply bind_Ret in R0 as ([sw dc] & ? & [Hsw ->]%lift_Ret & R0).
  destruct (Z.ltb_spec 0 (Amount sw)) as [Hswp|]; [|done]. cbn [negb] in R0.
  assert (SwapCoin resp = sw) as ->.
  { by go_inv. }
  destruct (ComputeSwap_Ok _ _ _ _ _ _ Ha Hcs) as (Hne & _).
  unfold simulateSwap. destruct (String.eqb_spec ask (Denom offer)) as [E|_]; [by destruct Hne|].
  destruct (Z.ltb_spec 100 (BitLen (Amount offer))); [lia|]. rewrite Hcs. cbn [rbind].
  apply TruncateDecimal_Ok in Hsw as Ht. simpl in Ht. destruct Ht as (_ & _ & _ & _ & Hq & _).
  assert (0 <= DAmount gross - fee_of spread (DAmount gross)) as Hpos.
  { assert (0 < P18) by done. destruct (Z.le_gt_cases 0 (DAmount gross - fee_of spread (DAmount gross))); [done|].
    assert ((DAmount gross - fee_of spread (DAmount gross)) / P18 < 0); [|lia].
    by apply Z.div_lt_upper_bound; lia. }
  assert (forall c, c = mkDecCoin (DDenom gross) (DAmount gross - fee_of spread (DAmount gross)) ->
    (let! r := DecCoin_TruncateDecimal c in Ok (fst r)) = Ok sw) as Hfin.
  { intros c ->. by rewrite Hsw. }
  unfold fee_of in *. destruct (0 <? spread).
  - apply rbind_Ok in Hf as (a & Hm & Hn). rewrite Hm. cbn [rbind]. rewrite Dec_Mul_spec in Hm.
    apply dec_chk_Ok in Hm as [_ ->]. destruct (Z.ltb_spec 0 (dec_round (spread * DAmount gross))) as [Hp|Hz].
    + rewrite Hn. cbn [rbind]. rewrite DecCoin_Sub_spec. cbn [DDenom DAmount].
      rewrite decide_True by done. rewrite Hnet. cbn [rbind].
      destruct (Z.ltb_spec (DAmount gross - dec_round (spread * DAmount gross)) 0); [lia|]. by apply Hfin.
    + rewrite NewDecCoinFromDec_spec in Hn. destruct (ValidateDenom _); [|done].
      destruct (Z.leb_spec 0 (dec_round (spread * DAmount gross))) as [Hge|]; [|done].
      cbn [rbind]. apply Hfin. destruct gross as [gd ga]. simpl in *. f_equal. lia.
  - cbn [rbind]. apply Hfin. destruct gross as [gd ga]. simpl. f_equal. lia.
Qed.

(** Swaps move the pool the right way: a swap between Terra denoms leaves the
    pool delta alone, a swap into Luna raises it by the offer's value in the base
    denom, and a swap out of Luna lowers it by the value of the net amount. *)
Theorem pool_moves o k offer (askCoin : DecCoin) k' : 0 < Amount offer ->
  ApplySwapToPool o k offer askCoin = Ok k' ->
  KParams k' = KParams k /\
  (Denom offer <> MicroLunaDenom -> DDenom askCoin <> MicroLunaDenom -> k' = k) /\
  (Denom offer <> MicroLunaDenom -> DDenom askCoin = MicroLunaDenom -> exists base,
     ComputeInternalSwap o (mkDecCoin (Denom offer) (NewDec (Amount offer))) MicroSDRDenom = Ok base /\
     GetTerraPoolDelta k' = GetTerraPoolDelta k + DAmount base /\ 0 < DAmount base) /\
  (Denom offer = MicroLunaDenom -> DDenom askCoin <> MicroLunaDenom -> exists base,
     ComputeInternalSwap o askCoin MicroSDRDenom = Ok base /\
     GetTerraPoolDelta k' = GetTerraPoolDelta k - DAmount base /\
     (0 < DAmount askCoin -> 0 < DAmount base)).
Proof using Type*.
  intros Ha. unfold ApplySwapToPool.
  destruct (String.eqb_spec (Denom offer) MicroLunaDenom) as [El|Hl],
    (String.eqb_spec (DDenom askCoin) MicroLunaDenom) as [Eal|Hal]; cbn [negb andb]; intros R.
  - cbn [rbind] in R. injection R as <-. by split_and!.
  - cbn [rbind] in R. apply rbind_Ok in R as (d & (base & Hb & Hd)%rbind_Ok & [= <-]).
    rewrite Dec_Sub_spec in Hd. apply dec_chk_Ok in Hd as [_ ->]. split_and!; try done. intros _ _.
    exists base. split_and!; [done..|]. intros Hp. by apply (ComputeInternalSwap_pos _ _ _ _ Hb Hp).
  - apply rbind_Ok in R as (d & (oc & Ho & (base & Hb & Hd)%rbind_Ok)%rbind_Ok & R).
    cbn [rbind] in R. injection R as <-. rewrite Dec_Add_spec in Hd. apply dec_chk_Ok in Hd as [_ ->].
    rewrite NewDecCoinFromCoin_spec in Ho. destruct (_ && _); [|done]. injection Ho as <-.
    split_and!; try done. intros _ _. exists base. split_and!; [done..|].
    apply (ComputeInternalSwap_pos _ _ _ _ Hb). simpl. unfold NewDec, P18. lia.
  - injection R as <-. by split_and!.
Qed.
End Swap.
End MarketSwap.
