(* ===== verification/MarketOracle.v ===== *)
(** * The oracle behind the market

    The oracle's store implements the interface the market reads, and its
    invariant gives what the market assumes; a concrete market on top of it. *)

From S2P Require Import Prelude Sdk SdkRef Core OracleBallot OracleTypes OracleKeeper OracleTally OracleRef OracleVotes OracleTallyFacts OracleDeterminism OracleEndBlock OracleHandlers OracleGenesis OracleMachine Market MarketFacts MarketSwap.

Module MarketOracle.
Import OracleKeeper OracleMachine.

#[export] Instance oracle_reader : Market.OracleReader OracleKeeper.Store := {|
  Market.GetLunaExchangeRate := OracleKeeper.GetLunaExchangeRate;
  Market.GetTobinTax := OracleKeeper.GetTobinTax |}.

Lemma oracle_ok (s : OracleKeeper.Store) :
  map_Forall (fun _ t => 0 <= t <= OneDec) (OracleKeeper.TobinTaxes s) -> Market.OracleOk s.
Proof.
  intros Ht. split; simpl.
  - intros d. unfold OracleKeeper.GetLunaExchangeRate. destruct (String.eqb _ _); [done|].
    by destruct (_ !! d).
  - done.
  - intros d. unfold OracleKeeper.GetTobinTax. by destruct (_ !! d).
  - intros d t. unfold OracleKeeper.GetTobinTax. destruct (_ !! d) as [t'|] eqn:E; [|done].
    intros [= <-]. by apply (Ht d).
Qed.

Section Serves.
Context {B SS DS : Type}.
Context `{HM : SdkMath, HC : SdkCoins, HA : Bech32, HT : OracleTypes.TmHash, HP : OracleTypes.CoinParser,
  HB : BankKeeper B, HS : StakingKeeper SS, HD : DistrKeeper DS, HL : SlashKeeper B SS DS,
  HG : GoStrings, rt : GoRuntime}.
Context `{!SdkMathLaws, !SdkCoinsLaws, !Bech32Laws, !StakingLaws SS, !DistrLaws DS, !GoRuntimeLaws rt}.

(** The oracle keeps its promises to the market: in every state reachable
    from one that satisfies the oracle's invariant, reading rates and taxes never
    panics, Luna is worth one Luna and tobin taxes lie in [[0, 1]]. *)
Lemma oracle_serves_market (s s' : OracleKeeper.State B SS DS) :
  inv s -> rtc step s s' -> Market.OracleOk (OracleKeeper.store s').
Proof using Type*. intros Hi Hs. apply oracle_ok. by apply (steps_inv s s'). Qed.
End Serves.

(** ** A concrete market *)

Import OracleRef MarketFacts MarketSwap.

Lemma demo_after_inv : inv demo_after.
Proof.
  apply (step_inv (rt := runtime1) demo_state); [|apply demo_inv].
  apply (step_end distrName demo_ctx). apply demo_returns.
Qed.

(** The oracle after the demo block, one rich trader, an even pool. *)
Definition demo_oracle : OracleKeeper.Store := OracleKeeper.store demo_after.
Definition demo_keeper : Market.Keeper := Market.mkKeeper None Market.DefaultParams.
Definition market_state : Market.State OracleKeeper.Store RefBank :=
  Market.mkState demo_keeper demo_oracle
    (mkBank {[ valA := {[ MicroSDRDenom := 10 ^ 9; MicroLunaDenom := 10 ^ 9 ]} ]}
       {[ MicroLunaDenom := 10 ^ 16; MicroSDRDenom := 10 ^ 10 ]} ∅) [].

Definition sdr_offer : Coin := mkCoin MicroSDRDenom 1000000.
Definition demo_swap : DecCoin * Dec :=
  value (Market.ComputeSwap demo_oracle demo_keeper sdr_offer MicroLunaDenom) (mkDecCoin "" 0, 0).

Lemma demo_swap_run :
  Market.ComputeSwap demo_oracle demo_keeper sdr_offer MicroLunaDenom = Ok (demo_swap.1, demo_swap.2).
Proof. rewrite <- surjective_pairing. apply succeeded_value. by vm_compute. Qed.

Lemma demo_params_ok :
  0 <= Market.MinStabilitySpread (Market.KParams demo_keeper) <= OneDec /\
  0 <= Market.BasePool (Market.KParams demo_keeper) /\
  0 < Market.BasePool (Market.KParams demo_keeper) + Market.GetTerraPoolDelta demo_keeper /\
  0 < Amount sdr_offer.
Proof. vm_compute. split_and!; done. Qed.

Lemma ComputeSwap_spread_witness :
  0 <= demo_swap.2 <= OneDec /\ DDenom demo_swap.1 = MicroLunaDenom /\ 0 < DAmount demo_swap.1 /\
  exists value sp, curve_spread (Market.BasePool (Market.KParams demo_keeper))
    (Market.GetTerraPoolDelta demo_keeper) false value sp /\
    demo_swap.2 = Z.max (Market.MinStabilitySpread (Market.KParams demo_keeper)) sp.
Proof.
  pose proof (oracle_ok demo_oracle (inv_tobin _ demo_after_inv)) as Hok.
  destruct demo_params_ok as (H1 & H2 & H3 & H4).
  pose proof (ComputeSwap_spread demo_oracle demo_keeper sdr_offer MicroLunaDenom demo_swap.1 demo_swap.2
    H1 H2 H3 H4 demo_swap_run) as (E1 & E2 & E3 & _ & E4).
  refine (conj E1 (conj E2 (conj E3 _))).
  destruct (E4 (or_intror eq_refl)) as (value & sp & _ & Hc & Hs).
  exists (DAmount value), sp. exact (conj Hc Hs).
Defined.

(** One SDR for Luna. *)
Definition swap_run := Market.handleSwapRequest valA valB sdr_offer MicroLunaDenom market_state.
Definition swap_after : Market.State OracleKeeper.Store RefBank := final swap_run market_state.
Definition swap_resp : Market.MsgSwapResponse :=
  match swap_run with Ret r _ => r | _ => Market.mkSwapResponse sdr_offer sdr_offer end.

Lemma swap_returns : swap_run = Ret swap_resp swap_after.
Proof.
  assert (returned swap_run = true) as Hr by (by vm_compute).
  unfold swap_after, swap_resp. by destruct swap_run.
Qed.

Definition send_msg : Market.MsgSwapSend :=
  Market.mkMsgSwapSend (AccString valA) (AccString valB) sdr_offer MicroLunaDenom.

Lemma send_returns : Market.SwapSend send_msg market_state = Ret swap_resp swap_after.
Proof.
  assert (Market.SwapSend send_msg market_state = swap_run) as -> by reflexivity.
  apply swap_returns.
Qed.

Lemma swap_settles_witness : exists from to gross spread,
  AccAddressFromBech32 (AccString valA) = Ok from /\ AccAddressFromBech32 (AccString valB) = Ok to /\
  Market.ComputeSwap demo_oracle demo_keeper sdr_offer MicroLunaDenom = Ok (gross, spread) /\
  settled market_state swap_after from to sdr_offer MicroLunaDenom (DAmount gross) spread swap_resp.
Proof.
  exact (proj2 (swap_settles market_state swap_after swap_resp) send_msg eq_refl send_returns).
Defined.

Lemma simulate_agrees_witness :
  Market.simulateSwap demo_oracle demo_keeper sdr_offer MicroLunaDenom = Ok (Market.SwapCoin swap_resp).
Proof.
  apply (simulate_agrees valA valB sdr_offer MicroLunaDenom market_state swap_after swap_resp);
    [done|vm_compute; discriminate|apply swap_returns].
Defined.

Definition pool_after : Market.Keeper :=
  value (Market.ApplySwapToPool demo_oracle demo_keeper sdr_offer (mkDecCoin MicroLunaDenom (NewDec 5)))
    demo_keeper.

Lemma pool_moves_witness : Market.KParams pool_after = Market.DefaultParams.
Proof.
  apply (pool_moves demo_oracle demo_keeper sdr_offer (mkDecCoin MicroLunaDenom (NewDec 5)) pool_after);
    [done|]. apply succeeded_value. by vm_compute.
Defined.

(** The trader pays one SDR and the receiver gets about half a Luna. *)
Example swap_numbers :
  bal (Market.bank swap_after) valA MicroSDRDenom = 10 ^ 9 - 1000000 /\
  Market.SwapCoin swap_resp = mkCoin MicroLunaDenom 490000 /\
  Market.SwapFee swap_resp = mkCoin MicroLunaDenom 10000.
Proof. vm_compute. done. Qed.
End MarketOracle.
