(* ===== verification/TreasuryTypes.v ===== *)
(** * Treasury types: [x/treasury/types]

    Policy constraints and their clamp, parameters with their validation, store
    keys, and the burn-tax exemption proposals. *)

From S2P Require Import Prelude Sdk Core.

Module TreasuryTypes.

Definition ModuleName : string := "treasury".
Definition BurnModuleName : string := "burn".
Definition ErrNoSuchBurnTaxExemptionAddress := Registered ModuleName 1.
Definition ErrInvalidAddress := SdkError "invalid address".
Definition ErrUnknownRequest := SdkError "unknown request".

(** ** Store keys ([keys.go]) *)

Definition byte_key (n : nat) : string := String (Ascii.ascii_of_nat n) "".
Definition TaxRateKey : string := byte_key 1.
Definition RewardWeightKey : string := byte_key 2.
Definition TaxCapKey : string := byte_key 3.
Definition TaxProceedsKey : string := byte_key 4.
Definition EpochInitialIssuanceKey : string := byte_key 5.
Definition TRKey : string := byte_key 6.
Definition SRKey : string := byte_key 7.
Definition TSLKey : string := byte_key 8.
Definition BurnTaxExemptionListPrefix : string := byte_key 32.

(** [binary.LittleEndian.PutUint64] *)
Fixpoint put_le (n : nat) (z : Z) : string :=
  match n with
  | O => ""
  | S n' => String (Ascii.ascii_of_N (Z.to_N (z mod 256))) (put_le n' (z / 256))
  end.
Definition GetSubkeyByEpoch (prefix : string) (epoch : Z) : string :=
  prefix +:+ put_le 8 (uint64 epoch).
Definition GetTaxCapKey (denom : string) : string := TaxCapKey +:+ denom.
Definition GetTRKey (epoch : Z) : string := GetSubkeyByEpoch TRKey epoch.
Definition GetSRKey (epoch : Z) : string := GetSubkeyByEpoch SRKey epoch.
Definition GetTSLKey (epoch : Z) : string := GetSubkeyByEpoch TSLKey epoch.

(** ** Policy constraints ([constraint.go]) *)

Record PolicyConstraints := mkPolicy {
  RateMin : Dec; RateMax : Dec; Cap : Coin; ChangeRateMax : Dec }.

Definition Clamp `{SdkMath} (pc : PolicyConstraints) (prevRate newRate : Dec) : res Dec :=
  let! delta := Dec_Sub newRate prevRate in
  let! newRate :=
    if prevRate <? newRate then
      if ChangeRateMax pc <? delta then Dec_Add prevRate (ChangeRateMax pc) else Ok newRate
    else
      if ChangeRateMax pc <? Z.abs delta then Dec_Sub prevRate (ChangeRateMax pc)
      else Ok newRate in
  Ok (if newRate <? RateMin pc then RateMin pc
      else if RateMax pc <? newRate then RateMax pc
      else newRate).

(** ** Parameters ([params.go]) *)

Record Params := mkParams {
  TaxPolicy : PolicyConstraints;
  RewardPolicy : PolicyConstraints;
  SeigniorageBurdenTarget : Dec;
  MiningIncrement : Dec;
  WindowShort : Z;                (* uint64 *)
  WindowLong : Z;                 (* uint64 *)
  WindowProbation : Z;            (* uint64 *)
  BurnTaxSplit : Dec;
  MinInitialDepositRatio : Dec;
  OracleSplit : Dec }.

Definition DefaultTaxPolicy : PolicyConstraints := {|
  RateMin := NewDecWithPrec 5 4; RateMax := NewDecWithPrec 1 2;
  Cap := mkCoin MicroSDRDenom MicroUnit; ChangeRateMax := NewDecWithPrec 25 5 |}.
Definition DefaultRewardPolicy : PolicyConstraints := {|
  RateMin := NewDecWithPrec 5 2; RateMax := NewDecWithPrec 50 2;
  Cap := mkCoin "unused" 0; ChangeRateMax := NewDecWithPrec 25 3 |}.
Definition DefaultTaxRate : Dec := NewDecWithPrec 1 3.
Definition DefaultRewardWeight : Dec := NewDecWithPrec 5 2.
Definition DefaultBurnTaxSplit : Dec := NewDecWithPrec 1 1.
Definition DefaultMinInitialDepositRatio : Dec := ZeroDec.

Definition DefaultParams : Params := {|
  TaxPolicy := DefaultTaxPolicy;
  RewardPolicy := DefaultRewardPolicy;
  SeigniorageBurdenTarget := NewDecWithPrec 67 2;
  MiningIncrement := NewDecWithPrec 107 2;
  WindowShort := 4;
  WindowLong := 52;
  WindowProbation := 12;
  BurnTaxSplit := DefaultBurnTaxSplit;
  MinInitialDepositRatio := DefaultMinInitialDepositRatio;
  OracleSplit := OneDec |}.

Section Validation.
Context `{SdkCoins}.

(** [Coin.IsValid] *)
Definition Coin_IsValid (c : Coin) : bool := ValidateDenom (Denom c) && (0 <=? Amount c).

Definition Validate (p : Params) : res unit :=
  let tp := TaxPolicy p in
  let rp := RewardPolicy p in
  if RateMax tp <? RateMin tp then Err (Errorf "TaxPolicy.RateMax must be greater than RateMin")
  else if RateMin tp <? 0 then Err (Errorf "TaxPolicy.RateMin must be zero or positive")
  else if negb (Coin_IsValid (Cap tp)) then Err (Errorf "TaxPolicy.Cap is invalid")
  else if ChangeRateMax tp <? 0 then Err (Errorf "TaxPolicy.ChangeRateMax must be positive")
  else if RateMax rp <? RateMin rp
  then Err (Errorf "RewardPolicy.RateMax must be greater than RateMin")
  else if RateMin rp <? 0 then Err (Errorf "RewardPolicy.RateMin must be positive")
  else if ChangeRateMax rp <? 0 then Err (Errorf "RewardPolicy.ChangeRateMax must be positive")
  else if SeigniorageBurdenTarget p <? 0
  then Err (Errorf "SeigniorageBurdenTarget must be positive")
  else if MiningIncrement p <? 0 then Err (Errorf "MiningIncrement must be positive")
  else if WindowLong p <=? WindowShort p
  then Err (Errorf "WindowLong must be bigger than WindowShort")
  else if OracleSplit p <? 0 then Err (Errorf "OracleSplit must be positive")
  else if OneDec <? OracleSplit p then Err (Errorf "OracleSplit must be less than or equal to 1.0")
  else Ok tt.

Definition validateTaxPolicy (v : PolicyConstraints) : res unit :=
  if RateMin v <? 0 then Err (Errorf "rate min must be positive")
  else if RateMax v <? RateMin v then Err (Errorf "rate max must be bigger than rate min")
  else if negb (Coin_IsValid (Cap v)) then Err (Errorf "cap is invalid")
  else if ChangeRateMax v <? 0 then Err (Errorf "max change rate must be positive")
  else Ok tt.
Definition validateRewardPolicy (v : PolicyConstraints) : res unit :=
  if RateMin v <? 0 then Err (Errorf "rate min must be positive")
  else if RateMax v <? RateMin v then Err (Errorf "rate max must be bigger than rate min")
  else if ChangeRateMax v <? 0 then Err (Errorf "max change rate must be positive")
  else Ok tt.
Definition validateSeigniorageBurdenTarget (v : Dec) : res unit :=
  if v <? 0 then Err (Errorf "seigniorage burden target must be positive") else Ok tt.
Definition validateMiningIncrement (v : Dec) : res unit :=
  if v <? 0 then Err (Errorf "mining increment must be positive") else Ok tt.
Definition validateBurnTaxSplit (v : Dec) : res unit :=
  if v <? 0 then Err (Errorf "burn tax split must be positive") else Ok tt.
Definition validateMinInitialDepositRatio (v : Dec) : res unit :=
  if v <? 0 then Err (Errorf "min initial deposit ratio must be positive")
  else if OneDec <? v then Err (Errorf "min initial deposit ratio must less than or equal 1.0")
  else Ok tt.
Definition validateOraceSplit (v : Dec) : res unit :=
  if v <? 0 then Err (Errorf "oracle split must be positive")
  else if OneDec <? v then Err (Errorf "oracle split must be less than or equal to 1.0")
  else Ok tt.

(** [ParamSetPairs] with their validators, as [Subspace.SetParamSet] runs
    them; the three window validators only check the type. *)
Definition validate_param_set (p : Params) : res unit :=
  let! _ := validateTaxPolicy (TaxPolicy p) in
  let! _ := validateRewardPolicy (RewardPolicy p) in
  let! _ := validateSeigniorageBurdenTarget (SeigniorageBurdenTarget p) in
  let! _ := validateMiningIncrement (MiningIncrement p) in
  let! _ := validateBurnTaxSplit (BurnTaxSplit p) in
  let! _ := validateMinInitialDepositRatio (MinInitialDepositRatio p) in
  validateOraceSplit (OracleSplit p).
End Validation.

(** ** Proposals ([gov.go]) *)

Record ExemptionProposal := mkProposal {
  Title : string; PDescription : string; Addresses : list string }.
Inductive Content :=
  | AddBurnTaxExemptionAddressProposal (p : ExemptionProposal)
  | RemoveBurnTaxExemptionAddressProposal (p : ExemptionProposal)
  | OtherContent.

(** [govv1beta1.ValidateAbstract] *)
Class GovAbstract := ValidateAbstract : string -> string -> res unit.

(** The two proposals share their checks. *)
Definition Proposal_ValidateBasic `{Bech32, GovAbstract} (p : ExemptionProposal) : res unit :=
  let! _ := ValidateAbstract (Title p) (PDescription p) in
  rfold (fun _ address =>
    match AccAddressFromBech32 address with
    | Ok _ => Ok tt
    | Err _ => Err ErrInvalidAddress
    | Panic => Panic
    end) tt (Addresses p).
End TreasuryTypes.
