(* ===== verification/Treasury.v ===== *)
(** * The treasury keeper: [x/treasury/keeper], [x/treasury/abci.go], [x/treasury/genesis.go]

    The store, the economic indicators, the policy updates, seigniorage, the
    burn account, the exemption proposals, genesis, queries and migrations. *)

From S2P Require Import Prelude Sdk Core TreasuryTypes.

Module Treasury.
Import TreasuryTypes.

(** ** Expected keepers *)

(** What the treasury asks of the market and the oracle. *)
Class MarketView (E : Type) := {
  ComputeInternalSwap : E -> DecCoin -> string -> res DecCoin;
  Whitelist : E -> list string;    (* the names of the whitelisted denoms *)
}.

(** ** State *)

Record Store := mkStore {
  TaxRate : option Dec;
  RewardWeight : option Dec;
  TaxCaps : gmap string Int;
  TaxProceeds : option Coins;
  EpochInitialIssuance : option Coins;
  TRs : gmap Z Dec;                (* by epoch *)
  SRs : gmap Z Dec;
  TSLs : gmap Z Int;
  Exemptions : gset string;
  KParams : Params }.

Definition set_rate v s := mkStore (Some v) (RewardWeight s) (TaxCaps s) (TaxProceeds s)
  (EpochInitialIssuance s) (TRs s) (SRs s) (TSLs s) (Exemptions s) (KParams s).
Definition set_weight v s := mkStore (TaxRate s) (Some v) (TaxCaps s) (TaxProceeds s)
  (EpochInitialIssuance s) (TRs s) (SRs s) (TSLs s) (Exemptions s) (KParams s).
Definition set_caps v s := mkStore (TaxRate s) (RewardWeight s) v (TaxProceeds s)
  (EpochInitialIssuance s) (TRs s) (SRs s) (TSLs s) (Exemptions s) (KParams s).
Definition set_proceeds v s := mkStore (TaxRate s) (RewardWeight s) (TaxCaps s) (Some v)
  (EpochInitialIssuance s) (TRs s) (SRs s) (TSLs s) (Exemptions s) (KParams s).
Definition set_issuance v s := mkStore (TaxRate s) (RewardWeight s) (TaxCaps s) (TaxProceeds s)
  (Some v) (TRs s) (SRs s) (TSLs s) (Exemptions s) (KParams s).
Definition set_trs v s := mkStore (TaxRate s) (RewardWeight s) (TaxCaps s) (TaxProceeds s)
  (EpochInitialIssuance s) v (SRs s) (TSLs s) (Exemptions s) (KParams s).
Definition set_srs v s := mkStore (TaxRate s) (RewardWeight s) (TaxCaps s) (TaxProceeds s)
  (EpochInitialIssuance s) (TRs s) v (TSLs s) (Exemptions s) (KParams s).
Definition set_tsls v s := mkStore (TaxRate s) (RewardWeight s) (TaxCaps s) (TaxProceeds s)
  (EpochInitialIssuance s) (TRs s) (SRs s) v (Exemptions s) (KParams s).
Definition set_exemptions v s := mkStore (TaxRate s) (RewardWeight s) (TaxCaps s) (TaxProceeds s)
  (EpochInitialIssuance s) (TRs s) (SRs s) (TSLs s) v (KParams s).
Definition set_params v s := mkStore (TaxRate s) (RewardWeight s) (TaxCaps s) (TaxProceeds s)
  (EpochInitialIssuance s) (TRs s) (SRs s) (TSLs s) (Exemptions s) v.

Inductive Event :=
  | EventPolicyUpdate (taxRate rewardWeight : Dec) (taxCap : Coins).

Record State (E B SS DS : Type) := mkState {
  store : Store; env : E; bank : B; staking : SS; distr : DS; events : list Event }.
Arguments mkState {E B SS DS} _ _ _ _ _ _.
Arguments store {E B SS DS} _.
Arguments env {E B SS DS} _.
Arguments bank {E B SS DS} _.
Arguments staking {E B SS DS} _.
Arguments distr {E B SS DS} _.
Arguments events {E B SS DS} _.

(** ** Accessors ([keeper.go]) *)

Definition GetTaxRate (s : Store) : Dec := default DefaultTaxRate (TaxRate s).
Definition SetTaxRate (v : Dec) (s : Store) : Store := set_rate v s.
Definition GetRewardWeight (s : Store) : Dec := default DefaultRewardWeight (RewardWeight s).
Definition SetRewardWeight (v : Dec) (s : Store) : Store := set_weight v s.
Definition SetTaxCap (denom : string) (cap : Int) (s : Store) : Store :=
  set_caps (<[denom := cap]> (TaxCaps s)) s.
Definition GetTaxCap (s : Store) (denom : string) : Int :=
  default (Amount (Cap (TaxPolicy (KParams s)))) (TaxCaps s !! denom).
Definition IterateTaxCap (s : Store) : list (string * Int) := kv_iter GetTaxCapKey (TaxCaps s).
Definition SetEpochTaxProceeds (c : Coins) (s : Store) : Store := set_proceeds c s.
Definition PeekEpochTaxProceeds (s : Store) : Coins := default [] (TaxProceeds s).
Definition SetEpochInitialIssuance (c : Coins) (s : Store) : Store := set_issuance c s.
Definition GetEpochInitialIssuance (s : Store) : Coins := default [] (EpochInitialIssuance s).
Definition GetTR (s : Store) (epoch : Z) : Dec := default ZeroDec (TRs s !! epoch).
Definition SetTR (epoch : Z) (tr : Dec) (s : Store) : Store := set_trs (<[epoch := tr]> (TRs s)) s.
Definition ClearTRs (s : Store) : Store :=
  foldl (fun s p => set_trs (delete p.1 (TRs s)) s) s (map_to_list (TRs s)).
Definition GetSR (s : Store) (epoch : Z) : Dec := default ZeroDec (SRs s !! epoch).
Definition SetSR (epoch : Z) (sr : Dec) (s : Store) : Store := set_srs (<[epoch := sr]> (SRs s)) s.
Definition ClearSRs (s : Store) : Store :=
  foldl (fun s p => set_srs (delete p.1 (SRs s)) s) s (map_to_list (SRs s)).
Definition GetTSL (s : Store) (epoch : Z) : Int := default 0 (TSLs s !! epoch).
Definition SetTSL (epoch : Z) (v : Int) (s : Store) : Store := set_tsls (<[epoch := v]> (TSLs s)) s.
Definition ClearTSLs (s : Store) : Store :=
  foldl (fun s p => set_tsls (delete p.1 (TSLs s)) s) s (map_to_list (TSLs s)).

Definition RecordEpochTaxProceeds `{SdkCoins} (delta : Coins) (s : Store) : res Store :=
  if Coins_IsZero delta then Ok s
  else
    let! proceeds := Coins_Add (PeekEpochTaxProceeds s) delta in
    Ok (SetEpochTaxProceeds proceeds s).

(** A malformed address panics; removing an absent one is an error. *)
Definition AddBurnTaxExemptionAddress `{Bech32} (address : string) (s : Store) : res Store :=
  match AccAddressFromBech32 address with
  | Ok _ => Ok (set_exemptions ({[address]} ∪ Exemptions s) s)
  | _ => Panic
  end.
Definition RemoveBurnTaxExemptionAddress `{Bech32} (address : string) (s : Store) : res Store :=
  match AccAddressFromBech32 address with
  | Ok _ =>
      if bool_decide (address ∈ Exemptions s)
      then Ok (set_exemptions (Exemptions s ∖ {[address]}) s)
      else Err ErrNoSuchBurnTaxExemptionAddress
  | _ => Panic
  end.

(** [gov.go], [proposal_handler.go] *)
Definition HandleAddBurnTaxExemptionAddressProposal `{Bech32} (p : ExemptionProposal) (s : Store)
    : res Store :=
  rfold (fun s a => AddBurnTaxExemptionAddress a s) s (Addresses p).
Definition HandleRemoveBurnTaxExemptionAddressProposal `{Bech32} (p : ExemptionProposal)
    (s : Store) : res Store :=
  rfold (fun s a => RemoveBurnTaxExemptionAddress a s) s (Addresses p).
Definition NewProposalHandler `{Bech32} (content : Content) (s : Store) : res Store :=
  match content with
  | AddBurnTaxExemptionAddressProposal c => HandleAddBurnTaxExemptionAddressProposal c s
  | RemoveBurnTaxExemptionAddressProposal c => HandleRemoveBurnTaxExemptionAddressProposal c s
  | OtherContent => Err ErrUnknownRequest
  end.

(** [params.go]: [Subspace.Set] does not validate, [SetParamSet] does. *)
Definition SetBurnSplitRate (v : Dec) (s : Store) : Store :=
  let p := KParams s in
  set_params (mkParams (TaxPolicy p) (RewardPolicy p) (SeigniorageBurdenTarget p)
    (MiningIncrement p) (WindowShort p) (WindowLong p) (WindowProbation p) v
    (MinInitialDepositRatio p) (OracleSplit p)) s.
Definition SetMinInitialDepositRatio (v : Dec) (s : Store) : Store :=
  let p := KParams s in
  set_params (mkParams (TaxPolicy p) (RewardPolicy p) (SeigniorageBurdenTarget p)
    (MiningIncrement p) (WindowShort p) (WindowLong p) (WindowProbation p) (BurnTaxSplit p)
    v (OracleSplit p)) s.
Definition SetOracleSplitRate (v : Dec) (s : Store) : Store :=
  let p := KParams s in
  set_params (mkParams (TaxPolicy p) (RewardPolicy p) (SeigniorageBurdenTarget p)
    (MiningIncrement p) (WindowShort p) (WindowLong p) (WindowProbation p) (BurnTaxSplit p)
    (MinInitialDepositRatio p) v) s.
Definition SetParams `{SdkCoins} (p : Params) (s : Store) : res Store :=
  match validate_param_set p with Ok _ => Ok (set_params p s) | _ => Panic end.

(** ** Migrations ([migrations.go]) *)

Definition burnTaxExcemptionAddressList : list string :=
  ["terra10atxpzafqfjy58z0dvugmd9zf63fycr6uvwhjm";
   "terra1jrq7xa63a4qgpdgtj70k8yz5p32ps9r7mlj3yr";
   "terra15s66unmdcpknuxxldd7fsr44skme966tdckq8c";
   "terra1u0p7xuwlg0zsqgntagdkyjyumsegd8agzhug99";
   "terra1fax8l6srhew5tu2mavmu83js3v7vsqf9yr4fv7";
   "terra132wegs0kf9q65t9gsm3g2y06l98l2k4treepkq";
   "terra1l89hprfccqxgzzypjzy3fnp7vqpnkqg5vvqgjc";
   "terra1ns7lfvrxzter4d2yl9tschdwntcxa25vtsvd8a";
   "terra1vuvju6la7pj6t8d8zsx4g8ea85k2cg5u62cdhl";
   "terra1lzdux37s4anmakvg7pahzh03zlf43uveq83wh2";
   "terra1ky3qcf7v45n6hwfmkm05acwczvlq8ahnq778wf";
   "terra17m8tkde0mav43ckeehp537rsz4usqx5jayhf08";
   "terra1urj8va62jeygra7y3a03xeex49mjddh3eul0qa";
   "terra10wyptw59xc52l86pg86sy0xcm3nm5wg6a3cf7l";
   "terra1sujaqwaw7ls9fh6a4x7n06nv7fxx5xexwlnrkf";
   "terra1qg59nhvag222kp6fyzxt83l4sw02huymqnklww";
   "terra1dxxnwxlpjjkl959v5xrghx0dtvut60eef6vcch";
   "terra1y246m036et7vu69nsg4kapelj0tywe8vsmp34d";
   "terra1j39c9sjr0zpjnrfjtthuua0euecv7txavxvq36";
   "terra1t0jthtq9zhm4ldtvs9epp02zp23f355wu6zrzq";
   "terra12dxclvqrgt7w3s7gtwpdkxgymexv8stgqcr0yu";
   "terra1az3dsad74pwhylrrexnn5qylzj783uyww2s7xz";
   "terra1ttq26dq4egr5exmhd6gezerrxhlutx9u90uncn";
   "terra13e9670yuvfs06hctt9pmgjnz0yw28p0wgnhrqn";
   "terra1skmktm537pfaycgu9jx4fqryjt6pf77ycpesw0";
   "terra14q8cazgt58y2xkd26mlukemwth0cnvfqmgz2qk";
   "terra163vzxz9wwy320ccwy73qe6h33yzg2yhyvv5nsf";
   "terra1kj43wfnvrgc2ep94dgmwvnzv8vnkkxrxmrnhkp";
   "terra1gu6re549pn0mdpshtv75t3xugn347jghlhul73";
   "terra1gft3qujlq04yza3s2r238mql2yn3xxqepzt2up";
   "terra174pe7qe7g867spzdfs5f4rf9fuwmm42zf4hykf";
   "terra1ju68sg6k39t385sa0fazqvjgh6m6gkmsmp4lln";
   "terra1dlh7k4hcnsrvlfuzhdzx3ctynj7s8dde9zmdyd";
   "terra18wcdhpzpteharlkks5n6k7ent0mjyftvcpm6ee";
   "terra1xmkwsauuk3kafua9k23hrkfr76gxmwdfq5c09d";
   "terra1t957gces65xd6p8g4cuqnyd0sy5tzku59njydd";
   "terra1s4rd0y5e4gasf0krdm2w8sjhsmh030m74f2x9v";
   "terra15jya6ugxp65y80y5h82k4gv90pd7acv58xp6jj";
   "terra14yqy9warjkxyecda5kf5a68qlknf4ve4sh7sa6";
   "terra1yxras4z0fs9ugsg2hew9334k65uzejwcslyx0y";
   "terra1p0vl4s4gp46vy6dm352s2fgtw6hccypph7zc3u";
   "terra1hhj92twle9x8rjkr3yffujexsy5ldexak5rglz";
   "terra18vnrzlzm2c4xfsx382pj2xndqtt00rvhu24sqe";
   "terra1ncjg4a59x2pgvqy9qjyqprlj8lrwshm0wleht5";
   "terra19l7hzwazq5j0dykfldcwrk2927xwcjd0kt0vt9";
   "terra1frh79vmtur5fmrghz6gfjvfhpa3u2c0uemv4af"].

Definition Migrate1to2 `{Bech32} (s : Store) : res Store :=
  rfold (fun s a => AddBurnTaxExemptionAddress a s) (SetBurnSplitRate DefaultBurnTaxSplit s)
    burnTaxExcemptionAddressList.
Definition Migrate2to3 (s : Store) : Store :=
  SetMinInitialDepositRatio DefaultMinInitialDepositRatio s.

(** ** Indicators ([indicator.go]) *)

Section Indicators.
Context `{SdkMath}.

Definition GetEpoch (ctx : Ctx) : Z := Z.quot (BlockHeight ctx) (int64 BlocksPerWeek).

Definition TRL (s : Store) (epoch : Z) : res Dec :=
  let tr := GetTR s epoch in
  let tsl := GetTSL s epoch in
  if (tr =? 0) || (tsl =? 0) then Ok ZeroDec else Dec_QuoInt tr tsl.
Definition SR (s : Store) (epoch : Z) : res Dec := Ok (GetSR s epoch).
Definition MR (s : Store) (epoch : Z) : res Dec := Dec_Add (GetTR s epoch) (GetSR s epoch).

(** [for i = curEpoch; i >= 0 && i > bound; i--]: the final [sum] and [i].
    [i] starts at the current epoch, so [curEpoch + 1] rounds are enough. *)
Fixpoint indicator_loop (fuel : nat) (indicator : Z -> res Dec) (bound i : Z) (sum : Dec)
    : res (Dec * Z) :=
  if (0 <=? i) && (bound <? i) then
    match fuel with
    | O => Panic
    | S f =>
        let! val := indicator i in
        let! sum := Dec_Add sum val in
        indicator_loop f indicator bound (i - 1) sum
    end
  else Ok (sum, i).

Definition run_indicator (ctx : Ctx) (epochs : Z) (indicator : Z -> res Dec) : res (Dec * Z) :=
  let curEpoch := GetEpoch ctx in
  indicator_loop (Z.to_nat (curEpoch + 1)) indicator (int64 (curEpoch - epochs)) curEpoch ZeroDec.

Definition sumIndicator (ctx : Ctx) (epochs : Z) (indicator : Z -> res Dec) : res Dec :=
  let! r := run_indicator ctx epochs indicator in Ok (fst r).

Definition rollingAverageIndicator (ctx : Ctx) (epochs : Z) (indicator : Z -> res Dec)
    : res Dec :=
  let! r := run_indicator ctx epochs indicator in
  let '(sum, i) := r in
  let computedEpochs := int64 (GetEpoch ctx - i) in
  if computedEpochs =? 0 then Ok sum else Dec_QuoInt64 sum computedEpochs.
End Indicators.

(** ** Genesis data ([genesis.pb.go], [types/genesis.go]) *)

Record EpochState := mkEpochState {
  Epoch : Z; TaxReward : Dec; SeigniorageReward : Dec; TotalStakedLuna : Int }.
Record GenesisState := mkGenesis {
  GParams : Params; GTaxRate : Dec; GRewardWeight : Dec;
  GTaxCaps : list (string * Int); GTaxProceeds : Coins;
  GEpochInitialIssuance : Coins; GEpochStates : list EpochState }.

Section Keeper.
Context {E B SS DS : Type}.
Context `{SdkMath, SdkCoins, MarketView E, BankKeeper B, StakingKeeper SS, DistrKeeper DS}.
Abbreviation TM := (M (State E B SS DS)).
Abbreviation St := (State E B SS DS).

Definition on_store (f : Store -> Store) : TM unit := modify (fun s =>
  mkState (f (store s)) (env s) (bank s) (staking s) (distr s) (events s)).
Definition on_bank {A} (c : M B A) : TM A := zoom bank
  (fun b s => mkState (store s) (env s) b (staking s) (distr s) (events s)) c.
Definition on_distr {A} (c : M DS A) : TM A := zoom distr
  (fun d s => mkState (store s) (env s) (bank s) (staking s) d (events s)) c.
Definition emit (e : Event) : TM unit := modify (fun s =>
  mkState (store s) (env s) (bank s) (staking s) (distr s) (events s ++ [e])).

Definition RecordEpochInitialIssuance : TM unit :=
  let* s := gets id in
  let totalSupply := GetSupply (bank s) MicroLunaDenom ::
    ((fun denom => GetSupply (bank s) denom) <$> Whitelist (env s)) in
  on_store (SetEpochInitialIssuance (Coins_Sort totalSupply)).

Definition PeekEpochSeigniorage (s : St) : res Int :=
  let epochIssuance := Amount (GetSupply (bank s) MicroLunaDenom) in
  let preEpochIssuance := Coins_AmountOf (GetEpochInitialIssuance (store s)) MicroLunaDenom in
  let! epochSeigniorage := Int_Sub preEpochIssuance epochIssuance in
  Ok (if epochSeigniorage <? 0 then 0 else epochSeigniorage).

(** A coin the market cannot price is left out. *)
Definition alignCoins (e : E) (coins : DecCoins) (denom : string) : res Dec :=
  rfold (fun alignedAmt coinReward =>
    if negb (String.eqb (DDenom coinReward) denom) then
      match ComputeInternalSwap e coinReward denom with
      | Ok swappedReward => Dec_Add alignedAmt (DAmount swappedReward)
      | Err _ => Ok alignedAmt
      | Panic => Panic
      end
    else Dec_Add alignedAmt (DAmount coinReward)) ZeroDec coins.

Definition UpdateIndicators (ctx : Ctx) : TM unit :=
  let epoch := GetEpoch ctx in
  let* s := gets id in
  do* on_store (SetTSL epoch (TotalBondedTokens (staking s))) in
  let* taxRewards := lift (NewDecCoinsFromCoins (PeekEpochTaxProceeds (store s))) in
  let* tr := lift (alignCoins (env s) taxRewards MicroSDRDenom) in
  do* on_store (SetTR epoch tr) in
  do* on_store (SetEpochTaxProceeds []) in
  let* seigniorage := lift (PeekEpochSeigniorage s) in
  let* seigniorageRewardsAmt := lift (Dec_MulInt (GetRewardWeight (store s)) seigniorage) in
  let* c := lift (NewDecCoinFromDec MicroLunaDenom seigniorageRewardsAmt) in
  let* sr := lift (alignCoins (env s) [c] MicroSDRDenom) in
  on_store (SetSR epoch sr).

(** ** Policies ([policy.go]) *)

Definition update_cap (taxPolicyCap : DecCoin) (newCaps : Coins) (denom : string) : TM Coins :=
  if String.eqb denom (DDenom taxPolicyCap) then ret newCaps
  else
    let* s := gets id in
    match ComputeInternalSwap (env s) taxPolicyCap denom with
    | Ok newDecCap =>
        let* r := lift (DecCoin_TruncateDecimal newDecCap) in
        let newCap := fst r in
        do* on_store (SetTaxCap (Denom newCap) (Amount newCap)) in
        ret (newCaps ++ [newCap])
    | Err _ => ret newCaps
    | Panic => panic
    end.

Definition UpdateTaxCap : TM Coins :=
  let* s := gets id in
  let* taxPolicyCap := lift (NewDecCoinFromCoin (Cap (TaxPolicy (KParams (store s))))) in
  mfold (update_cap taxPolicyCap) [] (Whitelist (env s)).

Definition next_tax_rate (ctx : Ctx) (s : Store) : res Dec :=
  let params := KParams s in
  let oldTaxRate := GetTaxRate s in
  let inc := MiningIncrement params in
  let! tlYear := rollingAverageIndicator ctx (int64 (WindowLong params)) (TRL s) in
  let! tlMonth := rollingAverageIndicator ctx (int64 (WindowShort params)) (TRL s) in
  let! newTaxRate :=
    if tlMonth =? 0 then Ok (RateMax (TaxPolicy params))
    else
      let! grown := Dec_Mul tlYear inc in
      let! m := Dec_Mul oldTaxRate grown in
      Dec_Quo m tlMonth in
  Clamp (TaxPolicy params) oldTaxRate newTaxRate.

Definition UpdateTaxPolicy (ctx : Ctx) : TM Dec :=
  let* s := gets id in
  let* newTaxRate := lift (next_tax_rate ctx (store s)) in
  do* on_store (SetTaxRate newTaxRate) in
  ret newTaxRate.

Definition next_reward_weight (ctx : Ctx) (s : Store) : res Dec :=
  let params := KParams s in
  let oldWeight := GetRewardWeight s in
  let sbTarget := SeigniorageBurdenTarget params in
  let! seigniorageSum := sumIndicator ctx (int64 (WindowShort params)) (SR s) in
  let! totalSum := sumIndicator ctx (int64 (WindowShort params)) (MR s) in
  let! newRewardWeight :=
    if (totalSum =? 0) || (seigniorageSum =? 0) then Ok (RateMax (RewardPolicy params))
    else
      let! sb := Dec_Quo seigniorageSum totalSum in
      let! q := Dec_Quo sbTarget sb in
      Dec_Mul oldWeight q in
  Clamp (RewardPolicy params) oldWeight newRewardWeight.

Definition UpdateRewardPolicy (ctx : Ctx) : TM Dec :=
  let* s := gets id in
  let* newRewardWeight := lift (next_reward_weight ctx (store s)) in
  do* on_store (SetRewardWeight newRewardWeight) in
  ret newRewardWeight.

(** ** Seigniorage and the burn account *)

Definition SettleSeigniorage (distributionModuleName : string) : TM unit :=
  let* s := gets id in
  let* seigniorageLunaAmt := lift (PeekEpochSeigniorage s) in
  if seigniorageLunaAmt <=? 0 then ret tt
  else
    let rewardWeight := GetRewardWeight (store s) in
    let* seigniorageDecCoin := lift (NewDecCoin MicroLunaDenom seigniorageLunaAmt) in
    let* td := lift (DecCoin_TruncateDecimal seigniorageDecCoin) in
    let seigniorageCoin := fst td in
    let* seigniorageCoins := lift (NewCoins [seigniorageCoin]) in
    do* (if Coins_IsValid seigniorageCoins
         then must (on_bank (MintCoins ModuleName seigniorageCoins)) else ret tt) in
    let seigniorageAmt := Amount seigniorageCoin in
    let* b := lift (Dec_MulInt rewardWeight seigniorageAmt) in
    let* burnAmt := lift (Dec_TruncateInt b) in
    let* burnCoin := lift (NewCoin MicroLunaDenom burnAmt) in
    let* burnCoins := lift (NewCoins [burnCoin]) in
    do* (if Coins_IsValid burnCoins
         then must (on_bank (BurnCoins ModuleName burnCoins)) else ret tt) in
    let* leftAmt := lift (Int_Sub seigniorageAmt burnAmt) in
    let* leftCoin := lift (NewCoin MicroLunaDenom leftAmt) in
    let* leftCoins := lift (NewCoins [leftCoin]) in
    if Coins_IsValid leftCoins then
      do* must (on_bank (SendCoinsFromModuleToModule ModuleName distributionModuleName leftCoins)) in
      let* pool := gets (fun s => GetCommunityPool (distr s)) in
      let* leftDec := lift (NewDecCoinsFromCoins leftCoins) in
      let* pool := lift (DecCoins_Add pool leftDec) in
      on_distr (modify (SetCommunityPool pool))
    else ret tt.

Definition BurnCoinsFromBurnAccount : TM unit :=
  let* s := gets id in
  let coins := GetAllBalances (bank s) (GetModuleAddress BurnModuleName) in
  if negb (Coins_IsZero coins) then must (on_bank (BurnCoins BurnModuleName coins)) else ret tt.

(** ** The end blocker ([abci.go]) *)

(** The epoch's last block; [RecordEpochInitialIssuance] is deferred, so it
    runs on both returns. *)
Definition end_epoch (ctx : Ctx) : TM unit :=
  do* UpdateIndicators ctx in
  let* s := gets id in
  do* (if BlockHeight ctx <? int64 (uint64 (BlocksPerWeek * WindowProbation (KParams (store s))))
       then ret tt
       else
         let* taxRate := UpdateTaxPolicy ctx in
         let* rewardWeight := UpdateRewardPolicy ctx in
         let* taxCap := UpdateTaxCap in
         emit (EventPolicyUpdate taxRate rewardWeight taxCap)) in
  RecordEpochInitialIssuance.

Definition EndBlocker (ctx : Ctx) : TM unit :=
  do* BurnCoinsFromBurnAccount in
  let* last := lift (IsPeriodLastBlock ctx BlocksPerWeek) in
  if negb last then ret tt else end_epoch ctx.

(** ** Genesis ([genesis.go]) *)

Definition DefaultGenesisState : GenesisState :=
  mkGenesis DefaultParams DefaultTaxRate DefaultRewardWeight [] [] [] [].

Definition ValidateGenesis (data : GenesisState) : res unit :=
  let tp := TaxPolicy (GParams data) in
  let rp := RewardPolicy (GParams data) in
  if (GTaxRate data <? RateMin tp) || (RateMax tp <? GTaxRate data)
  then Err (Errorf "tax_rate must less than RateMax and bigger than RateMin")
  else if (GRewardWeight data <? RateMin rp) || (RateMax rp <? GRewardWeight data)
  then Err (Errorf "reward_weight must less than WeightMax and bigger than RateMin")
  else Validate (GParams data).

(** [moduleAccounts]: both module accounts exist. *)
Definition InitGenesis (moduleAccounts : bool) (data : GenesisState) : TM unit :=
  let* s := gets id in
  let* st := lift (SetParams (GParams data) (store s)) in
  do* on_store (fun _ => st) in
  do* on_store (SetTaxRate (GTaxRate data)) in
  do* on_store (SetRewardWeight (GRewardWeight data)) in
  do* on_store (SetEpochTaxProceeds (GTaxProceeds data)) in
  do* (if Coins_IsZero (GEpochInitialIssuance data) then RecordEpochInitialIssuance
       else on_store (SetEpochInitialIssuance (GEpochInitialIssuance data))) in
  do* mfor (GTaxCaps data) (fun cap => on_store (SetTaxCap cap.1 cap.2)) in
  do* mfor (GEpochStates data) (fun es =>
    do* on_store (SetTR (int64 (Epoch es)) (TaxReward es)) in
    do* on_store (SetSR (int64 (Epoch es)) (SeigniorageReward es)) in
    on_store (SetTSL (int64 (Epoch es)) (TotalStakedLuna es))) in
  if moduleAccounts then ret tt else panic.

Definition ExportGenesis (ctx : Ctx) (s : Store) : res GenesisState :=
  let curEpoch := GetEpoch ctx in
  let! last := IsPeriodLastBlock ctx BlocksPerWeek in
  let epochs := Z.to_nat (if last then curEpoch + 1 else curEpoch) in
  Ok (mkGenesis (KParams s) (GetTaxRate s) (GetRewardWeight s) (IterateTaxCap s)
    (PeekEpochTaxProceeds s) (GetEpochInitialIssuance s)
    ((fun e => let e := Z.of_nat e in
       mkEpochState (uint64 e) (GetTR s e) (GetSR s e) (GetTSL s e)) <$> seq 0 epochs)).

(** ** Queries ([querier.go]) *)

Definition StatusInvalidArgument := SdkError "rpc: invalid argument".

Definition query_tax_cap (s : Store) (req : option string) : res Int :=
  match req with
  | None => Err StatusInvalidArgument
  | Some denom =>
      if ValidateDenom denom then Ok (GetTaxCap s denom) else Err StatusInvalidArgument
  end.
Definition query_tax_caps (s : Store) : list (string * Int) := IterateTaxCap s.

(** The running average of one window, extended by the current epoch.  Both
    arguments of [math.Min] are converted to float64: an epoch is below 2^53,
    so the smaller one is exact. *)
Definition extend_average (prevCtx : Ctx) (s : Store) (window epoch : Z) (trl : Dec) : res Dec :=
  let! avg := rollingAverageIndicator prevCtx (int64 (uint64 (window - 1))) (TRL s) in
  let computed := Z.min (uint64 (window - 1)) epoch in
  let! total := Dec_MulInt64 avg computed in
  let! total := Dec_Add total trl in
  Dec_QuoInt64 total (int64 (computed + 1)).

(** [(TRLYear, TRLMonth)] *)
Definition query_indicators (ctx : Ctx) (s : St) : res (Dec * Dec) :=
  let tsl := TotalBondedTokens (staking s) in
  let! taxRewards := NewDecCoinsFromCoins (PeekEpochTaxProceeds (store s)) in
  let! tr := alignCoins (env s) taxRewards MicroSDRDenom in
  let epoch := GetEpoch ctx in
  let! trl := Dec_QuoInt tr tsl in
  if epoch =? 0 then Ok (trl, trl)
  else
    let params := KParams (store s) in
    let prevCtx := mkCtx (int64 (BlockHeight ctx - int64 BlocksPerWeek)) (BlockTime ctx)
                     (ChainID ctx) in
    let! trlYear := extend_average prevCtx (store s) (WindowLong params) epoch trl in
    let! trlMonth := extend_average prevCtx (store s) (WindowShort params) epoch trl in
    Ok (trlYear, trlMonth).
End Keeper.
End Treasury.
