(* ===== verification/TreasuryFacts.v ===== *)
(** * What the treasury computes

    The clamp of policy updates, the rolling indicators, store keys by epoch, tax
    proceeds and the exemption list. *)

From S2P Require Import Prelude Sdk SdkRef Core TreasuryTypes Treasury.

Module TreasuryFacts.
Import TreasuryTypes Treasury.

(** ** The clamp *)

Section Clamp.
Context `{SdkMathLaws}.

(** The value of [Clamp]: a step of at most [ChangeRateMax], kept in range. *)
Definition clamped (pc : PolicyConstraints) (prev new : Dec) : Dec :=
  Z.max (RateMin pc) (Z.min (RateMax pc)
    (Z.max (prev - ChangeRateMax pc) (Z.min (prev + ChangeRateMax pc) new))).

Definition policy_ok (pc : PolicyConstraints) : Prop :=
  RateMin pc <= RateMax pc /\ 0 <= ChangeRateMax pc.

Lemma Clamp_Ok pc prev new r : policy_ok pc -> Clamp pc prev new = Ok r -> r = clamped pc prev new.
Proof using Type*.
  intros [Hr Hc]. unfold Clamp, clamped. rewrite Dec_Sub_spec. intros R.
  apply rbind_Ok in R as (delta & Hd & R). sdk_inv. rewrite Dec_Add_spec, Dec_Sub_spec in R.
  apply rbind_Ok in R as (n & Hn & [= <-]).
  assert (n = Z.max (prev - ChangeRateMax pc) (Z.min (prev + ChangeRateMax pc) new)) as ->.
  { destruct (Z.ltb_spec prev new).
    - destruct (Z.ltb_spec (ChangeRateMax pc) (new - prev)); [sdk_inv|injection Hn as <-]; lia.
    - destruct (Z.ltb_spec (ChangeRateMax pc) (Z.abs (new - prev))); [sdk_inv|injection Hn as <-]; lia. }
  clear Hn. set (n := Z.max _ _). destruct (Z.ltb_spec n (RateMin pc)); [lia|].
  destruct (Z.ltb_spec (RateMax pc) n); lia.
Qed.

(** No panic on values that fit. *)
Lemma Clamp_total pc prev new : policy_ok pc -> 0 <= prev -> 0 <= new ->
  dec_fits (prev + new + ChangeRateMax pc) = true -> Clamp pc prev new = Ok (clamped pc prev new).
Proof using Type*.
  intros Hok Hp Hn Hf. destruct (Hok) as [Hr Hc].
  assert (forall z, Z.abs z <= prev + new + ChangeRateMax pc -> dec_chk z = Ok z) as Hchk.
  { intros z Hz. unfold dec_chk. by rewrite (dec_fits_down z (prev + new + ChangeRateMax pc)) by (done || lia). }
  destruct (Clamp pc prev new) as [r|e|] eqn:E.
  - by rewrite (Clamp_Ok _ _ _ _ Hok E).
  - exfalso. revert E. unfold Clamp. rewrite Dec_Sub_spec, Hchk by lia. cbn [rbind].
    rewrite Dec_Add_spec, Dec_Sub_spec, !Hchk by lia. by repeat destruct (_ <? _).
  - exfalso. revert E. unfold Clamp. rewrite Dec_Sub_spec, Hchk by lia. cbn [rbind].
    rewrite Dec_Add_spec, Dec_Sub_spec, !Hchk by lia. by repeat destruct (_ <? _).
Qed.

(** A policy update is bounded: the clamped rate lies between the policy's
    minimum and maximum, moves by at most the maximal change from a rate in
    range, and is the proposed rate when that one obeys the policy.  It does not
    overflow on rates that fit. *)
Theorem Clamp_correct pc prev new :
  policy_ok pc -> 0 <= prev -> 0 <= new -> dec_fits (prev + new + ChangeRateMax pc) = true ->
  exists r, Clamp pc prev new = Ok r /\ RateMin pc <= r <= RateMax pc /\
    (RateMin pc <= prev <= RateMax pc -> Z.abs (r - prev) <= ChangeRateMax pc) /\
    (RateMin pc <= new <= RateMax pc -> Z.abs (new - prev) <= ChangeRateMax pc -> r = new).
Proof using Type*.
  intros Hok Hp Hn Hf. exists (clamped pc prev new). split; [by apply Clamp_total|].
  destruct Hok. unfold clamped. split_and!; lia.
Qed.
End Clamp.

Section ClampWitness.
Import Ref.
Lemma Clamp_correct_witness : exists r,
  Clamp DefaultTaxPolicy DefaultTaxRate (NewDec 1) = Ok r /\
  RateMin DefaultTaxPolicy <= r <= RateMax DefaultTaxPolicy /\
  (RateMin DefaultTaxPolicy <= DefaultTaxRate <= RateMax DefaultTaxPolicy ->
     Z.abs (r - DefaultTaxRate) <= ChangeRateMax DefaultTaxPolicy) /\
  (RateMin DefaultTaxPolicy <= NewDec 1 <= RateMax DefaultTaxPolicy ->
     Z.abs (NewDec 1 - DefaultTaxRate) <= ChangeRateMax DefaultTaxPolicy -> r = NewDec 1).
Proof.
  apply (Clamp_correct DefaultTaxPolicy DefaultTaxRate (NewDec 1)).
  - split; vm_compute; discriminate.
  - vm_compute; discriminate.
  - vm_compute; discriminate.
  - by vm_compute.
Defined.
End ClampWitness.

(** ** Sums and averages over epochs *)

Section Indicators.
Context `{SdkMathLaws}.

(** The sum of [f] over the [n] epochs that end with [i]. *)
Fixpoint epoch_sum (f : Z -> Dec) (i : Z) (n : nat) : Dec :=
  match n with O => 0 | S n => f i + epoch_sum f (i - 1) n end.

(** The number of epochs in a window of [w] that ends with epoch [cur]. *)
Definition window (cur w : Z) : nat := Z.to_nat (Z.min w (cur + 1)).

Lemma epoch_sum_nonneg f i n : (forall e, 0 <= f e) -> 0 <= epoch_sum f i n.
Proof using Type. intros Hf. revert i. induction n as [|n IH]; intros i; simpl; [lia|]. specialize (Hf i). specialize (IH (i - 1)). lia. Qed.

Lemma indicator_loop_run f cur w : 0 <= cur < 2^62 -> 0 <= w < 2^62 -> (forall e, 0 <= f e) ->
  forall n i sum fuel, (n <= fuel)%nat -> i = Z.of_nat n - 1 + Z.max 0 (cur - w + 1) ->
  0 <= sum -> dec_fits (sum + epoch_sum f i n) = true ->
  indicator_loop fuel (fun e => Ok (f e)) (cur - w) i sum =
    Ok (sum + epoch_sum f i n, Z.max 0 (cur - w + 1) - 1).
Proof using Type*.
  intros Hcur Hw Hf n. induction n as [|n IH]; intros i sum fuel Hle -> Hs Hfit.
  - replace (Z.of_nat 0 - 1 + Z.max 0 (cur - w + 1)) with (Z.max 0 (cur - w + 1) - 1) by lia.
    cbn [epoch_sum]. rewrite Z.add_0_r.
    assert ((0 <=? Z.max 0 (cur - w + 1) - 1) && (cur - w <? Z.max 0 (cur - w + 1) - 1) = false) as Eb.
    { apply andb_false_iff. rewrite Z.leb_gt, Z.ltb_ge. lia. }
    destruct fuel; cbn [indicator_loop]; by rewrite Eb.
  - destruct fuel as [|fuel]; [lia|]. cbn [indicator_loop].
    destruct (Z.leb_spec 0 (Z.of_nat (S n) - 1 + Z.max 0 (cur - w + 1))); [|lia].
    destruct (Z.ltb_spec (cur - w) (Z.of_nat (S n) - 1 + Z.max 0 (cur - w + 1))); [|lia].
    cbn [andb rbind]. rewrite Dec_Add_spec. unfold dec_chk. cbn [epoch_sum] in Hfit.
    set (i := Z.of_nat (S n) - 1 + Z.max 0 (cur - w + 1)) in *.
    pose proof (epoch_sum_nonneg f (i - 1) n Hf) as Hn. pose proof (Hf i) as Hi.
    rewrite (dec_fits_down (sum + f i) (sum + (f i + epoch_sum f (i - 1) n))) by (done || lia).
    cbn [rbind]. rewrite IH; [|lia|lia|lia|by rewrite <- Z.add_assoc].
    cbn [epoch_sum]. f_equal. f_equal. lia.
Qed.

Lemma run_indicator_Ok ctx w f : 0 <= BlockHeight ctx < 2^62 -> 0 <= w < 2^62 ->
  (forall e, 0 <= f e) -> let cur := GetEpoch ctx in
  dec_fits (epoch_sum f cur (window cur w)) = true ->
  0 <= cur < 2^62 /\
  run_indicator ctx w (fun e => Ok (f e)) =
    Ok (epoch_sum f cur (window cur w), cur - Z.of_nat (window cur w)).
Proof using Type*.
  intros Hh Hw Hf cur Hfit.
  assert (0 <= cur < 2^62) as Hcur.
  { unfold cur, GetEpoch. change (int64 BlocksPerWeek) with 100800.
    rewrite Z.quot_div_nonneg by lia. split; [apply Z.div_pos; lia|apply Z.div_lt_upper_bound; lia]. }
  split; [done|]. unfold run_indicator. fold cur. rewrite int64_id by lia.
  rewrite (indicator_loop_run f cur w Hcur Hw Hf (window cur w)); unfold window in *.
  - rewrite Z.add_0_l. unfold window. f_equal. f_equal. lia.
  - lia.
  - lia.
  - done.
  - by rewrite Z.add_0_l.
Qed.

(** Indicators over a window of epochs: the rolling sum adds the indicator of
    exactly the last [w] epochs, or of all epochs since the first when there are
    fewer, and the rolling average divides by their number.  The loop ends within
    its [curEpoch + 1] rounds. *)
Theorem indicators_correct ctx w f : 0 <= BlockHeight ctx < 2^62 -> 0 <= w < 2^62 ->
  (forall e, 0 <= f e) -> let cur := GetEpoch ctx in let n := window cur w in
  dec_fits (epoch_sum f cur n) = true ->
  sumIndicator ctx w (fun e => Ok (f e)) = Ok (epoch_sum f cur n) /\
  rollingAverageIndicator ctx w (fun e => Ok (f e)) =
    Ok (if (n =? 0)%nat then 0 else Z.quot (epoch_sum f cur n) (Z.of_nat n)).
Proof using Type*.
  intros Hh Hw Hf cur n Hfit. destruct (run_indicator_Ok ctx w f Hh Hw Hf Hfit) as [Hcur E].
  fold cur n in E, Hcur. unfold sumIndicator, rollingAverageIndicator. rewrite E. cbn [rbind fst].
  split; [done|]. fold cur. assert (Z.of_nat n <= cur + 1) as Hn by (unfold n, window; lia).
  replace (cur - (cur - Z.of_nat n)) with (Z.of_nat n) by lia. rewrite int64_id by lia. sdk_unfold.
  destruct n as [|m] eqn:En; [done|]. destruct (Z.eqb_spec (Z.of_nat (S m)) 0); [lia|]. done.
Qed.
End Indicators.

Section IndicatorWitness.
Import Ref.
Definition week_ctx (epoch : Z) : Ctx := mkCtx (epoch * BlocksPerWeek + 5) 0 "columbus-5".
Definition demo_indicator (e : Z) : Dec := Z.abs (NewDec e).

Lemma demo_indicator_ok : 0 <= BlockHeight (week_ctx 5) < 2^62 /\ (forall e, 0 <= demo_indicator e) /\
  dec_fits (epoch_sum demo_indicator (GetEpoch (week_ctx 5)) (window (GetEpoch (week_ctx 5)) 4)) = true.
Proof.
  split; [by vm_compute|]. split; [|by vm_compute]. intros e. apply Z.abs_nonneg.
Qed.

Lemma indicators_correct_witness :
  sumIndicator (week_ctx 5) 4 (fun e => Ok (demo_indicator e)) =
    Ok (epoch_sum demo_indicator (GetEpoch (week_ctx 5)) (window (GetEpoch (week_ctx 5)) 4)).
Proof.
  destruct demo_indicator_ok as (H1 & H2 & H3).
  exact (proj1 (indicators_correct (week_ctx 5) 4 demo_indicator H1 ltac:(lia) H2 H3)).
Defined.

(** Epochs 2, 3, 4 and 5. *)
Example demo_average : rollingAverageIndicator (week_ctx 5) 4 (fun e => Ok (demo_indicator e))
  = Ok (Z.quot (NewDec 14) 4).
Proof. vm_compute. reflexivity. Qed.
End IndicatorWitness.

(** ** Store keys *)

Lemma put_le_inj n : forall x y, 0 <= x < 256 ^ Z.of_nat n -> 0 <= y < 256 ^ Z.of_nat n ->
  put_le n x = put_le n y -> x = y.
Proof.
  induction n as [|n IH]; intros x y Hx Hy; [simpl in *; lia|].
  rewrite Nat2Z.inj_succ, Z.pow_succ_r in Hx, Hy by lia. cbn [put_le]. intros [= Eb Er].
  assert (forall z, 0 <= z mod 256 < 256) as Hm by (intros; apply Z.mod_pos_bound; lia).
  apply (f_equal Ascii.N_of_ascii) in Eb. rewrite !Ascii.N_ascii_embedding in Eb.
  2,3: match goal with |- (Z.to_N (?z mod 256) < 256)%N => specialize (Hm z); lia end.
  assert (x mod 256 = y mod 256) as Em.
  { pose proof (Hm x). pose proof (Hm y). lia. }
  assert (x / 256 = y / 256) as Ed.
  { apply IH; [..|done]; (split; [apply Z.div_pos; lia|apply Z.div_lt_upper_bound; lia]). }
  rewrite (Z.div_mod x 256), (Z.div_mod y 256) by lia. congruence.
Qed.

(** The entries of the treasury store, by the bytes of their keys. *)
Inductive StoreKey :=
  | KTaxRate | KRewardWeight | KTaxCap (denom : string) | KTaxProceeds | KIssuance
  | KTR (epoch : Z) | KSR (epoch : Z) | KTSL (epoch : Z) | KExempt (address : string).
Definition key_bytes (k : StoreKey) : string :=
  match k with
  | KTaxRate => TaxRateKey
  | KRewardWeight => RewardWeightKey
  | KTaxCap d => GetTaxCapKey d
  | KTaxProceeds => TaxProceedsKey
  | KIssuance => EpochInitialIssuanceKey
  | KTR e => GetTRKey e
  | KSR e => GetSRKey e
  | KTSL e => GetTSLKey e
  | KExempt a => BurnTaxExemptionListPrefix +:+ a
  end.
Definition key_ok (k : StoreKey) : Prop :=
  match k with KTR e | KSR e | KTSL e => 0 <= e < 2^63 | _ => True end.

(** The first byte of a key, and the rest. *)
Definition key_parts (k : StoreKey) : nat * string :=
  match k with
  | KTaxRate => (1, "") | KRewardWeight => (2, "") | KTaxCap d => (3, d)
  | KTaxProceeds => (4, "") | KIssuance => (5, "")
  | KTR e => (6, put_le 8 (uint64 e)) | KSR e => (7, put_le 8 (uint64 e))
  | KTSL e => (8, put_le 8 (uint64 e)) | KExempt a => (32, a)
  end%nat.
Lemma key_bytes_parts k :
  key_bytes k = String (Ascii.ascii_of_nat (key_parts k).1) (key_parts k).2.
Proof. by destruct k. Qed.

(** Treasury keys do not collide: two entries of the treasury store have the
    same key bytes only when they are the same entry; epochs are told apart by
    their eight little-endian bytes. *)
Theorem treasury_keys_injective k1 k2 :
  key_ok k1 -> key_ok k2 -> key_bytes k1 = key_bytes k2 -> k1 = k2.
Proof.
  assert (forall p e1 e2, 0 <= e1 < 2^63 -> 0 <= e2 < 2^63 ->
    GetSubkeyByEpoch (byte_key p) e1 = GetSubkeyByEpoch (byte_key p) e2 -> e1 = e2) as Hepoch.
  { intros p e1 e2 H1 H2. unfold GetSubkeyByEpoch, byte_key.
    rewrite !uint64_id by lia. intros E%str_app_inj_l. apply put_le_inj in E; [done|..];
      change (256 ^ Z.of_nat 8) with (2^64); lia. }
  rewrite !key_bytes_parts. intros H1 H2 E. injection E as Eh Et.
  apply (f_equal Ascii.nat_of_ascii) in Eh.
  destruct k1, k2; vm_compute in Eh; try discriminate; cbn [key_parts snd] in Et;
    first [reflexivity|by subst|f_equal; apply (Hepoch 0%nat _ _ H1 H2)];
    unfold GetSubkeyByEpoch; by rewrite Et.
Qed.

Lemma treasury_keys_injective_witness : key_bytes (KTR 300) = key_bytes (KTR (256 + 44)) /\
  KTR 300 = KTR (256 + 44).
Proof.
  split; [done|]. by apply (treasury_keys_injective (KTR 300) (KTR (256 + 44))).
Defined.

(** ** Tax proceeds *)

Section Proceeds.
Context `{SdkMathLaws, !SdkCoins, !SdkCoinsLaws}.

Lemma IsZero_amt c d : coins_ok c -> Coins_IsZero c = true -> amt c d = 0.
Proof using Type*.
  intros [_ Hc] Hz. rewrite Coins_IsZero_spec in Hz. destruct c as [|x c]; [by apply amt_dens, not_elem_of_nil|].
  apply Forall_cons in Hc as [[_ Hx] _]. simpl in Hz. apply andb_true_iff in Hz as [Hz%Z.eqb_eq _]. lia.
Qed.

(** Tax proceeds accumulate: recording the taxes of a sequence of
    transactions leaves, denom by denom, the sum of what was recorded, whenever
    the sums fit. *)
Theorem proceeds_accumulate taxes s :
  coins_ok (PeekEpochTaxProceeds s) -> Forall coins_ok taxes ->
  (forall d, int_fits (amt (PeekEpochTaxProceeds s) d + zsum (fun t => amt t d) taxes) = true) ->
  exists s', rfold (fun s t => RecordEpochTaxProceeds t s) s taxes = Ok s' /\
    coins_ok (PeekEpochTaxProceeds s') /\
    forall d, amt (PeekEpochTaxProceeds s') d =
      amt (PeekEpochTaxProceeds s) d + zsum (fun t => amt t d) taxes.
Proof using Type*.
  intros Hs Ht. revert s Hs. induction Ht as [|t taxes Hok Ht IH]; intros s Hs Hfit.
  - exists s. split_and!; [done..|]. intros d. rewrite zsum_nil. lia.
  - assert (forall d, 0 <= zsum (fun t => amt t d) taxes) as Hn.
    { intros d. apply zsum_nonneg. eapply Forall_impl; [exact Ht|]. intros. by apply amt_nonneg. }
    cbn [rfold]. unfold RecordEpochTaxProceeds at 1. destruct (Coins_IsZero t) eqn:Ez.
    + cbn [rbind]. setoid_rewrite zsum_cons. setoid_rewrite zsum_cons in Hfit.
      setoid_rewrite (IsZero_amt t _ Hok Ez) in Hfit. setoid_rewrite Z.add_0_l in Hfit.
      destruct (IH s Hs Hfit) as (s' & E & Hs' & Ha). exists s'. split_and!; [done..|].
      intros d. rewrite Ha, (IsZero_amt t d Hok Ez). lia.
    + destruct (Coins_Add_cases _ _ Hs Hok) as [[_ (c & E & Hc & Ec)]|[_ (d & Hd)]].
      * rewrite E. cbn [rbind]. destruct (IH (SetEpochTaxProceeds c s) Hc) as (s' & E' & Hs' & Ha).
        { intros d. cbn. rewrite Ec. specialize (Hfit d). by rewrite zsum_cons, Z.add_assoc in Hfit. }
        exists s'. split_and!; [done..|]. intros d. rewrite Ha. cbn. rewrite Ec, zsum_cons. lia.
      * exfalso. specialize (Hfit d). rewrite zsum_cons in Hfit. specialize (Hn d).
        pose proof (amt_nonneg _ d Hs). pose proof (amt_nonneg _ d Hok).
        rewrite (int_fits_down _ (amt (PeekEpochTaxProceeds s) d +
          (amt t d + zsum (fun t => amt t d) taxes))) in Hd; [done|lia|done].
Qed.
End Proceeds.

(** ** The exemption list *)

Section Exemptions.
Context `{Bech32}.

(** Exemption proposals: an accepted addition exempts exactly its addresses on
    top of the present ones; an accepted removal takes exactly its addresses off,
    all of which were exempt; neither touches the rest of the store. *)
Theorem exemption_proposals addrs title desc s :
  (forall s', HandleAddBurnTaxExemptionAddressProposal (mkProposal title desc addrs) s = Ok s' ->
     s' = set_exemptions (list_to_set addrs ∪ Exemptions s) s) /\
  (forall s', HandleRemoveBurnTaxExemptionAddressProposal (mkProposal title desc addrs) s = Ok s' ->
     s' = set_exemptions (Exemptions s ∖ list_to_set addrs) s /\ NoDup addrs /\
     Forall (fun a => a ∈ Exemptions s) addrs).
Proof using Type.
  unfold HandleAddBurnTaxExemptionAddressProposal, HandleRemoveBurnTaxExemptionAddressProposal.
  cbn [Addresses]. split; revert s; induction addrs as [|a addrs IH]; intros s s'.
  - intros [= <-]. destruct s as [? ? ? ? ? ? ? ? ex ?]. unfold set_exemptions. simpl. f_equal. set_solver.
  - intros (s1 & R1 & R2)%rbind_Ok. unfold AddBurnTaxExemptionAddress in R1.
    destruct (AccAddressFromBech32 a); [|done..]. injection R1 as <-. rewrite (IH _ _ R2).
    unfold set_exemptions. simpl. f_equal. set_solver.
  - intros [= <-]. split; [|split; constructor]. destruct s as [? ? ? ? ? ? ? ? ex ?].
    unfold set_exemptions. simpl. f_equal. set_solver.
  - intros (s1 & R1 & R2)%rbind_Ok. unfold RemoveBurnTaxExemptionAddress in R1.
    destruct (AccAddressFromBech32 a); [|done..].
    destruct (bool_decide_reflect (a ∈ Exemptions s)) as [Hin|]; [|done]. injection R1 as <-.
    destruct (IH _ _ R2) as (-> & Hnd & Hall). simpl in *. split_and!.
    + unfold set_exemptions. simpl. f_equal. set_solver.
    + constructor; [|done]. intros Ha. rewrite Forall_forall in Hall. specialize (Hall a Ha). set_solver.
    + constructor; [done|]. eapply Forall_impl; [exact Hall|]. set_solver.
Qed.
End Exemptions.
End TreasuryFacts.
