(* ===== verification/TreasuryEpoch.v ===== *)
(** * The treasury's block and epoch

    What the end blocker does to the burn account, the indicators, the policies
    and the recorded issuance, what settling seigniorage does to the bank, and
    genesis. *)

From S2P Require Import Prelude Sdk SdkRef Core TreasuryTypes Treasury TreasuryFacts.

Module TreasuryEpoch.
Import TreasuryTypes Treasury TreasuryFacts.

(** What the treasury asks of the market: a swap is quoted in the asked denom. *)
Class MarketViewLaws (E : Type) `{MarketView E} : Prop := {
  swap_denom e c d r : ComputeInternalSwap e c d = Ok r -> DDenom r = d }.

Section Epoch.
Context {E B SS DS : Type}.
Context `{SdkMathLaws, !SdkCoins, !SdkCoinsLaws, HV : MarketView E, !MarketViewLaws E,
  HB : BankKeeper B, !BankLaws B, HS : StakingKeeper SS, HD : DistrKeeper DS, !DistrLaws DS}.
Abbreviation St := (State E B SS DS).

(** ** The burn account *)

(** The burn account is emptied into nothing; all else is as before. *)
Record burned (s s' : St) : Prop := {
  bu_bal a d : bal (bank s') a d =
    if decide (a = GetModuleAddress BurnModuleName) then 0 else bal (bank s) a d;
  bu_supply d : supply (bank s') d =
    supply (bank s) d - bal (bank s) (GetModuleAddress BurnModuleName) d;
  bu_rest : store s' = store s /\ env s' = env s /\ staking s' = staking s /\ distr s' = distr s /\
    events s' = events s }.

Lemma BurnCoinsFromBurnAccount_burned (s s' : St) :
  BurnCoinsFromBurnAccount s = Ret tt s' -> burned s s'.
Proof using Type*.
  unfold BurnCoinsFromBurnAccount. intros (? & ? & [= <- <-] & R)%bind_Ret. cbn [id] in R.
  set (addr := GetModuleAddress BurnModuleName) in *.
  pose proof (GetAllBalances_ok (bank s) addr) as Hok.
  destruct (Coins_IsZero _) eqn:Ez; cbn [negb] in R.
  - injection R as <-. split; [| |done].
    + intros a d. fold addr. destruct (decide _) as [->|]; [|done].
      by rewrite <- GetAllBalances_amt, (IsZero_amt _ d Hok Ez).
    + intros d. fold addr. rewrite <- GetAllBalances_amt, (IsZero_amt _ d Hok Ez). lia.
  - rewrite must_Ret in R. apply zoom_Ret in R as (b & R & ->). apply burn_spec in R as [Hb Hs]; [|done].
    split; [| |done]; cbn [bank].
    + intros a d. rewrite Hb, GetAllBalances_amt. fold addr. unfold ind. destruct (decide _) as [->|]; lia.
    + intros d. by rewrite Hs, GetAllBalances_amt.
Qed.

(** Outside of the last block of a week, burning is all the end blocker does. *)
Lemma EndBlocker_mid ctx (s : St) : IsPeriodLastBlock ctx BlocksPerWeek = Ok false ->
  EndBlocker ctx s = BurnCoinsFromBurnAccount s.
Proof using Type.
  intros El. unfold EndBlocker, bind. destruct (BurnCoinsFromBurnAccount s) as [[] s1| |]; [|done..].
  by rewrite El.
Qed.

Lemma EndBlocker_last ctx (s s' : St) : IsPeriodLastBlock ctx BlocksPerWeek = Ok true ->
  EndBlocker ctx s = Ret tt s' ->
  exists s1, BurnCoinsFromBurnAccount s = Ret tt s1 /\ end_epoch ctx s1 = Ret tt s'.
Proof using Type.
  intros El (u & s1 & R1 & R)%bind_Ret. destruct u. exists s1. split; [done|].
  rewrite El in R. by apply bind_Ret in R as (? & ? & [[= <-] ->]%lift_Ret & R).
Qed.

(** Every block burns what was sent to the burn account: its balance ends at
    zero, the supply shrinks by exactly that balance and no other account
    changes; on a block that does not end an epoch nothing else happens. *)
Theorem burn_account_emptied ctx (s s' : St) :
  IsPeriodLastBlock ctx BlocksPerWeek = Ok false -> EndBlocker ctx s = Ret tt s' -> burned s s'.
Proof using Type*. intros El. rewrite EndBlocker_mid by done. apply BurnCoinsFromBurnAccount_burned. Qed.

(** ** The indicators *)

Lemma on_store_Ret f (s s' : St) u : on_store f s = Ret u s' ->
  s' = mkState (f (store s)) (env s) (bank s) (staking s) (distr s) (events s).
Proof using Type. by intros [= _ <-]. Qed.

(** The indicators of the epoch that ends, from the state before the update. *)
Record indicators (s : St) (tr sr : Dec) : Prop := {
  in_tr : exists taxes, NewDecCoinsFromCoins (PeekEpochTaxProceeds (store s)) = Ok taxes /\
    alignCoins (env s) taxes MicroSDRDenom = Ok tr;
  in_sr : exists seigniorage c, PeekEpochSeigniorage s = Ok seigniorage /\
    c = mkDecCoin MicroLunaDenom (GetRewardWeight (store s) * seigniorage) /\
    alignCoins (env s) [c] MicroSDRDenom = Ok sr }.

Lemma UpdateIndicators_Ret ctx (s s' : St) : UpdateIndicators ctx s = Ret tt s' ->
  exists tr sr, indicators s tr sr /\
    s' = mkState (SetSR (GetEpoch ctx) sr (SetEpochTaxProceeds [] (SetTR (GetEpoch ctx) tr
           (SetTSL (GetEpoch ctx) (TotalBondedTokens (staking s)) (store s)))))
         (env s) (bank s) (staking s) (distr s) (events s).
Proof using Type*.
  unfold UpdateIndicators. intros R. apply bind_Ret in R as (? & ? & [= <- <-] & R). cbn [id] in R.
  apply bind_Ret in R as (? & ? & ->%on_store_Ret & R).
  apply bind_Ret in R as (taxes & ? & [Ht ->]%lift_Ret & R).
  apply bind_Ret in R as (tr & ? & [Htr ->]%lift_Ret & R).
  apply bind_Ret in R as (? & ? & ->%on_store_Ret & R).
  apply bind_Ret in R as (? & ? & ->%on_store_Ret & R).
  apply bind_Ret in R as (sg & ? & [Hsg ->]%lift_Ret & R).
  apply bind_Ret in R as (amount & ? & [Ha ->]%lift_Ret & R).
  apply bind_Ret in R as (c & ? & [Hc ->]%lift_Ret & R).
  apply bind_Ret in R as (sr & ? & [Hsr ->]%lift_Ret & ->%on_store_Ret).
  rewrite Dec_MulInt_spec in Ha. sdk_inv. apply NewDecCoinFromDec_weak in Hc as [-> _].
  exists tr, sr. split; [|done]. split; [by exists taxes|by eexists sg, _].
Qed.

(** ** The policies *)

(** The tax cap of a whitelisted denom: the policy's cap at the market price,
    rounded down; the policy's own denom and a denom without a price keep theirs
    ([UpdateTaxCap] skips both). *)
Definition new_cap (e : E) (cap : DecCoin) (d : string) (old : option Int) : option Int :=
  if String.eqb d (DDenom cap) then old
  else match ComputeInternalSwap e cap d with
       | Ok c => Some (DAmount c / P18)
       | _ => old
       end.

Lemma update_caps_Ret cap l : NoDup l -> forall acc (s s' : St) r, mfold (update_cap cap) acc l s = Ret r s' ->
  (exists caps, s' = mkState (set_caps caps (store s)) (env s) (bank s) (staking s) (distr s) (events s)) /\
  forall d, TaxCaps (store s') !! d =
    if decide (d ∈ l) then new_cap (env s) cap d (TaxCaps (store s) !! d) else TaxCaps (store s) !! d.
Proof using Type*.
  induction 1 as [|x l Hni Hnd IH]; intros acc s s' r R.
  - injection R as _ <-. split; [exists (TaxCaps (store s)); by destruct s as [[]]|].
    intros d. by rewrite decide_False by apply not_elem_of_nil.
  - cbn [mfold] in R. apply bind_Ret in R as (acc1 & s1 & Rx & R). apply IH in R as [(caps & ->) Hcaps].
    assert (exists m, s1 = mkState (set_caps m (store s)) (env s) (bank s) (staking s) (distr s) (events s) /\
      forall d, m !! d = if decide (d = x) then new_cap (env s) cap d (TaxCaps (store s) !! d)
                         else TaxCaps (store s) !! d) as (m & -> & Hm).
    { unfold update_cap in Rx. unfold new_cap. destruct (String.eqb_spec x (DDenom cap)) as [->|Hne].
      - injection Rx as _ <-. exists (TaxCaps (store s)). split; [by destruct s as [[]]|].
        intros d. destruct (decide _) as [->|]; [by rewrite String.eqb_refl|done].
      - apply bind_Ret in Rx as (? & ? & [= <- <-] & Rx). cbn [id] in Rx.
        destruct (ComputeInternalSwap (env s) cap x) as [c|e|] eqn:Ec; [| |done].
        + apply bind_Ret in Rx as ([t rest] & ? & [Ht ->]%lift_Ret & Rx). cbn [fst] in Rx.
          apply bind_Ret in Rx as (? & ? & ->%on_store_Ret & [= _ <-]).
          apply TruncateDecimal_Ok in Ht as (Etd & _ & _ & _ & Eta & _). rewrite (swap_denom _ _ _ _ Ec) in Etd.
          eexists. split; [done|]. intros d. rewrite Etd. destruct (decide (d = x)) as [->|].
          * rewrite lookup_insert_eq, Ec, Eta. by destruct (String.eqb_spec x (DDenom cap)).
          * by rewrite lookup_insert_ne.
        + injection Rx as _ <-. exists (TaxCaps (store s)). split; [by destruct s as [[]]|].
          intros d. destruct (decide _) as [->|]; [|done]. rewrite Ec. by destruct (String.eqb _ _). }
    split; [by exists caps|]. intros d. rewrite Hcaps. cbn [store env TaxCaps set_caps]. rewrite Hm.
    destruct (decide (d = x)) as [->|Hne].
    + rewrite decide_False by done. by rewrite decide_True by left.
    + destruct (decide (d ∈ l)); [rewrite decide_True by (by right)|
        rewrite decide_False by (by rewrite elem_of_cons; naive_solver)]; done.
Qed.
(** ** The end of an epoch *)

Definition probation (ctx : Ctx) (p : Params) : bool :=
  BlockHeight ctx <? int64 (uint64 (BlocksPerWeek * WindowProbation p)).

(** The store after the policy updates, from the one after the indicators. *)
Definition policies (ctx : Ctx) (e : E) (st st' : Store) : Prop :=
  if probation ctx (KParams st) then st' = st
  else exists rate weight caps,
    next_tax_rate ctx st = Ok rate /\ next_reward_weight ctx (SetTaxRate rate st) = Ok weight /\
    st' = set_caps caps (SetRewardWeight weight (SetTaxRate rate st)) /\
    (NoDup (Whitelist e) -> forall d, caps !! d =
      if decide (d ∈ Whitelist e)
      then new_cap e (mkDecCoin (Denom (Cap (TaxPolicy (KParams st))))
             (NewDec (Amount (Cap (TaxPolicy (KParams st)))))) d (TaxCaps st !! d)
      else TaxCaps st !! d).

Definition issued (s : St) : Coins :=
  Coins_Sort (GetSupply (bank s) MicroLunaDenom :: (GetSupply (bank s) <$> Whitelist (env s))).

Record epoch_ended (ctx : Ctx) (s s' : St) (tr sr : Dec) (st : Store) : Prop := {
  ee_indicators : indicators s tr sr;
  ee_policies : policies ctx (env s) (SetSR (GetEpoch ctx) sr (SetEpochTaxProceeds []
    (SetTR (GetEpoch ctx) tr (SetTSL (GetEpoch ctx) (TotalBondedTokens (staking s)) (store s))))) st;
  ee_store : store s' = SetEpochInitialIssuance (issued s) st;
  ee_rest : env s' = env s /\ bank s' = bank s /\ staking s' = staking s /\ distr s' = distr s }.

Lemma mfold_caps_rest cap l : forall acc (s s' : St) r, mfold (update_cap cap) acc l s = Ret r s' ->
  exists caps, s' = mkState (set_caps caps (store s)) (env s) (bank s) (staking s) (distr s) (events s).
Proof using Type*.
  induction l as [|x l IH]; intros acc s s' r R.
  - injection R as _ <-. exists (TaxCaps (store s)). by destruct s as [[]].
  - cbn [mfold] in R. apply bind_Ret in R as (acc1 & s1 & Rx & R). apply IH in R as (caps & ->).
    exists caps. unfold update_cap in Rx. destruct (String.eqb _ _); [by injection Rx as _ <-|].
    apply bind_Ret in Rx as (? & ? & [= <- <-] & Rx). cbn [id] in Rx.
    destruct (ComputeInternalSwap _ _ _) as [c|e|]; [|by injection Rx as _ <-|done].
    apply bind_Ret in Rx as (t & ? & [Ht ->]%lift_Ret & Rx).
    by apply bind_Ret in Rx as (? & ? & ->%on_store_Ret & [= _ <-]).
Qed.

Lemma end_epoch_Ret ctx (s s' : St) : end_epoch ctx s = Ret tt s' ->
  exists tr sr st, epoch_ended ctx s s' tr sr st.
Proof using Type*.
  unfold end_epoch. intros R. apply bind_Ret in R as (u & s1 & Ri & R). destruct u.
  apply UpdateIndicators_Ret in Ri as (tr & sr & Hind & E1).
  apply bind_Ret in R as (? & ? & [= <- <-] & R). cbn [id] in R.
  apply bind_Ret in R as (u & s2 & Rp & R). destruct u. exists tr, sr, (store s2).
  assert (policies ctx (env s1) (store s1) (store s2) /\ env s2 = env s1 /\ bank s2 = bank s1 /\
    staking s2 = staking s1 /\ distr s2 = distr s1) as (Hp & E2 & Eb & Es & Ed).
  { unfold policies. fold (probation ctx (KParams (store s1))) in Rp.
    destruct (probation _ _); [by injection Rp as <-|].
    apply bind_Ret in Rp as (rate & sa & Ra & Rp). apply bind_Ret in Rp as (weight & sb & Rb & Rp).
    apply bind_Ret in Rp as (ncaps & sc & Rc & [= <-]). cbn [store env bank staking distr].
    apply bind_Ret in Ra as (? & ? & [= <- <-] & (r & ? & [Hr ->]%lift_Ret & Ra)%bind_Ret).
    apply bind_Ret in Ra as (? & ? & ->%on_store_Ret & [= -> <-]).
    apply bind_Ret in Rb as (? & ? & [= <- <-] & (w & ? & [Hw ->]%lift_Ret & Rb)%bind_Ret).
    apply bind_Ret in Rb as (? & ? & ->%on_store_Ret & [= -> <-]). cbn [store env id] in *.
    apply bind_Ret in Rc as (? & ? & [= <- <-] & (cap & ? & [Hcap ->]%lift_Ret & Rc)%bind_Ret).
    cbn [store env id] in *. rewrite NewDecCoinFromCoin_spec in Hcap. destruct (_ && _); [|done].
    injection Hcap as <-. destruct (mfold_caps_rest _ _ _ _ _ _ Rc) as (caps & ->).
    split; [|done]. exists rate, weight, caps. split_and!; [done..|]. intros Hnd d.
    by destruct (update_caps_Ret _ _ Hnd _ _ _ _ Rc) as [_ Hc]. }
  unfold RecordEpochInitialIssuance in R. apply bind_Ret in R as (? & ? & [= <- <-] & ->%on_store_Ret).
  cbn [id store env bank staking distr]. subst s1. cbn [store env bank staking distr] in *.
  split; [done|done| |done]. cbn [store]. unfold issued. by rewrite E2, Eb.
Qed.

Lemma next_tax_rate_clamped ctx st r : policy_ok (TaxPolicy (KParams st)) ->
  next_tax_rate ctx st = Ok r -> exists new, r = clamped (TaxPolicy (KParams st)) (GetTaxRate st) new.
Proof using Type*.
  intros Hok. unfold next_tax_rate. intros (y & _ & (m & _ & (n & _ & Hc)%rbind_Ok)%rbind_Ok)%rbind_Ok.
  exists n. by apply Clamp_Ok in Hc.
Qed.
Lemma next_reward_weight_clamped ctx st r : policy_ok (RewardPolicy (KParams st)) ->
  next_reward_weight ctx st = Ok r ->
  exists new, r = clamped (RewardPolicy (KParams st)) (GetRewardWeight st) new.
Proof using Type*.
  intros Hok. unfold next_reward_weight. intros (y & _ & (m & _ & (n & _ & Hc)%rbind_Ok)%rbind_Ok)%rbind_Ok.
  exists n. by apply Clamp_Ok in Hc.
Qed.

(** A rate obeys its policy: in range, and at most one step from a rate in range. *)
Definition obeys (pc : PolicyConstraints) (old new : Dec) : Prop :=
  RateMin pc <= new <= RateMax pc /\
  (RateMin pc <= old <= RateMax pc -> Z.abs (new - old) <= ChangeRateMax pc).

Lemma clamped_obeys pc old new : policy_ok pc -> obeys pc old (clamped pc old new).
Proof using Type. intros []. unfold obeys, clamped. split; lia. Qed.

Lemma end_block_policies ctx (s s' : St) :
  let p := KParams (store s) in
  let cap := mkDecCoin (Denom (Cap (TaxPolicy p))) (NewDec (Amount (Cap (TaxPolicy p)))) in
  policy_ok (TaxPolicy p) -> policy_ok (RewardPolicy p) -> NoDup (Whitelist (env s)) ->
  IsPeriodLastBlock ctx BlocksPerWeek = Ok true -> EndBlocker ctx s = Ret tt s' ->
  KParams (store s') = p /\
  if probation ctx p
  then GetTaxRate (store s') = GetTaxRate (store s) /\
       GetRewardWeight (store s') = GetRewardWeight (store s) /\
       TaxCaps (store s') = TaxCaps (store s)
  else obeys (TaxPolicy p) (GetTaxRate (store s)) (GetTaxRate (store s')) /\
       obeys (RewardPolicy p) (GetRewardWeight (store s)) (GetRewardWeight (store s')) /\
       forall d, TaxCaps (store s') !! d =
         if decide (d ∈ Whitelist (env s)) then new_cap (env s) cap d (TaxCaps (store s) !! d)
         else TaxCaps (store s) !! d.
Proof using Type*.
  intros p cap Ht Hr Hnd El R. apply EndBlocker_last in R as (s1 & R1 & R2); [|done].
  apply BurnCoinsFromBurnAccount_burned in R1 as [_ _ (Est & Een & _)].
  apply end_epoch_Ret in R2 as (tr & sr & st & [_ Hp -> _]). rewrite Est, Een in Hp.
  unfold policies in Hp. cbn [KParams SetSR SetEpochTaxProceeds SetTR SetTSL set_srs set_proceeds set_trs
    set_tsls] in Hp. fold p in Hp. destruct (probation ctx p); [by subst st|].
  destruct Hp as (rate & weight & caps & Hrate & Hweight & -> & Hcaps). split; [done|].
  apply next_tax_rate_clamped in Hrate as (n1 & ->); [|done].
  apply next_reward_weight_clamped in Hweight as (n2 & ->); [|done].
  split_and!; [by apply clamped_obeys|by apply clamped_obeys|]. intros d. by apply Hcaps.
Qed.

(** C18. Policies at the end of an epoch. In the probation period tax rate, reward
    weight and caps do not change. Afterwards tax rate and reward weight obey
    their policies: they lie in the policy's range, and move by at most one step
    when they were in range (the code clamps the step first and the range last;
    the spec prints the other order, see the findings). The cap of a whitelisted
    denom other than the policy's own becomes the policy's cap at the market
    price, rounded down, when the market has a price for it; every other cap
    stays. *)
Theorem epoch_policies ctx (s s' : St) :
  let p := KParams (store s) in
  let cap := mkDecCoin (Denom (Cap (TaxPolicy p))) (NewDec (Amount (Cap (TaxPolicy p)))) in
  policy_ok (TaxPolicy p) -> policy_ok (RewardPolicy p) -> NoDup (Whitelist (env s)) ->
  IsPeriodLastBlock ctx BlocksPerWeek = Ok true -> EndBlocker ctx s = Ret tt s' ->
  KParams (store s') = p /\
  if probation ctx p
  then GetTaxRate (store s') = GetTaxRate (store s) /\
       GetRewardWeight (store s') = GetRewardWeight (store s) /\
       TaxCaps (store s') = TaxCaps (store s)
  else obeys (TaxPolicy p) (GetTaxRate (store s)) (GetTaxRate (store s')) /\
       obeys (RewardPolicy p) (GetRewardWeight (store s)) (GetRewardWeight (store s')) /\
       forall d, TaxCaps (store s') !! d =
         if decide (d ∈ Whitelist (env s)) then new_cap (env s) cap d (TaxCaps (store s) !! d)
         else TaxCaps (store s) !! d.
Proof using Type*. intros p cap. by apply end_block_policies. Qed.
(** ** Issuance and seigniorage *)

Lemma issued_amt (s : St) : ValidateDenom MicroLunaDenom = true ->
  NoDup (Whitelist (env s)) -> MicroLunaDenom ∉ Whitelist (env s) ->
  Coins_AmountOf (issued s) MicroLunaDenom = supply (bank s) MicroLunaDenom.
Proof using Type*.
  intros Hv Hnd Hni. unfold issued. set (l := _ :: _).
  assert (Denom <$> l = MicroLunaDenom :: Whitelist (env s)) as Hden.
  { unfold l. cbn [fmap list_fmap]. rewrite GetSupply_denom. f_equal. rewrite <- list_fmap_compose.
    rewrite (list_fmap_ext _ id); [by rewrite list_fmap_id|]. intros i x _. apply GetSupply_denom. }
  assert (coins_sorted (Coins_Sort l)) as Hs.
  { apply Coins_Sort_strict. rewrite Hden. by constructor. }
  rewrite Coins_AmountOf_spec by done. unfold amt. rewrite (Coins_Sort_perm l). unfold l.
  rewrite zsum_cons, GetSupply_denom, decide_True by done.
  rewrite (zsum_ext _ (fun _ => 0)), zsum_0; [unfold supply; lia|].
  intros c (d & -> & Hd)%list_elem_of_fmap. rewrite GetSupply_denom, decide_False; [done|]. by intros ->.
Qed.

(** C19. The books of an epoch: its last block stores the indicators of the epoch
    that ends (tax proceeds and weighted seigniorage in SDR, bonded stake), touches
    no other epoch's, resets the proceeds, and records the Luna supply: from then
    on the seigniorage is exactly the drop of the supply below that record, and
    never negative. *)
Theorem epoch_books ctx (s s' : St) :
  ValidateDenom MicroLunaDenom = true ->
  NoDup (Whitelist (env s)) -> MicroLunaDenom ∉ Whitelist (env s) ->
  IsPeriodLastBlock ctx BlocksPerWeek = Ok true -> EndBlocker ctx s = Ret tt s' ->
  (exists s1 tr sr, burned s s1 /\ indicators s1 tr sr /\
     TRs (store s') = <[GetEpoch ctx := tr]> (TRs (store s)) /\
     SRs (store s') = <[GetEpoch ctx := sr]> (SRs (store s)) /\
     TSLs (store s') = <[GetEpoch ctx := TotalBondedTokens (staking s)]> (TSLs (store s)) /\
     bank s' = bank s1) /\
  PeekEpochTaxProceeds (store s') = [] /\
  forall later : St, EpochInitialIssuance (store later) = EpochInitialIssuance (store s') ->
    let drop := supply (bank s') MicroLunaDenom - supply (bank later) MicroLunaDenom in
    int_fits drop = true -> PeekEpochSeigniorage later = Ok (Z.max 0 drop).
Proof using Type*.
  intros Hv Hnd Hni El R. apply EndBlocker_last in R as (s1 & R1 & R2); [|done].
  apply BurnCoinsFromBurnAccount_burned in R1 as Hb. destruct Hb as [_ _ (Est & Een & Ess & _)].
  apply BurnCoinsFromBurnAccount_burned in R1.
  apply end_epoch_Ret in R2 as (tr & sr & st & [Hi Hp Hst (_ & Eb & _)]).
  assert (TRs st = <[GetEpoch ctx := tr]> (TRs (store s)) /\
    SRs st = <[GetEpoch ctx := sr]> (SRs (store s)) /\
    TSLs st = <[GetEpoch ctx := TotalBondedTokens (staking s)]> (TSLs (store s)) /\
    TaxProceeds st = Some []) as (E1 & E2 & E3 & E4).
  { unfold policies in Hp. rewrite <- Est, <- Ess. destruct (probation _ _); [by subst st|].
    by destruct Hp as (rate & weight & caps & _ & _ & -> & _). }
  split_and!.
  - exists s1, tr, sr. rewrite Hst. by split_and!.
  - rewrite Hst. unfold PeekEpochTaxProceeds. cbn. by rewrite E4.
  - intros later Hl drop Hf. unfold PeekEpochSeigniorage, GetEpochInitialIssuance.
    rewrite Hl, Hst.
    change (default [] (EpochInitialIssuance (SetEpochInitialIssuance (issued s1) st))) with (issued s1).
    rewrite issued_amt by (by rewrite ?Een). rewrite Int_Sub_spec. unfold int_chk.
    rewrite <- Eb. fold (supply (bank later) MicroLunaDenom). fold drop. rewrite Hf. cbn [rbind].
    f_equal. destruct (Z.ltb_spec drop 0); lia.
Qed.

(** Minting or burning one kind of coin, none of it included. *)
Lemma NewCoins_amt c cs : NewCoins [c] = Ok cs ->
  coins_ok cs /\ Coins_IsValid cs = true /\ forall d, amt cs d = ind (Denom c = d) (Amount c).
Proof using Type*.
  rewrite NewCoins_single. destruct (ValidateDenom (Denom c)) eqn:Ev; [|done].
  destruct (Z.leb_spec 0 (Amount c)); [|done]. intros [= <-].
  assert (coins_ok (if Amount c =? 0 then [] else [c])) as Hok.
  { destruct (Z.eqb_spec (Amount c) 0); [split; constructor|]. split; repeat constructor; done || lia. }
  split_and!; [done|by apply Coins_IsValid_spec|]. intros d.
  destruct (Z.eqb_spec (Amount c) 0) as [E0|]; [|apply amt_one].
  rewrite E0. unfold ind. by destruct (decide _).
Qed.
Lemma NewCoin_Ok d a c : NewCoin d a = Ok c -> c = mkCoin d a /\ 0 <= a.
Proof using Type*.
  rewrite NewCoin_spec. destruct (ValidateDenom d); [|done]. simpl.
  destruct (Z.leb_spec 0 a); [|done]. by intros [= <-].
Qed.

(** Settling seigniorage: the epoch's seigniorage is minted, the reward-weight
    share of it, rounded down, is burned again, and the rest moves to the
    distribution account and into the community pool; the Luna supply grows by
    exactly that rest, and no other balance changes. *)
Theorem SettleSeigniorage_correct distribution (s s' : St) seigniorage :
  let pool := damt (GetCommunityPool (distr s)) MicroLunaDenom in
  let burn := Z.quot (GetRewardWeight (store s) * seigniorage) P18 in
  let rest := seigniorage - burn in
  decoins_ok (GetCommunityPool (distr s)) ->
  PeekEpochSeigniorage s = Ok seigniorage -> 0 < seigniorage ->
  SettleSeigniorage distribution s = Ret tt s' ->
  0 <= rest <= seigniorage /\
  (forall a d, bal (bank s') a d = bal (bank s) a d +
     ind (a = GetModuleAddress distribution /\ MicroLunaDenom = d) rest) /\
  (forall d, supply (bank s') d = supply (bank s) d + ind (MicroLunaDenom = d) rest) /\
  damt (GetCommunityPool (distr s')) MicroLunaDenom = pool + NewDec rest /\
  store s' = store s.
Proof using Type*.
  intros pool0 burn rest Hpool Hsg Hpos. unfold SettleSeigniorage. intros R.
  apply bind_Ret in R as (? & ? & [= <- <-] & R). cbn [id] in R.
  apply bind_Ret in R as (sg & ? & [Esg ->]%lift_Ret & R). rewrite Hsg in Esg. injection Esg as <-.
  destruct (Z.leb_spec seigniorage 0); [lia|].
  apply bind_Ret in R as (dc & ? & [Hdc ->]%lift_Ret & R).
  rewrite NewDecCoin_spec in Hdc. destruct (_ && _); [|done]. injection Hdc as <-.
  apply bind_Ret in R as ([sc sr] & ? & [Hsc ->]%lift_Ret & R).
  apply TruncateDecimal_Ok in Hsc as (Ed & _ & _ & _ & Ea & _). cbn [fst DDenom DAmount] in *.
  unfold NewDec in Ea. rewrite Z.div_mul in Ea by done. rewrite Ea in R.
  apply bind_Ret in R as (mc & ? & [Hmc ->]%lift_Ret & R).
  apply NewCoins_amt in Hmc as (Hmok & Hmv & Hma). rewrite Ed, Ea in Hma. rewrite Hmv in R.
  apply bind_Ret in R as (u & ? & R1 & R). rewrite must_Ret in R1. apply zoom_Ret in R1 as (b1 & R1 & ->).
  destruct u. apply mint_spec in R1 as [B1 S1]; [|done].
  apply bind_Ret in R as (w & ? & [Hw ->]%lift_Ret & R). rewrite Dec_MulInt_spec in Hw. sdk_inv.
  apply bind_Ret in R as (ba & ? & [Hba ->]%lift_Ret & R). rewrite Dec_TruncateInt_spec in Hba. sdk_inv.
  fold burn in R. apply bind_Ret in R as (bc & ? & [Hbc ->]%lift_Ret & R). apply NewCoin_Ok in Hbc as [-> Hbn].
  apply bind_Ret in R as (bcs & ? & [Hbcs ->]%lift_Ret & R).
  apply NewCoins_amt in Hbcs as (Hbok & Hbv & Hbam). rewrite Hbv in R. simpl in Hbam.
  apply bind_Ret in R as (u & ? & R2 & R). rewrite must_Ret in R2. apply zoom_Ret in R2 as (b2 & R2 & ->).
  destruct u. cbn [bank] in R2. apply burn_spec in R2 as [B2 S2]; [|done].
  apply bind_Ret in R as (la & ? & [Hla ->]%lift_Ret & R). rewrite Int_Sub_spec in Hla. sdk_inv.
  fold rest in R. apply bind_Ret in R as (lc & ? & [Hlc ->]%lift_Ret & R). apply NewCoin_Ok in Hlc as [-> Hln].
  apply bind_Ret in R as (lcs & ? & [Hlcs ->]%lift_Ret & R).
  apply NewCoins_amt in Hlcs as (Hlok & Hlv & Hlam). rewrite Hlv in R. simpl in Hlam.
  apply bind_Ret in R as (u & ? & R3 & R). rewrite must_Ret in R3. apply zoom_Ret in R3 as (b3 & R3 & ->).
  destruct u. cbn [bank] in R3. apply send_m2m in R3 as [B3 S3]; [|done].
  apply bind_Ret in R as (? & ? & [= <- <-] & R). cbn [distr] in R.
  apply bind_Ret in R as (ld & ? & [Hld ->]%lift_Ret & R).
  destruct (NewDecCoinsFromCoins_Ok lcs Hlok) as (ld' & El & Hldok & Hlda). rewrite Hld in El. injection El as <-.
  apply bind_Ret in R as (np & ? & [Hnp ->]%lift_Ret & R). apply zoom_Ret in R as (d' & Hd & ->).
  injection Hd as <-. cbn [bank distr store].
  split_and!; [unfold rest in *; lia|unfold rest in *; lia| | | |done].
  - intros a d. rewrite B3, B2, B1, Hma, Hbam, Hlam. rewrite <- ind_and. unfold rest, ind.
    repeat destruct (decide _); lia.
  - intros d. rewrite S3, S2, S1, Hma, Hbam. unfold rest, ind. destruct (decide _); lia.
  - rewrite GetCommunityPool_set.
    destruct (DecCoins_Add_cases _ _ (decoins_ok_weak _ Hpool) (decoins_ok_weak _ Hldok))
      as [[_ (c & Ec & _ & Hc)]|[Ec _]]; rewrite Hnp in Ec; [|done]. injection Ec as <-.
    rewrite Hc, Hlda, Hlam. unfold ind. rewrite decide_True by done. done.
Qed.
End Epoch.
End TreasuryEpoch.
