(* ===== verification/TreasuryGenesis.v ===== *)
(** * Treasury genesis: [x/treasury/genesis.go]

    Exporting the treasury and importing the result. *)

From S2P Require Import Prelude Sdk SdkRef Core TreasuryTypes Treasury TreasuryFacts TreasuryEpoch.

Module TreasuryGenesis.
Import TreasuryTypes Treasury TreasuryFacts TreasuryEpoch.

Section Genesis.
Context {E B SS DS : Type}.
Context `{SdkMathLaws, !SdkCoins, HV : MarketView E, HB : BankKeeper B, HS : StakingKeeper SS,
  HD : DistrKeeper DS}.
Abbreviation St := (State E B SS DS).

Definition with_store (s : St) (st : Store) : St :=
  mkState st (env s) (bank s) (staking s) (distr s) (events s).

Lemma mfor_on_store {X} (f : X -> Store -> Store) (step : X -> M St unit) l (s : St) :
  (forall x (s : St), step x s = Ret tt (with_store s (f x (store s)))) ->
  mfor l step s = Ret tt (with_store s (foldl (fun st x => f x st) (store s) l)).
Proof using Type.
  intros Hf. revert s. induction l as [|x l IH]; intros s; [by destruct s|].
  cbn [mfor foldl]. unfold bind. rewrite Hf, IH. done.
Qed.

Lemma foldl_caps (l : list (string * Int)) st :
  foldl (fun st cap => SetTaxCap cap.1 cap.2 st) st l =
  set_caps (foldl (fun m c => <[c.1 := c.2]> m) (TaxCaps st) l) st.
Proof using Type.
  revert st. induction l as [|c l IH]; intros st; [by destruct st|]. cbn [foldl]. by rewrite IH.
Qed.

(** One epoch's entries, as [InitGenesis] writes them. *)
Definition init_epoch (es : EpochState) (st : Store) : Store :=
  SetTSL (int64 (Epoch es)) (TotalStakedLuna es) (SetSR (int64 (Epoch es)) (SeigniorageReward es)
    (SetTR (int64 (Epoch es)) (TaxReward es) st)).

Definition epoch_state (s : Store) (e : nat) : EpochState :=
  mkEpochState (uint64 (Z.of_nat e)) (GetTR s (Z.of_nat e)) (GetSR s (Z.of_nat e)) (GetTSL s (Z.of_nat e)).

Lemma foldl_epochs (src : Store) n : Z.of_nat n <= 2^63 -> forall st,
  let st' := foldl (fun st es => init_epoch es st) st (epoch_state src <$> seq 0 n) in
  (exists trs srs tsls, st' = set_tsls tsls (set_srs srs (set_trs trs st))) /\
  forall e, 0 <= e < Z.of_nat n ->
    GetTR st' e = GetTR src e /\ GetSR st' e = GetSR src e /\ GetTSL st' e = GetTSL src e.
Proof using Type.
  induction n as [|n IH]; intros Hn st st'.
  - split; [exists (TRs st), (SRs st), (TSLs st); by destruct st|]. lia.
  - unfold st'. rewrite seq_S, fmap_app, foldl_app. cbn [fmap list_fmap foldl]. rewrite Nat.add_0_l.
    destruct (IH ltac:(lia) st) as [(trs & srs & tsls & E1) Hl]. revert Hl. rewrite E1. intros Hl.
    unfold init_epoch, epoch_state. cbn [Epoch TaxReward SeigniorageReward TotalStakedLuna].
    rewrite uint64_id, int64_id by lia. split; [by eexists _, _, _|]. intros e.
    unfold GetTR, GetSR, GetTSL in *. cbn [TRs SRs TSLs SetTSL SetSR SetTR set_tsls set_srs set_trs] in *.
    intros He. destruct (decide (e = Z.of_nat n)) as [->|Hne].
    + by rewrite !lookup_insert_eq.
    + rewrite !lookup_insert_ne by done. apply Hl. lia.
Qed.

(** The number of epochs an export covers. *)
Definition exported (ctx : Ctx) : nat :=
  Z.to_nat (if value (IsPeriodLastBlock ctx BlocksPerWeek) false then GetEpoch ctx + 1 else GetEpoch ctx).

Lemma exported_bound ctx : 0 <= BlockHeight ctx < 2^62 -> Z.of_nat (exported ctx) <= 2^63.
Proof using Type.
  intros Hh. assert (0 <= GetEpoch ctx < 2^62).
  { unfold GetEpoch. change (int64 BlocksPerWeek) with 100800.
    rewrite Z.quot_div_nonneg by lia. split; [apply Z.div_pos; lia|apply Z.div_lt_upper_bound; lia]. }
  unfold exported. destruct (value _ _); lia.
Qed.

Lemma ExportGenesis_Ok ctx (s : Store) :
  ExportGenesis ctx s = Ok (mkGenesis (KParams s) (GetTaxRate s) (GetRewardWeight s) (IterateTaxCap s)
    (PeekEpochTaxProceeds s) (GetEpochInitialIssuance s) (epoch_state s <$> seq 0 (exported ctx))).
Proof using Type. done. Qed.

(** What an import keeps of the exported treasury [src], for epochs below [n];
    [old] is the store the import started from. *)
Record reimported (n : nat) (src old new : Store) : Prop := {
  ri_params : KParams new = KParams src;
  ri_rate : GetTaxRate new = GetTaxRate src;
  ri_weight : GetRewardWeight new = GetRewardWeight src;
  ri_caps : TaxCaps new = TaxCaps src;
  ri_proceeds : PeekEpochTaxProceeds new = PeekEpochTaxProceeds src;
  ri_issuance : GetEpochInitialIssuance new = GetEpochInitialIssuance src;
  ri_epochs e : 0 <= e < Z.of_nat n ->
    GetTR new e = GetTR src e /\ GetSR new e = GetSR src e /\ GetTSL new e = GetTSL src e;
  ri_exempt : Exemptions new = Exemptions old }.

(** The store an import ends with, when it does not record the issuance anew. *)
Definition imported (g : GenesisState) (st : Store) : Store :=
  foldl (fun st es => init_epoch es st)
    (foldl (fun st cap => SetTaxCap cap.1 cap.2 st)
       (SetEpochInitialIssuance (GEpochInitialIssuance g) (SetEpochTaxProceeds (GTaxProceeds g)
          (SetRewardWeight (GRewardWeight g) (SetTaxRate (GTaxRate g) (set_params (GParams g) st)))))
       (GTaxCaps g)) (GEpochStates g).

Lemma bind_on_store {A} f (k : M St A) (s : St) :
  (do* on_store f in k) s = k (with_store s (f (store s))).
Proof using Type. done. Qed.
Lemma with_store_twice (s : St) st st' : with_store (with_store s st) st' = with_store s st'.
Proof using Type. done. Qed.

Lemma InitGenesis_imported g (s : St) : validate_param_set (GParams g) = Ok tt ->
  Coins_IsZero (GEpochInitialIssuance g) = false ->
  InitGenesis true g s = Ret tt (with_store s (imported g (store s))).
Proof using Type.
  intros Hv Hz. unfold InitGenesis, SetParams, imported. rewrite Hz. unfold bind at 1. cbn [gets id].
  rewrite Hv. unfold bind at 1. cbn [lift]. rewrite !bind_on_store, !with_store_twice. cbn [with_store store].
  unfold bind. rewrite (mfor_on_store (fun cap => SetTaxCap cap.1 cap.2)) by done.
  by rewrite (mfor_on_store init_epoch) by done.
Qed.

(** Export and import of the treasury: the export of any treasury whose
    parameters validate imports into a fresh one, which then has the same
    parameters, tax rate, reward weight, caps, proceeds, issuance and finished
    epochs, and exports to the same genesis.  The burn-tax exemption list is not
    part of the export: it stays as it was where the import happens. *)
Theorem treasury_genesis_roundtrip ctx (src : Store) (s0 : St) :
  0 <= BlockHeight ctx < 2^62 -> validate_param_set (KParams src) = Ok tt ->
  Coins_IsZero (GetEpochInitialIssuance src) = false -> TaxCaps (store s0) = ∅ ->
  exists g s', ExportGenesis ctx src = Ok g /\ InitGenesis true g s0 = Ret tt s' /\
    reimported (exported ctx) src (store s0) (store s') /\ ExportGenesis ctx (store s') = Ok g.
Proof using Type.
  intros Hh Hv Hz Hc. rewrite ExportGenesis_Ok. eexists _, _. split; [reflexivity|].
  split; [by apply InitGenesis_imported|]. cbn [with_store store]. unfold imported.
  cbn [GParams GTaxRate GRewardWeight GTaxCaps GTaxProceeds GEpochInitialIssuance GEpochStates].
  rewrite foldl_caps. set (st1 := set_caps _ _).
  destruct (foldl_epochs src (exported ctx) (exported_bound ctx Hh) st1)
    as [(trs & srs & tsls & Est) Hep]. rewrite Est in *. clear Est.
  assert (TaxCaps st1 = TaxCaps src) as Ecaps.
  { unfold st1. cbn [TaxCaps set_caps SetEpochInitialIssuance set_issuance SetEpochTaxProceeds set_proceeds
      SetRewardWeight set_weight SetTaxRate set_rate set_params]. rewrite Hc. apply foldl_copy_map, kv_iter_perm. }
  assert (reimported (exported ctx) src (store s0) (set_tsls tsls (set_srs srs (set_trs trs st1)))) as Hri.
  { by split. }
  split; [done|]. rewrite ExportGenesis_Ok. f_equal.
  destruct Hri as [-> -> -> _ -> -> He _]. f_equal.
  - unfold IterateTaxCap. cbn [TaxCaps set_tsls set_srs set_trs]. by rewrite Ecaps.
  - apply list_fmap_ext. intros i x [Ex Hx]%lookup_seq. unfold epoch_state.
    destruct (He (Z.of_nat x)) as (-> & -> & ->); [lia|done].
Qed.
End Genesis.
End TreasuryGenesis.
