(* ===== verification/TreasuryCommands.v ===== *)
(** * Exemption proposals from the command line, and the treasury's list query

    The two commands that submit burn-tax exemption proposals
    ([x/treasury/client/cli/gov_tx.go]) together with what governance does with
    the proposals, and the paginated list ([x/treasury/keeper/querier.go]). *)

From S2P Require Import Prelude Sdk SdkRef Core Pagination OracleTypes TreasuryTypes Treasury TreasuryFacts.

Module TreasuryCommands.
Import Pagination TreasuryTypes Treasury TreasuryFacts.

(** ** Commands *)

(** [sdk.ParseCoinsNormalized] and [MsgSubmitProposal.ValidateBasic] of the gov
    module, given the check of the content, deposit and proposer. *)
Class GovClient := {
  ParseDeposit : string -> res Coins;
  Submit_ValidateBasic : res unit -> Coins -> string -> res unit;
}.
Class GovClientLaws `{GovClient} : Prop :=
  Submit_checks_content c deposit from : Submit_ValidateBasic c deposit from = Ok tt -> c = Ok tt.

Record MsgSubmitProposal := mkSubmit { SContent : Content; InitialDeposit : Coins; Proposer : string }.

Definition cobra_args := Errorf "accepts 1 arg(s)".

Section Commands.
Context `{HA : Bech32, HG : GovAbstract, HC : GovClient}.

(** [--title], [--description], [--deposit]; [from] is the signer's address. *)
Definition submit (content : ExemptionProposal -> Content) (title description depositArg from : string)
    (args : list string) : res MsgSubmitProposal :=
  match args with
  | [arg] =>
      let addresses := OracleTypes.strings_Split arg in
      let! deposit := ParseDeposit depositArg in
      let p := mkProposal title description addresses in
      let msg := mkSubmit (content p) deposit from in
      let! _ := Submit_ValidateBasic (Proposal_ValidateBasic p) deposit from in
      Ok msg
  | _ => Err cobra_args
  end.
Definition ProposalAddBurnTaxExemptionAddressCmd := submit AddBurnTaxExemptionAddressProposal.
Definition ProposalRemoveBurnTaxExemptionAddressCmd := submit RemoveBurnTaxExemptionAddressProposal.
End Commands.

(** ** The list *)

Section Query.
Context `{HP : Paginator}.

(** Every key of the walk is appended, whether or not it belongs to the page. *)
Definition BurnTaxExemptionList (s : Store) (page : PageRequest) : res (list string * PageResponse) :=
  let! r := FilteredPaginate (kv_iter id (gset_to_gmap tt (Exemptions s))) page
    (fun key _ accumulate addresses => Ok (true, addresses ++ [key])) [] in
  Ok (r.2, r.1).

(** The addresses in the order of the store. *)
Definition listed (s : Store) : list string := (kv_iter id (gset_to_gmap tt (Exemptions s))).*1.

Lemma walk_all (offset limit : nat) total : forall (l : list (string * unit)) hits acc,
  (hits <= offset + limit)%nat \/ total = true ->
  paged (fun key _ (accumulate : bool) addresses => Ok (true, addresses ++ [key])) offset limit total hits l acc =
  Ok (acc ++ if total then l.*1 else take (S (offset + limit) - hits) l.*1).
Proof.
  induction l as [|[k u] l IH]; intros hits acc Hh; cbn [paged rbind fst snd].
  { destruct total; cbn; [|rewrite take_nil]; by rewrite app_nil_r. }
  rewrite fmap_cons. cbn [fst].
  destruct (Nat.eqb_spec (S hits) (S (offset + limit))) as [He|He]; destruct total; cbn [andb negb].
  - rewrite IH by by right. by rewrite <- app_assoc.
  - replace (S (offset + limit) - hits)%nat with 1%nat by lia. done.
  - rewrite IH by by right. by rewrite <- app_assoc.
  - rewrite IH by (left; destruct Hh; [lia|done]).
    replace (S (offset + limit) - hits)%nat with (S (S (offset + limit) - S hits)) by lia.
    cbn [take firstn]. by rewrite <- app_assoc.
Qed.

(** The page asked for is ignored: with the total the answer is the whole list,
    and without it everything from the start up to one entry past the page. *)
Lemma list_not_paged `{!PaginatorLaws} s offset limit total : (0 < limit)%nat ->
  Z.of_nat (offset + limit) < 2 ^ 63 ->
  exists res, BurnTaxExemptionList s (mkPage "" offset limit total false) =
    Ok (if total then listed s else take (S (offset + limit)) (listed s), res).
Proof.
  intros Hl Hb. unfold BurnTaxExemptionList.
  edestruct (FilteredPaginate_offset unit (list string)) as [r ->]; [done|done|apply walk_all; left; lia|].
  exists r. by destruct total.
Qed.
End Query.

(** ** From the command line to the store *)

Section Facts.
Context `{HA : Bech32, HG : GovAbstract, HC : GovClient, !Bech32Laws, !GovClientLaws}.

Definition valid_address (a : string) : Prop := exists b, AccAddressFromBech32 a = Ok b.

Lemma validated_addresses p : Proposal_ValidateBasic p = Ok tt -> Forall valid_address (Addresses p).
Proof using Type.
  unfold Proposal_ValidateBasic. intros (? & _ & R)%rbind_Ok.
  induction (Addresses p) as [|a l IH]; [done|]. cbn in R. apply rbind_Ok in R as (u & Ra & R).
  destruct (AccAddressFromBech32 a) as [b| |] eqn:E; [|done..]. injection Ra as <-.
  constructor; [by exists b|by apply IH].
Qed.

Lemma submit_inv content title description dep from arg msg :
  submit content title description dep from [arg] = Ok msg ->
  let p := mkProposal title description (OracleTypes.strings_Split arg) in
  SContent msg = content p /\ Proposer msg = from /\ Forall valid_address (Addresses p).
Proof using Type*.
  unfold submit. intros (deposit & _ & R)%rbind_Ok. apply rbind_Ok in R as ([] & Rv & [= <-]).
  split_and!; [done|done|]. by eapply validated_addresses, Submit_checks_content.
Qed.

Lemma add_runs title description l s : Forall valid_address l ->
  exists s', HandleAddBurnTaxExemptionAddressProposal (mkProposal title description l) s = Ok s'.
Proof using Type.
  unfold HandleAddBurnTaxExemptionAddressProposal. cbn [Addresses]. revert s.
  induction l as [|a l IH]; intros s Hl; [by eexists|]. apply Forall_cons in Hl as [[b Hb] Hl].
  cbn [rfold]. unfold AddBurnTaxExemptionAddress at 1. rewrite Hb. cbn [rbind]. by apply IH.
Qed.

Lemma remove_runs title description l s : Forall valid_address l -> NoDup l ->
  Forall (fun a => a ∈ Exemptions s) l ->
  exists s', HandleRemoveBurnTaxExemptionAddressProposal (mkProposal title description l) s = Ok s'.
Proof using Type.
  unfold HandleRemoveBurnTaxExemptionAddressProposal. cbn [Addresses]. revert s.
  induction l as [|a l IH]; intros s Hl Hn Hi; [by eexists|].
  apply Forall_cons in Hl as [[b Hb] Hl]. apply NoDup_cons in Hn as [Ha Hn]. apply Forall_cons in Hi as [Hia Hi].
  cbn [rfold]. unfold RemoveBurnTaxExemptionAddress at 1. rewrite Hb, bool_decide_eq_true_2 by done. cbn [rbind].
  apply IH; [done|done|]. apply Forall_forall. intros x Hx. rewrite Forall_forall in Hi. specialize (Hi x Hx).
  apply elem_of_difference. split; [done|]. intros ->%elem_of_singleton. done.
Qed.

Lemma remove_errs title description l s : Forall valid_address l ->
  match HandleRemoveBurnTaxExemptionAddressProposal (mkProposal title description l) s with
  | Ok _ => True | Err e => e = ErrNoSuchBurnTaxExemptionAddress | Panic => False
  end.
Proof using Type.
  unfold HandleRemoveBurnTaxExemptionAddressProposal. cbn [Addresses]. revert s.
  induction l as [|a l IH]; intros s Hl; [done|]. apply Forall_cons in Hl as [[b Hb] Hl].
  cbn [rfold]. unfold RemoveBurnTaxExemptionAddress at 1. rewrite Hb.
  destruct (bool_decide _); cbn [rbind]; [by apply IH|done].
Qed.

(** A proposal that one of the two commands submitted does what was typed when
    governance executes it.  An addition always succeeds and exempts exactly the
    comma-separated addresses on top of the present ones.  A removal succeeds
    exactly when the addresses are distinct and all exempt, and then takes exactly
    them off the list; it never panics.  Nothing else of the store changes. *)
Theorem submitted_proposals title description dep from arg msg (s : Store) :
  let addrs := OracleTypes.strings_Split arg in
  (ProposalAddBurnTaxExemptionAddressCmd title description dep from [arg] = Ok msg ->
     NewProposalHandler (SContent msg) s = Ok (set_exemptions (list_to_set addrs ∪ Exemptions s) s)) /\
  (ProposalRemoveBurnTaxExemptionAddressCmd title description dep from [arg] = Ok msg ->
     (NoDup addrs /\ Forall (fun a => a ∈ Exemptions s) addrs ->
        NewProposalHandler (SContent msg) s = Ok (set_exemptions (Exemptions s ∖ list_to_set addrs) s)) /\
     (~ (NoDup addrs /\ Forall (fun a => a ∈ Exemptions s) addrs) ->
        NewProposalHandler (SContent msg) s = Err ErrNoSuchBurnTaxExemptionAddress)).
Proof using Type*.
  intros addrs. split.
  - intros (-> & _ & Hv)%submit_inv. cbn [NewProposalHandler].
    destruct (add_runs title description addrs s Hv) as [s' R].
    unfold addrs in *. rewrite R. f_equal. by apply (exemption_proposals _ title description).
  - intros (-> & _ & Hv)%submit_inv. cbn [NewProposalHandler]. fold addrs in Hv |- *.
    pose proof (exemption_proposals addrs title description s) as [_ Hr]. split.
    + intros [Hn Hi]. destruct (remove_runs title description addrs s Hv Hn Hi) as [s' R].
      rewrite R. f_equal. by apply Hr.
    + intros Hno. pose proof (remove_errs title description addrs s Hv) as He.
      destruct (HandleRemoveBurnTaxExemptionAddressProposal _ s) as [s'|e|] eqn:R; [|by f_equal|done].
      destruct Hno. by apply (Hr s').
Qed.
End Facts.

(** ** Runs *)

Import Ref RefPaginator.

#[local] Instance demo_abstract : GovAbstract := fun _ _ => Ok tt.
#[local] Instance demo_gov : GovClient := {|
  ParseDeposit _ := Ok []; Submit_ValidateBasic c _ _ := c |}.
#[local] Instance demo_gov_laws : GovClientLaws.
Proof. by intros c deposit from. Qed.

Definition exempting (l : list string) : Store :=
  mkStore None None ∅ None None ∅ ∅ ∅ (list_to_set l) DefaultParams.

Lemma submitted_proposals_witness :
  (exists msg, ProposalAddBurnTaxExemptionAddressCmd "t" "d" "" "from" ["terra1aaaa,terra1bbbb"] = Ok msg /\
     NewProposalHandler (SContent msg) (exempting ["terra1cccc"]) =
     Ok (set_exemptions (list_to_set ["terra1aaaa"; "terra1bbbb"] ∪ {["terra1cccc"]} ∪ ∅) (exempting ["terra1cccc"]))) /\
  (exists msg, ProposalRemoveBurnTaxExemptionAddressCmd "t" "d" "" "from" ["terra1aaaa,terra1aaaa"] = Ok msg /\
     NewProposalHandler (SContent msg) (exempting ["terra1aaaa"]) = Err ErrNoSuchBurnTaxExemptionAddress).
Proof.
  split; (eexists; split; [vm_compute; reflexivity|]).
  - eapply (submitted_proposals "t" "d" "" "from" "terra1aaaa,terra1bbbb"). by vm_compute.
  - eapply (submitted_proposals "t" "d" "" "from" "terra1aaaa,terra1aaaa"); [by vm_compute|].
    intros [Hn _]. apply NoDup_cons in Hn as [Hn _]. apply Hn. by left.
Defined.

(** Two addresses, page of one: both are answered, on each page. *)
Example pages_repeat :
  (fst <$> match BurnTaxExemptionList (exempting ["terra1aaaa"; "terra1bbbb"]) (mkPage "" 1 1 true false) with
           | Ok r => Some r | _ => None end) = Some ["terra1aaaa"; "terra1bbbb"].
Proof. by vm_compute. Qed.
End TreasuryCommands.
