(* ===== verification/TreasuryOracle.v ===== *)
(** * The market and the oracle behind the treasury

    The market's internal swap over the oracle's store implements the interface
    the treasury reads; a concrete treasury on top of it. *)

From S2P Require Import Prelude Sdk SdkRef Core OracleTypes OracleKeeper OracleRef Market MarketFacts MarketOracle TreasuryTypes Treasury TreasuryFacts TreasuryEpoch TreasuryGenesis.

Module TreasuryOracle.
Import TreasuryTypes Treasury TreasuryFacts TreasuryEpoch TreasuryGenesis MarketOracle.

#[export] Instance market_view `{SdkMath, SdkCoins} : MarketView OracleKeeper.Store := {|
  ComputeInternalSwap := Market.ComputeInternalSwap;
  Treasury.Whitelist s := OracleTypes.Name <$> OracleTypes.Whitelist (OracleKeeper.KParams s) |}.

#[export] Instance market_view_laws `{SdkMathLaws, !SdkCoins, !SdkCoinsLaws} :
  MarketViewLaws OracleKeeper.Store.
Proof.
  split. intros o c d r [[? ->]|(_ & ? & _)]%MarketFacts.ComputeInternalSwap_Ok; done.
Qed.

(** ** A concrete treasury *)

Import Ref OracleRef.

Abbreviation St := (State OracleKeeper.Store RefBank RefStaking RefDistr).

Definition burn_address : string := module_address BurnModuleName.
Definition treasury_store : Store := {|
  TaxRate := Some DefaultTaxRate; RewardWeight := Some DefaultRewardWeight;
  TaxCaps := {[ MicroKRWDenom := 7 ]};
  TaxProceeds := Some [mkCoin MicroKRWDenom 3000; mkCoin MicroSDRDenom 1000];
  EpochInitialIssuance := Some [mkCoin MicroLunaDenom (10 ^ 16 + 5000000)];
  TRs := {[ 19 := NewDec 4 ]}; SRs := {[ 19 := NewDec 2 ]}; TSLs := {[ 19 := 60000000 ]};
  Exemptions := {[ valA ]}; KParams := DefaultParams |}.
Definition treasury_bank : RefBank :=
  mkBank {[ burn_address := {[ MicroLunaDenom := 1000000; MicroSDRDenom := 10 ]} ]}
    {[ MicroLunaDenom := 10 ^ 16; MicroSDRDenom := 10 ^ 10 ]} ∅.
Definition treasury_state : St :=
  mkState treasury_store demo_oracle treasury_bank demo_staking (mkDistr ∅ []) [].

(** A block inside of week 20 and the last one of it. *)
Definition mid_ctx : Ctx := mkCtx (20 * BlocksPerWeek) 0 "columbus-5".
Definition last_ctx : Ctx := mkCtx (21 * BlocksPerWeek - 1) 0 "columbus-5".

Definition mid_after : St := final (EndBlocker mid_ctx treasury_state) treasury_state.
Definition last_after : St := final (EndBlocker last_ctx treasury_state) treasury_state.

Lemma mid_returns : EndBlocker mid_ctx treasury_state = Ret tt mid_after.
Proof. apply returned_final. by vm_compute. Qed.
Lemma last_returns : EndBlocker last_ctx treasury_state = Ret tt last_after.
Proof. apply returned_final. by vm_compute. Qed.

Lemma burn_account_emptied_witness : burned treasury_state mid_after.
Proof.
  apply (burn_account_emptied mid_ctx treasury_state mid_after); [by vm_compute|apply mid_returns].
Defined.

Lemma demo_policy_ok : policy_ok DefaultTaxPolicy /\ policy_ok DefaultRewardPolicy.
Proof. split; split; vm_compute; discriminate. Qed.
Lemma demo_whitelist : NoDup (Whitelist (env treasury_state)) /\
  MicroLunaDenom ∉ Whitelist (env treasury_state).
Proof. split; apply (bool_decide_unpack _); by vm_compute. Qed.

Lemma epoch_policies_witness :
  obeys DefaultTaxPolicy DefaultTaxRate (GetTaxRate (store last_after)) /\
  obeys DefaultRewardPolicy DefaultRewardWeight (GetRewardWeight (store last_after)).
Proof.
  destruct demo_policy_ok as [Ht Hr]. destruct demo_whitelist as [Hw _].
  assert (IsPeriodLastBlock last_ctx BlocksPerWeek = Ok true) as El by (by vm_compute).
  destruct (epoch_policies last_ctx treasury_state last_after Ht Hr Hw El last_returns) as [_ Hp].
  change (probation last_ctx (KParams (store treasury_state))) with false in Hp.
  destruct Hp as (H1 & H2 & _). exact (conj H1 H2).
Defined.

(** The tax rate moves by one step; the cap in won is one SDR in won, rounded down. *)
Example epoch_numbers :
  GetTaxRate (store last_after) = NewDecWithPrec 75 5 /\
  GetTaxCap (store last_after) MicroKRWDenom = 1499999999 /\
  GetTSL (store last_after) 20 = 60000000.
Proof. vm_compute. done. Qed.

Lemma epoch_books_witness :
  PeekEpochTaxProceeds (store last_after) = [] /\
  TSLs (store last_after) = <[20 := 60000000]> {[ 19 := 60000000 ]}.
Proof.
  destruct demo_whitelist as [Hw Hl].
  assert (IsPeriodLastBlock last_ctx BlocksPerWeek = Ok true) as El by (by vm_compute).
  assert (ValidateDenom MicroLunaDenom = true) as Hv by (by vm_compute).
  destruct (epoch_books last_ctx treasury_state last_after Hv Hw Hl El last_returns)
    as [(s1 & tr & sr & _ & _ & _ & _ & Ht & _) [Hp _]].
  exact (conj Hp Ht).
Defined.

Definition settle_after : St :=
  final (SettleSeigniorage distrName treasury_state) treasury_state.

Lemma SettleSeigniorage_correct_witness :
  bal (bank settle_after) (module_address distrName) MicroLunaDenom = 4750000 /\
  supply (bank settle_after) MicroLunaDenom = 10 ^ 16 + 4750000.
Proof.
  assert (SettleSeigniorage distrName treasury_state = Ret tt settle_after) as R.
  { apply returned_final. by vm_compute. }
  destruct (SettleSeigniorage_correct distrName treasury_state settle_after 5000000) as (_ & Hb & Hs & _);
    [split; constructor|by vm_compute|done|exact R|].
  rewrite Hb, Hs. split; by vm_compute.
Defined.

Lemma treasury_genesis_roundtrip_witness : exists g s',
  ExportGenesis last_ctx treasury_store = Ok g /\
  InitGenesis true g (mkState (mkStore None None ∅ None None ∅ ∅ ∅ ∅ DefaultParams) demo_oracle
    treasury_bank demo_staking (mkDistr ∅ []) [] : St) = Ret tt s' /\
  reimported 21 treasury_store (mkStore None None ∅ None None ∅ ∅ ∅ ∅ DefaultParams) (store s') /\
  ExportGenesis last_ctx (store s') = Ok g.
Proof.
  apply (treasury_genesis_roundtrip last_ctx treasury_store); [by vm_compute|by vm_compute|by vm_compute|done].
Defined.

Lemma proceeds_accumulate_witness : exists s',
  rfold (fun s t => RecordEpochTaxProceeds t s) (set_proceeds [] treasury_store)
    [[mkCoin MicroSDRDenom 5]; []; [mkCoin MicroSDRDenom 7]] = Ok s' /\
  amt (PeekEpochTaxProceeds s') MicroSDRDenom = 12.
Proof.
  destruct (proceeds_accumulate [[mkCoin MicroSDRDenom 5]; []; [mkCoin MicroSDRDenom 7]]
    (set_proceeds [] treasury_store)) as (s' & R & _ & Ha).
  - split; constructor.
  - repeat constructor.
  - intros d. apply int_fits_small. change (PeekEpochTaxProceeds _) with ([] : Coins).
    rewrite !zsum_cons, zsum_nil, !amt_one. change (amt [] d) with 0. unfold ind.
    cbn [Denom Amount]. destruct (decide _); lia.
  - exists s'. split; [exact R|]. rewrite Ha. by vm_compute.
Defined.
End TreasuryOracle.
