(* ===== verification/TaxExemption.v ===== *)
(** * Tax exemption zones: [x/taxexemption]

    Zones with their rules, the addresses assigned to them, the decision whether
    a transfer is exempt from the burn tax, the governance messages, genesis and
    the [Taxable] query. *)

From S2P Require Import Prelude Sdk Core.

Module TaxExemption.

Definition ModuleName : string := "taxexemption".
Definition ErrNoSuchTaxExemptionZone := Registered ModuleName 1.
Definition ErrZoneNotExist := Registered ModuleName 3.
Definition ErrZoneLengthInvalid := Registered ModuleName 4.
Definition ErrInvalidSigner := SdkError "invalid signer".
Definition ErrInvalidAddress := SdkError "invalid address".
Definition ErrUnknownRequest := SdkError "unknown request".

(** ** Data *)

Record Zone := mkZone { ZName : string; Outgoing : bool; Incoming : bool; CrossZone : bool }.

#[export] Instance zone_eq_dec : EqDecision Zone.
Proof. solve_decision. Defined.

(** The zones by name and the zone name of each address; both prefixes of the
    store are keyed by the plain bytes of the name and of the address. *)
Record Store := mkStore { Zones : gmap string Zone; Members : gmap string string }.
Abbreviation XM := (M Store).

Definition set_zones (z : gmap string Zone) (s : Store) : Store := mkStore z (Members s).
Definition set_members (m : gmap string string) (s : Store) : Store := mkStore (Zones s) m.

(** ** Zones ([keeper.go]) *)

Definition ErrEmptyZone := Errorf "zone name cannot be empty".

Definition GetTaxExemptionZone (s : Store) (zoneName : string) : res Zone :=
  if String.eqb zoneName "" then Err ErrEmptyZone
  else match Zones s !! zoneName with
       | Some zone => Ok zone
       | None => Err ErrNoSuchTaxExemptionZone
       end.

Definition AddTaxExemptionZone (zone : Zone) : XM unit :=
  if String.eqb (ZName zone) "" then fail ErrEmptyZone
  else modify (fun s => set_zones (<[ZName zone := zone]> (Zones s)) s).

Definition ModifyTaxExemptionZone (zone : Zone) : XM unit :=
  if String.eqb (ZName zone) "" then fail ErrEmptyZone
  else
    let* s := gets id in
    match Zones s !! ZName zone with
    | None => fail ErrNoSuchTaxExemptionZone
    | Some _ => modify (fun s => set_zones (<[ZName zone := zone]> (Zones s)) s)
    end.

Section Keeper.
Context `{Bech32}.

(** ** Addresses *)

Definition AddTaxExemptionAddress (zone address : string) : XM unit :=
  let* _ := lift (AccAddressFromBech32 address) in
  let* s := gets id in
  match Zones s !! zone with
  | None => fail ErrNoSuchTaxExemptionZone
  | Some _ =>
      match Members s !! address with
      | Some existingZone =>
          if String.eqb existingZone zone then ret tt
          else fail (Errorf "address is already associated with a different zone")
      | None => modify (fun s => set_members (<[address := zone]> (Members s)) s)
      end
  end.

Definition RemoveTaxExemptionAddress (zone address : string) : XM unit :=
  let* _ := lift (AccAddressFromBech32 address) in
  let* s := gets id in
  match Members s !! address with
  | None => fail (Errorf "address is not associated with any zone")
  | Some z =>
      if String.eqb z zone then modify (fun s => set_members (delete address (Members s)) s)
      else fail (Errorf "address is associated with a different zone")
  end.

(** A call whose error is dropped. *)
Definition ignore_err (c : XM unit) : XM unit := fun s =>
  match c s with Fail _ s' => Ret tt s' | o => o end.

Definition RemoveTaxExemptionZone (zoneName : string) : XM unit :=
  if String.eqb zoneName "" then fail ErrEmptyZone
  else
    let* s := gets id in
    match Zones s !! zoneName with
    | None => fail ErrNoSuchTaxExemptionZone
    | Some _ =>
        do* mfor (kv_iter id (Members s)) (fun e =>
              ignore_err (RemoveTaxExemptionAddress zoneName e.1)) in
        modify (fun s => set_zones (delete zoneName (Zones s)) s)
    end.

(** ** The decision *)

(** The zone of an address and the cache of the zones looked up so far; an
    address whose zone does not exist counts as one without a zone. *)
Definition checkAndCacheZone (s : Store) (address : string) (zoneCache : gmap string Zone)
    : option Zone * gmap string Zone :=
  match Members s !! address with
  | None => (None, zoneCache)
  | Some zoneName =>
      match zoneCache !! zoneName with
      | Some zone => (Some zone, zoneCache)
      | None =>
          match GetTaxExemptionZone s zoneName with
          | Ok zone => (Some zone, <[zoneName := zone]> zoneCache)
          | _ => (None, zoneCache)
          end
      end
  end.

(** The checks of one recipient: [true] to go on, [false] to return false. *)
Definition recipient_ok (senderZone recipientZone : option Zone) : bool :=
  match senderZone, recipientZone with
  | None, None => false
  | Some sz, Some rz =>
      if negb (String.eqb (ZName sz) (ZName rz)) then
        negb ((negb (Outgoing sz) || negb (CrossZone sz)) && (negb (Incoming rz) || negb (CrossZone rz)))
      else true
  | Some sz, None => Outgoing sz
  | None, Some rz => Incoming rz
  end.

Fixpoint check_recipients (s : Store) (senderZone : option Zone) (zoneCache : gmap string Zone)
    (recipientAddresses : list string) : bool :=
  match recipientAddresses with
  | [] => true
  | address :: rest =>
      let '(recipientZone, zoneCache) := checkAndCacheZone s address zoneCache in
      if recipient_ok senderZone recipientZone then check_recipients s senderZone zoneCache rest
      else false
  end.

Definition IsExemptedFromTax (s : Store) (senderAddress : string) (recipientAddresses : list string)
    : bool :=
  let '(senderZone, zoneCache) := checkAndCacheZone s senderAddress ∅ in
  check_recipients s senderZone zoneCache recipientAddresses.

(** [Taxable] ([querier.go]) *)
Definition query_taxable (s : Store) (req : option (string * string)) : res bool :=
  match req with
  | None => Err ErrUnknownRequest
  | Some (from, to) => Ok (negb (IsExemptedFromTax s from [to]))
  end.

(** ** Messages ([types/msgs.go], [msg_server.go]) *)

Inductive Msg :=
  | MsgAddTaxExemptionZone (Authority zone : string) (outgoing incoming crossZone : bool)
      (addresses : list string)
  | MsgRemoveTaxExemptionZone (Authority zone : string)
  | MsgModifyTaxExemptionZone (Authority zone : string) (outgoing incoming crossZone : bool)
  | MsgAddTaxExemptionAddress (Authority zone : string) (addresses : list string)
  | MsgRemoveTaxExemptionAddress (Authority zone : string) (addresses : list string).

Definition empty_zone (zone : string) : res unit :=
  if (String.length zone =? 0)%nat then Err (Errorf "zone cannot be empty") else Ok tt.
Definition empty_addresses (addresses : list string) : res unit :=
  if (length addresses =? 0)%nat then Err (Errorf "addresses cannot be empty") else Ok tt.

Definition AddZone_ValidateBasic (zone : string) (addresses : list string) : res unit :=
  let! _ := empty_zone zone in empty_addresses addresses.
Definition RemoveZone_ValidateBasic (authority zone : string) : res unit :=
  match AccAddressFromBech32 authority with
  | Ok _ => empty_zone zone
  | Err _ => Err ErrInvalidAddress
  | Panic => Panic
  end.
Definition ModifyZone_ValidateBasic (zone : string) : res unit := empty_zone zone.
Definition AddAddress_ValidateBasic (zone : string) (addresses : list string) : res unit :=
  let! _ := empty_zone zone in empty_addresses addresses.
Definition RemoveAddress_ValidateBasic (zone : string) (addresses : list string) : res unit :=
  let! _ := empty_zone zone in empty_addresses addresses.

Definition ValidateBasic (msg : Msg) : res unit :=
  match msg with
  | MsgAddTaxExemptionZone _ zone _ _ _ addresses => AddZone_ValidateBasic zone addresses
  | MsgRemoveTaxExemptionZone authority zone => RemoveZone_ValidateBasic authority zone
  | MsgModifyTaxExemptionZone _ zone _ _ _ => ModifyZone_ValidateBasic zone
  | MsgAddTaxExemptionAddress _ zone addresses => AddAddress_ValidateBasic zone addresses
  | MsgRemoveTaxExemptionAddress _ zone addresses => RemoveAddress_ValidateBasic zone addresses
  end.

(** Every handler first compares the authorities. *)
Definition authorized (authority a : string) (c : XM unit) : XM unit :=
  if negb (String.eqb authority a) then fail ErrInvalidSigner else c.

Section Handlers.
(** The address of the governance module. *)
Context (authority : string).

Definition server_AddTaxExemptionZone (a zone : string) (outgoing incoming crossZone : bool)
    (addresses : list string) : XM unit :=
  authorized authority a
    (do* AddTaxExemptionZone (mkZone zone outgoing incoming crossZone) in
     mfor addresses (fun address => AddTaxExemptionAddress zone address)).
Definition server_RemoveTaxExemptionZone (a zone : string) : XM unit :=
  authorized authority a (RemoveTaxExemptionZone zone).
Definition server_ModifyTaxExemptionZone (a zone : string) (outgoing incoming crossZone : bool)
    : XM unit :=
  authorized authority a (ModifyTaxExemptionZone (mkZone zone outgoing incoming crossZone)).
Definition server_AddTaxExemptionAddress (a zone : string) (addresses : list string) : XM unit :=
  authorized authority a (mfor addresses (fun address => AddTaxExemptionAddress zone address)).
Definition server_RemoveTaxExemptionAddress (a zone : string) (addresses : list string) : XM unit :=
  authorized authority a (mfor addresses (fun address => RemoveTaxExemptionAddress zone address)).

Definition handle (msg : Msg) : XM unit :=
  match msg with
  | MsgAddTaxExemptionZone a zone o i x addresses => server_AddTaxExemptionZone a zone o i x addresses
  | MsgRemoveTaxExemptionZone a zone => server_RemoveTaxExemptionZone a zone
  | MsgModifyTaxExemptionZone a zone o i x => server_ModifyTaxExemptionZone a zone o i x
  | MsgAddTaxExemptionAddress a zone addresses => server_AddTaxExemptionAddress a zone addresses
  | MsgRemoveTaxExemptionAddress a zone addresses => server_RemoveTaxExemptionAddress a zone addresses
  end.
End Handlers.

(** ** Genesis ([genesis.go]) *)

Record AddressesByZone := mkByZone { BZone : string; BAddresses : list string }.
Record GenesisState := mkGenesis { ZoneList : list Zone; ByZone : list AddressesByZone }.

Definition DefaultGenesisState : GenesisState := mkGenesis [] [].

Definition ValidateGenesis (data : GenesisState) : res unit :=
  if negb (length (ZoneList data) =? length (ByZone data))%nat then Err ErrZoneLengthInvalid
  else
    rfold (fun _ bz =>
      if negb (bool_decide (BZone bz ∈ ZName <$> ZoneList data)) then Err ErrZoneNotExist
      else rfold (fun _ address => let! _ := AccAddressFromBech32 address in Ok tt) tt (BAddresses bz))
      tt (ByZone data).

Definition InitGenesis (data : GenesisState) : XM unit :=
  do* mfor (ZoneList data) (fun zone => ignore_err (AddTaxExemptionZone zone)) in
  mfor (ByZone data) (fun bz =>
    mfor (BAddresses bz) (fun address => ignore_err (AddTaxExemptionAddress (BZone bz) address))).

(** The addresses of each zone, in store order; members of unknown zones are
    dropped.  The zone names are sorted, so the order in which Go ranges over
    the map does not matter. *)
Definition zone_addresses (s : Store) : gmap string (list string) :=
  foldl (fun m e =>
    match m !! e.2 with Some l => <[e.2 := l ++ [e.1]]> m | None => m end)
    (foldl (fun m z => <[ZName z := []]> m) ∅ ((kv_iter id (Zones s)).*2))
    (kv_iter id (Members s)).

Definition ExportGenesis (s : Store) : res GenesisState :=
  let state := mkGenesis ((kv_iter id (Zones s)).*2)
    ((fun e => mkByZone e.1 e.2) <$> kv_iter id (zone_addresses s)) in
  match ValidateGenesis state with Ok _ => Ok state | _ => Panic end.
End Keeper.
End TaxExemption.
