(* ===== verification/TaxExemptionFacts.v ===== *)
(** * What exemption zones promise

    The invariant of the zone store, the meaning of an exemption, the removal of
    a zone, and genesis. *)

From S2P Require Import Prelude Sdk SdkRef Core TaxExemption.

Module TaxExemptionFacts.
Import TaxExemption.

Section Facts.
Context `{Bech32}.

(** ** The decision without its cache *)

Definition zone_of (s : Store) (address : string) : option Zone :=
  n ← Members s !! address; if String.eqb n "" then None else Zones s !! n.

(** A cache that agrees with the store. *)
Definition cache_ok (s : Store) (cache : gmap string Zone) : Prop :=
  map_Forall (fun n z => GetTaxExemptionZone s n = Ok z) cache.

Lemma checkAndCacheZone_spec s a cache : cache_ok s cache ->
  (checkAndCacheZone s a cache).1 = zone_of s a /\ cache_ok s (checkAndCacheZone s a cache).2.
Proof using Type.
  intros Hc. unfold checkAndCacheZone, zone_of. destruct (Members s !! a) as [n|]; [|done].
  change ((Some n : option string) ≫= _) with (if String.eqb n "" then None else Zones s !! n).
  destruct (cache !! n) as [z|] eqn:Ez.
  - apply Hc in Ez. unfold GetTaxExemptionZone in Ez. split; [|done].
    destruct (String.eqb n ""); [done|]. destruct (Zones s !! n); [|done]. by injection Ez as ->.
  - destruct (GetTaxExemptionZone s n) as [z| |] eqn:Eg; unfold GetTaxExemptionZone in Eg.
    + destruct (String.eqb n "") eqn:En; [done|]. destruct (Zones s !! n) as [z'|] eqn:Ezn; [|done].
      injection Eg as ->. split; [done|]. apply map_Forall_insert_2; [|done].
      unfold GetTaxExemptionZone. by rewrite En, Ezn.
    + destruct (String.eqb n ""); [done|]. by destruct (Zones s !! n).
    + destruct (String.eqb n ""); [done|]. by destruct (Zones s !! n).
Qed.

Lemma IsExemptedFromTax_eq s sender rs :
  IsExemptedFromTax s sender rs = forallb (fun r => recipient_ok (zone_of s sender) (zone_of s r)) rs.
Proof using Type.
  unfold IsExemptedFromTax. pose proof (checkAndCacheZone_spec s sender ∅) as Hs.
  destruct (checkAndCacheZone s sender ∅) as [sz cache].
  destruct Hs as [Esz Hc]; [apply map_Forall_empty|]. cbn [fst snd] in *. rewrite <- Esz. clear Esz.
  revert cache Hc. induction rs as [|r rs IH]; intros cache Hc; [done|]. cbn [check_recipients forallb].
  pose proof (checkAndCacheZone_spec s r cache Hc) as Hr.
  destruct (checkAndCacheZone s r cache) as [rz cache']. destruct Hr as [Erz Hc']. cbn [fst snd] in *.
  rewrite <- Erz. destruct (recipient_ok sz rz); [|done]. by apply IH.
Qed.

(** The rules in words. *)
Definition exempt (s : Store) (sender recipient : string) : Prop :=
  match zone_of s sender, zone_of s recipient with
  | None, None => False
  | Some z, None => Outgoing z = true
  | None, Some z => Incoming z = true
  | Some z1, Some z2 => ZName z1 = ZName z2 \/
      (Outgoing z1 = true /\ CrossZone z1 = true) \/ (Incoming z2 = true /\ CrossZone z2 = true)
  end.

Lemma recipient_ok_exempt s a b : recipient_ok (zone_of s a) (zone_of s b) = true <-> exempt s a b.
Proof using Type.
  unfold recipient_ok, exempt. destruct (zone_of s a) as [z1|], (zone_of s b) as [z2|]; try done.
  destruct (String.eqb_spec (ZName z1) (ZName z2)) as [En|Hne]; cbn [negb]; [naive_solver|].
  destruct (Outgoing z1), (CrossZone z1), (Incoming z2), (CrossZone z2); naive_solver.
Qed.

(** C35. When a transfer is exempt: a transfer is exempt from the burn tax exactly
    when it is exempt towards every recipient: within one zone always, between two
    zones when the sender's zone allows outgoing or the recipient's zone incoming
    cross-zone transfers, from or to a zone when that zone allows outgoing or
    incoming transfers, and never between addresses without zones.  The cache of
    zones does not change the answer. *)
Theorem exemption_rules s sender recipients :
  IsExemptedFromTax s sender recipients = true <->
  Forall (fun r => exempt s sender r) recipients.
Proof using Type.
  rewrite IsExemptedFromTax_eq, forallb_forall, Forall_forall.
  by setoid_rewrite list_elem_of_In; setoid_rewrite recipient_ok_exempt.
Qed.

(** ** The invariant *)

(** Zones are filed under their names, and members are addresses in zones that
    exist. *)
Record inv (s : Store) : Prop := {
  inv_zones : map_Forall (fun n z => ZName z = n /\ n <> "") (Zones s);
  inv_members : map_Forall (fun a n => is_Some (Zones s !! n) /\ exists b, AccAddressFromBech32 a = Ok b)
    (Members s) }.

Lemma inv_zone_set z s : ZName z <> "" -> inv s -> inv (set_zones (<[ZName z := z]> (Zones s)) s).
Proof using Type.
  intros Hz [Hzs Hms]. split; cbn.
  - by apply map_Forall_insert_2.
  - intros a n Ha. destruct (Hms a n Ha) as [Hn Hb]. split; [|done].
    rewrite lookup_insert_is_Some'. by right.
Qed.

Lemma inv_member_add a n s : is_Some (Zones s !! n) -> (exists b, AccAddressFromBech32 a = Ok b) ->
  inv s -> inv (set_members (<[a := n]> (Members s)) s).
Proof using Type. intros Hn Hb [Hzs Hms]. split; [done|]. by apply map_Forall_insert_2. Qed.

Lemma inv_member_delete a s : inv s -> inv (set_members (delete a (Members s)) s).
Proof using Type. intros [Hzs Hms]. split; [done|]. by apply map_Forall_delete. Qed.

Lemma AddTaxExemptionZone_run z s s' : AddTaxExemptionZone z s = Ret tt s' ->
  ZName z <> "" /\ s' = set_zones (<[ZName z := z]> (Zones s)) s.
Proof using Type.
  unfold AddTaxExemptionZone. destruct (String.eqb_spec (ZName z) ""); [done|]. by intros [= <-].
Qed.

Lemma ModifyTaxExemptionZone_run z s s' : ModifyTaxExemptionZone z s = Ret tt s' ->
  ZName z <> "" /\ is_Some (Zones s !! ZName z) /\ s' = set_zones (<[ZName z := z]> (Zones s)) s.
Proof using Type.
  unfold ModifyTaxExemptionZone. destruct (String.eqb_spec (ZName z) ""); [done|].
  unfold bind. cbn. destruct (Zones s !! ZName z); [|done]. intros [= <-]. by split_and!.
Qed.

Lemma AddTaxExemptionAddress_run n a s s' : AddTaxExemptionAddress n a s = Ret tt s' ->
  is_Some (Zones s !! n) /\ (exists b, AccAddressFromBech32 a = Ok b) /\
  s' = set_members (<[a := n]> (Members s)) s.
Proof using Type.
  unfold AddTaxExemptionAddress. intros (b & ? & [Hb ->]%lift_Ret & R)%bind_Ret.
  apply bind_Ret in R as (? & ? & [= <- <-] & R). cbn [id] in R.
  destruct (Zones s !! n) eqn:En; [|done]. split_and!; [done|by exists b|].
  destruct (Members s !! a) as [n'|] eqn:Ea; [|by injection R as <-].
  destruct (String.eqb_spec n' n) as [->|]; [|done]. injection R as <-.
  destruct s as [zs ms]. unfold set_members. cbn in *. by rewrite insert_id.
Qed.

Lemma RemoveTaxExemptionAddress_run n a s s' : RemoveTaxExemptionAddress n a s = Ret tt s' ->
  Members s !! a = Some n /\ s' = set_members (delete a (Members s)) s.
Proof using Type.
  unfold RemoveTaxExemptionAddress. intros (b & ? & [Hb ->]%lift_Ret & R)%bind_Ret.
  apply bind_Ret in R as (? & ? & [= <- <-] & R). cbn [id] in R.
  destruct (Members s !! a) as [n'|] eqn:Ea; [|done].
  destruct (String.eqb_spec n' n) as [->|]; [|done]. by injection R as <-.
Qed.

(** An iteration that keeps a property keeps it to the end. *)
Lemma mfor_inv {A} (P : Store -> Prop) (l : list A) f s s' :
  (forall x s s', f x s = Ret tt s' -> P s -> P s') -> mfor l f s = Ret tt s' -> P s -> P s'.
Proof using Type.
  intros Hf. revert s. induction l as [|x l IH]; intros s; [by intros [= <-]|].
  intros ([] & s1 & R1 & R)%bind_Ret HP. eapply IH; [exact R|]. by eapply Hf.
Qed.

(** Removing the members of a zone: one after the other, errors dropped. *)
Definition drop_member (n : string) (m : gmap string string) (a : string) : gmap string string :=
  if decide (m !! a = Some n) then delete a m else m.

Lemma drop_members_lookup n l m k v :
  foldl (drop_member n) m l !! k = Some v <-> m !! k = Some v /\ ~ (v = n /\ k ∈ l).
Proof using Type.
  revert m. induction l as [|a l IH]; intros m; cbn [foldl].
  - pose proof (not_elem_of_nil k). naive_solver.
  - rewrite IH, elem_of_cons. unfold drop_member. destruct (decide (m !! a = Some n)) as [Ea|Ea].
    + rewrite lookup_delete_Some. destruct (decide (k = a)) as [->|]; naive_solver.
    + destruct (decide (k = a)) as [->|]; naive_solver.
Qed.

Lemma remove_members n l s : Forall (fun a => exists b, AccAddressFromBech32 a = Ok b) l ->
  mfor l (fun a => ignore_err (RemoveTaxExemptionAddress n a)) s =
    Ret tt (set_members (foldl (drop_member n) (Members s) l) s).
Proof using Type.
  intros Hl. revert s. induction Hl as [|a l [b Hb] Hl IH]; intros s; [by destruct s|].
  cbn [mfor foldl]. unfold bind at 1.
  trans (mfor l (fun a => ignore_err (RemoveTaxExemptionAddress n a))
    (set_members (drop_member n (Members s) a) s)); [|by rewrite IH].
  unfold ignore_err, RemoveTaxExemptionAddress. rewrite Hb. unfold bind, lift, gets, id, drop_member.
  destruct (Members s !! a) as [z|] eqn:Ea; [|by rewrite decide_False by done; destruct s].
  destruct (String.eqb_spec z n) as [->|]; [by rewrite decide_True by done|].
  rewrite decide_False by congruence. by destruct s.
Qed.

Lemma mfor_fmap {A B} (f : B -> XM unit) (g : A -> B) l s : mfor (g <$> l) f s = mfor l (fun x => f (g x)) s.
Proof using Type.
  revert s. induction l as [|x l IH]; intros s; [done|]. cbn [fmap list_fmap mfor]. unfold bind.
  by destruct (f (g x) s).
Qed.

(** Removing a zone removes it with all of its members and nothing else. *)
Lemma RemoveTaxExemptionZone_run n s s' : inv s -> RemoveTaxExemptionZone n s = Ret tt s' ->
  is_Some (Zones s !! n) /\ Zones s' = delete n (Zones s) /\
  forall a z, Members s' !! a = Some z <-> Members s !! a = Some z /\ z <> n.
Proof using Type.
  intros [_ Hm]. unfold RemoveTaxExemptionZone. destruct (String.eqb n ""); [done|].
  intros (? & ? & [= <- <-] & R)%bind_Ret. cbn [id] in R. destruct (Zones s !! n) as [zn|] eqn:En; [|done].
  split; [done|]. apply bind_Ret in R as ([] & s1 & R1 & [= <-]).
  rewrite <- (mfor_fmap (fun a => ignore_err (RemoveTaxExemptionAddress n a)) fst) in R1.
  rewrite remove_members in R1.
  2: { apply Forall_fmap, Forall_forall. intros [a z] Hin. apply elem_of_kv_iter in Hin.
       by destruct (Hm a z Hin). }
  injection R1 as <-. split; [done|]. cbn [Members set_members set_zones]. intros a z.
  rewrite drop_members_lookup. split; [intros [Ha Hn]|naive_solver]. split; [done|]. intros ->. apply Hn.
  split; [done|]. apply list_elem_of_fmap. exists (a, n). split; [done|]. by apply elem_of_kv_iter.
Qed.

Lemma inv_zone_delete n s s' : inv s -> Zones s' = delete n (Zones s) ->
  (forall a z, Members s' !! a = Some z <-> Members s !! a = Some z /\ z <> n) -> inv s'.
Proof using Type.
  intros [Hzs Hms] Ez Em. split.
  - rewrite Ez. by apply map_Forall_delete.
  - intros a z [Ha Hz]%Em. destruct (Hms a z Ha) as [Hn Hb]. split; [|done].
    rewrite Ez. by rewrite lookup_delete_ne.
Qed.

Lemma authorized_run authority a c s s' : authorized authority a c s = Ret tt s' ->
  a = authority /\ c s = Ret tt s'.
Proof using Type. unfold authorized. by destruct (String.eqb_spec authority a) as [->|]. Qed.

Lemma add_addresses_inv n l s s' : mfor l (fun a => AddTaxExemptionAddress n a) s = Ret tt s' ->
  inv s -> inv s'.
Proof using Type.
  apply (mfor_inv inv). intros a t t' (? & ? & ->)%AddTaxExemptionAddress_run. by apply inv_member_add.
Qed.

Lemma handle_inv authority msg s s' : handle authority msg s = Ret tt s' -> inv s -> inv s'.
Proof using Type.
  destruct msg; intros [_ R]%authorized_run Hi.
  - apply bind_Ret in R as ([] & s1 & [? ->]%AddTaxExemptionZone_run & R).
    eapply add_addresses_inv; [exact R|]. by apply inv_zone_set.
  - destruct (RemoveTaxExemptionZone_run _ _ _ Hi R) as (_ & Ez & Em). by eapply inv_zone_delete.
  - apply ModifyTaxExemptionZone_run in R as (? & _ & ->). by apply inv_zone_set.
  - by eapply add_addresses_inv.
  - revert R Hi. apply (mfor_inv inv). intros a t t' [_ ->]%RemoveTaxExemptionAddress_run. apply inv_member_delete.
Qed.

(** The module as a state machine: only accepted messages change the store. *)
Inductive step (authority : string) : relation Store :=
  | step_msg msg s s' : handle authority msg s = Ret tt s' -> step authority s s'.

(** C34. The zone store stays consistent: along every sequence of accepted messages,
    zones are filed under their own non-empty names and every member is a valid
    address of a zone that exists; in particular, removing a zone leaves no
    members behind. *)
Theorem zones_invariant authority s s' : inv s -> rtc (step authority) s s' -> inv s'.
Proof using Type. intros Hi Hs. induction Hs as [|s s1 s2 [msg t t' R] _ IH]; [done|]. apply IH. by eapply handle_inv. Qed.

(** ** Genesis *)

(** The addresses of a zone, in store order. *)
Definition addresses_of (s : Store) (n : string) : list string :=
  (filter (fun e => e.2 = n) (kv_iter id (Members s))).*1.

Lemma group_lookup (l : list (string * string)) (m : gmap string (list string)) n :
  foldl (fun m e => match m !! e.2 with Some l => <[e.2 := l ++ [e.1]]> m | None => m end) m l !! n =
  (fun l0 => l0 ++ (filter (fun e => e.2 = n) l).*1) <$> m !! n.
Proof using Type.
  revert m. induction l as [|[a z] l IH]; intros m; cbn [foldl].
  - rewrite filter_nil. destruct (m !! n); cbn; by rewrite ?app_nil_r.
  - rewrite IH, filter_cons. cbn [fst snd]. destruct (decide (z = n)) as [->|Hne].
    + destruct (m !! n) as [l0|] eqn:En; [|by rewrite En].
      rewrite lookup_insert_eq. cbn. by rewrite <- app_assoc.
    + destruct (m !! z) as [l0|] eqn:Ez; [|done]. by rewrite lookup_insert_ne.
Qed.

Lemma zone_addresses_lookup s n : inv s ->
  zone_addresses s !! n = (fun _ => addresses_of s n) <$> Zones s !! n.
Proof using Type.
  intros [Hz _]. unfold zone_addresses. rewrite group_lookup.
  assert (foldl (fun m z => <[ZName z := []]> m) ∅ (kv_iter id (Zones s)).*2 =
    (fun _ => ([] : list string)) <$> Zones s) as ->.
  { trans (foldl (fun (m : gmap string (list string)) e => <[e.1 := []]> m) ∅ (kv_iter id (Zones s))).
    - assert (Forall (fun e => ZName e.2 = e.1) (kv_iter id (Zones s))) as Hf.
      { apply Forall_forall. intros [k z] Hin%elem_of_kv_iter. by destruct (Hz k z Hin). }
      revert Hf. generalize (∅ : gmap string (list string)). generalize (kv_iter id (Zones s)).
      induction l as [|[k z] l IH]; intros m; [done|]. intros [Ek Hf]%Forall_cons. cbn in *.
      rewrite Ek. by apply IH.
    - rewrite (foldl_insert_imap (fun _ => []) _ (Zones s)) by apply kv_iter_perm.
      apply map_eq. intros k. rewrite map_lookup_imap, lookup_fmap. by destruct (Zones s !! k). }
  rewrite lookup_fmap. by destruct (Zones s !! n).
Qed.

Lemma init_zones l s : Forall (fun e => ZName e.2 = e.1 /\ e.1 <> "") l ->
  mfor l.*2 (fun zone => ignore_err (AddTaxExemptionZone zone)) s =
    Ret tt (set_zones (foldl (fun m e => <[e.1 := e.2]> m) (Zones s) l) s).
Proof using Type.
  revert s. induction l as [|[k z] l IH]; intros s; [by destruct s|].
  intros [[Ek Hk] Hf]%Forall_cons. cbn [fmap list_fmap mfor foldl fst snd] in *. unfold bind at 1.
  unfold ignore_err at 1, AddTaxExemptionZone at 1. rewrite Ek. destruct (String.eqb_spec k ""); [done|].
  unfold modify at 1. by rewrite IH.
Qed.

(** Importing the members, given as pairs of an address and its zone. *)
Lemma init_members (l : list (string * string)) s :
  Forall (fun e => is_Some (Zones s !! e.2) /\ exists b, AccAddressFromBech32 e.1 = Ok b) l ->
  NoDup l.*1 -> (forall a, a ∈ l.*1 -> Members s !! a = None) ->
  mfor l (fun e => ignore_err (AddTaxExemptionAddress e.2 e.1)) s =
    Ret tt (set_members (foldl (fun m e => <[e.1 := e.2]> m) (Members s) l) s).
Proof using Type.
  revert s. induction l as [|[a z] l IH]; intros s; [by destruct s|].
  intros [[[zn Hz] [b Hb]] Hf]%Forall_cons [Hni Hnd]%NoDup_cons Hnew. cbn [mfor foldl fst snd] in *.
  unfold bind at 1. unfold ignore_err at 1, AddTaxExemptionAddress at 1. rewrite Hb. unfold bind, lift, gets, id.
  rewrite Hz, (Hnew a) by left. unfold modify. rewrite IH; [done|done|done|].
  intros a' Ha'. cbn. rewrite lookup_insert_ne by (by intros ->). apply Hnew. by right.
Qed.

Lemma mfor_join {A B} (f : A -> list B) (g : A -> B -> XM unit) l s :
  mfor l (fun x => mfor (f x) (g x)) s =
  mfor (l ≫= fun x => pair x <$> f x) (fun p => g p.1 p.2) s.
Proof using Type.
  assert (forall l1 l2 (h : A * B -> XM unit) s, mfor (l1 ++ l2) h s = (do* mfor l1 h in mfor l2 h) s) as Happ.
  { intros l1 l2 h. induction l1 as [|x l1 IH]; intros t; [done|]. cbn [app mfor]. unfold bind in *.
    destruct (h x t); [apply IH|done..]. }
  revert s. induction l as [|x l IH]; intros s; [done|]. cbn [mfor]. rewrite bind_cons, Happ.
  unfold bind. rewrite mfor_fmap. cbn [fst snd]. destruct (mfor (f x) _ s); [apply IH|done..].
Qed.

(** The exported members, flattened. *)
Definition exported_members (s : Store) : list (string * string) :=
  kv_iter id (zone_addresses s) ≫= fun e => (fun a => (a, e.1)) <$> e.2.

Lemma exported_members_perm s : inv s -> exported_members s ≡ₚ map_to_list (Members s).
Proof using Type.
  intros Hi. apply NoDup_Permutation; [|apply NoDup_map_to_list|].
  - apply NoDup_bind.
    + intros [n1 l1] [n2 l2] [a n] Hin1%elem_of_kv_iter Hin2%elem_of_kv_iter H1 H2. cbn in *.
      apply list_elem_of_fmap in H1 as (? & [= -> ->] & _). apply list_elem_of_fmap in H2 as (? & [= -> ->] & _).
      congruence.
    + intros [n l] Hin%elem_of_kv_iter. cbn. rewrite zone_addresses_lookup in Hin by done.
      destruct (Zones s !! n); [|done]. injection Hin as <-. apply NoDup_fmap_2; [by intros ? ? [= ->]|].
      eapply sublist_NoDup; [apply (kv_iter_NoDup id (Members s))|]. apply fmap_sublist, sublist_filter.
    + apply (NoDup_fmap_1 fst), kv_iter_NoDup.
  - intros [a n]. rewrite elem_of_map_to_list. unfold exported_members. rewrite list_elem_of_bind. split.
    + intros ([n' l] & (? & [= <- <-] & Ha)%list_elem_of_fmap & Hin%elem_of_kv_iter). cbn in *.
      rewrite zone_addresses_lookup in Hin by done. destruct (Zones s !! n) as [zn|]; [|done]. injection Hin as <-.
      apply list_elem_of_fmap in Ha as ([a' z'] & -> & [Ez Hin]%list_elem_of_filter). cbn in *. subst z'.
      by apply elem_of_kv_iter in Hin.
    + intros Ha. destruct (inv_members s Hi a n Ha) as [[z Hz] _]. exists (n, addresses_of s n). split.
      * apply list_elem_of_fmap. exists a. split; [done|]. apply list_elem_of_fmap. exists (a, n).
        split; [done|]. apply list_elem_of_filter. split; [done|]. by apply elem_of_kv_iter.
      * apply elem_of_kv_iter. by rewrite zone_addresses_lookup, Hz.
Qed.

Lemma addresses_parse l : Forall (fun a => exists b, AccAddressFromBech32 a = Ok b) l ->
  rfold (fun _ address => let! _ := AccAddressFromBech32 address in Ok tt) tt l = Ok tt.
Proof using Type. induction 1 as [|a l [b Hb] _ IH]; [done|]. cbn [rfold]. rewrite Hb. exact IH. Qed.

Lemma export_valid s : inv s -> ValidateGenesis
  (mkGenesis ((kv_iter id (Zones s)).*2) ((fun e => mkByZone e.1 e.2) <$> kv_iter id (zone_addresses s))) = Ok tt.
Proof using Type.
  intros Hi. unfold ValidateGenesis. cbn [ZoneList ByZone]. rewrite !length_fmap.
  assert (length (kv_iter id (Zones s)) = length (kv_iter id (zone_addresses s))) as El.
  { rewrite !kv_iter_perm, !length_map_to_list, <- !size_dom. f_equal. apply set_eq. intros n.
    rewrite !elem_of_dom, zone_addresses_lookup by done. by rewrite fmap_is_Some. }
  rewrite El, Nat.eqb_refl. cbn [negb]. rewrite rfold_fmap.
  assert (forall e, e ∈ kv_iter id (zone_addresses s) -> is_Some (Zones s !! e.1) /\ e.2 = addresses_of s e.1) as Hin.
  { intros [n l] Hin%elem_of_kv_iter. rewrite zone_addresses_lookup in Hin by done. cbn.
    destruct (Zones s !! n); [|done]. by injection Hin as <-. }
  revert Hin. generalize (kv_iter id (zone_addresses s)). clear El. intros l.
  induction l as [|[n as_] l IH]; intros Hin; [done|]. cbn [rfold BZone BAddresses fst snd].
  destruct (Hin (n, as_)) as [[z Hz] Ea]; [left|]. cbn in Ea. subst as_.
  rewrite bool_decide_true.
  2: { apply list_elem_of_fmap. exists z. split; [by destruct (inv_zones s Hi n z Hz)|].
       apply list_elem_of_fmap. exists (n, z). split; [done|]. by apply elem_of_kv_iter. }
  cbn [negb]. rewrite addresses_parse.
  2: { apply Forall_fmap, Forall_forall. intros [a z'] [_ Hk%elem_of_kv_iter]%list_elem_of_filter.
       by destruct (inv_members s Hi a z' Hk). }
  cbn [rbind]. apply IH. intros e He. apply Hin. by right.
Qed.

(** Genesis of the exemption zones: every consistent store exports, and
    importing the export into an empty module restores zones and members exactly. *)
Theorem zones_genesis_roundtrip s : inv s ->
  exists g, ExportGenesis s = Ok g /\ InitGenesis g (mkStore ∅ ∅) = Ret tt s.
Proof using Type.
  intros Hi. eexists. unfold ExportGenesis. rewrite (export_valid s Hi). split; [reflexivity|].
  unfold InitGenesis. cbn [ZoneList ByZone]. unfold bind. rewrite init_zones.
  2: { apply Forall_forall. intros [k z] Hin%elem_of_kv_iter. by apply (inv_zones s Hi). }
  cbn [Zones]. rewrite (foldl_copy_map _ (Zones s)) by apply kv_iter_perm. unfold set_zones. cbn [Members].
  rewrite mfor_fmap. cbn [BZone BAddresses].
  rewrite (mfor_join snd (fun e a => ignore_err (AddTaxExemptionAddress e.1 a))).
  trans (mfor (exported_members s) (fun e => ignore_err (AddTaxExemptionAddress e.2 e.1)) (mkStore (Zones s) ∅)).
  { unfold exported_members. generalize (kv_iter id (zone_addresses s)). intros l.
    etrans; [symmetry; apply (mfor_fmap (fun e => ignore_err (AddTaxExemptionAddress e.2 e.1))
      (fun p : (string * list string) * string => (p.2, p.1.1)))|].
    f_equal. induction l as [|e l IH]; [done|]. rewrite !bind_cons, fmap_app, IH. f_equal.
    by rewrite <- list_fmap_compose. }
  pose proof (exported_members_perm s Hi) as Hp. rewrite init_members.
  - cbn. rewrite (foldl_copy_map _ (Members s)) by done. by destruct s.
  - rewrite Hp. apply Forall_forall. intros [a n] Hin%elem_of_map_to_list. by apply (inv_members s Hi).
  - rewrite Hp. apply NoDup_fst_map_to_list.
  - done.
Qed.
End Facts.

(** ** A concrete store *)

Section Witnesses.
Import Ref.

Definition exchange : Zone := mkZone "exchange" true false true.
Definition bridge : Zone := mkZone "bridge" false true false.
Definition demo_zones : Store :=
  mkStore {[ "exchange" := exchange; "bridge" := bridge ]}
    {[ "terra1aaaa" := "exchange"; "terra1bbbb" := "exchange"; "terra1cccc" := "bridge" ]}.

Lemma demo_zones_inv : inv demo_zones.
Proof.
  split.
  - intros n z Hz. cbn [demo_zones Zones] in Hz. by map_entries Hz.
  - intros a n Ha. cbn [demo_zones Members] in Ha. map_entries Ha; (split; [by eexists|]); by eexists.
Qed.

Lemma demo_zones_step : step "gov" demo_zones
  (final (handle "gov" (MsgRemoveTaxExemptionZone "gov" "exchange") demo_zones) demo_zones).
Proof. eapply step_msg. apply returned_final. by vm_compute. Qed.

Lemma zones_invariant_witness :
  inv (final (handle "gov" (MsgRemoveTaxExemptionZone "gov" "exchange") demo_zones) demo_zones).
Proof.
  apply (zones_invariant "gov" demo_zones); [apply demo_zones_inv|]. apply rtc_once, demo_zones_step.
Defined.

Lemma zones_genesis_roundtrip_witness :
  exists g, ExportGenesis demo_zones = Ok g /\ InitGenesis g (mkStore ∅ ∅) = Ret tt demo_zones.
Proof. apply (zones_genesis_roundtrip demo_zones), demo_zones_inv. Defined.

(** From the exchange anywhere, but not from the bridge to a plain address. *)
Example demo_exempt :
  IsExemptedFromTax demo_zones "terra1aaaa" ["terra1cccc"; "terra1zzzz"; "terra1bbbb"] = true /\
  IsExemptedFromTax demo_zones "terra1cccc" ["terra1zzzz"] = false.
Proof. by vm_compute. Qed.
End Witnesses.
End TaxExemptionFacts.
