(* ===== verification/Tax.v ===== *)
(** * The tax module ([x/tax])

    The burn tax on transfers: its parameters, how a tax is computed and split,
    and the message servers that charge it on the recipient's side of a transfer
    (the reverse charge).  The servers they wrap, the bank's of the SDK and the
    market's of this repository, are interfaces. *)

From S2P Require Import Prelude Sdk SdkRef SdkFees Core OracleTypes Market TreasuryTypes Treasury TaxExemption.

Module Tax.

Definition ModuleName : string := "tax".
Definition FeeCollectorName : string := "fee_collector".
Definition DistributionModuleName : string := "distribution".
Definition ErrInvalidSigner := SdkError "invalid signer".
Definition ErrUnimplemented := SdkError "rpc: unimplemented".

(** ** Parameters *)

(** A decimal that was never set is a nil pointer: [None]. *)
Record Params := mkParams { GasPrices : DecCoins; BurnTaxRate : option Dec }.
Definition NewParams : Params := mkParams [] None.

(** Every use of a nil decimal is a nil dereference. *)
Definition deref {A} (p : option A) : res A := match p with Some a => Ok a | None => Panic end.

(** [DefaultGasPrices], as the literals stand in the code. *)
Definition default_price_list : DecCoins :=
  [ mkDecCoin "uluna" (NewDecWithPrec 28325 3); mkDecCoin "usdr" (NewDecWithPrec 52469 5);
    mkDecCoin "uusd" (NewDecWithPrec 75 2); mkDecCoin "ukrw" (NewDecWithPrec 850 0);
    mkDecCoin "umnt" (NewDecWithPrec 2142855 3); mkDecCoin "ueur" (NewDecWithPrec 625 3);
    mkDecCoin "ucny" (NewDecWithPrec 49 1); mkDecCoin "ujpy" (NewDecWithPrec 8185 2);
    mkDecCoin "ugbp" (NewDecWithPrec 55 2); mkDecCoin "uinr" (NewDecWithPrec 544 1);
    mkDecCoin "ucad" (NewDecWithPrec 95 2); mkDecCoin "uchf" (NewDecWithPrec 7 1);
    mkDecCoin "uaud" (NewDecWithPrec 95 2); mkDecCoin "usgd" (NewDec 1);
    mkDecCoin "uthb" (NewDecWithPrec 231 1); mkDecCoin "usek" (NewDecWithPrec 625 2);
    mkDecCoin "unok" (NewDecWithPrec 625 2); mkDecCoin "udkk" (NewDecWithPrec 45 1);
    mkDecCoin "uidr" (NewDecWithPrec 10900 0); mkDecCoin "uphp" (NewDecWithPrec 38 0);
    mkDecCoin "uhkd" (NewDecWithPrec 585 2); mkDecCoin "umyr" (NewDecWithPrec 3 0);
    mkDecCoin "utwd" (NewDecWithPrec 20 0) ].

(** [sdk.NewDecCoins] sorts the coins. *)
Definition DefaultGasPrices `{SdkFees} : DecCoins := DecCoins_Sort default_price_list.
Definition DefaultParams `{SdkFees} : Params :=
  mkParams DefaultGasPrices (Some (NewDecWithPrec 5 3)).

(** Nothing is checked. *)
Definition Validate (p : Params) : res unit := Ok tt.

(** ** Context and state *)

(** What the handlers read from [sdk.Context]; the three values are set by the
    ante handler. *)
Record TxCtx := mkTxCtx {
  Height : Z;
  MinGasPrices : DecCoins;
  ReverseCharge : option bool;          (* tax.reverse_charge *)
  TaxDue : option Coins;                (* tax.due *)
  TaxPayer : option string;             (* tax.payer *)
  Priority : Z }.

Inductive Event :=
  | EventNoReverseCharge
  | EventTax (taxAmount : Coins)
  | EventTx (fee : Coins) (feePayer : string)
  | EventTaxRefund (taxAmount : Coin).

(** [X] is the state of the modules the wrapped servers and the account keeper
    use. *)
Record State (X B DS : Type) := mkState {
  params : option Params;
  treasury : Treasury.Store;
  zones : TaxExemption.Store;
  bank : B;
  distr : DS;
  others : X;
  events : list Event }.
Arguments mkState {X B DS} _ _ _ _ _ _ _.
Arguments params {X B DS} _.
Arguments treasury {X B DS} _.
Arguments zones {X B DS} _.
Arguments bank {X B DS} _.
Arguments distr {X B DS} _.
Arguments others {X B DS} _.
Arguments events {X B DS} _.

(** [banktypes.Input] and [banktypes.Output] *)
Record InOut := mkInOut { Address : string; IOCoins : Coins }.

(** The wrapped message servers. *)
Class BankServer (B : Type) := {
  bank_Send : string -> string -> Coins -> M B unit;
  bank_MultiSend : list InOut -> list InOut -> M B unit;
}.
Class MarketServer (X B : Type) :=
  market_SwapSend : Market.MsgSwapSend -> M (X * B) Market.MsgSwapResponse.

(** A transfer moves its coins between the accounts the addresses name; the
    totals of a multi-send agree, and its inputs pay its outputs. *)
Class BankServerLaws (B : Type) `{SdkCoins, Bech32, BankKeeper B, BankServer B} : Prop := {
  bank_Send_moved b b' from to cs : coins_ok cs -> bank_Send from to cs b = Ret tt b' ->
    exists x y, AccAddressFromBech32 from = Ok x /\ AccAddressFromBech32 to = Ok y /\
      moved b b' x y cs;
  bank_MultiSend_totals b b' ins outs : bank_MultiSend ins outs b = Ret tt b' ->
    forall d, zsum (fun i => amt (IOCoins i) d) ins = zsum (fun o => amt (IOCoins o) d) outs;
}.

Section Keeper.
Context {X B DS : Type}.
Context `{SdkMath, SdkCoins, SdkFees, Bech32, BankKeeper B, DistrKeeper DS, DistrParams DS}.
Abbreviation XM := (M (State X B DS)).
Abbreviation St := (State X B DS).

Definition set_params (p : Params) (s : St) : St :=
  mkState (Some p) (treasury s) (zones s) (bank s) (distr s) (others s) (events s).
Definition on_treasury (f : Treasury.Store -> res Treasury.Store) : XM unit := fun s =>
  match f (treasury s) with
  | Ok t => Ret tt (mkState (params s) t (zones s) (bank s) (distr s) (others s) (events s))
  | Err e => Fail e s
  | Panic => Halt
  end.
Definition on_bank {A} (c : M B A) : XM A := zoom bank
  (fun b s => mkState (params s) (treasury s) (zones s) b (distr s) (others s) (events s)) c.
Definition on_distr {A} (c : M DS A) : XM A := zoom distr
  (fun d s => mkState (params s) (treasury s) (zones s) (bank s) d (others s) (events s)) c.
Definition on_others {A} (c : M X A) : XM A := zoom others
  (fun x s => mkState (params s) (treasury s) (zones s) (bank s) (distr s) x (events s)) c.
Definition on_market {A} (c : M (X * B) A) : XM A := zoom (fun s => (others s, bank s))
  (fun xb s => mkState (params s) (treasury s) (zones s) xb.2 (distr s) xb.1 (events s)) c.
Definition emit (l : list Event) : XM unit := modify (fun s =>
  mkState (params s) (treasury s) (zones s) (bank s) (distr s) (others s) (events s ++ l)).

(** ** The keeper ([keeper.go], [params.go]) *)

(** Marshalling writes a nil decimal as zero. *)
Definition SetParams (p : Params) : XM unit :=
  do* lift (Validate p) in
  modify (set_params (mkParams (GasPrices p) (Some (default ZeroDec (BurnTaxRate p))))).
Definition GetParams (s : St) : Params := default NewParams (params s).
Definition GetGasPrices (s : St) : DecCoins := DecCoins_Sort (GasPrices (GetParams s)).
Definition GetBurnTaxRate (s : St) : option Dec := BurnTaxRate (GetParams s).

(** [sdk.NewDecFromInt(amount).Mul(rate).TruncateInt()] *)
Definition tax_amount (rate : option Dec) (amount : Int) : res Int :=
  let! rate := deref rate in
  let! m := Dec_Mul (NewDec amount) rate in
  Dec_TruncateInt m.

Definition ComputeTax (burnTaxRate : option Dec) (amount : Coins) : res Coins :=
  coin_loop (fun coin =>
    let! taxAmount := tax_amount burnTaxRate (Amount coin) in
    Ok (if 0 <? taxAmount then Some taxAmount else None)) [] amount.

Definition GetEffectiveGasPrices (ctx : TxCtx) (s : St) : DecCoins :=
  let taxGasPrices := GetGasPrices s in
  if DecCoins_IsZero taxGasPrices then MinGasPrices ctx
  else (fun gasPrice => mkDecCoin (DDenom gasPrice)
         (Z.max (DecCoins_AmountOf (MinGasPrices ctx) (DDenom gasPrice)) (DAmount gasPrice)))
       <$> taxGasPrices.

Definition GetGasPriceForDenom (s : St) (denom : string) : Dec :=
  match List.find (fun gasPrice => String.eqb (DDenom gasPrice) denom) (GetGasPrices s) with
  | Some gasPrice => DAmount gasPrice
  | None => ZeroDec
  end.

(** The type assertion on the context value panics when the value is missing. *)
Definition IsReverseCharge (ctx : TxCtx) (emit_event : bool) : XM bool :=
  match ReverseCharge ctx with
  | None => panic
  | Some false => do* (if emit_event then emit [EventNoReverseCharge] else ret tt) in ret false
  | Some true => ret true
  end.

(** ** Splitting a tax ([tax_split.go]) *)

(** [rate.MulInt(c.Amount).RoundInt()] of every coin *)
Definition split_coins (rate : Dec) (cs : Coins) : res Coins :=
  coin_loop (fun c =>
    let! p := Dec_MulInt rate (Amount c) in
    let! a := Dec_RoundInt p in
    Ok (Some a)) [] cs.

Definition apply_community_tax (communityTax oracleSplitRate : Dec) : res Dec :=
  let! co := Dec_Mul communityTax oracleSplitRate in
  let! co1 := Dec_Add co OneDec in
  let! den := Dec_Sub co1 communityTax in
  let! q := Dec_Quo oracleSplitRate den in
  Dec_Mul communityTax q.

(** The three shares: community pool, oracle, burn. *)
Definition tax_shares (burnSplitRate oracleSplitRate communityTax : Dec) (taxes : Coins)
    : res (Coins * Coins * Coins) :=
  let! burn_split :=
    if 0 <? burnSplitRate then
      let! delta := split_coins burnSplitRate taxes in
      let! taxes := Coins_Sub taxes delta in
      Ok (delta, taxes)
    else Ok ([], taxes) in
  let '(distributionDeltaCoins, taxes) := burn_split in
  let! community_split :=
    if 0 <? communityTax then
      let! applyCommunityTax := apply_community_tax communityTax oracleSplitRate in
      let! community := split_coins applyCommunityTax distributionDeltaCoins in
      let! delta := Coins_Sub distributionDeltaCoins community in
      Ok (community, delta)
    else Ok ([], distributionDeltaCoins) in
  let '(communityTaxCoins, distributionDeltaCoins) := community_split in
  let! oracleSplitCoins :=
    if 0 <? oracleSplitRate then split_coins oracleSplitRate distributionDeltaCoins else Ok [] in
  Ok (communityTaxCoins, oracleSplitCoins, taxes).

Definition send_share (recipient : string) (coins : Coins) (k : XM unit) : XM unit :=
  if negb (Coins_IsZero coins)
  then do* on_bank (SendCoinsFromModuleToModule FeeCollectorName recipient coins) in k
  else ret tt.

Definition ProcessTaxSplits (taxes : Coins) : XM unit :=
  let* s := gets id in
  let p := Treasury.KParams (treasury s) in
  let* shares := lift (tax_shares (TreasuryTypes.BurnTaxSplit p) (TreasuryTypes.OracleSplit p)
                         (GetCommunityTax (distr s)) taxes) in
  let '(communityTaxCoins, oracleSplitCoins, taxes) := shares in
  do* send_share DistributionModuleName communityTaxCoins (
        let* feePool := gets (fun s => GetCommunityPool (distr s)) in
        let* dec := lift (NewDecCoinsFromCoins communityTaxCoins) in
        let* feePool := lift (DecCoins_Add feePool dec) in
        on_distr (modify (SetCommunityPool feePool))) in
  do* send_share OracleTypes.ModuleName oracleSplitCoins (ret tt) in
  send_share TreasuryTypes.BurnModuleName taxes (ret tt).

Definition DeductTax (ctx : TxCtx) (sender : string) (amount : Coins) (skipDeduct : bool)
    : XM Coins :=
  let* reverse := IsReverseCharge ctx false in
  if negb reverse then ret amount
  else
    let* s := gets id in
    let* taxes := lift (ComputeTax (GetBurnTaxRate s) amount) in
    let* netAmount := lift (Coins_Sub amount taxes) in
    do* (if negb (Coins_IsZero taxes) && negb skipDeduct then
           do* on_bank (SendCoinsFromAccountToModule sender FeeCollectorName taxes) in
           do* ProcessTaxSplits taxes in
           do* on_treasury (Treasury.RecordEpochTaxProceeds taxes) in
           emit [EventTax taxes]
         else ret tt) in
    ret netAmount.

(** ** Governance, queries and genesis *)

Definition UpdateParams (authority : string) (reqAuthority : string) (p : Params) : XM unit :=
  if negb (String.eqb authority reqAuthority) then fail ErrInvalidSigner else SetParams p.
Definition query_params (s : St) : Params := GetParams s.
Definition query_burn_tax_rate (s : St) : option Dec := GetBurnTaxRate s.

Record GenesisState := mkGenesis { GParams : Params }.
Definition DefaultGenesisState : GenesisState := mkGenesis DefaultParams.
Definition ValidateGenesis (gs : GenesisState) : res unit := Validate (GParams gs).
Definition InitGenesis (gs : GenesisState) : XM unit :=
  match ValidateGenesis gs with
  | Ok _ => fun s => match SetParams (GParams gs) s with Fail _ s' => Ret tt s' | o => o end
  | _ => panic
  end.
Definition ExportGenesis (s : St) : GenesisState := mkGenesis (GetParams s).

(** ** The message servers ([handlers/]) *)

Context `{BankServer B, MarketServer X B}.

(** [sdk.MustAccAddressFromBech32] *)
Definition MustAcc (a : string) : XM string :=
  match AccAddressFromBech32 a with Ok x => ret x | _ => panic end.

Definition Send (ctx : TxCtx) (from to : string) (amount : Coins) : XM unit :=
  let* reverse := IsReverseCharge ctx true in
  if negb reverse then on_bank (bank_Send from to amount)
  else
    let* fromAddr := MustAcc from in
    let* s := gets id in
    let* amount :=
      if negb (TaxExemption.IsExemptedFromTax (zones s) from [to])
      then DeductTax ctx fromAddr amount false
      else ret amount in
    on_bank (bank_Send from to amount).

(** Replace the coins of every input or output by what is left after the tax. *)
Definition deduct_all (ctx : TxCtx) (skipDeduct : bool) (l : list InOut) : XM (list InOut) :=
  mfold (fun acc i =>
    let* addr := MustAcc (Address i) in
    let* netCoins := DeductTax ctx addr (IOCoins i) skipDeduct in
    ret (acc ++ [mkInOut (Address i) netCoins])) [] l.

Definition MultiSend (ctx : TxCtx) (inputs outputs : list InOut) : XM unit :=
  let* reverse := IsReverseCharge ctx true in
  if negb reverse then on_bank (bank_MultiSend inputs outputs)
  else
    let* s := gets id in
    let outputAddresses := Address <$> outputs in
    let tainted := existsb (fun i =>
      negb (TaxExemption.IsExemptedFromTax (zones s) (Address i) outputAddresses)) inputs in
    if tainted then
      let* inputs := deduct_all ctx false inputs in
      let* outputs := deduct_all ctx true outputs in
      on_bank (bank_MultiSend inputs outputs)
    else on_bank (bank_MultiSend inputs outputs).

(** [netOfferCoin[0]] panics when nothing is left of the offer. *)
Definition SwapSend (ctx : TxCtx) (msg : Market.MsgSwapSend) : XM Market.MsgSwapResponse :=
  let* reverse := IsReverseCharge ctx true in
  if negb reverse then on_market (market_SwapSend msg)
  else
    let* sender := MustAcc (Market.FromAddress msg) in
    let* offer := lift (NewCoins [Market.SOfferCoin msg]) in
    let* netOfferCoin := DeductTax ctx sender offer false in
    let* c := lift (deref (head netOfferCoin)) in
    on_market (market_SwapSend (Market.mkMsgSwapSend (Market.FromAddress msg)
      (Market.ToAddress msg) c (Market.SAskDenom msg))).

(** The embedded [UnimplementedMsgServer]: the tax module's market server has no
    [Swap] of its own. *)
Definition Swap (msg : Market.MsgSwap) : XM Market.MsgSwapResponse := fail ErrUnimplemented.
End Keeper.
End Tax.
