(* ===== verification/TaxFacts.v ===== *)
(** * Facts about taxes

    How much tax is due, that the shares of a tax add up, and what the reverse
    charge does to the accounts. *)

From S2P Require Import Prelude Sdk SdkRef SdkFees Core OracleTypes Market TreasuryTypes Treasury TreasuryFacts TaxExemption Tax.

Module TaxFacts.
Import Tax.

(** Walk through arithmetic that succeeded. *)
Ltac sdk_run := repeat (progress (go_inv; sdk_unfold; sdk_inv)).

(** The tax of an amount: the rate's share, rounded down. *)
Definition tax_of (rate amount : Z) : Z := amount * rate / P18.

Section Amounts.
Context `{SdkFeesLaws, !SdkMathLaws, !SdkCoinsLaws}.

Lemma tax_amount_inv rate amount t : 0 <= rate -> 0 <= amount ->
  tax_amount (Some rate) amount = Ok t -> t = tax_of rate amount.
Proof using Type*.
  intros Hr Ha. unfold tax_amount. simpl. intros R. sdk_run.
  unfold NewDec, tax_of. rewrite <- Z.mul_assoc, (Z.mul_comm P18), Z.mul_assoc, dec_round_mul.
  apply Z.quot_div_nonneg; [nia|done].
Qed.

Lemma tax_of_bounds rate a : 0 <= rate <= OneDec -> 0 <= a -> 0 <= tax_of rate a <= a.
Proof using Type.
  intros [Hr0 Hr1] Ha. unfold tax_of, OneDec in *. split; [apply Z.div_pos; [nia|done]|].
  apply Z.div_le_upper_bound; [done|]. nia.
Qed.

Lemma tax_amount_small rate a : 0 <= rate <= OneDec -> 0 <= a < 2 ^ 255 ->
  tax_amount (Some rate) a = Ok (tax_of rate a).
Proof using Type*.
  intros Hr Ha. pose proof (tax_of_bounds rate a Hr ltac:(lia)) as Hb.
  unfold tax_amount. cbn [deref rbind]. sdk_unfold. unfold NewDec.
  assert (P18 < 2 ^ 60) as HP by done. assert (0 < P18) by done. unfold OneDec in *.
  rewrite <- Z.mul_assoc, (Z.mul_comm P18), Z.mul_assoc, dec_round_mul.
  rewrite dec_chk_small by nia. cbn [rbind]. sdk_unfold. unfold int_chk.
  rewrite Z.quot_div_nonneg by nia. fold (tax_of rate a). by rewrite int_fits_small by lia.
Qed.

Lemma tax_of_0 rate : tax_of rate 0 = 0.
Proof using Type. done. Qed.

Lemma ComputeTax_inv rate amount taxes : 0 <= rate -> coins_ok amount ->
  ComputeTax (Some rate) amount = Ok taxes ->
  coins_ok taxes /\ forall d, amt taxes d = tax_of rate (amt amount d).
Proof using Type*.
  intros Hr Hok Ht. unfold ComputeTax in Ht.
  apply (coin_loop_inv _ (fun c => tax_of rate (Amount c))) in Ht as (? & Ha & _).
  - split; [done|]. intros d. rewrite Ha.
    by rewrite (zsum_sorted amount (fun _ a => tax_of rate a)) by (apply Hok || apply tax_of_0).
  - intros c x Hc (t & Ht' & [= <-])%rbind_Ok. destruct Hok as [_ Hp].
    rewrite Forall_forall in Hp. destruct (Hp c Hc) as [_ Hpos].
    apply tax_amount_inv in Ht' as ->; [|done|lia].
    assert (0 <= tax_of rate (Amount c)) by (apply Z.div_pos; [nia|done]).
    destruct (Z.ltb_spec 0 (tax_of rate (Amount c))); simpl; lia.
  - apply coins_ok_nil.
Qed.

(** Any share rounded to the nearest unit, of every coin. *)
Lemma split_coins_inv rate cs r : coins_ok cs -> split_coins rate cs = Ok r ->
  coins_ok r /\ forall d, amt r d = dec_round (rate * amt cs d).
Proof using Type*.
  intros Hcs Hr. unfold split_coins in Hr.
  apply (coin_loop_inv _ (fun c => dec_round (rate * Amount c))) in Hr as (Hok & Ha & _).
  - split; [done|]. intros d. rewrite Ha.
    rewrite (zsum_sorted cs (fun _ a => dec_round (rate * a))); [done|apply Hcs|].
    by rewrite Z.mul_0_r, dec_round_0.
  - intros c x _ R. by sdk_run.
  - apply coins_ok_nil.
Qed.

Lemma split_coins_Ok rate cs : 0 <= rate <= OneDec -> coins_ok cs ->
  (forall d, amt cs d < 2 ^ 255) -> exists r, split_coins rate cs = Ok r.
Proof using Type*.
  intros Hr Hcs Hlt. unfold split_coins.
  destruct (coin_loop_Ok (fun c => let! p := Dec_MulInt rate (Amount c) in
    let! a := Dec_RoundInt p in Ok (Some a)) (fun c => dec_round (rate * Amount c)) [] cs)
    as (r & Hr' & _); [|apply coins_ok_nil| |by exists r].
  - intros c Hc. destruct Hcs as [Hs Hp]. rewrite <- (amt_elem cs c) by done.
    specialize (Hlt (Denom c)). rewrite Forall_forall in Hp. destruct (Hp c Hc) as [Hv Hpos].
    rewrite <- (amt_elem cs c) in Hpos by done. set (a := amt cs (Denom c)) in *.
    assert (0 <= dec_round (rate * a) <= a) as Hb.
    { rewrite Z.mul_comm. apply dec_round_frac; unfold OneDec in *; lia. }
    split_and!; [done|lia|]. exists (Some (dec_round (rate * a))). sdk_unfold.
    unfold dec_chk. rewrite dec_fits_small; cbn [rbind].
    + sdk_unfold. unfold int_chk. by rewrite int_fits_small by lia.
    + rewrite Z.abs_eq by lia. unfold OneDec, P18 in *. nia.
  - intros d. simpl. rewrite (zsum_sorted cs (fun _ a => dec_round (rate * a))).
    + assert (0 <= amt cs d) by (by apply amt_nonneg). specialize (Hlt d).
      rewrite Z.mul_comm. destruct (dec_round_frac (amt cs d) rate); [done|done|].
      change (amt [] d) with 0. lia.
    + apply Hcs.
    + by rewrite Z.mul_0_r, dec_round_0.
Qed.

(** The adjusted community tax is a rate again. *)
Lemma apply_bound c o r t q : 0 <= c < P18 -> 0 <= o <= P18 -> 2 * Z.abs (r * P18 - c * o) <= P18 ->
  0 <= t -> t * (r + P18 - c) <= o * P18 * P18 -> 2 * Z.abs (q * P18 - t) <= P18 ->
  0 < r + P18 - c /\ c * q < P18 * P18 + P18 `div` 2.
Proof using Type.
  intros Hc Ho Hr Ht0 Ht Hq. assert (0 < P18) as HP by done.
  set (den := r + P18 - c) in *.
  assert (2 * (c * o) + P18 <= 2 * P18 * den) as Hden by (subst den; nia).
  assert (0 < den) as Hd by nia. split; [done|].
  assert (c * t <= P18 * P18 * P18) as Hct.
  { apply (Z.mul_le_mono_pos_r _ _ (2 * P18 * den)); [nia|].
    transitivity (2 * P18 * (c * (o * P18 * P18))).
    - replace (c * t * (2 * P18 * den)) with (2 * P18 * (c * (t * den))) by ring.
      apply Z.mul_le_mono_nonneg_l; [lia|]. apply Z.mul_le_mono_nonneg_l; lia.
    - replace (2 * P18 * (c * (o * P18 * P18))) with (P18 * P18 * P18 * (2 * (c * o))) by ring.
      apply Z.mul_le_mono_nonneg_l; [lia|]. lia. }
  assert (2 * (q * P18) <= 2 * t + P18) as Hqt by lia.
  assert (c * (2 * (q * P18)) <= c * (2 * t + P18)) by (apply Z.mul_le_mono_nonneg_l; lia).
  assert (c * P18 < P18 * P18) by (apply Z.mul_lt_mono_pos_r; lia).
  assert (P18 `div` 2 * 2 = P18) as Hh by (vm_compute; reflexivity).
  apply (Z.mul_lt_mono_pos_r (2 * P18)); [lia|].
  replace ((P18 * P18 + P18 `div` 2) * (2 * P18))
    with (2 * (P18 * P18 * P18) + P18 `div` 2 * 2 * P18) by ring. rewrite Hh. lia.
Qed.

Lemma dec_round_le_half z : z < P18 * P18 + P18 `div` 2 -> dec_round z <= P18.
Proof using Type*.
  intros Hz. pose proof (dec_round_near z).
  assert (P18 `div` 2 * 2 = P18) by (vm_compute; reflexivity). assert (0 < P18) by done. nia.
Qed.

Definition rate_ok (r : Dec) : Prop := 0 <= r <= OneDec.

Lemma apply_community_tax_Ok c o : rate_ok c -> rate_ok o -> ~ (c = OneDec /\ o = 0) ->
  exists a, apply_community_tax c o = Ok a /\ rate_ok a.
Proof using Type*.
  unfold rate_ok, OneDec. intros Hc Ho Hne. unfold apply_community_tax, OneDec. sdk_unfold.
  assert (0 < P18) as HP by done. assert (P18 * P18 * P18 < 2 ^ 315) as HP3 by done.
  pose proof (dec_round_frac c o ltac:(lia) Ho) as Hco. set (r := dec_round (c * o)) in *.
  pose proof (dec_round_near (c * o)) as Hr. fold r in Hr.
  rewrite dec_chk_small by (unfold P18 in *; lia). cbn [rbind]. sdk_unfold.
  rewrite dec_chk_small by (unfold P18 in *; lia). cbn [rbind]. sdk_unfold.
  rewrite dec_chk_small by (unfold P18 in *; lia). cbn [rbind]. sdk_unfold.
  set (den := r + P18 - c).
  assert (0 < den) as Hd.
  { destruct (decide (c = P18)) as [->|]; [|unfold den; lia].
    unfold den, r. rewrite Z.mul_comm, dec_round_mul. lia. }
  destruct (Z.eqb_spec den 0) as [|_]; [lia|].
  set (t := Z.quot (o * P18 * P18) den). assert (0 <= t /\ t * den <= o * P18 * P18) as [Ht0 Ht].
  { unfold t. assert (0 <= o * P18 * P18) by nia. rewrite Z.quot_div_nonneg by done. split.
    - by apply Z.div_pos.
    - rewrite Z.mul_comm. by apply Z.mul_div_le. }
  assert (t <= P18 * P18 * P18) as Htb by nia.
  pose proof (dec_round_near t) as Hq. set (q := dec_round t) in *.
  assert (0 <= q) as Hq0 by (by apply dec_round_nonneg).
  rewrite dec_chk_small by nia. cbn [rbind]. sdk_unfold.
  assert (c * q < P18 * P18 + P18 `div` 2) as Hcq.
  { destruct (decide (c = P18)) as [->|].
    - assert (den = o) as Hdo by (unfold den, r; rewrite Z.mul_comm, dec_round_mul; lia).
      assert (t = P18 * P18) as Et.
      { unfold t. rewrite Hdo, <- Z.mul_assoc, Z.mul_comm. apply Z.quot_mul. lia. }
      unfold q. rewrite Et, dec_round_mul. assert (0 < P18 `div` 2) by done. lia.
    - apply (apply_bound c o r t q); [lia|lia|exact Hr|exact Ht0|exact Ht|exact Hq]. }
  pose proof (dec_round_le_half _ Hcq). pose proof (dec_round_nonneg (c * q) ltac:(nia)).
  exists (dec_round (c * q)). split; [|lia]. apply dec_chk_small. unfold P18 in *. lia.
Qed.

(** What the three shares of a tax are, given the adjusted community rate. *)
Record shares_of (b o a : Dec) (taxes community oracle burn : Coins) : Prop := {
  community_ok : coins_ok community;
  oracle_ok : coins_ok oracle;
  burn_ok : coins_ok burn;
  burn_amt d : amt burn d = amt taxes d - dec_round (b * amt taxes d);
  community_amt d : amt community d = dec_round (a * dec_round (b * amt taxes d));
  oracle_amt d : amt oracle d =
    dec_round (o * (dec_round (b * amt taxes d) - amt community d));
  community_le d : amt community d <= dec_round (b * amt taxes d) <= amt taxes d }.

(** The rate of the community share: zero without a community tax. *)
Definition community_rate (c o a : Dec) : Prop :=
  if 0 <? c then apply_community_tax c o = Ok a else a = 0.

Lemma tax_shares_inv b o c taxes community oracle burn :
  0 <= b -> 0 <= o -> coins_ok taxes ->
  tax_shares b o c taxes = Ok (community, oracle, burn) ->
  exists a, community_rate c o a /\ shares_of b o a taxes community oracle burn.
Proof using Type*.
  intros Hb Ho Ht. unfold tax_shares. intros ([delta rest] & R1 & R)%rbind_Ok.
  assert (coins_ok delta /\ coins_ok rest /\
    (forall d, amt delta d = dec_round (b * amt taxes d)) /\
    (forall d, amt rest d = amt taxes d - amt delta d) /\
    forall d, amt delta d <= amt taxes d) as (Hd & Hrest & Ad & Ar & Hle).
  { destruct (Z.ltb_spec 0 b).
    - apply rbind_Ok in R1 as (dl & Hs & R1). apply rbind_Ok in R1 as (rs & Hsub & [= -> ->]).
      apply split_coins_inv in Hs as [? Hs]; [|done].
      apply Coins_Sub_inv in Hsub as (? & ? & ?); done.
    - injection R1 as <- <-. replace b with 0 by lia. split_and!; [apply coins_ok_nil|done|..].
      + intros d. by rewrite Z.mul_0_l, dec_round_0.
      + intros d. change (amt [] d) with 0. lia.
      + intros d. change (amt [] d) with 0. by apply amt_nonneg. }
  apply rbind_Ok in R as ([com delta'] & R2 & R).
  assert (exists a, community_rate c o a /\ coins_ok com /\ coins_ok delta' /\
    (forall d, amt com d = dec_round (a * amt delta d)) /\
    (forall d, amt delta' d = amt delta d - amt com d) /\
    forall d, amt com d <= amt delta d) as (a & Ha & Hcom & Hd' & Ac & Ad' & Hcle).
  { unfold community_rate. destruct (Z.ltb_spec 0 c).
    - apply rbind_Ok in R2 as (a & Ha & R2). apply rbind_Ok in R2 as (cm & Hs & R2).
      apply rbind_Ok in R2 as (dl & Hsub & [= -> ->]). exists a.
      apply split_coins_inv in Hs as [? Hs]; [|done].
      apply Coins_Sub_inv in Hsub as (? & ? & ?); done.
    - injection R2 as <- <-. exists 0. split_and!; [done|apply coins_ok_nil|done|..].
      + intros d. by rewrite Z.mul_0_l, dec_round_0.
      + intros d. change (amt [] d) with 0. lia.
      + intros d. change (amt [] d) with 0. by apply amt_nonneg. }
  apply rbind_Ok in R as (orc & R3 & [= -> -> ->]). exists a. split; [done|].
  assert (coins_ok oracle /\ forall d, amt oracle d = dec_round (o * amt delta' d)) as [Hor Ao].
  { destruct (Z.ltb_spec 0 o).
    - by apply split_coins_inv in R3.
    - injection R3 as <-. replace o with 0 by lia. split; [apply coins_ok_nil|].
      intros d. by rewrite Z.mul_0_l, dec_round_0. }
  split; try done; intros d.
  - by rewrite Ar, Ad.
  - by rewrite Ac, Ad.
  - by rewrite Ao, Ad', Ad.
  - by rewrite <- Ad.
Qed.

(** With an oracle rate of at most one the shares never exceed the tax. *)
Lemma shares_le b o a taxes community oracle burn d : rate_ok o ->
  shares_of b o a taxes community oracle burn ->
  0 <= amt community d /\ 0 <= amt oracle d /\ 0 <= amt burn d /\
  amt community d + amt oracle d + amt burn d <= amt taxes d.
Proof using Type*.
  intros Ho Hs. pose proof (amt_nonneg community d (community_ok _ _ _ _ _ _ _ Hs)).
  pose proof (amt_nonneg burn d (burn_ok _ _ _ _ _ _ _ Hs)).
  pose proof (community_le _ _ _ _ _ _ _ Hs d). pose proof (burn_amt _ _ _ _ _ _ _ Hs d).
  rewrite (oracle_amt _ _ _ _ _ _ _ Hs d), Z.mul_comm.
  destruct (dec_round_frac (dec_round (b * amt taxes d) - amt community d) o); [lia|done|]. lia.
Qed.

Lemma tax_shares_Ok b o c taxes : rate_ok b -> rate_ok o -> rate_ok c ->
  ~ (c = OneDec /\ o = 0) -> coins_ok taxes -> (forall d, amt taxes d < 2 ^ 255) ->
  exists community oracle burn, tax_shares b o c taxes = Ok (community, oracle, burn).
Proof using Type*.
  intros Hb Ho Hc Hne Ht Hlt. unfold tax_shares.
  (* a share of coins, and what is left *)
  assert (forall r cs, rate_ok r -> coins_ok cs -> (forall d, amt cs d < 2 ^ 255) ->
    exists x y, split_coins r cs = Ok x /\ Coins_Sub cs x = Ok y /\ coins_ok x /\ coins_ok y /\
      (forall d, amt x d < 2 ^ 255) /\ forall d, amt y d < 2 ^ 255) as Hsplit.
  { intros r cs Hr Hcs Hl. destruct (split_coins_Ok r cs Hr Hcs Hl) as [x Hx].
    destruct (split_coins_inv _ _ _ Hcs Hx) as [Hxo Hxa].
    assert (forall d, 0 <= amt x d <= amt cs d) as Hle.
    { intros d. rewrite Hxa, Z.mul_comm. apply dec_round_frac; [by apply amt_nonneg|exact Hr]. }
    destruct (Coins_Sub_Ok cs x Hcs Hxo) as (y & Hy & Hyo & Hya); [intros d; apply Hle|].
    exists x, y. split_and!; try done; intros d; specialize (Hle d); specialize (Hl d).
    - lia.
    - rewrite Hya. lia. }
  assert (exists delta rest, (if 0 <? b then let! delta := split_coins b taxes in
      let! taxes := Coins_Sub taxes delta in Ok (delta, taxes) else Ok ([], taxes)) =
      Ok (delta, rest) /\ coins_ok delta /\ forall d, amt delta d < 2 ^ 255)
    as (delta & rest & -> & Hd & Hdl).
  { destruct (0 <? b).
    - destruct (Hsplit b taxes Hb Ht Hlt) as (x & y & -> & E & ? & ? & ? & ?). cbn [rbind].
      rewrite E. by exists x, y.
    - exists [], taxes. split_and!; [done|apply coins_ok_nil|done]. }
  cbn [rbind].
  assert (exists com delta', (if 0 <? c then let! a := apply_community_tax c o in
      let! community := split_coins a delta in
      let! delta := Coins_Sub delta community in Ok (community, delta) else Ok ([], delta)) =
      Ok (com, delta') /\ coins_ok delta' /\ forall d, amt delta' d < 2 ^ 255)
    as (com & delta' & -> & Hd' & Hdl').
  { destruct (0 <? c).
    - destruct (apply_community_tax_Ok c o Hc Ho Hne) as (a & -> & Ha). cbn [rbind].
      destruct (Hsplit a delta Ha Hd Hdl) as (x & y & -> & E & ? & ? & ? & ?). cbn [rbind].
      rewrite E. by exists x, y.
    - by exists [], delta. }
  cbn [rbind]. destruct (0 <? o); [|by exists com, [], rest].
  destruct (split_coins_Ok o delta' Ho Hd' Hdl') as [x ->]. by exists com, x, rest.
Qed.
End Amounts.
End TaxFacts.
