(* ===== verification/TaxCharge.v ===== *)
(** * Charging the tax

    What splitting and deducting a tax does to the accounts, the community pool
    and the treasury's books, and the reverse-charged transfer. *)

From S2P Require Import Prelude Sdk SdkRef SdkFees Core OracleTypes Market TreasuryTypes Treasury TreasuryFacts TaxExemption Tax TaxFacts.

Module TaxCharge.
Import Tax TaxFacts.

Abbreviation FeeCollector := (GetModuleAddress FeeCollectorName).
Abbreviation Distribution := (GetModuleAddress DistributionModuleName).
Abbreviation OracleAccount := (GetModuleAddress OracleTypes.ModuleName).
Abbreviation BurnAccount := (GetModuleAddress TreasuryTypes.BurnModuleName).

Section Charge.
Context {X B DS : Type}.
Context `{HM : SdkMath, HC : SdkCoins, HF : SdkFees, HA : Bech32, HB : BankKeeper B,
  HD : DistrKeeper DS, HP : DistrParams DS}.
Context `{!SdkMathLaws, !SdkCoinsLaws, !SdkFeesLaws, !Bech32Laws, !BankLaws B, !DistrLaws DS}.
Abbreviation St := (State X B DS).

(** Only the bank may differ. *)
Definition same_rest (s s' : St) : Prop :=
  params s' = params s /\ treasury s' = treasury s /\ zones s' = zones s /\
  distr s' = distr s /\ others s' = others s /\ events s' = events s.

Lemma moved_nil (b : B) x y : moved b b x y [].
Proof using Type.
  split; [|done]. intros a d. change (amt [] d) with 0. unfold ind.
  repeat destruct (decide _); lia.
Qed.

Lemma on_bank_Ret {A} (c : M B A) (s s' : St) a : on_bank c s = Ret a s' ->
  c (bank s) = Ret a (bank s') /\ same_rest s s'.
Proof using Type. intros (b & ? & ->)%zoom_Ret. by split. Qed.

Lemma send_share_Ret r cs k (s s' : St) : coins_ok cs -> send_share r cs k s = Ret tt s' ->
  (cs = [] /\ s' = s) \/
  exists s1, moved (bank s) (bank s1) FeeCollector (GetModuleAddress r) cs /\
    same_rest s s1 /\ k s1 = Ret tt s'.
Proof using Type*.
  intros Hcs. unfold send_share. destruct (Coins_IsZero cs) eqn:Ez; simpl.
  - intros [= <-]. left. split; [by apply coins_zero|done].
  - intros ([] & s1 & Hb & Hk)%bind_Ret. right. apply on_bank_Ret in Hb as [Hb ?].
    apply send_m2m in Hb; [|done]. by exists s1.
Qed.

Lemma send_share_plain r cs (s s' : St) : coins_ok cs -> send_share r cs (ret tt) s = Ret tt s' ->
  moved (bank s) (bank s') FeeCollector (GetModuleAddress r) cs /\ same_rest s s'.
Proof using Type*.
  intros Hcs Hs. apply send_share_Ret in Hs as [[-> ->]|(s1 & ? & ? & [= <-])]; [|done|done].
  split; [apply moved_nil|by repeat split].
Qed.

(** The shares leave the fee collector. *)
Definition shared (b b' : B) (community oracle burn : Coins) : Prop :=
  (forall a d, bal b' a d = bal b a d
     - ind (a = FeeCollector) (amt community d + amt oracle d + amt burn d)
     + ind (a = Distribution) (amt community d) + ind (a = OracleAccount) (amt oracle d)
     + ind (a = BurnAccount) (amt burn d)) /\
  (forall d, supply b' d = supply b d).

Lemma ind_add (P : Prop) `{!Decision P} x y : ind P (x + y) = ind P x + ind P y.
Proof using Type. unfold ind. destruct (decide P); lia. Qed.

(** The effect of a split: [s'] after paying the shares of [taxes]. *)
Definition split_effect (taxes : Coins) (s s' : St) : Prop :=
  exists a community oracle burn,
    community_rate (GetCommunityTax (distr s))
      (TreasuryTypes.OracleSplit (Treasury.KParams (treasury s))) a /\
    shares_of (TreasuryTypes.BurnTaxSplit (Treasury.KParams (treasury s)))
      (TreasuryTypes.OracleSplit (Treasury.KParams (treasury s))) a taxes community oracle burn /\
    shared (bank s) (bank s') community oracle burn /\
    (forall d, damt (GetCommunityPool (distr s')) d =
       damt (GetCommunityPool (distr s)) d + NewDec (amt community d)) /\
    decoins_weak (GetCommunityPool (distr s')).

Definition splits_ok (s : St) : Prop :=
  rate_ok (TreasuryTypes.BurnTaxSplit (Treasury.KParams (treasury s))) /\
  rate_ok (TreasuryTypes.OracleSplit (Treasury.KParams (treasury s))) /\
  decoins_weak (GetCommunityPool (distr s)).

Lemma pool_credit cs (s s' : St) : coins_ok cs -> decoins_weak (GetCommunityPool (distr s)) ->
  (let* feePool := gets (fun s => GetCommunityPool (distr s)) in
   let* dec := lift (NewDecCoinsFromCoins cs) in
   let* feePool := lift (DecCoins_Add feePool dec) in
   on_distr (modify (SetCommunityPool feePool))) s = Ret tt s' ->
  (forall d, damt (GetCommunityPool (distr s')) d =
     damt (GetCommunityPool (distr s)) d + NewDec (amt cs d)) /\
  decoins_weak (GetCommunityPool (distr s')) /\ bank s' = bank s /\
  params s' = params s /\ treasury s' = treasury s /\ zones s' = zones s /\
  others s' = others s /\ events s' = events s.
Proof using Type*.
  intros Hcs Hp R. apply bind_Ret in R as (? & ? & [= <- <-] & R).
  apply bind_Ret in R as (ds & ? & [E1 ->]%lift_Ret & R).
  apply bind_Ret in R as (pool & ? & [E2 ->]%lift_Ret & R).
  apply zoom_Ret in R as (t & [= <-] & ->).
  destruct (NewDecCoinsFromCoins_Ok cs Hcs) as (ds' & E1' & Hds & Ads).
  rewrite E1 in E1'. injection E1' as <-.
  destruct (DecCoins_Add_cases (GetCommunityPool (distr s)) ds) as [[_ (c & E2' & Hc & Ac)]|[E2' _]];
    [done|by apply decoins_ok_weak| |congruence].
  rewrite E2 in E2'. injection E2' as <-. simpl. rewrite GetCommunityPool_set. split_and!; try done.
  - intros d. by rewrite Ac, Ads.
  - by apply decoins_ok_weak.
Qed.

Lemma ProcessTaxSplits_Ret taxes (s s' : St) : coins_ok taxes -> splits_ok s ->
  ProcessTaxSplits taxes s = Ret tt s' ->
  split_effect taxes s s' /\ params s' = params s /\ treasury s' = treasury s /\
  zones s' = zones s /\ others s' = others s /\ events s' = events s.
Proof using Type*.
  intros Ht (Hb & Ho & Hp) R. unfold ProcessTaxSplits in R.
  apply bind_Ret in R as (? & ? & [= <- <-] & R).
  apply bind_Ret in R as ([[com orc] burn] & ? & [Hs ->]%lift_Ret & R).
  apply tax_shares_inv in Hs as (a & Ha & Hs); [|apply Hb|apply Ho|done].
  apply bind_Ret in R as ([] & s1 & R1 & R). apply bind_Ret in R as ([] & s2 & R2 & R3).
  apply send_share_plain in R2 as [[M2 S2] (? & ? & ? & D2 & ? & ?)]; [|apply Hs].
  apply send_share_plain in R3 as [[M3 S3] (? & ? & ? & D3 & ? & ?)]; [|apply Hs].
  assert (moved (bank s) (bank s1) FeeCollector Distribution com /\
    (forall d, damt (GetCommunityPool (distr s1)) d =
       damt (GetCommunityPool (distr s)) d + NewDec (amt com d)) /\
    decoins_weak (GetCommunityPool (distr s1)) /\
    params s1 = params s /\ treasury s1 = treasury s /\ zones s1 = zones s /\
    others s1 = others s /\ events s1 = events s)
    as ([M1 S1] & P1 & W1 & ? & ? & ? & ? & ?).
  { apply send_share_Ret in R1 as [[-> ->]|(s0 & M1 & (? & ? & ? & D0 & ? & ?) & R1)]; [| |apply Hs].
    - split_and!; try done; [apply moved_nil|].
      intros d. change (amt [] d) with 0. unfold NewDec. lia.
    - apply pool_credit in R1 as (P1 & W1 & B1 & ? & ? & ? & ? & ?);
        [|apply Hs|by rewrite D0]. rewrite B1, D0 in *. split_and!; congruence || done. }
  split_and!; try congruence. exists a, com, orc, burn. split_and!; [done|done| | |].
  - split; [|intros d; by rewrite S3, S2, S1]. intros acc d.
    rewrite M3, M2, M1, !ind_add. lia.
  - intros d. by rewrite D3, D2, P1.
  - by rewrite D3, D2.
Qed.

(** ** Deducting the tax *)

(** The treasury's record of the taxes of the epoch. *)
Abbreviation Proceeds s := (Treasury.PeekEpochTaxProceeds (treasury s)).

(** The shares of a tax by the rates of the state: the burned part is the tax less
    its rounded burn-split share, and of that share the community gets the
    adjusted community tax and the oracle its split of the rest; together they do
    not exceed the tax.  Without a tax there are no shares. *)
Definition split_shares (s : St) (taxes community oracle burn : Coins) : Prop :=
  coins_ok community /\ coins_ok oracle /\ coins_ok burn /\
  (forall d, amt community d + amt oracle d + amt burn d <= amt taxes d) /\
  (taxes <> [] -> exists a,
     community_rate (GetCommunityTax (distr s))
       (TreasuryTypes.OracleSplit (Treasury.KParams (treasury s))) a /\
     shares_of (TreasuryTypes.BurnTaxSplit (Treasury.KParams (treasury s)))
       (TreasuryTypes.OracleSplit (Treasury.KParams (treasury s))) a taxes community oracle burn).

(** [payer] has paid [taxes] to the fee collector, which passed the shares on to
    the distribution account, where they are in the community pool, to the oracle
    and to the burn account; the taxes are booked, and no coin was made or lost. *)
Definition charged (payer : string) (taxes : Coins) (s s' : St) : Prop :=
  params s' = params s /\ zones s' = zones s /\ others s' = others s /\
  (forall d, amt (Proceeds s') d = amt (Proceeds s) d + amt taxes d) /\
  (forall d, supply (bank s') d = supply (bank s) d) /\
  exists community oracle burn, split_shares s taxes community oracle burn /\
    (forall d, damt (GetCommunityPool (distr s')) d =
       damt (GetCommunityPool (distr s)) d + NewDec (amt community d)) /\
    forall a d, bal (bank s') a d = bal (bank s) a d
      - ind (a = payer) (amt taxes d) + ind (a = FeeCollector) (amt taxes d)
      - ind (a = FeeCollector) (amt community d + amt oracle d + amt burn d)
      + ind (a = Distribution) (amt community d) + ind (a = OracleAccount) (amt oracle d)
      + ind (a = BurnAccount) (amt burn d).

Lemma charged_nil payer (s : St) : charged payer [] s s.
Proof using Type*.
  split_and!; try done; [intros d; change (amt [] d) with 0; lia|].
  exists [], [], []. split_and!; [by split_and!; try apply coins_ok_nil| |].
  - intros d. change (amt [] d) with 0. unfold NewDec. lia.
  - intros a d. change (amt [] d) with 0. unfold ind. repeat destruct (decide _); lia.
Qed.

(** Recording adds the taxes to the proceeds and touches nothing else. *)
Lemma record_Ret taxes (s s' : St) : coins_ok taxes -> coins_ok (Proceeds s) ->
  on_treasury (Treasury.RecordEpochTaxProceeds taxes) s = Ret tt s' ->
  (forall d, amt (Proceeds s') d = amt (Proceeds s) d + amt taxes d) /\ coins_ok (Proceeds s') /\
  params s' = params s /\ zones s' = zones s /\ bank s' = bank s /\ distr s' = distr s /\
  others s' = others s /\ events s' = events s /\
  Treasury.KParams (treasury s') = Treasury.KParams (treasury s).
Proof using Type*.
  intros Ht Hp. unfold on_treasury, Treasury.RecordEpochTaxProceeds.
  destruct (Coins_IsZero taxes) eqn:Ez.
  - apply coins_zero in Ez as ->; [|done]. intros [= <-]. split_and!; try done.
    intros d. change (amt [] d) with 0. simpl. lia.
  - destruct (Coins_Add _ _) as [c| |] eqn:Ea; [|done..]. intros [= <-].
    apply Coins_Add_inv in Ea as [? ?]; [|by apply coins_ok_weak..]. by split_and!.
Qed.

(** Taxes can be charged: what every charge needs and leaves behind. *)
Definition chargeable (s : St) : Prop := splits_ok s /\ coins_ok (Proceeds s).

(** Moving the taxes to the fee collector, splitting and recording them. *)
Lemma charge_Ret payer taxes (s s1 s2 s3 : St) :
  coins_ok taxes -> splits_ok s -> coins_ok (Proceeds s) ->
  moved (bank s) (bank s1) payer FeeCollector taxes -> same_rest s s1 ->
  ProcessTaxSplits taxes s1 = Ret tt s2 ->
  on_treasury (Treasury.RecordEpochTaxProceeds taxes) s2 = Ret tt s3 ->
  charged payer taxes s s3 /\ chargeable s3.
Proof using Type*.
  intros Ht Hs Hp [M1 S1] (E1 & E2 & E3 & E4 & E5 & E6) R2 R3.
  assert (splits_ok s1) as Hs1 by (unfold splits_ok; by rewrite E2, E4).
  apply ProcessTaxSplits_Ret in R2 as ((a & com & orc & burn & Ha & Hsh & [M2 S2] & P2 & W2) & F1 & F2 & F3 & F4 & F5);
    [|done|done].
  apply record_Ret in R3 as (P3 & C3 & G1 & G2 & G3 & G6 & G4 & G5 & G7); [|done|by rewrite F2, E2].
  split; [|split; [|done]; destruct Hs1 as (? & ? & _); unfold splits_ok; by rewrite G7, G6, F2].
  split_and!; [congruence..| |intros d; by rewrite G3, S2, S1|].
  - intros d. by rewrite P3, F2, E2.
  - exists com, orc, burn. rewrite E2, E4 in *. split_and!.
    + split_and!; [apply Hsh..| |intros _; by exists a].
      intros d. apply (shares_le _ _ _ _ _ _ _ d) in Hsh; [lia|apply Hs].
    + intros d. by rewrite G6, P2.
    + intros acc d. rewrite G3, M2, M1. lia.
Qed.

Lemma DeductTax_Ret ctx sender amount rate (s s' : St) net :
  ReverseCharge ctx = Some true -> GetBurnTaxRate s = Some rate -> 0 <= rate ->
  coins_ok amount -> splits_ok s -> coins_ok (Proceeds s) ->
  DeductTax ctx sender amount false s = Ret net s' ->
  exists taxes, coins_ok net /\ coins_ok taxes /\
    (forall d, amt taxes d = tax_of rate (amt amount d)) /\
    (forall d, amt net d = amt amount d - tax_of rate (amt amount d)) /\
    charged sender taxes s s' /\ chargeable s'.
Proof using Type*.
  intros Hc Hr Hr0 Ha Hs Hp R. unfold DeductTax, IsReverseCharge in R. rewrite Hc in R.
  apply bind_Ret in R as (? & ? & [= <- <-] & R). simpl in R.
  apply bind_Ret in R as (? & ? & [= <- <-] & R). change (id s) with s in R. rewrite Hr in R.
  apply bind_Ret in R as (taxes & ? & [Et ->]%lift_Ret & R).
  apply bind_Ret in R as (net' & ? & [En ->]%lift_Ret & R).
  apply bind_Ret in R as ([] & s1 & R & [= <- <-]).
  apply ComputeTax_inv in Et as [Ht At]; [|done|done].
  apply Coins_Sub_inv in En as (Hn & _ & An); [|done|done].
  exists taxes. do 3 (split; [done|]). split; [intros d; by rewrite An, At|].
  rewrite andb_true_r in R. destruct (Coins_IsZero taxes) eqn:Ez; simpl in R.
  { injection R as <-. apply coins_zero in Ez as ->; [|done]. by split; [apply charged_nil|]. }
  apply bind_Ret in R as ([] & s2 & R1 & R). apply bind_Ret in R as ([] & s3 & R2 & R).
  apply bind_Ret in R as ([] & s4 & R3 & [= <-]).
  apply on_bank_Ret in R1 as [R1 Hsame]. apply send_a2m in R1; [|done].
  exact (charge_Ret sender taxes s s2 s3 s4 Ht Hs Hp R1 Hsame R2 R3).
Qed.
End Charge.
End TaxCharge.
