(* ===== verification/Ante.v ===== *)
(** * Transactions and the ante and post handlers

    The checks that run before the messages of a transaction
    ([custom/auth/ante]): oracle and IBC spamming, the initial deposit of
    proposals, taxes and fees; and the tax decorator that runs after them
    ([x/tax/post]).  [next] is the rest of the chain: a decorator returns the
    context it passes on. *)

From S2P Require Import Prelude Sdk SdkRef SdkFees Core OracleTypes OracleKeeper Market TreasuryTypes Treasury TaxExemption Tax.

Module Ante.
Import Tax.

Definition ErrTxDecode := SdkError "tx parse error".
Definition ErrInvalidGasLimit := SdkError "invalid gas limit".
Definition ErrInsufficientFee := SdkError "insufficient fee".
Definition ErrInsufficientFunds := SdkError "insufficient funds".
Definition ErrInvalidRequest := SdkError "invalid request".
Definition ErrUnknownAddress := SdkError "unknown address".
Definition ErrUnauthorized := SdkError "unauthorized".
Definition ErrInvalidAddress := SdkError "invalid address".
Definition ErrReceiverTooLong := Registered "ibcspamprevention" 11.
Definition ErrMemoTooLong := Registered "ibcspamprevention" 12.

(** ** Messages *)

(** The messages the handlers tell apart, with the fields they read.  The inner
    messages of [MsgExec] and of an interchain-account packet are [None] when
    they cannot be unpacked.  A packet may not be one of interchain accounts at all
    ([is_ica] is false), or one that does not execute a transaction ([None]). *)
Inductive Msg :=
  | MsgSend (from to : string) (amount : Coins)
  | MsgMultiSend (inputs outputs : list InOut)
  | MsgSwapSend (m : Market.MsgSwapSend)
  | MsgInstantiateContract (funds : Coins)
  | MsgInstantiateContract2 (funds : Coins)
  | MsgExecuteContract (sender contract : string) (funds : Coins)
  | MsgExec (messages : option (list Msg))
  | MsgOraclePrevote (feeder validator : string)
  | MsgOracleVote (feeder validator : string)
  | MsgEditValidator (validator : string) (rate : option Dec)
  | MsgCreateValidator (validator : string) (rate : Dec)
  | MsgRecvPacket (is_ica : bool) (execute_tx : option (option (list Msg)))
  | MsgSubmitProposal (initialDeposit : Coins)
  | MsgTransfer (memo receiver : string)
  | MsgOther (type_url : string).

(** [sdk.FeeTx]; the gas is a uint64. *)
Record FeeTx := mkTx {
  GetMsgs : list Msg;
  GetFee : Coins;
  GetGas : Z;
  FeePayer : string;
  FeeGranter : option string }.

(** The account and fee-grant keepers of the SDK, on the part [X] of the state.
    [GetAccount] returns an account with the address asked for, or nil. *)
Class AccountKeeper (X : Type) := {
  HasAccount : X -> string -> bool;
  UseGrantedFees : string -> string -> Coins -> list Msg -> M X unit;
}.
(** [sdk.DefaultBondDenom] *)
Class BondDenom := DefaultBondDenom : string.

(** [helper.IsOracleTx] *)
Definition is_oracle_msg (msg : Msg) : bool :=
  match msg with MsgOraclePrevote _ _ | MsgOracleVote _ _ => true | _ => false end.
Definition IsOracleTx (msgs : list Msg) : bool :=
  match msgs with [] => false | _ => forallb is_oracle_msg msgs end.

(** ** IBC denoms ([fee_tax.go]) *)

(** [strings.ToLower] on the ASCII characters a denom consists of. *)
Definition to_lower (c : Ascii.ascii) : Ascii.ascii :=
  let n := Ascii.nat_of_ascii c in
  if ((65 <=? n) && (n <=? 90))%nat then Ascii.ascii_of_nat (n + 32) else c.
(** [[a-fA-F0-9]] *)
Definition is_hex (c : Ascii.ascii) : bool :=
  let n := Ascii.nat_of_ascii c in
  ((97 <=? n) && (n <=? 102) || (65 <=? n) && (n <=? 70) || (48 <=? n) && (n <=? 57))%nat.

(** [^ibc/[a-fA-F0-9]{64}$] *)
Definition isIBCDenom (denom : string) : bool :=
  match map to_lower (String.list_ascii_of_string denom) with
  | i :: b :: c :: slash :: hash =>
      String.eqb (String.string_of_list_ascii [i; b; c; slash]) "ibc/" &&
      forallb is_hex hash && (length hash =? 64)%nat
  | _ => false
  end.

Section Taxes.
Context `{SdkMath, SdkCoins, SdkFees, BondDenom}.

(** ** The tax of a transaction ([fee_tax.go]) *)

Definition computeTax (tk : Treasury.Store) (taxRate : option Dec) (principal : Coins)
    (simulate : bool) : res Coins :=
  let! rate := deref taxRate in
  if rate =? 0 then Ok []
  else coin_loop (fun coin =>
    if String.eqb (Denom coin) DefaultBondDenom then Ok None
    else if isIBCDenom (Denom coin) then Ok None
    else
      let! taxDue := tax_amount taxRate (Amount coin) in
      let taxDue := if simulate && (taxDue <? 100) then 100 else taxDue in
      let taxCap := Treasury.GetTaxCap tk (Denom coin) in
      let taxDue := if taxCap <? taxDue then taxCap else taxDue in
      Ok (if taxDue =? 0 then None else Some taxDue)) [] principal.

Section Filter.
Variable (te : TaxExemption.Store) (tk : Treasury.Store) (th : option Dec) (simulate : bool).

(** Add the tax of some coins to the taxes so far. *)
Definition add_tax (acc : Coins) (principal : Coins) : res Coins :=
  let! t := computeTax tk th principal simulate in Coins_Add acc t.

Fixpoint msg_taxes (acc : Coins * Coins) (msg : Msg) : res (Coins * Coins) :=
  let '(taxes, nonTaxableTaxes) := acc in
  match msg with
  | MsgSend from to amount =>
      if negb (TaxExemption.IsExemptedFromTax te from [to]) then
        let! taxes := add_tax taxes amount in Ok (taxes, nonTaxableTaxes)
      else Ok acc
  | MsgMultiSend inputs outputs =>
      let outputAddresses := Address <$> outputs in
      let tainted := length (List.filter (fun i =>
        TaxExemption.IsExemptedFromTax te (Address i) outputAddresses) inputs) in
      if negb (tainted =? length inputs)%nat then
        let! taxes := rfold (fun taxes i => add_tax taxes (IOCoins i)) taxes inputs in
        Ok (taxes, nonTaxableTaxes)
      else Ok acc
  | MsgSwapSend m =>
      let! offer := NewCoins [Market.SOfferCoin m] in
      let! taxes := add_tax taxes offer in Ok (taxes, nonTaxableTaxes)
  | MsgInstantiateContract funds | MsgInstantiateContract2 funds =>
      let! n := add_tax nonTaxableTaxes funds in Ok (taxes, n)
  | MsgExecuteContract sender contract funds =>
      if negb (TaxExemption.IsExemptedFromTax te sender [contract]) then
        let! n := add_tax nonTaxableTaxes funds in Ok (taxes, n)
      else Ok acc
  | MsgExec (Some messages) =>
      let! exec := (fix go acc ms := match ms with
                                     | [] => Ok acc
                                     | m :: ms' => let! acc' := msg_taxes acc m in go acc' ms'
                                     end) ([], []) messages in
      let! taxes := Coins_Add taxes exec.1 in
      let! n := Coins_Add nonTaxableTaxes exec.2 in
      Ok (taxes, n)
  | _ => Ok acc
  end.

Definition FilterMsgAndComputeTax (msgs : list Msg) : res (Coins * Coins) :=
  rfold msg_taxes ([], []) msgs.
End Filter.

(** ** Gas fees ([fee.go]) *)

(** [ceil(gasPrice * gas)] of every gas price *)
Definition min_gas_fees (minGasPrices : DecCoins) (gas : Z) : res Coins :=
  if DecCoins_IsZero minGasPrices then Ok []
  else
    let glDec := NewDec (int64 gas) in
    rmap (fun gasPrice =>
      let! fee := Dec_Mul (DAmount gasPrice) glDec in
      let! a := Dec_RoundInt (Dec_Ceil fee) in
      NewCoin (DDenom gasPrice) a) minGasPrices.

Definition getTxPriority (fee : Coins) (gas : Z) : res Z :=
  rfold (fun priority c =>
    let! gasPrice := Int_QuoRaw (Amount c) gas in
    let p := if is_int64 gasPrice then gasPrice else MaxInt64 in
    Ok (if (priority =? 0) || (p <? priority) then p else priority)) 0 fee.

(** What the fee leaves once the taxes, or nothing, are taken off it: the
    remaining fees and whether the tax is charged in the messages instead. *)
Definition cover_tax (feeCoins taxes minRequiredGasFees : Coins) : res (Coins * bool) :=
  if negb (Coins_IsZero taxes) then
    if negb (Coins_IsAllGTE feeCoins taxes) then Ok (feeCoins, true)
    else
      let! remainingFees := Coins_Sub feeCoins taxes in
      if negb (Coins_IsZero minRequiredGasFees) &&
         negb (Coins_IsAnyGTE remainingFees minRequiredGasFees)
      then Ok (feeCoins, true)
      else Ok (remainingFees, false)
  else Ok (feeCoins, false).

(** The attempt to refund the taxes of contract calls. *)
Definition refund_tax (remainingFees nonTaxableTaxes minRequiredGasFees : Coins)
    : res (Coins * bool) :=
  if negb (Coins_IsZero nonTaxableTaxes) && Coins_IsAllGTE remainingFees nonTaxableTaxes then
    let! feeCoinsAfterTax := Coins_Sub remainingFees nonTaxableTaxes in
    if negb (Coins_IsZero minRequiredGasFees) &&
       negb (Coins_IsAnyGTE feeCoinsAfterTax minRequiredGasFees)
    then Ok (remainingFees, false)
    else Ok (feeCoinsAfterTax, true)
  else Ok (remainingFees, false).

(** The priority, whether the tax is reverse charged, and whether non-taxable
    taxes are refunded. *)
Definition checkTxFee (minGasPrices : DecCoins) (tx : FeeTx) (taxes nonTaxableTaxes : Coins)
    : res (Z * bool * bool) :=
  let feeCoins := GetFee tx in
  let gas := GetGas tx in
  if negb (IsOracleTx (GetMsgs tx)) then
    let! minRequiredGasFees := min_gas_fees minGasPrices gas in
    let! covered := cover_tax feeCoins taxes minRequiredGasFees in
    let '(remainingFees, reverseCharge) := covered in
    let! refunded := refund_tax remainingFees nonTaxableTaxes minRequiredGasFees in
    let '(remainingFees, refundNonTaxableTaxes) := refunded in
    if negb (Coins_IsZero minRequiredGasFees) &&
       negb (Coins_IsAnyGTE remainingFees minRequiredGasFees)
    then Err ErrInsufficientFee
    else
      let! priority := getTxPriority feeCoins (int64 gas) in
      Ok (priority, reverseCharge, refundNonTaxableTaxes)
  else Ok (MaxInt64, false, false).

(** In a simulation the fee is raised to cover the taxes. *)
Definition cover_taxes (feesOrTax taxes : Coins) : res Coins :=
  rfold (fun feesOrTax tax =>
    let feeAmount := Coins_AmountOf feesOrTax (Denom tax) in
    if feeAmount =? 0 then Coins_Add feesOrTax [tax]
    else if feeAmount <? Amount tax then
      let! missingAmount := Int_Sub (Amount tax) feeAmount in
      let! c := NewCoin (Denom tax) missingAmount in
      Coins_Add feesOrTax [c]
    else Ok feesOrTax) feesOrTax taxes.

(** Take the non-taxable taxes off the fees to deduct, coin by coin. *)
Definition refund_coins (deductFees nonTaxableTaxes : Coins) : res (Coins * list Event) :=
  rfold (fun acc coin =>
    let '(deductFees, events) := acc in
    if Amount coin <=? Coins_AmountOf deductFees (Denom coin) then
      let! deductFees := Coins_Sub deductFees [coin] in
      Ok (deductFees, events ++ [EventTaxRefund coin])
    else Ok acc) (deductFees, []) nonTaxableTaxes.
End Taxes.

(** ** The fee decorator *)

Section Fee.
Context {X B DS : Type}.
Context `{SdkMath, SdkCoins, SdkFees, Bech32, BankKeeper B, DistrKeeper DS, DistrParams DS,
  AccountKeeper X, BondDenom}.
Abbreviation XM := (M (State X B DS)).
Abbreviation St := (State X B DS).

Definition DeductFees (acc : string) (fees : Coins) : XM unit :=
  if negb (Coins_IsValid fees) then fail ErrInsufficientFee
  else fun s =>
    match on_bank (SendCoinsFromAccountToModule acc FeeCollectorName fees) s with
    | Fail _ s' => Fail ErrInsufficientFunds s'
    | o => o
    end.

Definition MintModuleName : string := "mint".

(** [fee_collector]: the fee collector account is set; [feegrant]: fee grants
    are enabled. *)
Section Config.
Variable (fee_collector feegrant : bool).

Definition checkDeductFee (ctx : TxCtx) (tx : FeeTx) (taxes nonTaxableTaxes : Coins)
    (simulate : bool) : XM TxCtx :=
  if negb fee_collector then fail (Errorf "fee collector module account has not been set")
  else
    let fee := GetFee tx in
    let* deductFeesFrom :=
      match FeeGranter tx with
      | None => ret (FeePayer tx)
      | Some feeGranter =>
          if negb feegrant then fail ErrInvalidRequest
          else
            do* (if negb (String.eqb feeGranter (FeePayer tx))
                 then on_others (UseGrantedFees feeGranter (FeePayer tx) fee (GetMsgs tx))
                 else ret tt) in
            ret feeGranter
      end in
    let* exists_ := gets (fun s => HasAccount (others s) deductFeesFrom) in
    if negb exists_ then fail ErrUnknownAddress
    else
      let* feesOrTax :=
        if simulate then
          let* feesOrTax := lift (cover_taxes (if Coins_IsZero fee then taxes else fee) taxes) in
          do* (if negb (Coins_IsZero feesOrTax) then
                 let* needMint := lift (Coins_Sub (Coins_Sort feesOrTax) (Coins_Sort fee)) in
                 if negb (Coins_IsZero needMint) then
                   do* on_bank (MintCoins MintModuleName needMint) in
                   on_bank (SendCoinsFromModuleToAccount MintModuleName deductFeesFrom needMint)
                 else ret tt
               else ret tt) in
          ret feesOrTax
        else ret fee in
      let txEvent := EventTx fee (AccString deductFeesFrom) in
      if negb (Coins_IsZero feesOrTax) then
        let* deductFees := lift (Coins_Sub feesOrTax taxes) in
        let* refunded := lift (if negb (Coins_IsZero nonTaxableTaxes)
                               then refund_coins deductFees nonTaxableTaxes
                               else Ok (deductFees, [])) in
        let '(deductFees, refunds) := refunded in
        let ctx := mkTxCtx (Height ctx) (MinGasPrices ctx) (ReverseCharge ctx) (Some taxes)
                     (Some (AccString deductFeesFrom)) (Priority ctx) in
        do* (if negb (Coins_IsZero deductFees) then DeductFees deductFeesFrom deductFees
             else ret tt) in
        do* emit (txEvent :: refunds) in
        ret ctx
      else
        do* emit [txEvent] in
        ret ctx.

(** A transaction that is not a fee transaction is [None]. *)
Definition AnteHandle (ctx : TxCtx) (tx : option FeeTx) (simulate : bool) : XM TxCtx :=
  match tx with
  | None => fail ErrTxDecode
  | Some tx =>
      if negb simulate && (0 <? Height ctx) && (GetGas tx =? 0) then fail ErrInvalidGasLimit
      else
        let* s := gets id in
        let* computed := lift (FilterMsgAndComputeTax (zones s) (treasury s) (GetBurnTaxRate s)
                                 simulate (GetMsgs tx)) in
        let '(taxes, nonTaxableTaxes) := computed in
        let* checked := lift (
          if negb simulate then checkTxFee (GetEffectiveGasPrices ctx s) tx taxes nonTaxableTaxes
          else Ok (0, false, true)) in
        let '(priority, reverseCharge, refundNonTaxableTax) := checked in
        let nonTaxableTaxes := if refundNonTaxableTax then nonTaxableTaxes else [] in
        let taxes := if reverseCharge then [] else taxes in
        let* newCtx := checkDeductFee ctx tx taxes nonTaxableTaxes simulate in
        ret (mkTxCtx (Height newCtx) (MinGasPrices newCtx) (Some reverseCharge) (TaxDue newCtx)
               (TaxPayer newCtx) priority)
  end.
End Config.

(** ** The tax decorator of the post handler ([x/tax/post]) *)

Definition PostHandle (ctx : TxCtx) : XM unit :=
  match TaxDue ctx with
  | None => ret tt
  | Some dueTax =>
      if Coins_IsZero dueTax then ret tt
      else
        match TaxPayer ctx with
        | None => panic
        | Some payer =>
            match AccAddressFromBech32 payer with
            | Ok deductFeesFrom =>
                let* exists_ := gets (fun s => HasAccount (others s) deductFeesFrom) in
                if negb exists_ then fail ErrUnknownAddress
                else
                  do* DeductFees deductFeesFrom dueTax in
                  do* ProcessTaxSplits dueTax in
                  on_treasury (Treasury.RecordEpochTaxProceeds dueTax)
            | Err _ => fail ErrInvalidAddress
            | Panic => panic
            end
        end
  end.
End Fee.

(** ** Spamming prevention *)

(** The oracle's [ValidateFeeder], as the decorator sees it. *)
Class FeederCheck (O : Type) := check_feeder : O -> string -> string -> res unit.
#[export] Instance oracle_feeder_check {B SS DS} `{Bech32, StakingKeeper SS}
  : FeederCheck (OracleKeeper.State B SS DS) := OracleKeeper.ValidateFeeder.

(** The decorator keeps, across transactions, the last height of each
    validator's prevote and vote. *)
Record Spam := mkSpam { PrevoteMap : gmap string Z; VoteMap : gmap string Z }.

Section Spamming.
Context {O : Type} `{Bech32, FeederCheck O}.
Abbreviation SM := (M Spam).

Definition check_height (last : option Z) (curHeight : Z) : SM unit :=
  match last with
  | Some h => if h =? curHeight then fail ErrInvalidRequest else ret tt
  | None => ret tt
  end.

Definition check_permission (o : O) (feeder validator : string) : res unit :=
  let! feederAddr := AccAddressFromBech32 feeder in
  let! valAddr := ValAddressFromBech32 validator in
  check_feeder o feederAddr valAddr.

Fixpoint CheckOracleSpamming (o : O) (curHeight : Z) (msgs : list Msg) : SM unit :=
  match msgs with
  | [] => ret tt
  | MsgOraclePrevote feeder validator :: rest =>
      do* lift (check_permission o feeder validator) in
      let* s := gets id in
      do* check_height (PrevoteMap s !! validator) curHeight in
      do* modify (fun s => mkSpam (<[validator := curHeight]> (PrevoteMap s)) (VoteMap s)) in
      CheckOracleSpamming o curHeight rest
  | MsgOracleVote feeder validator :: rest =>
      do* lift (check_permission o feeder validator) in
      let* s := gets id in
      do* check_height (VoteMap s !! validator) curHeight in
      do* modify (fun s => mkSpam (PrevoteMap s) (<[validator := curHeight]> (VoteMap s))) in
      CheckOracleSpamming o curHeight rest
  | _ => ret tt
  end.

Definition spam_AnteHandle (recheck check_tx simulate : bool) (o : O) (curHeight : Z)
    (msgs : list Msg) : SM unit :=
  if recheck then ret tt
  else if negb simulate && check_tx then CheckOracleSpamming o curHeight msgs
  else ret tt.
End Spamming.

(** ** IBC transfers *)

Definition DefaultMaxMemoLength : nat := 1024.
Definition DefaultMaxReceiverLength : nat := 128.

Fixpoint ibc_check (msgs : list Msg) : res unit :=
  match msgs with
  | [] => Ok tt
  | MsgTransfer memo receiver :: rest =>
      if (DefaultMaxMemoLength <? String.length memo)%nat then Err ErrMemoTooLong
      else if (DefaultMaxReceiverLength <? String.length receiver)%nat then Err ErrReceiverTooLong
      else ibc_check rest
  | _ :: rest => ibc_check rest
  end.
Definition ibc_AnteHandle (recheck : bool) (msgs : list Msg) : res unit :=
  if recheck then Ok tt else ibc_check msgs.

(** ** The initial deposit of proposals *)

Section Deposit.
Context `{SdkMath, SdkCoins, SdkFees}.

Definition IsMsgSubmitProposal (msg : Msg) : bool :=
  match msg with MsgSubmitProposal _ => true | _ => false end.

(** [minDeposit] is the governance parameter; [minDeposit[0]] panics when it is
    empty. *)
Definition HandleCheckMinInitialDeposit (minDeposit : Coins) (treasury : Treasury.Store)
    (msg : Msg) : res unit :=
  match msg with
  | MsgSubmitProposal initialDepositCoins =>
      let! c := deref (head minDeposit) in
      let! requiredAmount := tax_amount
        (Some (TreasuryTypes.MinInitialDepositRatio (Treasury.KParams treasury))) (Amount c) in
      let! coin := NewCoin MicroLunaDenom requiredAmount in
      let! requiredDepositCoins := NewCoins [coin] in
      if negb (Coins_IsAllGTE initialDepositCoins requiredDepositCoins)
      then Err (Errorf "not enough initial deposit provided")
      else Ok tt
  | _ => Err (Errorf "could not dereference msg as MsgSubmitProposal")
  end.

Definition deposit_AnteHandle (minDeposit : Coins) (treasury : Treasury.Store) (simulate : bool)
    (msgs : list Msg) : res unit :=
  if simulate then Ok tt
  else rfold (fun _ msg =>
    if negb (IsMsgSubmitProposal msg) then Ok tt
    else match HandleCheckMinInitialDeposit minDeposit treasury msg with
         | Err _ => Err ErrUnauthorized
         | r => r
         end) tt msgs.
End Deposit.
End Ante.
