(* ===== verification/TaxRef.v ===== *)
(** * A reference chain for the tax module

    A bank message server on top of the reference bank, and a state with two
    users. *)

From S2P Require Import Prelude Sdk SdkRef SdkFees Core OracleTypes OracleKeeper Market TreasuryTypes Treasury TaxExemption Tax TaxFacts TaxCharge Ante.

Module TaxRef.
Import Ref Tax.
#[export] Existing Instance RefFees.ref_fees.
#[export] Existing Instance RefFees.ref_fees_laws.
#[export] Existing Instance RefFees.ref_distr_params.

Definition all_denoms (l : list InOut) : list string := l ≫= (fun i => Denom <$> IOCoins i).
Definition io_total (l : list InOut) (d : string) : Z := zsum (fun i => amt (IOCoins i) d) l.
Definition ErrInputOutputMismatch := SdkError "sum inputs != sum outputs".

#[export] Instance ref_bank_server : BankServer RefBank := {|
  bank_Send from to cs :=
    let* x := lift (AccAddressFromBech32 from) in
    let* y := lift (AccAddressFromBech32 to) in
    send x y cs;
  bank_MultiSend ins outs :=
    if forallb (fun d => io_total ins d =? io_total outs d) (all_denoms ins ++ all_denoms outs) then
      do* mfor ins (fun i => let* x := lift (AccAddressFromBech32 (Address i)) in
                             withdraw x (IOCoins i)) in
      mfor outs (fun o => let* y := lift (AccAddressFromBech32 (Address o)) in
                          deposit y (IOCoins o))
    else fail ErrInputOutputMismatch |}.

Lemma io_total_dens l d : d ∉ all_denoms l -> io_total l d = 0.
Proof.
  intros Hd. unfold io_total. rewrite (zsum_ext _ (fun _ => 0)), zsum_0; [done|].
  intros i Hi. apply amt_dens. intros Hin. apply Hd. apply list_elem_of_bind. by exists i.
Qed.

#[export] Instance ref_bank_server_laws : BankServerLaws RefBank.
Proof.
  split.
  - intros b b' from to cs Hcs R. apply bind_Ret in R as (x & ? & [Hx ->]%lift_Ret & R).
    apply bind_Ret in R as (y & ? & [Hy ->]%lift_Ret & R). exists x, y.
    split_and!; [done|done|by apply send_moved].
  - intros b b' ins outs. cbn [bank_MultiSend ref_bank_server].
    destruct (forallb _ _) eqn:Ef; [|done]. intros _ d. rewrite forallb_forall in Ef.
    destruct (decide (d ∈ all_denoms ins ++ all_denoms outs)) as [Hd|Hd].
    + apply Z.eqb_eq, Ef. by apply list_elem_of_In.
    + rewrite elem_of_app in Hd. trans 0; [|symmetry]; apply io_total_dens; tauto.
Qed.

(** Every account exists and every fee grant is given. *)
#[export] Instance ref_accounts : Ante.AccountKeeper unit := {|
  Ante.HasAccount _ _ := true;
  Ante.UseGrantedFees _ _ _ _ := ret tt |}.
#[export] Instance stake : Ante.BondDenom := "stake".

Definition alice : string := "alice".
Definition bob : string := "bob".
Definition carol : string := "carol".
Definition acc (a : string) : string := "terra1" +:+ a.

Definition tax_treasury : Treasury.Store := {|
  Treasury.TaxRate := None; Treasury.RewardWeight := None;
  Treasury.TaxCaps := {[ MicroUSDDenom := 60 ]};
  Treasury.TaxProceeds := Some [mkCoin MicroLunaDenom 9];
  Treasury.EpochInitialIssuance := None; Treasury.TRs := ∅; Treasury.SRs := ∅; Treasury.TSLs := ∅;
  Treasury.Exemptions := ∅;
  Treasury.KParams := Treasury.KParams (Treasury.SetOracleSplitRate (NewDecWithPrec 5 1)
    (Treasury.mkStore None None ∅ None None ∅ ∅ ∅ ∅ TreasuryTypes.DefaultParams)) |}.

Definition tax_bank : RefBank :=
  mkBank {[ alice := {[ MicroLunaDenom := 10 ^ 9; MicroUSDDenom := 10 ^ 9 ]};
            bob := {[ MicroLunaDenom := 5 ]} ]}
    {[ MicroLunaDenom := 10 ^ 10; MicroUSDDenom := 10 ^ 10 ]} ∅.

Definition tax_params : Params := mkParams default_price_list (Some (NewDecWithPrec 5 3)).
Definition tax_state : State unit RefBank RefDistr :=
  mkState (Some tax_params) tax_treasury (TaxExemption.mkStore ∅ ∅) tax_bank (mkDistr ∅ []) tt [].
Definition reverse_ctx : TxCtx := mkTxCtx 7 [] (Some true) None None 0.

Lemma coins_ok_check cs : coins_valid cs = true -> coins_ok cs.
Proof. intros Hv. by apply Coins_IsValid_spec. Qed.
End TaxRef.
