(* ===== verification/TaxSend.v ===== *)
(** * Taxed transfers

    The theorems about tax splits and the reverse-charged message servers, with
    a concrete chain on which they are run. *)

From S2P Require Import Prelude Sdk SdkRef SdkFees Core OracleTypes Market TreasuryTypes Treasury TreasuryFacts TaxExemption Tax TaxFacts TaxCharge TaxRef.

Module TaxSend.
Import Tax TaxFacts TaxCharge.

(** Decide the [ind]s of a goal from the (dis)equalities at hand. *)
Ltac ind_simpl := unfold ind; repeat match goal with
  | |- context [decide (?x = ?y)] => first
      [rewrite (decide_True (P := x = y)) by reflexivity
      |rewrite (decide_False (P := x = y)) by congruence]
  end.

Section Split.
Context `{HM : SdkMath, HC : SdkCoins, HF : SdkFees}.
Context `{!SdkMathLaws, !SdkCoinsLaws, !SdkFeesLaws}.

(** C17. Splitting a tax loses nothing and never panics: with all rates in
    [[0, 1]], and not both a community tax of one and an oracle split of zero,
    the tax of every denom is divided into the part that is burned, a community
    share, an oracle share and a non-negative rest that stays with the fee
    collector; the burned part is the tax less its rounded burn-split share. *)
Theorem tax_split_conserves burnSplit oracleSplit communityTax taxes :
  rate_ok burnSplit -> rate_ok oracleSplit -> rate_ok communityTax ->
  ~ (communityTax = OneDec /\ oracleSplit = 0) ->
  coins_ok taxes -> (forall d, amt taxes d < 2 ^ 255) ->
  exists community oracle burn,
    tax_shares burnSplit oracleSplit communityTax taxes = Ok (community, oracle, burn) /\
    coins_ok community /\ coins_ok oracle /\ coins_ok burn /\
    forall d,
      let delta := dec_round (burnSplit * amt taxes d) in
      amt burn d = amt taxes d - delta /\
      amt oracle d = dec_round (oracleSplit * (delta - amt community d)) /\
      0 <= amt taxes d - (amt community d + amt oracle d + amt burn d) <= delta.
Proof using Type*.
  intros Hb Ho Hc Hne Ht Hlt.
  destruct (tax_shares_Ok burnSplit oracleSplit communityTax taxes)
    as (com & orc & burn & Hs); [done..|]. exists com, orc, burn. split; [done|].
  apply tax_shares_inv in Hs as (a & _ & Hs); [|apply Hb|apply Ho|done].
  split_and!; [apply Hs..|]. intros d. simpl.
  pose proof (shares_le _ _ _ _ _ _ _ d Ho Hs). pose proof (burn_amt _ _ _ _ _ _ _ Hs d).
  pose proof (oracle_amt _ _ _ _ _ _ _ Hs d). split_and!; [done|done|lia|lia].
Qed.
End Split.

Section Servers.
Context {X B DS : Type}.
Context `{HM : SdkMath, HC : SdkCoins, HF : SdkFees, HA : Bech32, HB : BankKeeper B,
  HD : DistrKeeper DS, HP : DistrParams DS, HS : BankServer B}.
Context `{!SdkMathLaws, !SdkCoinsLaws, !SdkFeesLaws, !Bech32Laws, !BankLaws B, !DistrLaws DS,
  !BankServerLaws B}.
Abbreviation St := (State X B DS).

(** What the module accounts of the tax hold together. *)
Definition module_holdings (b : B) (d : string) : Z :=
  bal b FeeCollector d + bal b Distribution d + bal b OracleAccount d + bal b BurnAccount d.
Definition module_accounts : list string := [FeeCollector; Distribution; OracleAccount; BurnAccount].

Lemma charged_holdings payer taxes (s s' : St) d : NoDup module_accounts ->
  payer ∉ module_accounts -> charged payer taxes s s' ->
  module_holdings (bank s') d = module_holdings (bank s) d + amt taxes d.
Proof using Type.
  intros Hnd Hni (_ & _ & _ & _ & _ & com & orc & burn & _ & _ & Hb).
  unfold module_accounts in *. apply NoDup_cons in Hnd as [N1 Hnd].
  apply NoDup_cons in Hnd as [N2 Hnd]. apply NoDup_cons in Hnd as [N3 _].
  rewrite ?not_elem_of_cons in *. destruct_and!.
  unfold module_holdings. rewrite !Hb. ind_simpl. lia.
Qed.

(** A user pays exactly the taxes. *)
Lemma charged_user payer taxes (s s' : St) a d : a ∉ module_accounts ->
  charged payer taxes s s' -> bal (bank s') a d = bal (bank s) a d - ind (a = payer) (amt taxes d).
Proof using Type.
  intros Hni (_ & _ & _ & _ & _ & com & orc & burn & _ & _ & Hb).
  unfold module_accounts in *. rewrite ?not_elem_of_cons in *. destruct_and!.
  rewrite Hb. ind_simpl. lia.
Qed.

(** What a taxed transfer from [x] to [y] does to the accounts, the supply and
    the tax proceeds. *)
Definition net_transfer (x y : string) (amount tax : string -> Z) (s s' : St) : Prop := forall d,
  bal (bank s') x d = bal (bank s) x d - amount d /\
  bal (bank s') y d = bal (bank s) y d + amount d - tax d /\
  module_holdings (bank s') d = module_holdings (bank s) d + tax d /\
  supply (bank s') d = supply (bank s) d /\
  amt (Treasury.PeekEpochTaxProceeds (treasury s')) d =
    amt (Treasury.PeekEpochTaxProceeds (treasury s)) d + tax d.

(** The two steps of a reverse-charged transfer: the tax is charged to the
    sender, and what is left is sent. *)
Lemma Send_parts ctx from to amount rate x (s s' : St) :
  ReverseCharge ctx = Some true -> coins_ok amount ->
  GetBurnTaxRate s = Some rate -> 0 <= rate -> chargeable s ->
  AccAddressFromBech32 from = Ok x -> Send ctx from to amount s = Ret tt s' ->
  exists taxes net y s1, coins_ok net /\ AccAddressFromBech32 to = Ok y /\
    (forall d, amt taxes d = if TaxExemption.IsExemptedFromTax (zones s) from [to] then 0
                             else tax_of rate (amt amount d)) /\
    (forall d, amt net d = amt amount d - amt taxes d) /\
    charged x taxes s s1 /\ chargeable s1 /\ moved (bank s1) (bank s') x y net /\ same_rest s1 s'.
Proof using Type*.
  intros Hc Ha Hr Hr0 [Hs Hp] Hx R.
  set (exempt := TaxExemption.IsExemptedFromTax (zones s) from [to]).
  unfold Send, IsReverseCharge in R. rewrite Hc in R.
  apply bind_Ret in R as (? & ? & [= <- <-] & R). simpl in R. unfold MustAcc in R. rewrite Hx in R.
  apply bind_Ret in R as (? & ? & [= <- <-] & R). apply bind_Ret in R as (? & ? & [= <- <-] & R).
  apply bind_Ret in R as (net & s1 & R1 & R2). change (id s) with s in R1. fold exempt in R1.
  assert (exists taxes, coins_ok net /\
    (forall d, amt taxes d = if exempt then 0 else tax_of rate (amt amount d)) /\
    (forall d, amt net d = amt amount d - amt taxes d) /\ charged x taxes s s1 /\ chargeable s1)
    as (taxes & Hn & At & An & Hch & Hr1).
  { destruct exempt; simpl in R1.
    - injection R1 as <- <-. exists []. split_and!; [done|done| |apply charged_nil|done..].
      intros d. change (amt [] d) with 0. lia.
    - apply (DeductTax_Ret _ _ _ rate) in R1 as (taxes & ? & ? & At & An & ? & ?); [|done..].
      exists taxes. split_and!; [done|done| |done..]. intros d. by rewrite An, At. }
  apply on_bank_Ret in R2 as [R2 E2].
  apply bank_Send_moved in R2 as (x' & y & Hx' & Hy & M2); [|done].
  rewrite Hx in Hx'. injection Hx' as <-. by exists taxes, net, y, s1.
Qed.

Lemma send_charged ctx from to amount rate x y (s s' : St) :
  ReverseCharge ctx = Some true -> coins_ok amount ->
  GetBurnTaxRate s = Some rate -> 0 <= rate ->
  splits_ok s -> coins_ok (Treasury.PeekEpochTaxProceeds (treasury s)) ->
  AccAddressFromBech32 from = Ok x -> AccAddressFromBech32 to = Ok y ->
  NoDup module_accounts -> x ∉ module_accounts -> y ∉ module_accounts -> x <> y ->
  Send ctx from to amount s = Ret tt s' ->
  net_transfer x y (amt amount)
    (fun d => if TaxExemption.IsExemptedFromTax (zones s) from [to] then 0
              else tax_of rate (amt amount d)) s s'.
Proof using Type*.
  intros Hc Ha Hr Hr0 Hs Hp Hx Hy Hnd Nx Ny Hxy R.
  apply (Send_parts _ _ _ _ rate x) in R
    as (taxes & net & y' & s1 & Hn & Hy' & At & An & Hch & _ & [M2 S2] & (_ & T2 & _)); [|done..].
  rewrite Hy in Hy'. injection Hy' as <-.
  intros d. specialize (At d). rewrite T2, S2.
  pose proof (charged_holdings x taxes s s1 d Hnd Nx Hch) as Hh.
  pose proof (charged_user x taxes s s1 x d Nx Hch) as Ux.
  pose proof (charged_user x taxes s s1 y d Ny Hch) as Uy.
  destruct Hch as (_ & _ & _ & Pr & Su & _).
  assert (module_holdings (bank s') d = module_holdings (bank s1) d) as ->.
  { unfold module_accounts in Nx, Ny. rewrite ?not_elem_of_cons in Nx, Ny. destruct_and!.
    unfold module_holdings. rewrite !M2. ind_simpl. lia. }
  rewrite !M2, Ux, Uy, Pr, Su, Hh, An, At. ind_simpl. lia.
Qed.

(** A reverse-charged transfer costs the sender exactly the amount of the
    message: the receiver gets it less the burn tax (the rate's share rounded
    down, nothing when the exemption zones say so), the tax goes to the fee
    collector and the accounts it is split to, the supply does not change, and
    the treasury's tax proceeds grow by the tax. *)
Theorem reverse_charge_send ctx from to amount rate x y (s s' : St) :
  ReverseCharge ctx = Some true -> coins_ok amount ->
  GetBurnTaxRate s = Some rate -> 0 <= rate ->
  splits_ok s -> coins_ok (Treasury.PeekEpochTaxProceeds (treasury s)) ->
  AccAddressFromBech32 from = Ok x -> AccAddressFromBech32 to = Ok y ->
  NoDup module_accounts -> x ∉ module_accounts -> y ∉ module_accounts -> x <> y ->
  Send ctx from to amount s = Ret tt s' ->
  let exempt := TaxExemption.IsExemptedFromTax (zones s) from [to] in
  forall d,
    let tax := if exempt then 0 else tax_of rate (amt amount d) in
    bal (bank s') x d = bal (bank s) x d - amt amount d /\
    bal (bank s') y d = bal (bank s) y d + amt amount d - tax /\
    module_holdings (bank s') d = module_holdings (bank s) d + tax /\
    supply (bank s') d = supply (bank s) d /\
    amt (Treasury.PeekEpochTaxProceeds (treasury s')) d =
      amt (Treasury.PeekEpochTaxProceeds (treasury s)) d + tax.
Proof using Type*. intros. by eapply send_charged. Qed.

(** ** Multi-sends *)

(** Nothing here changes the parameters. *)
Lemma send_share_params r cs k (s s' : St) :
  (forall s1 s2, k s1 = Ret tt s2 -> params s2 = params s1) ->
  send_share r cs k s = Ret tt s' -> params s' = params s.
Proof using Type.
  intros Hk. unfold send_share. destruct (negb _); [|by intros [= <-]].
  intros ([] & s1 & [_ (E1 & _)]%on_bank_Ret & R)%bind_Ret. apply Hk in R. congruence.
Qed.

Lemma ProcessTaxSplits_params taxes (s s' : St) :
  ProcessTaxSplits taxes s = Ret tt s' -> params s' = params s.
Proof using Type.
  unfold ProcessTaxSplits. intros R. apply bind_Ret in R as (? & ? & [= <- <-] & R).
  apply bind_Ret in R as ([[com orc] burn] & ? & [_ ->]%lift_Ret & R).
  apply bind_Ret in R as ([] & s1 & R1 & R). apply bind_Ret in R as ([] & s2 & R2 & R3).
  apply send_share_params in R1, R2, R3; [congruence|by intros ? ? [= <-]..|].
  intros t1 t2 R. apply bind_Ret in R as (? & ? & [= <- <-] & R).
  apply bind_Ret in R as (? & ? & [_ ->]%lift_Ret & R).
  apply bind_Ret in R as (? & ? & [_ ->]%lift_Ret & R). by apply zoom_Ret in R as (? & _ & ->).
Qed.

Lemma DeductTax_net ctx sender amount skip rate (s s' : St) net :
  ReverseCharge ctx = Some true -> GetBurnTaxRate s = Some rate -> 0 <= rate -> coins_ok amount ->
  DeductTax ctx sender amount skip s = Ret net s' ->
  (forall d, amt net d = amt amount d - tax_of rate (amt amount d)) /\ params s' = params s.
Proof using Type*.
  intros Hc Hr Hr0 Ha R. unfold DeductTax, IsReverseCharge in R. rewrite Hc in R.
  apply bind_Ret in R as (? & ? & [= <- <-] & R). simpl in R.
  apply bind_Ret in R as (? & ? & [= <- <-] & R). change (id s) with s in R. rewrite Hr in R.
  apply bind_Ret in R as (taxes & ? & [Et ->]%lift_Ret & R).
  apply bind_Ret in R as (net' & ? & [En ->]%lift_Ret & R).
  apply bind_Ret in R as ([] & s1 & R & [= <- <-]).
  apply ComputeTax_inv in Et as [Ht At]; [|done|done].
  apply Coins_Sub_inv in En as (Hn & _ & An); [|done|done].
  split; [intros d; by rewrite An, At|]. destruct (_ && _); [|by injection R as <-].
  apply bind_Ret in R as ([] & s2 & [_ (E1 & _)]%on_bank_Ret & R).
  apply bind_Ret in R as ([] & s3 & R2%ProcessTaxSplits_params & R).
  apply bind_Ret in R as ([] & s4 & R3 & [= <-]). simpl. unfold on_treasury in R3.
  destruct (Treasury.RecordEpochTaxProceeds _ _); [|done..]. injection R3 as <-. simpl. congruence.
Qed.

(** What is left of a list of inputs or outputs. *)
Definition total (f : Z -> Z) (l : list InOut) (d : string) : Z :=
  zsum (fun i => f (amt (IOCoins i) d)) l.

Lemma deduct_all_Ret ctx skip rate l : ReverseCharge ctx = Some true -> 0 <= rate ->
  Forall (fun i => coins_ok (IOCoins i)) l ->
  forall (acc : list InOut) (s s' : St) r, GetBurnTaxRate s = Some rate ->
  mfold (fun acc i =>
    let* addr := MustAcc (Address i) in
    let* netCoins := DeductTax ctx addr (IOCoins i) skip in
    ret (acc ++ [mkInOut (Address i) netCoins])) acc l s = Ret r s' ->
  (forall d, total id r d = total id acc d + total (fun a => a - tax_of rate a) l d) /\
  params s' = params s.
Proof using Type*.
  intros Hc Hr0. induction 1 as [|i l Hi Hl IH]; intros acc s s' r Hr R; simpl in R.
  - injection R as <- <-. split; [|done]. intros d. unfold total at 3. rewrite zsum_nil. lia.
  - apply bind_Ret in R as (acc' & s1 & R1 & R).
    apply bind_Ret in R1 as (addr & s0 & R0 & R1).
    assert (s0 = s) as -> by (unfold MustAcc in R0; destruct (AccAddressFromBech32 _); by inversion R0).
    apply bind_Ret in R1 as (net & s2 & R1 & [= <- <-]).
    apply (DeductTax_net _ _ _ _ rate) in R1 as [An Ep]; [|done..].
    apply IH in R as [At Ep']; [|by unfold GetBurnTaxRate, GetParams; rewrite Ep].
    split; [|congruence]. intros d. rewrite At. unfold total.
    rewrite zsum_app, !zsum_cons, zsum_nil. unfold id. simpl. rewrite An. lia.
Qed.

(** Under the reverse charge a multi-send succeeds only by luck of rounding:
    its inputs and outputs are taxed separately, each rounded down, so whenever
    the rounded taxes of the outputs do not add up to those of the inputs, a
    balanced multi-send of taxable accounts does not go through. *)
Theorem multi_send_rounding ctx inputs outputs rate d (s s' : St) :
  ReverseCharge ctx = Some true -> GetBurnTaxRate s = Some rate -> 0 <= rate ->
  Forall (fun i => coins_ok (IOCoins i)) (inputs ++ outputs) ->
  existsb (fun i => negb (TaxExemption.IsExemptedFromTax (zones s) (Address i)
    (Address <$> outputs))) inputs = true ->
  total id inputs d = total id outputs d ->
  total (tax_of rate) inputs d <> total (tax_of rate) outputs d ->
  MultiSend ctx inputs outputs s <> Ret tt s'.
Proof using Type*.
  intros Hc Hr Hr0 Hok Htaint Hbal Htax R. apply Forall_app in Hok as [Hin Hout].
  unfold MultiSend, IsReverseCharge in R. rewrite Hc in R.
  apply bind_Ret in R as (? & ? & [= <- <-] & R). simpl in R.
  apply bind_Ret in R as (? & ? & [= <- <-] & R). change (id s) with s in R. rewrite Htaint in R.
  apply bind_Ret in R as (ins & s1 & R1 & R). apply bind_Ret in R as (outs & s2 & R2 & R3).
  apply (deduct_all_Ret _ _ rate) in R1 as [A1 P1]; [|done..].
  apply (deduct_all_Ret _ _ rate) in R2 as [A2 P2];
    [|done..|by unfold GetBurnTaxRate, GetParams; rewrite P1].
  apply on_bank_Ret in R3 as [R3 _]. pose proof (bank_MultiSend_totals _ _ _ _ R3 d) as Heq.
  specialize (A1 d). specialize (A2 d). unfold total in *. rewrite zsum_nil in *.
  assert (forall l : list InOut, zsum (fun i => amt (IOCoins i) d - tax_of rate (amt (IOCoins i) d)) l =
    zsum (fun i => amt (IOCoins i) d) l - zsum (fun i => tax_of rate (amt (IOCoins i) d)) l) as Hs.
  { intros l. induction l as [|i l IH]; [done|]. rewrite !zsum_cons, IH. lia. }
  rewrite Hs in A1, A2. unfold id in *. lia.
Qed.
End Servers.

(** ** Concrete runs *)

Import Ref TaxRef.

Definition demo_taxes : Coins := [mkCoin MicroLunaDenom 5000; mkCoin MicroUSDDenom 7].

Lemma tax_split_conserves_witness :
  tax_shares (NewDecWithPrec 1 1) (NewDecWithPrec 5 1) (NewDecWithPrec 2 2) demo_taxes =
    Ok ([mkCoin MicroLunaDenom 5], [mkCoin MicroLunaDenom 248],
        [mkCoin MicroLunaDenom 4500; mkCoin MicroUSDDenom 6]).
Proof.
  destruct (tax_split_conserves (NewDecWithPrec 1 1) (NewDecWithPrec 5 1) (NewDecWithPrec 2 2)
    demo_taxes) as (com & orc & burn & E & _).
  - split; vm_compute; discriminate.
  - split; vm_compute; discriminate.
  - split; vm_compute; discriminate.
  - intros [Hx _]. revert Hx. vm_compute. discriminate.
  - apply coins_ok_check. by vm_compute.
  - intros d. unfold demo_taxes, amt. rewrite !zsum_cons, zsum_nil. simpl.
    repeat destruct (decide _); by vm_compute.
  - rewrite E. rewrite <- E. by vm_compute.
Defined.

Definition demo_amount : Coins := [mkCoin MicroLunaDenom 1000000; mkCoin MicroUSDDenom 199].
Definition send_run := Send reverse_ctx (acc alice) (acc bob) demo_amount tax_state.
Definition send_after : State unit RefBank RefDistr := final send_run tax_state.

Lemma tax_send_returns : send_run = Ret tt send_after.
Proof. apply returned_final. by vm_compute. Qed.

Lemma tax_splits_ok : splits_ok tax_state.
Proof. split_and!; [split; vm_compute; discriminate..|split; constructor]. Qed.

Lemma reverse_charge_send_witness :
  bal (bank send_after) alice MicroLunaDenom = 10 ^ 9 - 1000000 /\
  bal (bank send_after) bob MicroLunaDenom = 5 + 995000.
Proof.
  destruct (reverse_charge_send reverse_ctx (acc alice) (acc bob) demo_amount (NewDecWithPrec 5 3)
    alice bob tax_state send_after) with (d := MicroLunaDenom) as (Ha & Hb & _).
  - done.
  - apply coins_ok_check. by vm_compute.
  - done.
  - by vm_compute.
  - apply tax_splits_ok.
  - apply coins_ok_check. by vm_compute.
  - done.
  - done.
  - apply (bool_decide_unpack _). by vm_compute.
  - apply (bool_decide_unpack _). by vm_compute.
  - apply (bool_decide_unpack _). by vm_compute.
  - done.
  - apply tax_send_returns.
  - rewrite Ha, Hb. split; vm_compute; reflexivity.
Defined.

Definition multi_in : list InOut := [mkInOut (acc alice) [mkCoin MicroUSDDenom 200]].
Definition multi_out : list InOut :=
  [mkInOut (acc bob) [mkCoin MicroUSDDenom 100]; mkInOut (acc carol) [mkCoin MicroUSDDenom 100]].

Lemma multi_send_rounding_witness :
  returned (MultiSend reverse_ctx multi_in multi_out tax_state) = false.
Proof.
  destruct (MultiSend reverse_ctx multi_in multi_out tax_state) as [[] s'| |] eqn:R; [|done..].
  exfalso. apply (multi_send_rounding reverse_ctx multi_in multi_out (NewDecWithPrec 5 3)
    MicroUSDDenom tax_state s'); [done|done|by vm_compute| |done|done| |done].
  - repeat constructor; apply coins_ok_check; by vm_compute.
  - vm_compute. discriminate.
Defined.
End TaxSend.
