(* ===== verification/TaxMarket.v ===== *)
(** * The market behind the tax module

    The market's message server implements the interface the tax module wraps,
    and the two together charge the tax on a swap's offer. *)

From S2P Require Import Prelude Sdk SdkRef SdkFees Core OracleTypes OracleKeeper OracleRef Market MarketFacts MarketSwap MarketOracle TreasuryTypes Treasury TreasuryFacts TaxExemption Tax TaxFacts TaxCharge Ante TaxRef TaxSend.

Module TaxMarket.
Import Tax TaxFacts TaxCharge TaxSend.

(** The market's part of the state: its keeper, the oracle and its events. *)
Abbreviation Rest O := (Market.Keeper * O * list Market.Event)%type.

(** An operation of the market module on the tax module's view of its state. *)
Definition as_market {O B A : Type} (c : M (Market.State O B) A) : M (Rest O * B) A :=
  zoom (fun xb => Market.mkState xb.1.1.1 xb.1.1.2 xb.2 xb.1.2)
    (fun s _ => (Market.keeper s, Market.oracle s, Market.events s, Market.bank s)) c.

#[export] Instance market_server {O B : Type} `{SdkMath, SdkCoins, Bech32, Market.OracleReader O, BankKeeper B}
  : MarketServer (Rest O) B := fun msg => as_market (Market.SwapSend msg).

Section Swap.
Context {O B DS : Type}.
Context `{HM : SdkMath, HC : SdkCoins, HF : SdkFees, HA : Bech32, HO : Market.OracleReader O,
  HB : BankKeeper B, HD : DistrKeeper DS, HP : DistrParams DS}.
Context `{!SdkMathLaws, !SdkCoinsLaws, !SdkFeesLaws, !Bech32Laws, !BankLaws B, !DistrLaws DS}.
Abbreviation St := (State (Rest O) B DS).

(** Coins with the amounts of a single coin. *)
Lemma single_coin cs d a c : coins_ok cs -> (forall d', amt cs d' = ind (d = d') a) ->
  head cs = Some c -> c = mkCoin d a /\ 0 < a.
Proof using Type.
  intros [Hs Hp] Ha Hh. destruct cs as [|x cs]; [done|]. injection Hh as ->.
  apply Forall_cons in Hp as [[_ Hpos] _].
  assert (amt (c :: cs) (Denom c) = Amount c) as Hc by (apply amt_elem; [done|left]).
  rewrite Ha in Hc. unfold ind in Hc. destruct (decide (d = Denom c)) as [->|]; [|lia].
  split; [|lia]. destruct c as [dc ac]. simpl in *. by rewrite Hc.
Qed.

(** C24. A reverse-charged swap. The burn tax on the offer is taken from the
    trader and split: the burn account, the oracle and the community get their
    shares, the fee collector keeps the rest, and the tax is booked as proceeds.
    The market swaps what is left of the offer at its oracle price; the receiver
    gets what that swap pays and the oracle account its fee. The trader loses
    exactly the offer, and no other balance changes. (The spec of the market taxes
    the coins that the swap returns; see the findings.) *)
Theorem reverse_charge_swap ctx msg rate x y (s s' : St) resp :
  ReverseCharge ctx = Some true -> 0 < Amount (Market.SOfferCoin msg) ->
  GetBurnTaxRate s = Some rate -> 0 <= rate ->
  splits_ok s -> coins_ok (Treasury.PeekEpochTaxProceeds (treasury s)) ->
  AccAddressFromBech32 (Market.FromAddress msg) = Ok x ->
  AccAddressFromBech32 (Market.ToAddress msg) = Ok y ->
  SwapSend ctx msg s = Ret resp s' ->
  let offer := Market.SOfferCoin msg in
  let ask := Market.SAskDenom msg in
  let tax := tax_of rate (Amount offer) in
  exists gross spread taxes community oracle burn,
    Market.ComputeSwap (others s).1.2 (others s).1.1 (mkCoin (Denom offer) (Amount offer - tax)) ask =
      Ok (gross, spread) /\
    Amount (Market.SwapCoin resp) = (DAmount gross - MarketSwap.fee_of spread (DAmount gross)) / P18 /\
    (forall d, amt taxes d = ind (Denom offer = d) tax) /\
    split_shares s taxes community oracle burn /\
    (forall a d, bal (bank s') a d = bal (bank s) a d
       - ind (a = x /\ Denom offer = d) (Amount offer)
       + ind (a = y /\ ask = d) (Amount (Market.SwapCoin resp))
       + ind (a = FeeCollector) (amt taxes d - (amt community d + amt oracle d + amt burn d))
       + ind (a = Distribution) (amt community d) + ind (a = BurnAccount) (amt burn d)
       + ind (a = OracleAccount) (amt oracle d + ind (ask = d) (Amount (Market.SwapFee resp)))) /\
    forall d,
      damt (GetCommunityPool (distr s')) d =
        damt (GetCommunityPool (distr s)) d + NewDec (amt community d) /\
      amt (Treasury.PeekEpochTaxProceeds (treasury s')) d =
        amt (Treasury.PeekEpochTaxProceeds (treasury s)) d + ind (Denom offer = d) tax /\
      supply (bank s') d = supply (bank s) d - ind (Denom offer = d) (Amount offer - tax)
        + ind (ask = d) (DAmount gross / P18).
Proof using Type*.
  intros Hc Ha Hr Hr0 Hs Hp Hx Hy R offer ask tax.
  unfold SwapSend, IsReverseCharge in R. rewrite Hc in R.
  apply bind_Ret in R as (? & ? & [= <- <-] & R). simpl in R. unfold MustAcc in R. rewrite Hx in R.
  apply bind_Ret in R as (? & ? & [= <- <-] & R).
  apply bind_Ret in R as (oc & ? & [Hoc ->]%lift_Ret & R).
  destruct (NewCoins_pos _ _ Ha Hoc) as [-> Hok].
  apply bind_Ret in R as (net & s1 & R1 & R).
  apply (DeductTax_Ret _ _ _ rate) in R1 as (taxes & Hn & Ht & At & An & Hch & _); [|done..].
  fold offer in Hok, At, An. assert (forall d, amt [offer] d = ind (Denom offer = d) (Amount offer)) as Ao
    by (intros d; apply amt_one).
  assert (forall d, amt taxes d = ind (Denom offer = d) tax) as At'.
  { intros d. rewrite At, Ao. unfold ind. destruct (decide _); [done|apply tax_of_0]. }
  apply bind_Ret in R as (c & ? & [Hhd ->]%lift_Ret & R).
  destruct (head net) as [c'|] eqn:Eh; [|done]. injection Hhd as ->.
  apply (single_coin net (Denom offer) (Amount offer - tax)) in Eh as [-> Hpos]; [|done|].
  2:{ intros d. rewrite An, Ao. unfold ind, tax. destruct (decide _); [done|]. by rewrite tax_of_0. }
  apply zoom_Ret in R as ([x1 b1] & Rm & ->). apply zoom_Ret in Rm as (ms & Rm & [= -> ->]).
  simpl in Rm. unfold Market.SwapSend in Rm.
  apply bind_Ret in Rm as (x' & ? & [Hx' ->]%lift_Ret & Rm).
  apply bind_Ret in Rm as (y' & ? & [Hy' ->]%lift_Ret & Rm). simpl in Hx', Hy', Rm.
  rewrite Hx in Hx'. rewrite Hy in Hy'. injection Hx' as <-. injection Hy' as <-.
  apply MarketSwap.handleSwap_settles in Rm as (gross & spread & Hcs & Hset); [|done].
  simpl in Hcs.
  pose proof Hch as (_ & _ & E3 & Pr & Su & com & orc & burn & Hsh & Hpool & Hb). rewrite E3 in Hcs.
  exists gross, spread, taxes, com, orc, burn. split_and!; [done| |done|done| |].
  - by destruct (MarketSwap.st_swap _ _ _ _ _ _ _ _ _ Hset) as (_ & ? & _).
  - intros a d. pose proof (MarketSwap.st_bal _ _ _ _ _ _ _ _ _ Hset a d) as Hbal. simpl in Hbal. simpl.
    change (GetModuleAddress Market.OracleModuleName) with OracleAccount in Hbal.
    rewrite Hbal, Hb, At'. rewrite <- !ind_and. fold offer ask. unfold ind. repeat case_decide; lia.
  - intros d. pose proof (MarketSwap.st_supply _ _ _ _ _ _ _ _ _ Hset d) as Hsup. simpl in Hsup. simpl.
    rewrite Pr, At', Hsup, Su, Hpool. by split_and!.
Qed.
End Swap.

(** ** A concrete swap *)

Import Ref OracleRef MarketOracle TaxRef.

Definition swap_tax_state : State (Rest OracleKeeper.Store) RefBank RefDistr :=
  mkState (Some tax_params) tax_treasury (TaxExemption.mkStore ∅ ∅) (Market.bank market_state)
    (mkDistr ∅ []) (Market.keeper market_state, Market.oracle market_state, []) [].
Definition swap_tax_run := SwapSend reverse_ctx send_msg swap_tax_state.
Definition swap_tax_after : State (Rest OracleKeeper.Store) RefBank RefDistr :=
  final swap_tax_run swap_tax_state.
Definition swap_tax_resp : Market.MsgSwapResponse :=
  match swap_tax_run with Ret r _ => r | _ => Market.mkSwapResponse sdr_offer sdr_offer end.

Lemma swap_tax_returns : swap_tax_run = Ret swap_tax_resp swap_tax_after.
Proof.
  assert (returned swap_tax_run = true) as Hr by (by vm_compute).
  unfold swap_tax_after, swap_tax_resp. by destruct swap_tax_run.
Qed.

Lemma reverse_charge_swap_witness :
  bal (bank swap_tax_after) valA MicroSDRDenom = 10 ^ 9 - 1000000.
Proof.
  destruct (reverse_charge_swap reverse_ctx send_msg (NewDecWithPrec 5 3) valA valB swap_tax_state
    swap_tax_after swap_tax_resp) as (gross & spread & taxes & com & orc & burn & _ & _ & _ & _ & Hb & _).
  - done.
  - done.
  - done.
  - by vm_compute.
  - split_and!; [split; vm_compute; discriminate..|split; constructor].
  - apply coins_ok_check. by vm_compute.
  - done.
  - done.
  - apply swap_tax_returns.
  - rewrite Hb. unfold ind at 3 4 5 6. rewrite !decide_False by (apply (bool_decide_unpack _); by vm_compute).
    by vm_compute.
Defined.
End TaxMarket.
