(* ===== verification/AnteTax.v ===== *)
(** * The tax of a transaction

    [FilterMsgAndComputeTax] against a reference: the taxable amounts of the
    flattened messages, each taxed at the rate, capped and rounded. *)

From S2P Require Import Prelude Sdk SdkRef SdkFees Core OracleTypes OracleKeeper Market TreasuryTypes Treasury TaxExemption Tax TaxFacts TaxCharge TaxRef Ante.

Module AnteTax.
Import Tax TaxFacts Ante.

(** ** Induction over nested messages *)

Definition inner (m : Msg) : list Msg :=
  match m with
  | MsgExec (Some ms) => ms
  | MsgRecvPacket _ (Some (Some ms)) => ms
  | _ => []
  end.

Section NestedInduction.
Context (P : Msg -> Prop).
Hypothesis (step : forall m, Forall P (inner m) -> P m).

Fixpoint Msg_nested_ind (m : Msg) : P m :=
  let all := fix all (ms : list Msg) : Forall P ms :=
    match ms with
    | [] => Forall_nil_2 P
    | m' :: ms' => Forall_cons_2 P m' ms' (Msg_nested_ind m') (all ms')
    end in
  step m
    (match m return Forall P (inner m) with
     | MsgExec (Some ms) => all ms
     | MsgRecvPacket _ (Some (Some ms)) => all ms
     | _ => Forall_nil_2 P
     end).
End NestedInduction.

(** ** The reference *)

(** The messages of a transaction with the authorized executions unpacked. *)
Fixpoint flatten (m : Msg) : list Msg :=
  match m with
  | MsgExec (Some ms) => concat (map flatten ms)
  | _ => [m]
  end.

Section Reference.
Context `{HC : SdkCoins, HBD : BondDenom}.
Variable (te : TaxExemption.Store) (tk : Treasury.Store) (rate : Dec) (simulate : bool).

(** The coins of a message that are taxed, and those whose tax the contract
    calls will charge later. *)
Definition taxable (m : Msg) : list Coins :=
  match m with
  | MsgSend from to amount =>
      if TaxExemption.IsExemptedFromTax te from [to] then [] else [amount]
  | MsgMultiSend ins outs =>
      if forallb (fun i => TaxExemption.IsExemptedFromTax te (Address i) (Address <$> outs)) ins
      then [] else IOCoins <$> ins
  | MsgSwapSend m => [[Market.SOfferCoin m]]
  | _ => []
  end.
Definition deferred (m : Msg) : list Coins :=
  match m with
  | MsgInstantiateContract funds | MsgInstantiateContract2 funds => [funds]
  | MsgExecuteContract sender contract funds =>
      if TaxExemption.IsExemptedFromTax te sender [contract] then [] else [funds]
  | _ => []
  end.

(** The tax due on an amount: nothing for the bond denom and for IBC vouchers,
    at most the cap, in simulations at least 100 (again under the cap). *)
Definition due (d : string) (a : Z) : Z :=
  if (rate =? 0) || (a =? 0) || String.eqb d DefaultBondDenom || isIBCDenom d then 0
  else Z.min (Treasury.GetTaxCap tk d)
         (if simulate then Z.max 100 (tax_of rate a) else tax_of rate a).
Definition due_all (l : list Coins) (d : string) : Z := zsum (fun cs => due d (amt cs d)) l.

(** Message validation accepts only valid coins. *)
Definition msg_wf (m : Msg) : Prop :=
  match m with
  | MsgSwapSend m => coins_ok [Market.SOfferCoin m]
  | MsgSend _ _ cs | MsgInstantiateContract cs | MsgInstantiateContract2 cs
  | MsgExecuteContract _ _ cs => coins_ok cs
  | MsgMultiSend ins _ => Forall (fun i => coins_ok (IOCoins i)) ins
  | _ => True
  end.
End Reference.

(** The loop over the messages of an authorized execution is the outer loop. *)
Lemma msgs_loop `{SdkMath, SdkCoins, BondDenom} te tk th simulate ms acc :
  (fix go acc ms := match ms with
                    | [] => Ok acc
                    | m :: ms' => let! acc' := msg_taxes te tk th simulate acc m in go acc' ms'
                    end) acc ms = rfold (msg_taxes te tk th simulate) acc ms.
Proof.
  revert acc. induction ms as [|m ms IH]; intros acc; [done|]. simpl. apply rbind_ext. intros. apply IH.
Qed.

Section Equivalence.
Context `{HM : SdkMath, HC : SdkCoins, HF : SdkFees, HBD : BondDenom}.
Context `{!SdkMathLaws, !SdkCoinsLaws, !SdkFeesLaws}.
Variable (te : TaxExemption.Store) (tk : Treasury.Store) (rate : Dec) (simulate : bool).
Hypothesis (rate_nonneg : 0 <= rate).
Abbreviation due := (due tk rate simulate).
Abbreviation due_all := (due_all tk rate simulate).

Lemma due_0 d : due d 0 = 0.
Proof using Type. unfold AnteTax.due. by rewrite orb_true_r. Qed.

Lemma due_all_app l1 l2 d : due_all (l1 ++ l2) d = due_all l1 d + due_all l2 d.
Proof using Type. apply zsum_app. Qed.

Lemma capped (t cap : Z) :
  let t1 := if simulate && (t <? 100) then 100 else t in
  let t2 := if cap <? t1 then cap else t1 in
  default 0 (if t2 =? 0 then None else Some t2) =
  Z.min cap (if simulate then Z.max 100 t else t).
Proof using Type.
  cbv zeta. assert (forall z, default 0 (if z =? 0 then None else Some z) = z) as ->.
  { intros z. destruct (Z.eqb_spec z 0); simpl; lia. }
  destruct simulate, (Z.ltb_spec t 100); cbn [andb];
    match goal with |- context [?a <? ?b] => destruct (Z.ltb_spec a b) end; lia.
Qed.

Lemma computeTax_inv principal taxes : coins_ok principal ->
  computeTax tk (Some rate) principal simulate = Ok taxes ->
  coins_ok taxes /\ forall d, amt taxes d = due d (amt principal d).
Proof using All.
  intros Hok R. unfold computeTax in R. cbn [deref rbind] in R.
  destruct (Z.eqb_spec rate 0) as [E0|E0].
  { injection R as <-. split; [apply coins_ok_nil|]. intros d. unfold AnteTax.due.
    by rewrite (proj2 (Z.eqb_eq _ _) E0). }
  apply (coin_loop_inv _ (fun c => due (Denom c) (Amount c))) in R as (? & Ha & _).
  - split; [done|]. intros d. rewrite Ha, (zsum_sorted principal due); [done|apply Hok|apply due_0].
  - intros c x Hc Rc. destruct Hok as [_ Hp]. rewrite Forall_forall in Hp.
    destruct (Hp c Hc) as [_ Hpos]. unfold AnteTax.due.
    rewrite (proj2 (Z.eqb_neq _ _) E0), (proj2 (Z.eqb_neq (Amount c) 0)) by lia. simpl.
    destruct (String.eqb _ _); [by injection Rc as <-|]. simpl.
    destruct (isIBCDenom _); [by injection Rc as <-|].
    apply rbind_Ok in Rc as (t & Ht & [= <-]). apply tax_amount_inv in Ht as ->; [|done|lia].
    apply capped.
  - apply coins_ok_nil.
Qed.

Lemma add_tax_inv acc principal r : coins_ok acc -> coins_ok principal ->
  add_tax tk (Some rate) simulate acc principal = Ok r ->
  coins_ok r /\ forall d, amt r d = amt acc d + due_all [principal] d.
Proof using All.
  intros Hacc Hp (t & Ht & Ha)%rbind_Ok. apply computeTax_inv in Ht as [Ht At]; [|done].
  apply Coins_Add_inv in Ha as [Hr Ar]; [|by apply coins_ok_weak..].
  split; [done|]. intros d. rewrite Ar, At. unfold AnteTax.due_all. zsum_lia.
Qed.

Lemma add_inputs_inv ins : Forall (fun i => coins_ok (IOCoins i)) ins -> forall acc r,
  coins_ok acc ->
  rfold (fun taxes i => add_tax tk (Some rate) simulate taxes (IOCoins i)) acc ins = Ok r ->
  coins_ok r /\ forall d, amt r d = amt acc d + due_all (IOCoins <$> ins) d.
Proof using All.
  induction 1 as [|i ins Hi _ IH]; intros acc r Hacc R; simpl in R.
  - injection R as <-. split; [done|]. intros d. unfold AnteTax.due_all. rewrite fmap_nil. zsum_lia.
  - apply rbind_Ok in R as (acc' & R1 & R). apply add_tax_inv in R1 as [Hacc' A1]; [|done|done].
    apply IH in R as [Hr Ar]; [|done]. split; [done|]. intros d.
    rewrite Ar, A1. unfold AnteTax.due_all. rewrite fmap_cons. zsum_lia.
Qed.

(** All inputs exempt, counted the way the code counts them. *)
Lemma all_counted {A} (p : A -> bool) (l : list A) :
  (length (List.filter p l) =? length l)%nat = forallb p l.
Proof using Type.
  induction l as [|x l IH]; [done|]. simpl. destruct (p x); simpl; [exact IH|].
  apply Nat.eqb_neq. pose proof (List.filter_length_le p l). lia.
Qed.

(** [m] adds its taxable and its deferred amounts. *)
Definition adds (m : Msg) : Prop := forall acc r, coins_ok acc.1 -> coins_ok acc.2 ->
  Forall msg_wf (flatten m) -> msg_taxes te tk (Some rate) simulate acc m = Ok r ->
  coins_ok r.1 /\ coins_ok r.2 /\
  (forall d, amt r.1 d = amt acc.1 d + due_all (flatten m ≫= taxable te) d) /\
  (forall d, amt r.2 d = amt acc.2 d + due_all (flatten m ≫= deferred te) d).

Lemma adds_list ms : Forall adds ms -> forall acc r, coins_ok acc.1 -> coins_ok acc.2 ->
  Forall msg_wf (ms ≫= flatten) -> rfold (msg_taxes te tk (Some rate) simulate) acc ms = Ok r ->
  coins_ok r.1 /\ coins_ok r.2 /\
  (forall d, amt r.1 d = amt acc.1 d + due_all ((ms ≫= flatten) ≫= taxable te) d) /\
  (forall d, amt r.2 d = amt acc.2 d + due_all ((ms ≫= flatten) ≫= deferred te) d).
Proof using Type.
  induction 1 as [|m ms Hm _ IH]; intros acc r Ho1 Ho2 Hw R; simpl in R.
  - injection R as <-. split_and!; [done|done|..]; intros d; unfold AnteTax.due_all; simpl;
      rewrite zsum_nil; lia.
  - apply rbind_Ok in R as (acc' & R1 & R). rewrite bind_cons in Hw. apply Forall_app in Hw as [W1 W2].
    apply Hm in R1 as (O1 & O2 & A1 & A2); [|done..].
    apply IH in R as (O1' & O2' & A1' & A2'); [|done..].
    split_and!; [done|done|..]; intros d; rewrite bind_cons, bind_app, due_all_app.
    + rewrite A1', A1. lia.
    + rewrite A2', A2. lia.
Qed.

Lemma due_all_nil d : due_all [] d = 0.
Proof using Type. done. Qed.

(** A swap's offer, as [NewCoins] passes it on. *)
Lemma offer_tax acc c offer r : coins_ok acc -> coins_ok [c] -> NewCoins [c] = Ok offer ->
  add_tax tk (Some rate) simulate acc offer = Ok r ->
  coins_ok r /\ forall d, amt r d = amt acc d + due_all [[c]] d.
Proof using All.
  intros Hacc [_ [[_ Hc] _]%Forall_cons] [-> Hok]%NewCoins_pos R; [|done].
  by apply add_tax_inv in R.
Qed.

(** The messages that are not unpacked. *)
Lemma adds_leaf m : match m with MsgExec (Some _) => False | _ => True end -> adds m.
Proof using All.
  intros Hl [t n] r Ht Hn Hw R. assert (flatten m = [m]) as Hf by (by destruct m as [| | | | | |[]| | | | | | | |]).
  rewrite Hf in *. apply Forall_cons in Hw as [Hw _]. simpl in Ht, Hn.
  assert (forall l d, amt l d = amt l d + due_all [] d) as Hnil by (intros; rewrite due_all_nil; lia).
  change ([m] ≫= taxable te) with (taxable te m ++ []).
  change ([m] ≫= deferred te) with (deferred te m ++ []). rewrite !app_nil_r.
  destruct m as [from to cs|ins outs|m|cs|cs|sender contract cs|[ms|]| | | | |ica [[ms|]|]| | |];
    simpl in *; try (injection R as <-; simpl; auto; fail).
  - destruct (TaxExemption.IsExemptedFromTax _ _ _); simpl in R; [injection R as <-; simpl; auto|].
    apply rbind_Ok in R as (t' & R & [= <-]). apply add_tax_inv in R as [? ?]; simpl; auto.
  - rewrite all_counted in R. destruct (forallb _ ins); simpl in R; [injection R as <-; simpl; auto|].
    apply rbind_Ok in R as (t' & R & [= <-]). apply add_inputs_inv in R as [? ?]; simpl; auto.
  - apply rbind_Ok in R as (offer & Ro & R). apply rbind_Ok in R as (t' & R & [= <-]).
    eapply offer_tax in R as [? ?]; simpl; eauto.
  - apply rbind_Ok in R as (n' & R & [= <-]). apply add_tax_inv in R as [? ?]; simpl; auto.
  - apply rbind_Ok in R as (n' & R & [= <-]). apply add_tax_inv in R as [? ?]; simpl; auto.
  - destruct (TaxExemption.IsExemptedFromTax _ _ _); simpl in R; [injection R as <-; simpl; auto|].
    apply rbind_Ok in R as (n' & R & [= <-]). apply add_tax_inv in R as [? ?]; simpl; auto.
  - done.
Qed.

Lemma exec_loop ms acc :
  (fix go acc ms := match ms with
                    | [] => Ok acc
                    | m :: ms' => let! acc' := msg_taxes te tk (Some rate) simulate acc m in go acc' ms'
                    end) acc ms = rfold (msg_taxes te tk (Some rate) simulate) acc ms.
Proof using Type. apply msgs_loop. Qed.

Lemma flatten_exec ms : flatten (MsgExec (Some ms)) = ms ≫= flatten.
Proof using Type. simpl. induction ms as [|m ms IH]; [done|]. simpl. by rewrite IH. Qed.

Lemma adds_all m : adds m.
Proof using All.
  induction m as [m IH] using Msg_nested_ind.
  assert ((exists ms, m = MsgExec (Some ms)) \/ match m with MsgExec (Some _) => False | _ => True end)
    as [[ms ->]|Hl] by (destruct m as [| | | | | |[ms|]| | | | | | | |]; eauto); [|by apply adds_leaf].
  intros [t n] r Ht Hn Hw R. simpl in IH, Ht, Hn. rewrite flatten_exec in *. simpl in R.
  rewrite exec_loop in R. apply rbind_Ok in R as ([xt xn] & Rx & R).
  apply adds_list in Rx as (Ox1 & Ox2 & Ax1 & Ax2); [|done|apply coins_ok_nil..|done].
  simpl in *. apply rbind_Ok in R as (t' & Rt & R). apply rbind_Ok in R as (n' & Rn & [= <-]).
  apply Coins_Add_inv in Rt as [Ot At]; [|by apply coins_ok_weak..].
  apply Coins_Add_inv in Rn as [On An]; [|by apply coins_ok_weak..].
  split_and!; [done|done|..]; intros d; simpl.
  - by rewrite At, Ax1.
  - by rewrite An, Ax2.
Qed.

Lemma FilterMsg_inv msgs taxes nonTaxable : Forall msg_wf (msgs ≫= flatten) ->
  FilterMsgAndComputeTax te tk (Some rate) simulate msgs = Ok (taxes, nonTaxable) ->
  coins_ok taxes /\ coins_ok nonTaxable /\
  (forall d, amt taxes d = due_all ((msgs ≫= flatten) ≫= taxable te) d) /\
  (forall d, amt nonTaxable d = due_all ((msgs ≫= flatten) ≫= deferred te) d).
Proof using All.
  intros Hw R. apply adds_list in R as (? & ? & A1 & A2); [|
    apply Forall_forall; intros; apply adds_all|apply coins_ok_nil..|done].
  simpl in *. split_and!; done.
Qed.

(** ** It returns *)

Hypothesis (rate_le : rate <= OneDec).
Hypothesis (caps_nonneg : forall d, 0 <= Treasury.GetTaxCap tk d).

Definition small (cs : Coins) : Prop := forall d, amt cs d < 2 ^ 255.

Lemma due_bounds d a : 0 <= a -> 0 <= due d a <= Z.max 100 a.
Proof using rate_nonneg rate_le caps_nonneg.
  intros Ha. unfold AnteTax.due. specialize (caps_nonneg d).
  pose proof (tax_of_bounds rate a ltac:(lia) Ha).
  destruct (_ || _ || _ || _); [lia|]. destruct simulate; lia.
Qed.

Lemma computeTax_Ok principal : coins_ok principal -> small principal ->
  exists taxes, computeTax tk (Some rate) principal simulate = Ok taxes.
Proof using All.
  intros Hok Hs. unfold computeTax. cbn [deref rbind].
  destruct (Z.eqb_spec rate 0) as [E0|E0]; [by eexists|].
  match goal with |- context [coin_loop ?h _ _] =>
    destruct (coin_loop_Ok h (fun c => due (Denom c) (Amount c)) [] principal) as (r & Hr & _)
  end; [| apply coins_ok_nil| |by exists r].
  - intros c Hc. pose proof Hok as [Hso Hp]. rewrite Forall_forall in Hp. destruct (Hp c Hc) as [Hv Hpos].
    pose proof (due_bounds (Denom c) (Amount c) ltac:(lia)) as Hb. split_and!; [done|lia|].
    assert (Amount c < 2 ^ 255) as Hlt by (rewrite <- (amt_elem principal) by done; apply Hs).
    unfold AnteTax.due in *.
    rewrite (proj2 (Z.eqb_neq _ _) E0), (proj2 (Z.eqb_neq (Amount c) 0)) in * by lia. simpl in *.
    destruct (String.eqb _ _); [by exists None|]. simpl in *.
    destruct (isIBCDenom _); [by exists None|].
    rewrite tax_amount_small by lia. cbn [rbind]. eexists. split; [done|].
    apply capped.
  - intros d. rewrite (zsum_sorted principal due); [|apply Hok|apply due_0].
    pose proof (due_bounds d (amt principal d) ltac:(by apply amt_nonneg)). specialize (Hs d).
    change (amt [] d) with 0. lia.
Qed.

Lemma due_all_nonneg l d : Forall coins_ok l -> 0 <= due_all l d.
Proof using rate_nonneg rate_le caps_nonneg.
  intros Hl. apply zsum_nonneg. eapply Forall_impl; [exact Hl|]. intros cs Hcs. simpl.
  by apply due_bounds, amt_nonneg.
Qed.

Lemma add_tax_Ok acc principal : coins_ok acc -> coins_ok principal -> small principal ->
  (forall d, amt acc d + due_all [principal] d < 2 ^ 255) ->
  exists r, add_tax tk (Some rate) simulate acc principal = Ok r.
Proof using All.
  intros Hacc Hp Hs Hf. unfold add_tax. destruct (computeTax_Ok principal Hp Hs) as [t Ht].
  rewrite Ht. cbn [rbind]. apply computeTax_inv in Ht as [Ht At]; [|done].
  destruct (Coins_Add_Ok acc t Hacc Ht) as (c & -> & _); [|by exists c].
  intros d. apply int_fits_small. specialize (Hf d). unfold AnteTax.due_all in Hf.
  rewrite zsum_cons, zsum_nil, <- At in Hf.
  pose proof (amt_nonneg acc d Hacc). pose proof (amt_nonneg t d Ht). lia.
Qed.

Lemma add_inputs_Ok ins : Forall (fun i => coins_ok (IOCoins i)) ins ->
  Forall small (IOCoins <$> ins) -> forall acc, coins_ok acc ->
  (forall d, amt acc d + due_all (IOCoins <$> ins) d < 2 ^ 255) ->
  exists r, rfold (fun taxes i => add_tax tk (Some rate) simulate taxes (IOCoins i)) acc ins = Ok r.
Proof using All.
  induction 1 as [|i ins Hi Hins IH]; intros Hs acc Hacc Hf; simpl; [by eexists|].
  rewrite fmap_cons in Hs. apply Forall_cons in Hs as [Hs Hss].
  assert (forall d, 0 <= due_all (IOCoins <$> ins) d) as Hnn.
  { intros d. apply due_all_nonneg. by apply Forall_fmap. }
  unfold AnteTax.due_all in *. setoid_rewrite fmap_cons in Hf. setoid_rewrite zsum_cons in Hf.
  destruct (add_tax_Ok acc (IOCoins i) Hacc Hi Hs) as [r Hr].
  { intros d. unfold AnteTax.due_all. rewrite zsum_cons, zsum_nil. specialize (Hf d). specialize (Hnn d). lia. }
  rewrite Hr. cbn [rbind]. apply add_tax_inv in Hr as [Or Ar]; [|done|done].
  apply IH; [done|done|]. intros d. rewrite Ar. unfold AnteTax.due_all.
  rewrite zsum_cons, zsum_nil. specialize (Hf d). lia.
Qed.

(** [Forall] on a list written out. *)
Ltac forall_list := repeat first [apply List.Forall_nil | apply List.Forall_cons | assumption].

(** The principals of a message are valid when the message is. *)
Lemma taxable_ok m : msg_wf m -> Forall coins_ok (taxable te m) /\ Forall coins_ok (deferred te m).
Proof using Type.
  destruct m; simpl; intros Hw; try (split; forall_list; fail).
  - destruct (TaxExemption.IsExemptedFromTax _ _ _); split; forall_list.
  - destruct (forallb _ _); split; forall_list. by apply Forall_fmap.
  - destruct (TaxExemption.IsExemptedFromTax _ _ _); split; forall_list.
Qed.
Lemma all_ok ms : Forall msg_wf ms ->
  Forall coins_ok (ms ≫= taxable te) /\ Forall coins_ok (ms ≫= deferred te).
Proof using Type.
  induction 1 as [|m ms Hm _ [IH1 IH2]]; [split; constructor|].
  apply taxable_ok in Hm as [? ?]. rewrite !bind_cons. split; by apply Forall_app.
Qed.

(** Messages whose amounts and taxes are in range. *)
Definition fits (ms : list Msg) (acc : Coins * Coins) : Prop :=
  Forall msg_wf ms /\ Forall small (ms ≫= taxable te) /\ Forall small (ms ≫= deferred te) /\
  forall d, amt acc.1 d + due_all (ms ≫= taxable te) d < 2 ^ 255 /\
    amt acc.2 d + due_all (ms ≫= deferred te) d < 2 ^ 255.

Definition returns (m : Msg) : Prop := forall acc, coins_ok acc.1 -> coins_ok acc.2 ->
  fits (flatten m) acc -> exists r, msg_taxes te tk (Some rate) simulate acc m = Ok r.

Lemma fits_app ms1 ms2 acc : fits (ms1 ++ ms2) acc -> fits ms1 acc /\
  forall acc', (forall d, amt acc'.1 d = amt acc.1 d + due_all (ms1 ≫= taxable te) d) ->
    (forall d, amt acc'.2 d = amt acc.2 d + due_all (ms1 ≫= deferred te) d) -> fits ms2 acc'.
Proof using rate_nonneg rate_le caps_nonneg.
  unfold fits. rewrite !bind_app, !Forall_app. intros ([W1 W2] & [S1 S2] & [T1 T2] & Hf).
  setoid_rewrite due_all_app in Hf. split.
  - split_and!; [done..|]. intros d. specialize (Hf d). destruct (all_ok ms2 W2) as [O1 O2].
    pose proof (due_all_nonneg _ d O1). pose proof (due_all_nonneg _ d O2). lia.
  - intros acc' A1 A2. split_and!; [done..|]. intros d. rewrite A1, A2. specialize (Hf d). lia.
Qed.

Lemma returns_list ms : Forall returns ms -> forall acc, coins_ok acc.1 -> coins_ok acc.2 ->
  fits (ms ≫= flatten) acc -> exists r, rfold (msg_taxes te tk (Some rate) simulate) acc ms = Ok r.
Proof using All.
  induction 1 as [|m ms Hm _ IH]; intros acc Ho1 Ho2 Hf; simpl; [by eexists|].
  rewrite bind_cons in Hf. apply fits_app in Hf as [Hf1 Hf2].
  destruct (Hm acc Ho1 Ho2 Hf1) as [r Hr]. rewrite Hr. cbn [rbind].
  apply adds_all in Hr as (O1 & O2 & A1 & A2); [|done|done|apply Hf1].
  apply IH; [done|done|]. by apply Hf2.
Qed.

Lemma returns_leaf m : match m with MsgExec (Some _) => False | _ => True end -> returns m.
Proof using All.
  intros Hl [t n] Ht Hn. assert (flatten m = [m]) as -> by (by destruct m as [| | | | | |[]| | | | | | | |]).
  intros ([Hw _]%Forall_cons & S1 & S2 & Hf). simpl in Ht, Hn, S1, S2, Hf. rewrite !app_nil_r in *.
  assert (forall d, amt t d + due_all (taxable te m) d < 2 ^ 255) as F1 by (intros d; apply Hf).
  assert (forall d, amt n d + due_all (deferred te m) d < 2 ^ 255) as F2 by (intros d; apply Hf).
  destruct m as [from to cs|ins outs|m|cs|cs|sender contract cs|[ms|]| | | | |ica [[ms|]|]| | |];
    simpl in *; try contradiction; try (by eexists).
  - destruct (TaxExemption.IsExemptedFromTax _ _ _); simpl in *; [by eexists|].
    apply Forall_cons in S1 as [S1 _]. destruct (add_tax_Ok t cs Ht Hw S1 F1) as [r ->]. by eexists.
  - rewrite all_counted. destruct (forallb _ ins); simpl in *; [by eexists|].
    destruct (add_inputs_Ok ins Hw S1 t Ht F1) as [r ->]. by eexists.
  - apply Forall_cons in S1 as [S1 _]. rewrite NewCoins_single. pose proof Hw as [_ [[Hv Hp] _]%Forall_cons].
    rewrite Hv, (proj2 (Z.leb_le _ _)), (proj2 (Z.eqb_neq _ _)) by lia. simpl.
    destruct (add_tax_Ok t _ Ht Hw S1 F1) as [r ->]. by eexists.
  - apply Forall_cons in S2 as [S2 _]. destruct (add_tax_Ok n cs Hn Hw S2 F2) as [r ->]. by eexists.
  - apply Forall_cons in S2 as [S2 _]. destruct (add_tax_Ok n cs Hn Hw S2 F2) as [r ->]. by eexists.
  - destruct (TaxExemption.IsExemptedFromTax _ _ _); simpl in *; [by eexists|].
    apply Forall_cons in S2 as [S2 _]. destruct (add_tax_Ok n cs Hn Hw S2 F2) as [r ->]. by eexists.
Qed.

Lemma returns_all m : returns m.
Proof using All.
  induction m as [m IH] using Msg_nested_ind.
  assert ((exists ms, m = MsgExec (Some ms)) \/ match m with MsgExec (Some _) => False | _ => True end)
    as [[ms ->]|Hl] by (destruct m as [| | | | | |[ms|]| | | | | | | |]; eauto); [|by apply returns_leaf].
  intros [t n] Ht Hn Hf. simpl in IH, Ht, Hn. rewrite flatten_exec in *. simpl. rewrite exec_loop.
  assert (fits (ms ≫= flatten) ([], [])) as Hf0.
  { destruct Hf as (W & S1 & S2 & Hf). split_and!; [done..|]. intros d. specialize (Hf d). simpl in *.
    pose proof (amt_nonneg t d Ht). pose proof (amt_nonneg n d Hn). change (amt [] d) with 0. lia. }
  destruct (returns_list ms IH ([], [])) as [[xt xn] Hx]; [apply coins_ok_nil..|done|].
  rewrite Hx. cbn [rbind fst snd].
  apply adds_list in Hx as (O1 & O2 & A1 & A2); [|apply Forall_forall; intros; apply adds_all|
    apply coins_ok_nil..|apply Hf]. simpl in *.
  destruct Hf as (_ & _ & _ & Hf). simpl in Hf.
  destruct (Coins_Add_Ok t xt Ht O1) as (t' & -> & _).
  { intros d. apply int_fits_small. specialize (Hf d). specialize (A1 d). change (amt [] d) with 0 in A1.
    pose proof (amt_nonneg t d Ht). pose proof (amt_nonneg xt d O1). lia. }
  cbn [rbind]. destruct (Coins_Add_Ok n xn Hn O2) as (n' & -> & _); [|by eexists].
  intros d. apply int_fits_small. specialize (Hf d). specialize (A2 d). change (amt [] d) with 0 in A2.
  pose proof (amt_nonneg n d Hn). pose proof (amt_nonneg xn d O2). lia.
Qed.
End Equivalence.

Section Theorem_.
Context `{HM : SdkMath, HC : SdkCoins, HF : SdkFees, HBD : BondDenom}.
Context `{!SdkMathLaws, !SdkCoinsLaws, !SdkFeesLaws}.

(** C16. The tax of a transaction, before its messages run: as long as amounts and
    taxes are in range it is computed without a panic, and in every denom it is
    the sum, over the taxable amounts of the messages with authorized executions
    unpacked at any depth, of the rate's share rounded down and capped; in a
    simulation a share below 100 units counts as 100 before the cap applies. A
    swap to another account is taxed on the coin it offers (the spec of the market
    says on the coins it returns; see the findings). Bond denom, IBC vouchers and
    exempted transfers add nothing, and the taxes of contract calls are counted
    apart. *)
Theorem taxes_of_messages te tk rate simulate msgs :
  rate_ok rate -> (forall d, 0 <= Treasury.GetTaxCap tk d) ->
  fits te tk rate simulate (msgs ≫= flatten) ([], []) ->
  exists taxes nonTaxable,
    FilterMsgAndComputeTax te tk (Some rate) simulate msgs = Ok (taxes, nonTaxable) /\
    coins_ok taxes /\ coins_ok nonTaxable /\
    (forall d, amt taxes d = due_all tk rate simulate ((msgs ≫= flatten) ≫= taxable te) d) /\
    (forall d, amt nonTaxable d = due_all tk rate simulate ((msgs ≫= flatten) ≫= deferred te) d).
Proof using All.
  intros [Hr Hr1] Hcap Hf.
  destruct (returns_list te tk rate simulate Hr Hr1 Hcap msgs) with (acc := ([] : Coins, [] : Coins))
    as [[t n] R]; [apply Forall_forall; intros; by apply returns_all|apply coins_ok_nil..|done|].
  exists t, n. split; [exact R|]. apply (FilterMsg_inv te tk rate simulate Hr msgs); [apply Hf|exact R].
Qed.
End Theorem_.

(** ** A concrete transaction *)

Section Check.
Context `{HM : SdkMath, HC : SdkCoins, HF : SdkFees, HBD : BondDenom}.
Context `{!SdkMathLaws, !SdkCoinsLaws, !SdkFeesLaws}.

Lemma amt_le_total cs d : coins_ok cs -> amt cs d <= zsum Amount cs.
Proof using Type.
  intros [_ Hp]. apply zsum_le. eapply Forall_impl; [exact Hp|]. intros c [_ ?]. simpl.
  destruct (decide _); lia.
Qed.

(** A check of the range by totals. *)
Lemma fits_check te tk rate simulate ms : rate_ok rate -> (forall d, 0 <= Treasury.GetTaxCap tk d) ->
  Forall msg_wf ms ->
  zsum (fun cs => 100 + zsum Amount cs) ((ms ≫= taxable te) ++ (ms ≫= deferred te)) < 2 ^ 255 ->
  fits te tk rate simulate ms ([], []).
Proof using Type*.
  intros [Hr Hr1] Hcap Hw Hb. destruct (all_ok te ms Hw) as [O1 O2]. rewrite zsum_app in Hb.
  assert (forall l, Forall coins_ok l -> 0 <= zsum (fun cs => 100 + zsum Amount cs) l /\
    (forall cs, cs ∈ l -> zsum Amount cs <= zsum (fun cs => 100 + zsum Amount cs) l) /\
    forall d, due_all tk rate simulate l d <= zsum (fun cs => 100 + zsum Amount cs) l) as Hl.
  { induction 1 as [|cs l Hcs Hl (IH0 & IH1 & IH2)].
    - split_and!; [done| |done]. intros cs Hcs. by apply not_elem_of_nil in Hcs.
    - assert (0 <= zsum Amount cs) as Hnn.
      { apply zsum_nonneg. eapply Forall_impl; [apply Hcs|]. intros c [_ ?]. simpl. lia. }
      rewrite zsum_cons. split_and!; [lia| |].
      + intros cs' [->|Hin]%elem_of_cons; [lia|]. specialize (IH1 _ Hin). lia.
      + intros d. unfold due_all in *. rewrite zsum_cons. specialize (IH2 d).
        pose proof (amt_le_total cs d Hcs). pose proof (amt_nonneg cs d Hcs).
        pose proof (due_bounds tk rate simulate Hr Hr1 Hcap d (amt cs d)). lia. }
  destruct (Hl _ O1) as (P1 & Q1 & R1). destruct (Hl _ O2) as (P2 & Q2 & R2).
  split_and!; [done|..].
  - apply Forall_forall. intros cs Hcs d. rewrite Forall_forall in O1.
    pose proof (amt_le_total cs d (O1 _ Hcs)). specialize (Q1 _ Hcs). lia.
  - apply Forall_forall. intros cs Hcs d. rewrite Forall_forall in O2.
    pose proof (amt_le_total cs d (O2 _ Hcs)). specialize (Q2 _ Hcs). lia.
  - intros d. cbn [fst snd]. change (amt [] d) with 0. specialize (R1 d). specialize (R2 d). lia.
Qed.
End Check.

Import Ref TaxRef.

Definition demo_msgs : list Msg :=
  [ MsgSend (acc alice) (acc bob) [mkCoin MicroLunaDenom 1000];
    MsgExec (Some [MsgSend (acc bob) (acc alice) [mkCoin MicroLunaDenom 399; mkCoin MicroUSDDenom 1000000];
                   MsgExec (Some [MsgExecuteContract (acc alice) (acc bob) [mkCoin MicroLunaDenom 600]])]) ].

Lemma caps_check tk : Forall (fun p => 0 <= p.2) (map_to_list (Treasury.TaxCaps tk)) ->
  0 <= Amount (TreasuryTypes.Cap (TreasuryTypes.TaxPolicy (Treasury.KParams tk))) ->
  forall d, 0 <= Treasury.GetTaxCap tk d.
Proof.
  intros Hf H0 d. unfold Treasury.GetTaxCap. destruct (Treasury.TaxCaps tk !! d) as [z|] eqn:E; [|done].
  rewrite Forall_forall in Hf. by apply (Hf (d, z)), elem_of_map_to_list.
Qed.

Lemma demo_caps d : 0 <= Treasury.GetTaxCap tax_treasury d.
Proof. revert d. apply caps_check; vm_compute; repeat constructor; discriminate. Qed.

Lemma taxes_of_messages_witness :
  FilterMsgAndComputeTax (TaxExemption.mkStore ∅ ∅) tax_treasury (Some (NewDecWithPrec 5 3)) false demo_msgs
  = Ok ([mkCoin MicroLunaDenom 6; mkCoin MicroUSDDenom 60], [mkCoin MicroLunaDenom 3]).
Proof.
  destruct (taxes_of_messages (TaxExemption.mkStore ∅ ∅) tax_treasury (NewDecWithPrec 5 3) false demo_msgs)
    as (t & n & E & _).
  - split; vm_compute; discriminate.
  - apply demo_caps.
  - apply fits_check; [split; vm_compute; discriminate|apply demo_caps| |by vm_compute].
    repeat (apply List.Forall_cons; [apply coins_ok_check; by vm_compute|]). apply List.Forall_nil.
  - rewrite E, <- E. by vm_compute.
Defined.
End AnteTax.
