(* ===== verification/AnteFee.v ===== *)
(** * Fees of a transaction

    What the fee decorator takes from the payer, that the fee collector receives
    the gas fee whatever happens to taxes and refunds, and what the post handler
    charges. *)

From S2P Require Import Prelude Sdk SdkRef SdkFees Core OracleTypes OracleKeeper Market TreasuryTypes Treasury TreasuryFacts TaxExemption Tax TaxFacts TaxCharge TaxRef TaxSend Ante AnteTax.

Module AnteFee.
Import Tax TaxFacts TaxCharge Ante AnteTax.

(** The gas fee in one denom: the price times the gas, rounded up. *)
Definition gas_fee (price gas : Z) : Z := - (- (price * gas) / P18).

Section Fees.
Context `{HM : SdkMath, HC : SdkCoins, HF : SdkFees, HBD : BondDenom}.
Context `{!SdkMathLaws, !SdkCoinsLaws, !SdkFeesLaws}.

Lemma gas_fee_0 gas : gas_fee 0 gas = 0.
Proof using Type. done. Qed.

Lemma damt_IsZero prices d : DecCoins_IsZero prices = true -> damt prices d = 0.
Proof using Type*.
  intros Ez. rewrite DecCoins_IsZero_spec, forallb_forall in Ez. unfold damt.
  rewrite (zsum_ext _ (fun _ => 0)), zsum_0; [done|]. intros c Hc%list_elem_of_In.
  specialize (Ez c Hc). apply Z.eqb_eq in Ez. rewrite Ez. by destruct (decide _).
Qed.

(** Coins made one by one from gas prices: the fee of a denom is a function of
    its price. *)
Lemma priced_coins (g : Z -> Z) prices req : decoins_weak prices -> g 0 = 0 ->
  Forall2 (fun p c => Denom c = DDenom p /\ Amount c = g (DAmount p) /\
    0 <= Amount c /\ ValidateDenom (Denom c) = true) prices req ->
  coins_weak req /\ forall d, amt req d = g (damt prices d).
Proof using Type*.
  intros [Hs Hv] G0 HF2. split; [split|].
  + unfold coins_sorted. clear Hv. induction HF2 as [|p c ps cs (Hd & _) HF2 IH]; [constructor|].
    inversion Hs as [|? ? Hs' Hp]; subst. constructor; [by apply IH|].
    clear -Hp HF2 Hd. induction HF2 as [|p' c' ps cs (Hd' & _) _ IH]; [constructor|].
    apply Forall_cons in Hp as [Hp Hps]. constructor; [by rewrite Hd, Hd'|by apply IH].
  + clear -HF2. induction HF2 as [|p c ps cs (_ & _ & ? & ?) _ IH]; [constructor|].
    by constructor.
  + intros d. clear Hv. induction HF2 as [|p c ps cs (Hd & Ha & _) HF2 IH]; [done|].
    inversion Hs as [|? ? Hs' Hp]; subst. unfold amt, damt. rewrite !zsum_cons, Hd.
    fold (amt cs d) (damt ps d). rewrite IH by done. destruct (decide (DDenom p = d)) as [<-|]; [|done].
    assert (damt ps (DDenom p) = 0) as -> by (by apply (amount_lt DDenom DAmount)).
    by rewrite Ha, G0, !Z.add_0_r.
Qed.

Lemma min_gas_fees_inv prices gas req : decoins_weak prices -> 0 <= gas < 2 ^ 63 ->
  min_gas_fees prices gas = Ok req ->
  coins_weak req /\ forall d, amt req d = gas_fee (damt prices d) gas.
Proof using Type*.
  intros Hp Hg. unfold min_gas_fees. rewrite int64_id by lia.
  destruct (DecCoins_IsZero prices) eqn:Ez.
  - intros [= <-]. split; [split; constructor|]. intros d. by rewrite damt_IsZero.
  - intros R%rmap_Forall2. apply (priced_coins (fun a => gas_fee a gas)); [done|done|].
    eapply Forall2_impl; [exact R|]. intros p c (f & Hf & (a & Ha & Hc)%rbind_Ok)%rbind_Ok.
    apply NewCoin_weak in Hc as (-> & Ha0 & _ & [[Hvd _] _]%Forall_cons).
    sdk_run. simpl. split_and!; [done| |done|done].
    unfold NewDec, gas_fee. by rewrite Dec_Ceil_spec, dec_round_mul, Z.mul_assoc, dec_round_mul.
Qed.

(** What [cover_tax] and [refund_tax] leave. *)
Lemma cover_tax_inv fee taxes req remaining reverse : coins_ok fee -> coins_ok taxes ->
  cover_tax fee taxes req = Ok (remaining, reverse) ->
  coins_ok remaining /\
  forall d, amt remaining d = amt fee d - amt (if reverse then [] else taxes) d.
Proof using Type*.
  intros Hf Ht. unfold cover_tax. destruct (Coins_IsZero taxes) eqn:Ez; simpl.
  - intros [= <- <-]. apply coins_zero in Ez as ->; [|done]. split; [done|].
    intros d. change (amt [] d) with 0. lia.
  - destruct (Coins_IsAllGTE fee taxes); simpl.
    + intros (r & Hr & R)%rbind_Ok. apply Coins_Sub_inv in Hr as (Hr & _ & Ar); [|done|done].
      destruct (_ && _); injection R as <- <-; [|done]. split; [done|].
      intros d. change (amt [] d) with 0. lia.
    + intros [= <- <-]. split; [done|]. intros d. change (amt [] d) with 0. lia.
Qed.

Lemma refund_tax_inv fee taxes req remaining refund : coins_ok fee -> coins_ok taxes ->
  refund_tax fee taxes req = Ok (remaining, refund) ->
  coins_ok remaining /\
  forall d, amt remaining d = amt fee d - amt (if refund then taxes else []) d.
Proof using Type*.
  intros Hf Ht. unfold refund_tax. destruct (_ && _).
  - intros (r & Hr & R)%rbind_Ok. apply Coins_Sub_inv in Hr as (Hr & _ & Ar); [|done|done].
    destruct (_ && _); injection R as <- <-; [|done]. split; [done|].
    intros d. change (amt [] d) with 0. lia.
  - intros [= <- <-]. split; [done|]. intros d. change (amt [] d) with 0. lia.
Qed.

(** A checked fee covers the tax that is due now, the refund, and one of the
    required gas fees. *)
Lemma checkTxFee_inv prices tx taxes nonTaxable p reverse refund :
  coins_ok (GetFee tx) -> coins_ok taxes -> coins_ok nonTaxable -> decoins_weak prices ->
  0 <= GetGas tx < 2 ^ 63 -> IsOracleTx (GetMsgs tx) = false ->
  checkTxFee prices tx taxes nonTaxable = Ok (p, reverse, refund) ->
  let rest d := amt (GetFee tx) d - amt (if reverse then [] else taxes) d -
                amt (if refund then nonTaxable else []) d in
  (forall d, 0 <= rest d) /\
  ((forall d, gas_fee (damt prices d) (GetGas tx) = 0) \/
   exists d, 0 < gas_fee (damt prices d) (GetGas tx) <= rest d).
Proof using Type*.
  intros Hf Ht Hn Hp Hg Ho. unfold checkTxFee. rewrite Ho. simpl.
  intros (req & Hreq & R)%rbind_Ok. apply min_gas_fees_inv in Hreq as [Hreq Areq]; [|done|done].
  apply rbind_Ok in R as ([rem rev] & Hc & R). apply rbind_Ok in R as ([rem' ref] & Hr & R).
  apply cover_tax_inv in Hc as [Hrem Arem]; [|done|done].
  apply refund_tax_inv in Hr as [Hrem' Arem']; [|done|done].
  destruct (negb (Coins_IsZero req) && negb (Coins_IsAnyGTE rem' req)) eqn:Eg; [done|].
  apply rbind_Ok in R as (pr & _ & [= -> -> ->]).
  assert (forall d, amt rem' d = amt (GetFee tx) d - amt (if reverse then [] else taxes) d -
    amt (if refund then nonTaxable else []) d) as Ar by (intros d; by rewrite Arem', Arem).
  split; [intros d; rewrite <- Ar; by apply amt_nonneg|].
  apply andb_false_iff in Eg as [Ez%negb_false_iff|Eg%negb_false_iff].
  - left. intros d. rewrite <- Areq. rewrite Coins_IsZero_spec, forallb_forall in Ez.
    unfold amt. rewrite (zsum_ext _ (fun _ => 0)), zsum_0; [done|]. intros c Hcin%list_elem_of_In.
    specialize (Ez c Hcin). apply Z.eqb_eq in Ez. rewrite Ez. by destruct (decide _).
  - right. apply Coins_IsAnyGTE_spec in Eg as (d & Hd); [|done|done]. exists d.
    by rewrite <- Areq, <- Ar.
Qed.

(** Refunding coins that are there takes all of them off. *)
Lemma refund_coins_inv nt : coins_ok nt -> forall fees r ev0 ev, coins_ok fees ->
  (forall d, amt nt d <= amt fees d) ->
  rfold (fun acc coin =>
    let '(deductFees, events) := acc in
    if Amount coin <=? Coins_AmountOf deductFees (Denom coin) then
      let! deductFees := Coins_Sub deductFees [coin] in
      Ok (deductFees, events ++ [EventTaxRefund coin])
    else Ok acc) (fees, ev0) nt = Ok (r, ev) ->
  coins_ok r /\ forall d, amt r d = amt fees d - amt nt d.
Proof using Type*.
  induction nt as [|c nt IH]; intros Hnt fees r ev0 ev Hfees Hle R.
  - injection R as <- <-. split; [done|]. intros d. change (amt [] d) with 0. lia.
  - destruct Hnt as [Hs Hv]. inversion Hs as [|? ? Hs' Hc]; subst.
    apply Forall_cons in Hv as [[Hvc Hpc] Hv].
    assert (forall d, amt (c :: nt) d = ind (Denom c = d) (Amount c) + amt nt d) as Acons.
    { intros d. unfold amt at 1. rewrite zsum_cons. done. }
    assert (coins_ok [c]) as Hco by (split; by repeat constructor).
    cbn [rfold] in R. rewrite Coins_AmountOf_spec in R by (apply Hfees || done).
    destruct (Z.leb_spec (Amount c) (amt fees (Denom c))) as [Hok|Hno].
    + apply rbind_Ok in R as ([fees' ev'] & R1 & R). apply rbind_Ok in R1 as (f & Hf & [= -> <-]).
      apply Coins_Sub_inv in Hf as (Hf & _ & Af); [|done|done].
      assert (forall d, 0 <= amt nt d) as Hnn by (intros d; apply amt_nonneg; by split).
      apply IH in R as [Hr Ar]; [|by split|done|].
      * split; [done|]. intros d. rewrite Ar, Af, Acons, amt_one. lia.
      * intros d. specialize (Hle d). rewrite Acons in Hle. rewrite Af, amt_one. lia.
    + exfalso. specialize (Hle (Denom c)). rewrite Acons in Hle. unfold ind in Hle.
      rewrite decide_True in Hle by done.
      pose proof (amt_nonneg nt (Denom c) (conj Hs' Hv)). lia.
Qed.
End Fees.

(** ** The decorators *)

Section Handlers.
Context {X B DS : Type}.
Context `{HM : SdkMath, HC : SdkCoins, HF : SdkFees, HA : Bech32, HB : BankKeeper B,
  HD : DistrKeeper DS, HP : DistrParams DS, HX : AccountKeeper X, HBD : BondDenom}.
Context `{!SdkMathLaws, !SdkCoinsLaws, !SdkFeesLaws, !Bech32Laws, !BankLaws B, !DistrLaws DS}.
Abbreviation St := (State X B DS).
Variable (fee_collector feegrant : bool).

(** Who pays: the granter when there is one. *)
Definition payer (tx : FeeTx) : string := default (FeePayer tx) (FeeGranter tx).

Lemma DeductFees_Ret acc fees (s s' : St) : DeductFees acc fees s = Ret tt s' ->
  coins_ok fees /\ moved (bank s) (bank s') acc FeeCollector fees /\ same_rest s s'.
Proof using Type*.
  unfold DeductFees. destruct (Coins_IsValid fees) eqn:Ev; [|done]. simpl.
  apply Coins_IsValid_spec in Ev. destruct (on_bank _ s) as [[] s1| |] eqn:Eb; [|done..].
  intros [= <-]. apply on_bank_Ret in Eb as [Eb ?]. apply send_a2m in Eb; [|done]. done.
Qed.

(** What the payer's account selection may change: the fee grants only. *)
Definition same_money (s s' : St) : Prop :=
  params s' = params s /\ treasury s' = treasury s /\ zones s' = zones s /\
  bank s' = bank s /\ distr s' = distr s.

Lemma select_payer tx (s s1 : St) a :
  match FeeGranter tx with
  | None => ret (FeePayer tx)
  | Some feeGranter =>
      if negb feegrant then fail ErrInvalidRequest
      else
        do* (if negb (String.eqb feeGranter (FeePayer tx))
             then on_others (UseGrantedFees feeGranter (FeePayer tx) (GetFee tx) (GetMsgs tx))
             else ret tt) in
        ret feeGranter
  end s = Ret a s1 -> a = payer tx /\ same_money s s1.
Proof using Type.
  unfold payer. destruct (FeeGranter tx) as [g|]; [|by intros [= <- <-]].
  destruct (negb feegrant); [done|]. intros ([] & s0 & R & [= <- <-])%bind_Ret. split; [done|].
  destruct (negb _); [|by injection R as <-]. by apply zoom_Ret in R as (x & _ & ->).
Qed.

Definition paid (a : string) (x : string -> Z) (s s' : St) : Prop :=
  (forall acc d, bal (bank s') acc d =
     bal (bank s) acc d - ind (acc = a) (x d) + ind (acc = FeeCollector) (x d)) /\
  (forall d, supply (bank s') d = supply (bank s) d) /\
  params s' = params s /\ treasury s' = treasury s /\ zones s' = zones s /\ distr s' = distr s.

Lemma checkDeductFee_inv ctx tx due nt ctx' (s s' : St) :
  coins_ok (GetFee tx) -> coins_ok due -> coins_ok nt ->
  (forall d, 0 <= amt (GetFee tx) d - amt due d - amt nt d) ->
  checkDeductFee fee_collector feegrant ctx tx due nt false s = Ret ctx' s' ->
  paid (payer tx) (fun d => amt (GetFee tx) d - amt due d - amt nt d) s s' /\
  ((TaxDue ctx' = Some due /\ TaxPayer ctx' = Some (AccString (payer tx))) \/
   (due = [] /\ TaxDue ctx' = TaxDue ctx)).
Proof using Type*.
  intros Hf Hd Hn Hle. unfold checkDeductFee. destruct (negb fee_collector); [done|].
  intros R. apply bind_Ret in R as (a & s1 & R1 & R). apply select_payer in R1 as [-> (E1 & E2 & E3 & E4 & E5)].
  apply bind_Ret in R as (? & ? & [= <- <-] & R). destruct (negb _); [done|].
  apply bind_Ret in R as (? & ? & [= <- <-] & R).
  assert (forall d, 0 <= amt due d /\ 0 <= amt nt d) as Hnn by (intros d; split; by apply amt_nonneg).
  destruct (Coins_IsZero (GetFee tx)) eqn:Ez; cbn [negb] in R.
  - apply coins_zero in Ez; [|done]. rewrite Ez in *. apply bind_Ret in R as ([] & s2 & [= <-] & [= <- <-]).
    assert (forall d, amt due d = 0 /\ amt nt d = 0) as Hz.
    { intros d. specialize (Hle d). specialize (Hnn d). change (amt [] d) with 0 in Hle. lia. }
    split; [|right; split; [|done]].
    + split_and!; simpl; [|by rewrite E4|done..]. intros acc d. destruct (Hz d) as [-> ->].
      rewrite E4. change (amt [] d) with 0. unfold ind. repeat destruct (decide _); lia.
    + apply coins_ext; [done|apply coins_ok_nil|]. intros d. by destruct (Hz d) as [-> _].
  - apply bind_Ret in R as (fees & ? & [Hs ->]%lift_Ret & R).
    apply Coins_Sub_inv in Hs as (Of & _ & Af); [|done|done].
    apply bind_Ret in R as ([fees' evs] & ? & [Hr ->]%lift_Ret & R).
    assert (coins_ok fees' /\ forall d, amt fees' d = amt (GetFee tx) d - amt due d - amt nt d)
      as [Of' Af'].
    { destruct (Coins_IsZero nt) eqn:En; simpl in Hr.
      - injection Hr as <- <-. apply coins_zero in En as ->; [|done]. split; [done|].
        intros d. rewrite Af. change (amt [] d) with 0. lia.
      - apply refund_coins_inv in Hr as [? Ar]; [|done|done|].
        + split; [done|]. intros d. by rewrite Ar, Af.
        + intros d. rewrite Af. specialize (Hle d). lia. }
    apply bind_Ret in R as ([] & s2 & Rd & R). apply bind_Ret in R as ([] & s3 & [= <-] & [= <- <-]).
    split; [|by left].
    assert (moved (bank s1) (bank s2) (payer tx) FeeCollector fees' /\ same_rest s1 s2)
      as [[M2 S2] (F1 & F2 & F3 & F4 & _)].
    { destruct (Coins_IsZero fees') eqn:Ez'; simpl in Rd.
      - apply coins_zero in Ez' as ->; [|done]. injection Rd as <-. split; [apply moved_nil|by repeat split].
      - by apply DeductFees_Ret in Rd as (_ & ? & ?). }
    split_and!; simpl; [|intros d; by rewrite S2, E4|congruence..].
    intros acc d. rewrite M2, E4, Af'. lia.
Qed.

(** ** The whole ante handler *)

(** Oracle messages are not taxed. *)
Lemma oracle_untaxed te tk rate msgs d : IsOracleTx msgs = true ->
  due_all tk rate false ((msgs ≫= flatten) ≫= taxable te) d = 0.
Proof using Type.
  intros Ho. assert (forallb is_oracle_msg msgs = true) as Hall by (by destruct msgs). clear Ho.
  induction msgs as [|m msgs IH]; [done|]. simpl in Hall. apply andb_true_iff in Hall as [Hm Hall].
  rewrite bind_cons, bind_app, due_all_app, IH by done. by destruct m.
Qed.

(** The transaction's tax and the tax left to its contract calls. *)
Abbreviation tx_tax s rate tx := (due_all (treasury s) rate false
  ((GetMsgs tx ≫= flatten) ≫= taxable (zones s))).
Abbreviation tx_deferred s rate tx := (due_all (treasury s) rate false
  ((GetMsgs tx ≫= flatten) ≫= deferred (zones s))).

(** A well-formed transaction on a chain with sane prices. *)
Record tx_ok (ctx : TxCtx) (tx : FeeTx) (rate : Dec) (s : St) : Prop := {
  fee_coins : coins_ok (GetFee tx);
  gas_range : 0 <= GetGas tx < 2 ^ 63;
  msgs_wf : Forall msg_wf (GetMsgs tx ≫= flatten);
  prices_wf : decoins_weak (GetEffectiveGasPrices ctx s);
  rate_set : GetBurnTaxRate s = Some rate;
  rate_pos : 0 <= rate }.

(** The outcome of the ante handler: the payer pays the fee less the tax that
    the post handler will charge and less the refund. *)
Record ante_outcome (ctx ctx' : TxCtx) (tx : FeeTx) (rate : Dec) (s s' : St)
    (reverse refund : bool) : Prop := {
  ante_reverse : ReverseCharge ctx' = Some reverse;
  ante_paid : paid (payer tx) (fun d => amt (GetFee tx) d -
    (if reverse then 0 else tx_tax s rate tx d) - (if refund then tx_deferred s rate tx d else 0)) s s';
  ante_due : exists due, coins_ok due /\
    (forall d, amt due d = if reverse then 0 else tx_tax s rate tx d) /\
    ((TaxDue ctx' = Some due /\ TaxPayer ctx' = Some (AccString (payer tx))) \/
     (due = [] /\ TaxDue ctx' = TaxDue ctx));
  ante_gas : IsOracleTx (GetMsgs tx) = false ->
    (forall d, gas_fee (damt (GetEffectiveGasPrices ctx s) d) (GetGas tx) = 0) \/
    exists d, 0 < gas_fee (damt (GetEffectiveGasPrices ctx s) d) (GetGas tx) <=
      amt (GetFee tx) d - (if reverse then 0 else tx_tax s rate tx d) -
      (if refund then tx_deferred s rate tx d else 0) }.

Lemma AnteHandle_inv ctx tx rate ctx' (s s' : St) : tx_ok ctx tx rate s ->
  AnteHandle fee_collector feegrant ctx (Some tx) false s = Ret ctx' s' ->
  exists reverse refund, ante_outcome ctx ctx' tx rate s s' reverse refund.
Proof using Type*.
  intros [Hf Hg Hw Hp Hr Hr0]. unfold AnteHandle. cbn [negb andb]. destruct (_ && _); [done|].
  intros R. apply bind_Ret in R as (? & ? & [= <- <-] & R). change (id s) with s in R. rewrite Hr in R.
  apply bind_Ret in R as ([taxes nt] & ? & [Hfil ->]%lift_Ret & R).
  apply FilterMsg_inv in Hfil as (Ot & On & At & An); [|done|done].
  apply bind_Ret in R as ([[pr reverse] refund] & ? & [Hchk ->]%lift_Ret & R).
  apply bind_Ret in R as (ctx1 & s1 & R & [= <- <-]).
  assert (forall d, amt (if reverse then [] else taxes) d = if reverse then 0 else tx_tax s rate tx d) as Ed
    by (intros d; by destruct reverse).
  assert (forall d, amt (if refund then nt else []) d = if refund then tx_deferred s rate tx d else 0) as En
    by (intros d; by destruct refund).
  assert ((forall d, 0 <= amt (GetFee tx) d - amt (if reverse then [] else taxes) d -
     amt (if refund then nt else []) d) /\ (IsOracleTx (GetMsgs tx) = false ->
    (forall d, gas_fee (damt (GetEffectiveGasPrices ctx s) d) (GetGas tx) = 0) \/
    exists d, 0 < gas_fee (damt (GetEffectiveGasPrices ctx s) d) (GetGas tx) <=
      amt (GetFee tx) d - amt (if reverse then [] else taxes) d - amt (if refund then nt else []) d))
    as [Hrest Hgas].
  { destruct (IsOracleTx (GetMsgs tx)) eqn:Eo.
    - unfold checkTxFee in Hchk. rewrite Eo in Hchk. injection Hchk as <- <- <-. split; [|done].
      intros d. change (amt [] d) with 0. rewrite At, oracle_untaxed by done.
      pose proof (amt_nonneg _ d Hf). lia.
    - apply checkTxFee_inv in Hchk as [? ?]; done. }
  apply checkDeductFee_inv in R as [[Hb Hrest'] Hdue];
    [|done|by destruct reverse; [apply coins_ok_nil|]|by destruct refund; [|apply coins_ok_nil]|done].
  exists reverse, refund. split; [done| | |].
  - split; [|done]. intros acc d. by rewrite Hb, Ed, En.
  - exists (if reverse then [] else taxes).
    split_and!; [by destruct reverse; [apply coins_ok_nil|]|done|done].
  - intros Ho. destruct (Hgas Ho) as [?|[d Hd]]; [by left|]. right. exists d. by rewrite <- Ed, <- En.
Qed.

(** Validators are paid for gas: when a non-oracle transaction with a
    positive gas requirement passes the ante handler, the fee collector has
    received at least the required gas fee (price times gas, rounded up) in one
    of the accepted denoms, on top of and independent of the tax and of any
    refund. *)
Theorem gas_fee_collected ctx tx rate ctx' (s s' : St) : tx_ok ctx tx rate s ->
  IsOracleTx (GetMsgs tx) = false -> payer tx <> FeeCollector ->
  (exists d, 0 < damt (GetEffectiveGasPrices ctx s) d) -> 0 < GetGas tx ->
  AnteHandle fee_collector feegrant ctx (Some tx) false s = Ret ctx' s' ->
  exists d, 0 < gas_fee (damt (GetEffectiveGasPrices ctx s) d) (GetGas tx) /\
    bal (bank s') FeeCollector d >=
      bal (bank s) FeeCollector d + gas_fee (damt (GetEffectiveGasPrices ctx s) d) (GetGas tx).
Proof using Type*.
  intros Hok Ho Hne [d0 Hd0] Hgas R. apply (AnteHandle_inv _ _ rate) in R as (rev & ref & Hout); [|done].
  destruct (ante_gas _ _ _ _ _ _ _ _ Hout Ho) as [Hz|(d & Hd)].
  - specialize (Hz d0). unfold gas_fee in Hz. exfalso.
    assert (- (damt (GetEffectiveGasPrices ctx s) d0 * GetGas tx) / P18 < 0).
    { apply Z.div_lt_upper_bound; [done|]. nia. }
    lia.
  - exists d. split; [lia|]. destruct (ante_paid _ _ _ _ _ _ _ _ Hout) as [Hb _]. rewrite Hb.
    unfold ind. rewrite decide_False, decide_True by congruence. lia.
Qed.

(** ** Ante and post handler together *)

Abbreviation Proceeds s := (Treasury.PeekEpochTaxProceeds (treasury s)).

Lemma PostHandle_inv ctx due p (s s' : St) : coins_ok due -> addr_ok p = true ->
  TaxDue ctx = Some due -> TaxPayer ctx = Some (AccString p) -> splits_ok s ->
  coins_ok (Proceeds s) -> PostHandle ctx s = Ret tt s' -> charged p due s s' /\ chargeable s' /\ (due = [] -> s' = s).
Proof using Type*.
  intros Hd Hp Ht Hpay Hs Hpr R. unfold PostHandle in R. rewrite Ht in R.
  destruct (Coins_IsZero due) eqn:Ez.
  { injection R as <-. apply coins_zero in Ez as ->; [|done]. split_and!; [apply charged_nil|done..]. }
  rewrite Hpay, AccAddress_roundtrip in R by done.
  apply bind_Ret in R as (? & ? & [= <- <-] & R). destruct (negb _); [done|].
  apply bind_Ret in R as ([] & s1 & R1 & R). apply bind_Ret in R as ([] & s2 & R2 & R3).
  apply DeductFees_Ret in R1 as (_ & Hm & Hsame).
  destruct (charge_Ret p due s s1 s2 s' Hd Hs Hpr Hm Hsame R2 R3). split_and!; [done|done|].
  intros ->. by rewrite Coins_IsZero_spec in Ez.
Qed.

End Handlers.

(** ** A concrete transaction *)

Import Ref TaxRef.

Definition demo_tx : FeeTx :=
  mkTx demo_msgs [mkCoin MicroLunaDenom 3000000; mkCoin MicroUSDDenom 500] 100000 alice None.
Definition ante_ctx : TxCtx := mkTxCtx 7 [] None None None 0.
Definition ante_run := AnteHandle true true ante_ctx (Some demo_tx) false tax_state.
Definition ante_ctx' : TxCtx := match ante_run with Ret c _ => c | _ => ante_ctx end.
Definition ante_after : State unit RefBank RefDistr := final ante_run tax_state.
Definition post_after : State unit RefBank RefDistr := final (PostHandle ante_ctx' ante_after) ante_after.

Lemma ante_returns : ante_run = Ret ante_ctx' ante_after.
Proof.
  assert (returned ante_run = true) by (by vm_compute). unfold ante_ctx', ante_after.
  by destruct ante_run.
Qed.
Lemma post_returns : PostHandle ante_ctx' ante_after = Ret tt post_after.
Proof. apply returned_final. by vm_compute. Qed.

Lemma demo_tx_ok : tx_ok ante_ctx demo_tx (NewDecWithPrec 5 3) tax_state.
Proof.
  split.
  - apply coins_ok_check. by vm_compute.
  - vm_compute. split; [discriminate|done].
  - repeat (apply List.Forall_cons; [apply coins_ok_check; by vm_compute|]). apply List.Forall_nil.
  - split; [apply (bool_decide_unpack _)|apply (bool_decide_unpack _)]; by vm_compute.
  - done.
  - vm_compute. discriminate.
Qed.

Lemma gas_fee_collected_witness :
  exists d, bal (bank ante_after) (GetModuleAddress FeeCollectorName) d >=
    gas_fee (damt (GetEffectiveGasPrices ante_ctx tax_state) d) 100000.
Proof.
  destruct (gas_fee_collected true true ante_ctx demo_tx (NewDecWithPrec 5 3) ante_ctx' tax_state ante_after)
    as (d & _ & Hd).
  - apply demo_tx_ok.
  - done.
  - apply (bool_decide_unpack _). by vm_compute.
  - exists MicroLunaDenom. by vm_compute.
  - done.
  - apply ante_returns.
  - exists d. pose proof (bal_nonneg (bank tax_state) (GetModuleAddress FeeCollectorName) d).
    change (GetGas demo_tx) with 100000 in Hd. lia.
Defined.

End AnteFee.
