(* ===== verification/TxRun.v ===== *)
(** * A transaction from end to end

    What the pieces of a transaction do together: the ante handler takes the fee,
    the message servers that [x/tax/modules] put in place of the bank's and the
    market's run the messages, and the post handler charges the tax that the fee
    covers.  For transfers this gives the whole account: who pays what, who gets
    what, and where the tax goes. *)

From S2P Require Import Prelude Sdk SdkRef SdkFees Core OracleTypes Market TreasuryTypes Treasury TreasuryFacts TaxExemption Tax TaxFacts TaxCharge TaxRef TaxSend Ante AnteTax AnteFee.

Module TxRun.
Import Tax TaxFacts TaxCharge Ante AnteTax AnteFee.

Section Run.
Context {X B DS : Type}.
Context `{HM : SdkMath, HC : SdkCoins, HF : SdkFees, HA : Bech32, HB : BankKeeper B,
  HD : DistrKeeper DS, HP : DistrParams DS, HX : AccountKeeper X, HBD : BondDenom, HS : BankServer B,
  HMS : MarketServer X B}.
Abbreviation St := (State X B DS).
Abbreviation Proceeds s := (Treasury.PeekEpochTaxProceeds (treasury s)).
Abbreviation tx_tax s rate tx := (due_all (treasury s) rate false
  ((GetMsgs tx ≫= flatten) ≫= taxable (zones s))).
Abbreviation tx_deferred s rate tx := (due_all (treasury s) rate false
  ((GetMsgs tx ≫= flatten) ≫= deferred (zones s))).

(** The servers of the other modules. *)
Variable other_msg : TxCtx -> Msg -> M (State X B DS) unit.

(** The handler that the message router finds ([RegisterServices] of the bank and
    market modules of [x/tax/modules]). *)
Definition deliver_msg (ctx : TxCtx) (msg : Msg) : M (State X B DS) unit :=
  match msg with
  | MsgSend from to amount => Send ctx from to amount
  | MsgMultiSend inputs outputs => MultiSend ctx inputs outputs
  | MsgSwapSend m => do* SwapSend ctx m in ret tt
  | _ => other_msg ctx msg
  end.

(** All messages run in the context that the ante handler returned. *)
Definition run_msgs (ctx : TxCtx) (msgs : list Msg) : M (State X B DS) unit := mfor msgs (deliver_msg ctx).

(** ** Parties and amounts of transfers *)

Definition party (addr a : string) : bool :=
  match AccAddressFromBech32 addr with Ok x => String.eqb x a | _ => false end.

Section Amounts.
Variable (te : TaxExemption.Store) (rate : Dec) (reverse : bool).

(** The burn tax of a transfer: the rate's share, nothing when it is exempt. *)
Definition send_tax (m : Msg) (d : string) : Z :=
  match m with
  | MsgSend from to cs => if TaxExemption.IsExemptedFromTax te from [to] then 0 else tax_of rate (amt cs d)
  | _ => 0
  end.
Definition sent (a : string) (m : Msg) (d : string) : Z :=
  match m with MsgSend from _ cs => if party from a then amt cs d else 0 | _ => 0 end.
Definition received (a : string) (m : Msg) (d : string) : Z :=
  match m with
  | MsgSend _ to cs => if party to a then amt cs d - (if reverse then send_tax m d else 0) else 0
  | _ => 0
  end.
Definition taxed (m : Msg) (d : string) : Z := if reverse then send_tax m d else 0.
End Amounts.

(** A transfer between users. *)
Definition transfer_ok (m : Msg) : Prop :=
  match m with
  | MsgSend from to cs => coins_ok cs /\ exists x y, AccAddressFromBech32 from = Ok x /\
      AccAddressFromBech32 to = Ok y /\ (x ∉ TaxSend.module_accounts) /\ (y ∉ TaxSend.module_accounts)
  | _ => False
  end.

Context `{!SdkMathLaws, !SdkCoinsLaws, !SdkFeesLaws, !Bech32Laws, !BankLaws B, !DistrLaws DS,
  !BankServerLaws B}.

(** What transfers do to users, to the tax accounts and to the books. *)
Record run_effect (reverse : bool) (rate : Dec) (msgs : list Msg) (s s' : St) : Prop := {
  eff_users a d : a ∉ TaxSend.module_accounts -> bal (bank s') a d = bal (bank s) a d -
    zsum (fun m => sent a m d) msgs + zsum (fun m => received (zones s) rate reverse a m d) msgs;
  eff_modules d : TaxSend.module_holdings (bank s') d =
    TaxSend.module_holdings (bank s) d + zsum (fun m => taxed (zones s) rate reverse m d) msgs;
  eff_supply d : supply (bank s') d = supply (bank s) d;
  eff_proceeds d : amt (Proceeds s') d =
    amt (Proceeds s) d + zsum (fun m => taxed (zones s) rate reverse m d) msgs;
  eff_params : params s' = params s;
  eff_zones : zones s' = zones s;
  eff_chargeable : chargeable s' }.

(** Moving coins between users leaves the tax accounts alone. *)
Lemma moved_holdings (b b' : B) x y cs d : x ∉ TaxSend.module_accounts -> y ∉ TaxSend.module_accounts ->
  moved b b' x y cs -> TaxSend.module_holdings b' d = TaxSend.module_holdings b d.
Proof using Type.
  unfold TaxSend.module_accounts. rewrite ?not_elem_of_cons. intros Hx Hy [Hm _]. destruct_and!.
  unfold TaxSend.module_holdings. rewrite !Hm. TaxSend.ind_simpl. lia.
Qed.

Lemma party_ind addr x a z : AccAddressFromBech32 addr = Ok x -> (if party addr a then z else 0) = ind (a = x) z.
Proof using Type.
  intros E. unfold party, ind. rewrite E. destruct (String.eqb_spec x a) as [->|Hne].
  - by rewrite decide_True.
  - by rewrite decide_False by congruence.
Qed.

Lemma effect_nil reverse rate (s : St) : chargeable s -> run_effect reverse rate [] s s.
Proof using Type. intros Hs. split; intros; rewrite ?zsum_nil; done || lia. Qed.

Lemma effect_cons reverse rate m msgs (s s1 s' : St) :
  run_effect reverse rate [m] s s1 -> run_effect reverse rate msgs s1 s' ->
  run_effect reverse rate (m :: msgs) s s'.
Proof using Type.
  intros [U1 M1 S1 P1 E1 Z1 _] [U2 M2 S2 P2 E2 Z2 C2]. rewrite Z1 in *.
  split; [intros a d Ha|intros d..|congruence|congruence|done];
    rewrite ?U2, ?M2, ?S2, ?P2 by done; rewrite ?U1, ?M1, ?S1, ?P1 by done;
    rewrite ?zsum_cons, ?zsum_nil; lia.
Qed.

(** One transfer. *)
Lemma transfer_run ctx reverse rate m (s s' : St) : ReverseCharge ctx = Some reverse ->
  GetBurnTaxRate s = Some rate -> 0 <= rate -> chargeable s -> NoDup TaxSend.module_accounts ->
  transfer_ok m -> deliver_msg ctx m s = Ret tt s' -> run_effect reverse rate [m] s s'.
Proof using Type*.
  intros Hrev Hr Hr0 Hc Hnd. destruct m as [from to cs| | | | | | | | | | | | | |]; try done.
  intros (Hcs & x & y & Hx & Hy & Nx & Ny) R. cbn [deliver_msg] in R.
  assert (Hone : forall f : Msg -> string -> Z, forall d, zsum (fun m => f m d) [MsgSend from to cs] = f (MsgSend from to cs) d)
    by (intros; rewrite zsum_cons, zsum_nil; lia).
  destruct reverse.
  - apply (TaxSend.Send_parts _ _ _ _ rate x) in R
      as (taxes & net & y' & s1 & Hn & Hy' & At & An & Hch & Hc1 & Hm & (E1 & T1 & Z1 & D1 & _)); [|done..].
    rewrite Hy in Hy'. injection Hy' as <-. pose proof Hch as (Ep & Ez & _ & Pr & Su & _).
    assert (forall d, taxed (zones s) rate true (MsgSend from to cs) d = amt taxes d) as Ht by (intros d; by rewrite At).
    split; [intros a d Ha|intros d|intros d|intros d|congruence|congruence|].
    + rewrite !Hone. cbn [sent received]. rewrite (party_ind _ _ _ _ Hx), (party_ind _ _ _ _ Hy).
      change (send_tax (zones s) rate (MsgSend from to cs) d) with (taxed (zones s) rate true (MsgSend from to cs) d).
      rewrite Ht, (proj1 Hm), (TaxSend.charged_user _ _ _ _ _ d Ha Hch), An. unfold ind. repeat case_decide; lia.
    + rewrite Hone, Ht, (moved_holdings _ _ x y net d Nx Ny Hm). by apply (TaxSend.charged_holdings x).
    + by rewrite (proj2 Hm), Su.
    + by rewrite Hone, Ht, T1, Pr.
    + unfold chargeable, splits_ok in *. by rewrite T1, D1.
  - unfold Send, IsReverseCharge in R. rewrite Hrev in R.
    apply bind_Ret in R as (b & s1 & R1 & R). apply bind_Ret in R1 as ([] & s0 & [= <-] & [= <- <-]). cbn [negb] in R.
    apply on_bank_Ret in R as [R (E1 & T1 & Z1 & D1 & _)]. cbn in E1, T1, Z1, D1, R.
    apply bank_Send_moved in R as (x' & y' & Hx' & Hy' & Hm); [|done].
    rewrite Hx in Hx'. rewrite Hy in Hy'. injection Hx' as <-. injection Hy' as <-.
    split; [intros a d Ha|intros d|intros d|intros d|done|done|].
    + rewrite !Hone. cbn [sent received]. rewrite (party_ind _ _ _ _ Hx), (party_ind _ _ _ _ Hy).
      rewrite (proj1 Hm). unfold ind. repeat case_decide; lia.
    + rewrite Hone, (moved_holdings _ _ x y cs d Nx Ny Hm). cbn. lia.
    + apply (proj2 Hm).
    + rewrite Hone, T1. cbn. lia.
    + unfold chargeable, splits_ok in *. by rewrite T1, D1.
Qed.

Lemma transfers_run ctx reverse rate msgs : ReverseCharge ctx = Some reverse -> 0 <= rate ->
  NoDup TaxSend.module_accounts -> Forall transfer_ok msgs ->
  forall s s' : St, GetBurnTaxRate s = Some rate -> chargeable s -> run_msgs ctx msgs s = Ret tt s' ->
  run_effect reverse rate msgs s s'.
Proof using Type*.
  intros Hrev Hr0 Hnd. induction 1 as [|m msgs Hm _ IH]; intros s s' Hr Hc R.
  - injection R as <-. by apply effect_nil.
  - apply bind_Ret in R as ([] & s1 & R1 & R). apply (transfer_run _ reverse rate) in R1 as Heff; [|done..].
    eapply effect_cons; [exact Heff|]. destruct Heff as [_ _ _ _ E1 _ C1]. apply IH; [|done|done].
    unfold GetBurnTaxRate, GetParams in *. by rewrite E1.
Qed.

(** ** The ante handler, the messages and the post handler *)

(** A transfer in two steps: its own tax, if the messages are charged and it is not
    exempt, is charged to the sender, and what is left is sent. *)
Definition send_in_parts (reverse : bool) (rate : Dec) (from to : string) (cs : Coins) (s s' : St) : Prop :=
  exists x y taxes net s1, AccAddressFromBech32 from = Ok x /\ AccAddressFromBech32 to = Ok y /\
    (forall d, amt taxes d = if reverse then send_tax (zones s) rate (MsgSend from to cs) d else 0) /\
    (forall d, amt net d = amt cs d - amt taxes d) /\
    charged x taxes s s1 /\ moved (bank s1) (bank s') x y net /\ same_rest s1 s'.

Lemma send_parts_run ctx reverse rate from to cs x (s s' : St) : ReverseCharge ctx = Some reverse ->
  coins_ok cs -> GetBurnTaxRate s = Some rate -> 0 <= rate -> chargeable s ->
  AccAddressFromBech32 from = Ok x -> deliver_msg ctx (MsgSend from to cs) s = Ret tt s' ->
  send_in_parts reverse rate from to cs s s'.
Proof using Type*.
  intros Hrev Hcs Hr Hr0 Hc Hx R. cbn [deliver_msg] in R. destruct reverse.
  - apply (TaxSend.Send_parts _ _ _ _ rate x) in R
      as (taxes & net & y & s1 & Hn & Hy & At & An & Hch & _ & Hm & Hrest); [|done..].
    exists x, y, taxes, net, s1. by split_and!.
  - unfold Send, IsReverseCharge in R. rewrite Hrev in R.
    apply bind_Ret in R as (b & s1 & R1 & R). apply bind_Ret in R1 as ([] & s0 & [= <-] & [= <- <-]). cbn [negb] in R.
    apply on_bank_Ret in R as [R Hrest]. apply bank_Send_moved in R as (x' & y & Hx' & Hy & Hm); [|done].
    rewrite Hx in Hx'. injection Hx' as <-. do 4 eexists. eexists (mkState _ _ _ _ _ _ _).
    split_and!; [done|done|by instantiate (1 := [])| |exact (charged_nil x s)|exact Hm|exact Hrest].
    intros d. change (amt [] d) with 0. lia.
Qed.

(** Transfers leave no tax to contract calls. *)
Lemma no_deferred te tk rate msgs d : Forall transfer_ok msgs ->
  due_all tk rate false ((msgs ≫= flatten) ≫= deferred te) d = 0.
Proof using Type.
  induction 1 as [|m msgs Hm _ IH]; [done|]. rewrite bind_cons, bind_app, due_all_app, IH.
  by destruct m.
Qed.

(** Paying a fee moves it to the fee collector. *)
Lemma paid_holdings a f (s s' : St) d : NoDup TaxSend.module_accounts -> a ∉ TaxSend.module_accounts ->
  paid a f s s' -> TaxSend.module_holdings (bank s') d = TaxSend.module_holdings (bank s) d + f d.
Proof using Type.
  intros Hnd Ha [Hb _]. unfold TaxSend.module_accounts in *. apply NoDup_cons in Hnd as [N1 _].
  rewrite ?not_elem_of_cons in *. destruct_and!. unfold TaxSend.module_holdings. rewrite !Hb. TaxSend.ind_simpl. lia.
Qed.

Lemma paid_user a f (s s' : St) u d : u ∉ TaxSend.module_accounts -> paid a f s s' ->
  bal (bank s') u d = bal (bank s) u d - ind (u = a) (f d).
Proof using Type.
  unfold TaxSend.module_accounts. rewrite ?not_elem_of_cons. intros Hu [Hb _]. destruct_and!.
  rewrite Hb. unfold ind at 2. rewrite decide_False by done. lia.
Qed.

(** The post handler after the ante handler: it charges what is due to the payer. *)
Lemma post_charges ctx ctx' p due (s s' : St) : coins_ok due -> addr_ok p = true -> chargeable s ->
  TaxDue ctx = None ->
  (TaxDue ctx' = Some due /\ TaxPayer ctx' = Some (AccString p)) \/ (due = [] /\ TaxDue ctx' = TaxDue ctx) ->
  PostHandle ctx' s = Ret tt s' -> charged p due s s'.
Proof using Type*.
  intros Hd Hp [Hs Hpr] Hnone [[Ht Hpay]|[-> Ht]] R.
  - by apply (PostHandle_inv ctx' due p) in R as [? _].
  - unfold PostHandle in R. rewrite Ht, Hnone in R. injection R as <-. apply charged_nil.
Qed.

Variable (fee_collector feegrant : bool).

(** C6. The tax of a transaction is charged exactly once, by the handlers or by the
    messages.  Either the fee covers it: the ante handler takes the fee less the
    tax and the refund, a transfer moves exactly its amount, and the post handler
    takes exactly the tax from the payer, splits it between the burn account, the
    oracle, the community and the fee collector, and books it as tax proceeds.  Or
    the reverse charge is on: the ante handler takes the fee less the refund, each
    transfer that is not exempt pays its own tax out of its amount, split and
    booked, and the post handler does nothing.  The refund is nothing or the whole
    tax that the contract calls will charge themselves. *)
Theorem tax_charged_once ctx tx rate ctx' (s s1 s2 s3 : St) :
  tx_ok ctx tx rate s -> TaxDue ctx = None -> addr_ok (payer tx) = true -> chargeable s2 ->
  AnteHandle fee_collector feegrant ctx (Some tx) false s = Ret ctx' s1 ->
  PostHandle ctx' s2 = Ret tt s3 ->
  exists reverse refund : bool, ReverseCharge ctx' = Some reverse /\
    paid (payer tx) (fun d => amt (GetFee tx) d - (if reverse then 0 else tx_tax s rate tx d) -
      (if refund then tx_deferred s rate tx d else 0)) s s1 /\
    (forall from to cs x sa sb, coins_ok cs -> AccAddressFromBech32 from = Ok x -> chargeable sa ->
       GetBurnTaxRate sa = Some rate -> deliver_msg ctx' (MsgSend from to cs) sa = Ret tt sb ->
       send_in_parts reverse rate from to cs sa sb) /\
    if reverse then s3 = s2
    else exists due, coins_ok due /\ (forall d, amt due d = tx_tax s rate tx d) /\
      charged (payer tx) due s2 s3.
Proof using Type*.
  intros Hok Hnone Haddr [Hs Hpr] R Rp. pose proof Hok as [_ _ _ _ _ Hr0].
  apply (AnteHandle_inv _ _ _ _ rate) in R as (reverse & refund & [Hrev Hpaid (due & Od & Ad & Hdue) _]); [|done].
  assert (charged (payer tx) due s2 s3 /\ (due = [] -> s3 = s2)) as [Hch Hid].
  { destruct Hdue as [[Ht Hpay]|[-> Ht]].
    - by apply (PostHandle_inv ctx' due (payer tx)) in Rp as (? & _ & ?).
    - unfold PostHandle in Rp. rewrite Ht, Hnone in Rp. injection Rp as <-. split; [apply charged_nil|done]. }
  exists reverse, refund. split_and!; [done|done| |].
  - intros from to cs x sa sb Hcs Hx Hc Hr Rm. by eapply send_parts_run.
  - destruct reverse; [|by exists due]. apply Hid. apply coins_ext; [done|apply coins_ok_nil|]. intros d. by rewrite Ad.
Qed.

(** C5. A transaction of transfers, from the ante handler through its messages to
    the post handler.  The payer pays exactly the fee, every sender exactly what
    it sends, and every receiver gets all of it when the fee covers the tax, or
    all of it less the burn tax when the tax is charged to the messages.  What
    the users lose, and nothing else, is held by the fee collector and the
    accounts the tax is split to; no coin is made or lost; and the treasury's tax
    proceeds grow by the tax, once. *)
Theorem transfers_settle ctx tx rate ctx' (s s1 s2 s3 : St) :
  tx_ok ctx tx rate s -> TaxDue ctx = None -> addr_ok (payer tx) = true ->
  payer tx ∉ TaxSend.module_accounts -> NoDup TaxSend.module_accounts -> chargeable s ->
  Forall transfer_ok (GetMsgs tx) ->
  AnteHandle fee_collector feegrant ctx (Some tx) false s = Ret ctx' s1 ->
  run_msgs ctx' (GetMsgs tx) s1 = Ret tt s2 -> PostHandle ctx' s2 = Ret tt s3 ->
  exists reverse : bool, ReverseCharge ctx' = Some reverse /\ forall d,
    let burn_tax := zsum (fun m => taxed (zones s) rate reverse m d) (GetMsgs tx) in
    (forall a, a ∉ TaxSend.module_accounts -> bal (bank s3) a d = bal (bank s) a d
       - ind (a = payer tx) (amt (GetFee tx) d) - zsum (fun m => sent a m d) (GetMsgs tx)
       + zsum (fun m => received (zones s) rate reverse a m d) (GetMsgs tx)) /\
    TaxSend.module_holdings (bank s3) d =
      TaxSend.module_holdings (bank s) d + amt (GetFee tx) d + burn_tax /\
    supply (bank s3) d = supply (bank s) d /\
    amt (Proceeds s3) d = amt (Proceeds s) d + (if reverse then burn_tax else tx_tax s rate tx d).
Proof using Type*.
  intros Hok Hnone Haddr Hpay Hnd Hc Hm Ra Rm Rp. pose proof Hok as [_ _ _ _ Hr Hr0].
  apply (AnteHandle_inv _ _ _ _ rate) in Ra as (reverse & refund & [Hrev Hpaid (due & Od & Ad & Hdue) _]); [|done].
  pose proof Hpaid as (_ & Hs1 & Ep & Et & Ez & Ed).
  assert (Hc1 : chargeable s1) by (unfold chargeable, splits_ok in *; by rewrite Et, Ed).
  apply (transfers_run _ reverse rate) in Rm as [U2 M2 S2 P2 _ Z2 C2];
    [|done..|by unfold GetBurnTaxRate, GetParams in *; rewrite Ep|done].
  apply (post_charges ctx ctx' (payer tx) due) in Rp as Hch; [|done..].
  exists reverse. split; [done|]. intros d burn_tax. rewrite Ez in *.
  pose proof (paid_holdings _ _ _ _ d Hnd Hpay Hpaid) as Hh. cbn beta in Hh.
  assert (Href : (if refund then tx_deferred s rate tx d else 0) = 0) by (destruct refund; [by apply no_deferred|done]).
  assert (Htax : reverse = true -> amt due d = 0) by (intros ->; by rewrite Ad).
  rewrite Href in *. split_and!.
  - intros a Ha. rewrite (TaxSend.charged_user _ _ _ _ _ d Ha Hch), U2, (paid_user _ _ _ _ _ d Ha Hpaid) by done.
    cbn beta. rewrite Href, Ad. unfold ind. case_decide; destruct reverse; lia.
  - rewrite (TaxSend.charged_holdings _ _ _ _ d Hnd Hpay Hch), M2, Hh, Ad. fold burn_tax. destruct reverse; lia.
  - destruct Hch as (_ & _ & _ & _ & Su & _). by rewrite Su, S2, Hs1.
  - destruct Hch as (_ & _ & _ & Pr & _). rewrite Pr, P2, Et, Ad. fold burn_tax. unfold burn_tax, taxed.
    destruct reverse; [lia|]. rewrite zsum_0. lia.
Qed.
End Run.

(** ** Concrete transactions *)

Import Ref TaxRef.

#[local] Instance no_market : MarketServer unit RefBank := fun _ => fail ErrUnauthorized.
Definition deliver_other : TxCtx -> Msg -> M (State unit RefBank RefDistr) unit := fun _ _ => fail ErrUnauthorized.

(** The fee of the demo transaction covers its tax of 60 dollars. *)
Lemma tax_charged_once_witness :
  bal (bank post_after) alice MicroUSDDenom = bal (bank ante_after) alice MicroUSDDenom - 60.
Proof.
  destruct (tax_charged_once deliver_other true true ante_ctx demo_tx (NewDecWithPrec 5 3) ante_ctx' tax_state
    ante_after ante_after post_after) as (reverse & refund & Hrev & _ & _ & Hpost).
  - apply demo_tx_ok.
  - done.
  - by vm_compute.
  - split; [split_and!; [split; vm_compute; discriminate..|apply (bool_decide_unpack _); by vm_compute]|].
    apply coins_ok_check. by vm_compute.
  - apply ante_returns.
  - apply post_returns.
  - assert (ReverseCharge ante_ctx' = Some false) as Hf by (by vm_compute). rewrite Hf in Hrev. injection Hrev as <-.
    destruct Hpost as (due & _ & Hd & Hch).
    rewrite (TaxSend.charged_user alice due _ _ alice MicroUSDDenom) with (2 := Hch) by (apply (bool_decide_unpack _); by vm_compute).
    rewrite Hd. by vm_compute.
Defined.

(** Alice sends luna to Bob and dollars to Carol; her fee has no room for the
    tax of the dollars, so both messages pay their own tax. *)
Definition transfers : list Msg :=
  [ MsgSend (acc alice) (acc bob) [mkCoin MicroLunaDenom 1000];
    MsgSend (acc alice) (acc carol) [mkCoin MicroUSDDenom 1000000] ].
Definition transfers_tx : FeeTx := mkTx transfers [mkCoin MicroLunaDenom 3000000] 100000 alice None.
Definition tx_ante := AnteHandle true true ante_ctx (Some transfers_tx) false tax_state.
Definition tx_ctx : TxCtx := match tx_ante with Ret c _ => c | _ => ante_ctx end.
Definition tx_state1 := final tx_ante tax_state.
Definition tx_state2 := final (run_msgs deliver_other tx_ctx transfers tx_state1) tx_state1.
Definition tx_state3 := final (PostHandle tx_ctx tx_state2) tx_state2.

Lemma transfers_settle_witness :
  bal (bank tx_state3) carol MicroUSDDenom = 995000 /\
  bal (bank tx_state3) alice MicroUSDDenom = 10 ^ 9 - 1000000.
Proof.
  assert (tx_ante = Ret tx_ctx tx_state1) as Ra.
  { assert (returned tx_ante = true) by (by vm_compute). unfold tx_ctx, tx_state1. by destruct tx_ante. }
  destruct (transfers_settle deliver_other true true ante_ctx transfers_tx (NewDecWithPrec 5 3) tx_ctx
    tax_state tx_state1 tx_state2 tx_state3) as (reverse & Hrev & Hd).
  - split.
    + apply coins_ok_check. by vm_compute.
    + vm_compute. split; [discriminate|done].
    + repeat (apply List.Forall_cons; [apply coins_ok_check; by vm_compute|]). apply List.Forall_nil.
    + split; [apply (bool_decide_unpack _)|apply (bool_decide_unpack _)]; by vm_compute.
    + done.
    + vm_compute. discriminate.
  - done.
  - by vm_compute.
  - apply (bool_decide_unpack _). by vm_compute.
  - apply (bool_decide_unpack _). by vm_compute.
  - split; [split_and!; [split; vm_compute; discriminate..|apply (bool_decide_unpack _); by vm_compute]|].
    apply coins_ok_check. by vm_compute.
  - apply List.Forall_cons; [|apply List.Forall_cons; [|apply List.Forall_nil]]; (split; [apply coins_ok_check; by vm_compute|]);
      do 2 eexists; (split_and!; [vm_compute; reflexivity..| |]); apply (bool_decide_unpack _); by vm_compute.
  - exact Ra.
  - apply returned_final. by vm_compute.
  - apply returned_final. by vm_compute.
  - assert (ReverseCharge tx_ctx = Some true) as Ht by (by vm_compute). rewrite Ht in Hrev. injection Hrev as <-.
    destruct (Hd MicroUSDDenom) as [Hu _]. split; rewrite Hu.
    + by vm_compute.
    + apply (bool_decide_unpack _). by vm_compute.
    + by vm_compute.
    + apply (bool_decide_unpack _). by vm_compute.
Defined.
End TxRun.
