(* ===== verification/AnteChecks.v ===== *)
(** * The spamming and deposit checks

    A validator gets one prevote and one vote per height into the mempool, and no
    proposal passes without its initial deposit. *)

From S2P Require Import Prelude Sdk SdkRef SdkFees Core OracleTypes OracleKeeper Market TreasuryTypes Treasury TaxExemption Tax TaxFacts TaxRef Ante.

Module AnteChecks.
Import Tax TaxFacts Ante.

Section Spam.
Context {O : Type} `{HA : Bech32, HO : FeederCheck O}.

(** The state after a check, accepted or not: the maps live in memory and are
    not rolled back. *)
Definition after (o : out Spam unit) (s : Spam) : Spam :=
  match o with Ret _ s' | Fail _ s' => s' | Halt => s end.
Definition run_checks (h : Z) (txs : list (O * list Msg)) (s : Spam) : Spam :=
  foldl (fun s tx => after (CheckOracleSpamming tx.1 h tx.2 s) s) s txs.

(** A map in which [v] has submitted at [h] stays so. *)
Definition submitted (h : Z) (v : string) (prevote : bool) (s : Spam) : Prop :=
  (if prevote then PrevoteMap s else VoteMap s) !! v = Some h.

Lemma submitted_insert h v v' (m : gmap string Z) :
  m !! v = Some h -> <[v' := h]> m !! v = Some h.
Proof using Type. intros Hm. destruct (decide (v = v')) as [->|]; [apply lookup_insert_eq|by rewrite lookup_insert_ne]. Qed.

Lemma check_keeps o h msgs v p : forall s, submitted h v p s ->
  submitted h v p (after (CheckOracleSpamming o h msgs s) s).
Proof using Type.
  induction msgs as [|m msgs IH]; intros s Hs; [done|].
  assert (forall (c : res unit) last upd,
    (forall t, submitted h v p t -> submitted h v p (upd t)) ->
    submitted h v p (after ((do* lift c in let* s := gets id in do* check_height (last s) h in
      do* modify upd in CheckOracleSpamming o h msgs) s) s)) as Hstep.
  { intros c last upd Hu. unfold bind, lift, gets, modify.
    destruct c as [[]| |]; [|done|done]. change (id s) with s.
    unfold check_height. destruct (last s) as [l|]; [destruct (l =? h); [done|]|]; cbn.
    - destruct (CheckOracleSpamming o h msgs (upd s)) eqn:E; specialize (IH _ (Hu _ Hs));
        rewrite E in IH; [exact IH..|done].
    - destruct (CheckOracleSpamming o h msgs (upd s)) eqn:E; specialize (IH _ (Hu _ Hs));
        rewrite E in IH; [exact IH..|done]. }
  destruct m; try done.
  - apply (Hstep _ (fun s => PrevoteMap s !! _)). intros t Ht. unfold submitted in *.
    destruct p; simpl; [by apply submitted_insert|done].
  - apply (Hstep _ (fun s => VoteMap s !! _)). intros t Ht. unfold submitted in *.
    destruct p; simpl; [done|by apply submitted_insert].
Qed.

Lemma checks_keep h txs v p : forall s, submitted h v p s -> submitted h v p (run_checks h txs s).
Proof using Type.
  induction txs as [|tx txs IH]; intros s Hs; [done|]. simpl. apply IH. by apply check_keeps.
Qed.

(** The oracle message that starts a transaction. *)
Definition oracle_msg (prevote : bool) (feeder v : string) : Msg :=
  if prevote then MsgOraclePrevote feeder v else MsgOracleVote feeder v.

Lemma accepted_submits o h p f v rest s s' :
  CheckOracleSpamming o h (oracle_msg p f v :: rest) s = Ret tt s' -> submitted h v p s'.
Proof using Type.
  intros R. assert (exists s1, CheckOracleSpamming o h rest s1 = Ret tt s' /\ submitted h v p s1) as (s1 & R1 & H1).
  { destruct p; simpl in R; unfold submitted; apply bind_Ret in R as ([] & ? & [_ ->]%lift_Ret & R);
      apply bind_Ret in R as (? & ? & [= <- <-] & R); apply bind_Ret in R as ([] & s2 & R2 & R);
      apply bind_Ret in R as ([] & s3 & [= <-] & R); eexists; (split; [exact R|]); simpl; apply lookup_insert_eq. }
  pose proof (check_keeps o h rest v p s1 H1) as Hk. by rewrite R1 in Hk.
Qed.

(** A second submission at the same height is refused. *)
Lemma submitted_refused o h p f v rest s s' : submitted h v p s ->
  CheckOracleSpamming o h (oracle_msg p f v :: rest) s <> Ret tt s'.
Proof using Type.
  unfold submitted. intros Hs R. destruct p; simpl in R, Hs;
    apply bind_Ret in R as ([] & ? & [_ ->]%lift_Ret & R);
    apply bind_Ret in R as (? & ? & [= <- <-] & R); change (id ?x) with x in R; rewrite Hs in R;
    apply bind_Ret in R as ([] & s2 & R2 & R); simpl in R2; by rewrite Z.eqb_refl in R2.
Qed.

(** The check reads the oracle messages that a transaction starts with, and stops
    at the first other message. *)
Fixpoint leading (msgs : list Msg) : list (bool * string) :=
  match msgs with
  | MsgOraclePrevote _ v :: rest => (true, v) :: leading rest
  | MsgOracleVote _ v :: rest => (false, v) :: leading rest
  | _ => []
  end.

Lemma check_step o h p f v rest s s' :
  CheckOracleSpamming o h (oracle_msg p f v :: rest) s = Ret tt s' ->
  exists s1, CheckOracleSpamming o h rest s1 = Ret tt s' /\ submitted h v p s1 /\
    forall v' p', submitted h v' p' s -> submitted h v' p' s1.
Proof using Type.
  intros R. destruct p; simpl in R; unfold submitted; apply bind_Ret in R as ([] & ? & [_ ->]%lift_Ret & R);
    apply bind_Ret in R as (? & ? & [= <- <-] & R); apply bind_Ret in R as ([] & s2 & R2 & R);
    assert (s2 = s) as -> by (unfold check_height in R2; repeat (case_match; try done); by injection R2 as <-);
    apply bind_Ret in R as ([] & s3 & [= <-] & R); eexists; (split_and!; [exact R|simpl; apply lookup_insert_eq|]);
    intros v' []; simpl; try done; apply submitted_insert.
Qed.

(** An accepted transaction: its leading oracle messages are all different, none
    was submitted at this height before, and all of them are recorded. *)
Lemma accepted_leading o h msgs : forall s s', CheckOracleSpamming o h msgs s = Ret tt s' ->
  NoDup (leading msgs) /\
  forall p v, (p, v) ∈ leading msgs -> ~ submitted h v p s /\ submitted h v p s'.
Proof using Type.
  assert (Hstep : forall p f v rest, (forall s s', CheckOracleSpamming o h rest s = Ret tt s' ->
      NoDup (leading rest) /\ forall p v, (p, v) ∈ leading rest -> ~ submitted h v p s /\ submitted h v p s') ->
    forall s s', CheckOracleSpamming o h (oracle_msg p f v :: rest) s = Ret tt s' ->
    NoDup ((p, v) :: leading rest) /\
    forall p' v', (p', v') ∈ (p, v) :: leading rest -> ~ submitted h v' p' s /\ submitted h v' p' s').
  { intros p f v rest IH s s' R. destruct (check_step _ _ _ _ _ _ _ _ R) as (s1 & R1 & Hv & Hk).
    destruct (IH _ _ R1) as [Hnd Hall]. split.
    - constructor; [|done]. by intros [Hn _]%Hall.
    - intros p' v' [[= -> ->]|Hin]%elem_of_cons.
      + split; [|by eapply accepted_submits]. intros Hs. by apply (submitted_refused _ _ _ _ _ _ _ _ Hs) in R.
      + destruct (Hall _ _ Hin) as [Hn Hy]. split; [|done]. intros Hs. by apply Hn, Hk. }
  induction msgs as [|m msgs IH]; intros s s' R; [split; [constructor|]; by intros p v ?%not_elem_of_nil|].
  destruct m as [| | | | | | |f v|f v| | | | | |]; try (split; [constructor|]; by intros p' v' ?%not_elem_of_nil).
  - by apply (Hstep true f v msgs).
  - by apply (Hstep false f v msgs).
Qed.

(** Nothing after the first other message is looked at or recorded. *)
Lemma later_unchecked o h m rest s : leading [m] = [] -> CheckOracleSpamming o h (m :: rest) s = Ret tt s.
Proof using Type. by destruct m. Qed.

(** One prevote and one vote per validator and height: once a transaction
    that starts with a validator's prevote (or vote) has been accepted at a
    height, no later one that starts with a prevote (vote) of the same validator
    is accepted at that height, whatever other transactions were checked in
    between, accepted or not. *)
Theorem oracle_once_per_height o h p f v rest s s' txs o' f' rest' s3 :
  CheckOracleSpamming o h (oracle_msg p f v :: rest) s = Ret tt s' ->
  CheckOracleSpamming o' h (oracle_msg p f' v :: rest') (run_checks h txs s') <> Ret tt s3.
Proof using Type.
  intros Hs%accepted_submits. apply submitted_refused. by apply checks_keep.
Qed.
End Spam.

(** ** Proposals *)

Section Deposits.
Context `{HM : SdkMath, HC : SdkCoins, HF : SdkFees, !SdkMathLaws, !SdkCoinsLaws, !SdkFeesLaws}.

(** The check of one proposal. *)
Lemma deposit_check minDeposit treasury c cs :
  let ratio := TreasuryTypes.MinInitialDepositRatio (Treasury.KParams treasury) in
  head minDeposit = Some c -> 0 <= Amount c < 2 ^ 255 -> rate_ok ratio ->
  ValidateDenom MicroLunaDenom = true -> coins_ok cs ->
  HandleCheckMinInitialDeposit minDeposit treasury (MsgSubmitProposal cs) =
  if tax_of ratio (Amount c) <=? amt cs MicroLunaDenom then Ok tt
  else Err (Errorf "not enough initial deposit provided").
Proof using Type*.
  intros ratio Hm Hc Hr Hd Hcs. pose proof (tax_of_bounds ratio (Amount c) Hr ltac:(lia)) as Ht.
  unfold HandleCheckMinInitialDeposit. rewrite Hm. cbn [deref rbind]. fold ratio.
  rewrite (tax_amount_small ratio) by done. cbn [rbind].
  rewrite NewCoin_spec, Hd, (proj2 (Z.leb_le _ _)) by lia. cbn [rbind andb].
  rewrite NewCoins_single. cbn [Denom Amount]. rewrite Hd, (proj2 (Z.leb_le _ _)) by lia.
  cbn [rbind andb]. set (x := tax_of ratio (Amount c)) in *.
  assert (coins_ok (if x =? 0 then [] else [mkCoin MicroLunaDenom x])) as Hreq.
  { destruct (Z.eqb_spec x 0); [apply coins_ok_nil|]. split; [by repeat constructor|].
    constructor; [simpl; split; [done|lia]|constructor]. }
  assert (forall d, amt (if x =? 0 then [] else [mkCoin MicroLunaDenom x]) d = ind (MicroLunaDenom = d) x) as Areq.
  { intros d. destruct (Z.eqb_spec x 0) as [->|]; [|apply amt_one]. unfold ind. by destruct (decide _). }
  destruct (Coins_IsAllGTE cs _) eqn:Eg; simpl.
  - rewrite Coins_IsAllGTE_spec in Eg by done. specialize (Eg MicroLunaDenom). rewrite Areq in Eg.
    unfold ind in Eg. rewrite decide_True in Eg by done. by rewrite (proj2 (Z.leb_le _ _)).
  - destruct (Z.leb_spec x (amt cs MicroLunaDenom)) as [Hle|]; [|done]. exfalso.
    apply not_true_iff_false in Eg. apply Eg. rewrite Coins_IsAllGTE_spec by done. intros d. rewrite Areq.
    unfold ind. destruct (decide _) as [<-|]; [done|]. by apply amt_nonneg.
Qed.

(** A transaction passes the deposit check exactly when each of its
    proposals deposits at least the required share of the minimal deposit,
    rounded down, in Luna. *)
Theorem deposits_enforced minDeposit treasury msgs c :
  let ratio := TreasuryTypes.MinInitialDepositRatio (Treasury.KParams treasury) in
  head minDeposit = Some c -> 0 <= Amount c < 2 ^ 255 -> rate_ok ratio ->
  ValidateDenom MicroLunaDenom = true ->
  (forall cs, MsgSubmitProposal cs ∈ msgs -> coins_ok cs) ->
  deposit_AnteHandle minDeposit treasury false msgs = Ok tt <->
  forall cs, MsgSubmitProposal cs ∈ msgs -> tax_of ratio (Amount c) <= amt cs MicroLunaDenom.
Proof using Type*.
  intros ratio Hm Hc Hr Hd. unfold deposit_AnteHandle.
  induction msgs as [|m msgs IH]; intros Hok; [split; [intros _ cs Hin; by apply not_elem_of_nil in Hin|done]|].
  assert (forall cs, MsgSubmitProposal cs ∈ msgs -> coins_ok cs) as Hok' by (intros; apply Hok; by right).
  specialize (IH Hok'). cbn [rfold]. destruct (IsMsgSubmitProposal m) eqn:Em; cbn [negb].
  - destruct m as [| | | | | | | | | | | |deposit| |]; try done.
    rewrite (deposit_check minDeposit treasury c) by (done || by (apply Hok; left)). fold ratio.
    destruct (Z.leb_spec (tax_of ratio (Amount c)) (amt deposit MicroLunaDenom)) as [Hle|Hlt]; cbn [rbind].
    + rewrite IH. split; [|intros Ha cs ?; apply Ha; by right].
      intros Ha cs [[= ->]|Hin]%elem_of_cons; [done|by apply Ha].
    + split; [done|]. intros Ha. specialize (Ha deposit ltac:(left)). lia.
  - cbn [rbind]. rewrite IH. split; [|intros Ha cs ?; apply Ha; by right].
    intros Ha cs [<-|Hin]%elem_of_cons; [done|by apply Ha].
Qed.
End Deposits.

(** ** Concrete checks *)

Import Ref TaxRef.

#[local] Instance any_feeder : FeederCheck unit := fun _ _ _ => Ok tt.
Definition val (a : string) : string := "terravaloper1" +:+ a.
Definition first_tx : list Msg := [MsgOraclePrevote (acc alice) (val bob); MsgOracleVote (acc alice) (val bob)].
Definition spam_after : Spam := final (CheckOracleSpamming tt 9 first_tx (mkSpam ∅ ∅)) (mkSpam ∅ ∅).

Lemma oracle_once_per_height_witness :
  returned (CheckOracleSpamming tt 9 [MsgOraclePrevote (acc carol) (val bob)]
    (run_checks 9 [(tt, [MsgOraclePrevote (acc carol) (val alice)])] spam_after)) = false.
Proof.
  destruct (CheckOracleSpamming tt 9 [MsgOraclePrevote (acc carol) (val bob)]
    (run_checks 9 [(tt, [MsgOraclePrevote (acc carol) (val alice)])] spam_after)) as [[] s3| |] eqn:R; [|done..].
  exfalso. refine (oracle_once_per_height tt 9 true (acc alice) (val bob)
    [MsgOracleVote (acc alice) (val bob)] (mkSpam ∅ ∅) spam_after
    [(tt, [MsgOraclePrevote (acc carol) (val alice)])] tt (acc carol) [] s3 _ R). by vm_compute.
Defined.

Definition deposit_treasury : Treasury.Store :=
  Treasury.SetMinInitialDepositRatio (NewDecWithPrec 5 1) tax_treasury.

Lemma one_proposal cs deposit :
  MsgSubmitProposal cs ∈ [MsgOther "x"; MsgSubmitProposal deposit] -> cs = deposit.
Proof.
  intros [[=]|[[= ->]|Hin]%elem_of_cons]%elem_of_cons; [done|]. destruct (not_elem_of_nil _ Hin).
Qed.

Lemma deposits_enforced_witness :
  deposit_AnteHandle [mkCoin MicroLunaDenom 1001] deposit_treasury false
    [MsgOther "x"; MsgSubmitProposal [mkCoin MicroLunaDenom 500]] = Ok tt.
Proof.
  apply (deposits_enforced [mkCoin MicroLunaDenom 1001] deposit_treasury _ (mkCoin MicroLunaDenom 1001)).
  - done.
  - vm_compute. split; [discriminate|done].
  - split; vm_compute; discriminate.
  - done.
  - intros cs Hin. apply one_proposal in Hin as ->.
    apply coins_ok_check. by vm_compute.
  - intros cs Hin. apply one_proposal in Hin as ->.
    vm_compute. discriminate.
Defined.
End AnteChecks.
