(* ===== verification/Dyncomm.v ===== *)
(** * Dynamic commissions ([x/dyncomm])

    A minimal commission that grows with a validator's voting power: the formula,
    the stored minimal and target rates, the weekly update, and the decorators
    that check and record the rates validators ask for. *)

From S2P Require Import Prelude Sdk SdkRef SdkFees Core OracleTypes OracleKeeper Market TreasuryTypes Treasury TaxExemption Tax Ante.

Module Dyncomm.
Import Ante.

(** ** Parameters ([types/params.go]) *)

Record Params := mkParams { MaxZero : Dec; SlopeBase : Dec; SlopeVpImpact : Dec; Cap : Dec }.
Definition DefaultParams : Params :=
  mkParams (NewDecWithPrec 5 1) (NewDecWithPrec 2 0) (NewDecWithPrec 10 0) (NewDecWithPrec 2 1).

Definition validateMaxZero (v : Dec) : res unit :=
  if v <? 0 then Err (Errorf "max zero shall be 0 or positive")
  else if OneDec <? v then Err (Errorf "max zero shall be less than 1.0") else Ok tt.
Definition validateSlopeBase (v : Dec) : res unit :=
  if v <? 0 then Err (Errorf "slope base must be positive or Zero") else Ok tt.
Definition validateSlopeVpImpact (v : Dec) : res unit :=
  if negb (0 <? v) then Err (Errorf "slope vp impact must be positive") else Ok tt.
Definition validateCap (v : Dec) : res unit :=
  if v <? 0 then Err (Errorf "cap shall be 0 or positive")
  else if OneDec <? v then Err (Errorf "cap shall be less than 1.0") else Ok tt.

Definition Validate (p : Params) : res unit :=
  if SlopeBase p <? 0 then Err (Errorf "slope base must be positive or zero")
  else if negb (0 <? SlopeVpImpact p) then Err (Errorf "solpe vp impact should be positive")
  else if Cap p <? 0 then Err (Errorf "cap shall be 0 or positive")
  else if OneDec <? Cap p then Err (Errorf "cap shall be less than 1.0")
  else if MaxZero p <? 0 then Err (Errorf "max zero shall be 0 or positive")
  else if OneDec <? MaxZero p then Err (Errorf "max zero shall be less than 1.0")
  else Ok tt.

(** The parameter subspace runs its validators on every write and panics. *)
Definition validate_param_set (p : Params) : res unit :=
  let! _ := validateMaxZero (MaxZero p) in
  let! _ := validateSlopeBase (SlopeBase p) in
  let! _ := validateSlopeVpImpact (SlopeVpImpact p) in
  validateCap (Cap p).

(** ** Validators, as the staking keeper has them *)

Record Commission := mkCommission { Rate : Dec; MaxRate : Dec; MaxChangeRate : Dec; UpdateTime : Z }.
Record Validator := mkValidator {
  OperatorAddress : string; Tokens : Int; Bonded : bool; VCommission : Commission }.

Class DynStaking (SS : Type) := {
  MinCommissionRate : SS -> Dec;
  GetLastTotalPower : SS -> Int;
  DPowerReduction : SS -> Int;
  (** [IterateValidators] *)
  Validators : SS -> list Validator;
  SetValidator : Validator -> SS -> SS;
  (** [sdk.TokensToConsensusPower], an int64 *)
  TokensToPower : Int -> Int -> res Z;
}.

(** Validators are kept by operator address; writing one changes nothing else. *)
Class DynStakingLaws (SS : Type) `{DynStaking SS} : Prop := {
  Validators_NoDup s : NoDup (OperatorAddress <$> Validators s);
  Validators_set v s : OperatorAddress v ∈ OperatorAddress <$> Validators s ->
    Validators (SetValidator v s) =
    (fun w => if decide (OperatorAddress w = OperatorAddress v) then v else w) <$> Validators s;
  MinCommissionRate_set v s : MinCommissionRate (SetValidator v s) = MinCommissionRate s;
  GetLastTotalPower_set v s : GetLastTotalPower (SetValidator v s) = GetLastTotalPower s;
  DPowerReduction_set v s : DPowerReduction (SetValidator v s) = DPowerReduction s;
  TokensToPower_spec t r : r <> 0 -> TokensToPower t r = Int_Int64 (Z.quot t r);
}.

(** ** State *)

Record ValidatorCommissionRate := mkRates {
  ValidatorAddress : string; MinRate : Dec; TargetRate : Dec }.
Record State (SS : Type) := mkState {
  rates : gmap string ValidatorCommissionRate; params : Params; staking : SS }.
Arguments mkState {SS} _ _ _.
Arguments rates {SS} _.
Arguments params {SS} _.
Arguments staking {SS} _.

(** The key of a validator's entry. *)
Definition GetMinCommissionRatesKey (addr : string) : string :=
  String (Ascii.ascii_of_nat 1) addr.

Section Keeper.
Context {SS : Type} `{SdkMath, DynStaking SS}.
Abbreviation DM := (M (State SS)).
Abbreviation St := (State SS).

Definition CalculateVotingPower (s : SS) (validator : Validator) : res Dec :=
  let! totalPower := Int_Int64 (GetLastTotalPower s) in
  let! validatorPower := TokensToPower (Tokens validator) (DPowerReduction s) in
  let! q := Dec_QuoInt64 (NewDec validatorPower) totalPower in
  Dec_MulInt64 q 100.

Definition CalculateDynCommission (p : Params) (s : SS) (validator : Validator) : res Dec :=
  let! D := Dec_MulInt64 (Cap p) 100 in
  let! x := CalculateVotingPower s validator in
  let! factorA := Dec_Sub x (MaxZero p) in
  let! quotient := Dec_Quo x (SlopeVpImpact p) in
  let! factorB := Dec_Add quotient (SlopeBase p) in
  let! minComm := Dec_MulInt64 (MinCommissionRate s) 100 in
  let! y := Dec_Mul factorA factorB in
  let y := if D <? y then D else y in
  let y := if y <? minComm then minComm else y in
  Dec_QuoInt64 y 100.

Definition SetDynCommissionRate (validator : string) (rate : Dec) (s : St) : St :=
  let targetRate := match rates s !! validator with Some e => TargetRate e | None => ZeroDec end in
  mkState (<[validator := mkRates validator rate targetRate]> (rates s)) (params s) (staking s).
Definition SetTargetCommissionRate (validator : string) (rate : Dec) (s : St) : St :=
  let minRate := match rates s !! validator with Some e => MinRate e | None => ZeroDec end in
  mkState (<[validator := mkRates validator minRate rate]> (rates s)) (params s) (staking s).
Definition GetDynCommissionRate (s : St) (validator : string) : Dec :=
  match rates s !! validator with Some e => MinRate e | None => ZeroDec end.
Definition GetTargetCommissionRate (s : St) (validator : string) : Dec :=
  match rates s !! validator with Some e => TargetRate e | None => ZeroDec end.
Definition IterateDynCommissionRates (s : St) : list ValidatorCommissionRate :=
  snd <$> kv_iter GetMinCommissionRatesKey (rates s).

Definition UpdateValidatorMinRates (validator : Validator) : DM unit :=
  let* s := gets id in
  let* minRate := lift (CalculateDynCommission (params s) (staking s) validator) in
  let newMaxRate := MaxRate (VCommission validator) in
  let newRate := GetTargetCommissionRate s (OperatorAddress validator) in
  let newRate := if newRate <? minRate then minRate else newRate in
  let newMaxRate := if newMaxRate <? minRate then minRate else newMaxRate in
  let newValidator := mkValidator (OperatorAddress validator) (Tokens validator) (Bonded validator)
    (mkCommission newRate newMaxRate (MaxChangeRate (VCommission validator))
       (UpdateTime (VCommission validator))) in
  do* modify (fun s => mkState (rates s) (params s) (SetValidator newValidator (staking s))) in
  modify (SetDynCommissionRate (OperatorAddress validator) minRate).

Definition UpdateAllBondedValidatorRates : DM unit :=
  let* s := gets id in
  mfor (Validators (staking s)) (fun val =>
    if negb (Bonded val) then ret tt else UpdateValidatorMinRates val).

Definition EndBlocker (ctx : Ctx) : DM unit :=
  let* last := lift (IsPeriodLastBlock ctx BlocksPerWeek) in
  if negb last then ret tt else UpdateAllBondedValidatorRates.

Definition query_params (s : St) : Params := params s.
Definition query_rate (s : St) (validator : string) : Dec * Dec :=
  (GetDynCommissionRate s validator, GetTargetCommissionRate s validator).

(** ** Genesis ([genesis.go]) *)

Record GenesisState := mkGenesis {
  GParams : Params; ValidatorCommissionRates : list ValidatorCommissionRate }.
Definition DefaultGenesisState : GenesisState := mkGenesis DefaultParams [].

Definition InitGenesis (data : GenesisState) : DM unit :=
  do* (match validate_param_set (GParams data) with
       | Ok _ => modify (fun s => mkState (rates s) (GParams data) (staking s))
       | _ => panic
       end) in
  let* s := gets id in
  do* mfor (Validators (staking s)) (fun val =>
        modify (SetTargetCommissionRate (OperatorAddress val) (Rate (VCommission val)))) in
  UpdateAllBondedValidatorRates.
Definition ExportGenesis (s : St) : GenesisState :=
  mkGenesis (params s) (IterateDynCommissionRates s).

(** ** The ante decorator ([ante/ante.go]) *)

Definition ProcessEditValidator (s : St) (validator : string) (rate : option Dec) : res unit :=
  match rate with
  | None => Ok tt
  | Some newIntendedRate =>
      if newIntendedRate <? GetDynCommissionRate s validator
      then Err (Errorf "commission must be at least the dynamic minimum") else Ok tt
  end.

(** [if err != nil { return Wrap(ErrUnauthorized) }] *)
Definition unauthorized (err : option error) : res (option error) :=
  match err with Some _ => Err ErrUnauthorized | None => Ok None end.
Definition to_err (r : res unit) : res (option error) :=
  match r with Ok _ => Ok None | Err e => Ok (Some e) | Panic => Panic end.

(** One iteration; the named result [err] survives from one message to the next
    where the code continues without looking at it. *)
Fixpoint filter_msg (s : St) (err : option error) (msg : Msg) : res (option error) :=
  let filter_all := fix go (err : option error) (ms : list Msg) : res unit :=
    match ms with
    | [] => Ok tt
    | m :: ms' => let! err' := filter_msg s err m in go err' ms'
    end in
  match msg with
  | MsgEditValidator validator rate =>
      let! err := to_err (ProcessEditValidator s validator rate) in unauthorized err
  | MsgExec (Some messages) => let! err := to_err (filter_all None messages) in unauthorized err
  | MsgExec None => unauthorized err
  | MsgRecvPacket false _ => Ok (Some (Errorf "invalid packet data"))
  | MsgRecvPacket true None => Ok None
  | MsgRecvPacket true (Some (Some messages)) =>
      let! err := to_err (filter_all None messages) in unauthorized err
  | MsgRecvPacket true (Some None) => Ok None
  | _ => Ok err
  end.

Definition FilterMsgsAndProcessMsgs (s : St) (msgs : list Msg) : res unit :=
  let! _ := rfold (filter_msg s) None msgs in Ok tt.

Definition dyncomm_AnteHandle (s : St) (simulate : bool) (msgs : list Msg) : res unit :=
  if simulate then Ok tt else FilterMsgsAndProcessMsgs s msgs.

(** ** The post decorator ([post/post.go]) *)

Definition post_msg (msg : Msg) : DM unit :=
  match msg with
  | MsgEditValidator validator (Some rate) => modify (SetTargetCommissionRate validator rate)
  | MsgCreateValidator validator rate => modify (SetTargetCommissionRate validator rate)
  | _ => ret tt
  end.
Definition dyncomm_PostHandle (simulate check_tx : bool) (msgs : list Msg) : DM unit :=
  if simulate then ret tt else if check_tx then ret tt else mfor msgs post_msg.
End Keeper.
End Dyncomm.
