(* ===== verification/DyncommFacts.v ===== *)
(** * Facts about dynamic commissions

    The formula is total, bounded and monotone; the weekly update sets every bonded
    validator to the larger of its target and its minimum; edits below the
    minimum are refused at any nesting of messages. *)

From S2P Require Import Prelude Sdk SdkRef SdkFees Core OracleTypes OracleKeeper Market TreasuryTypes Treasury TaxExemption Tax TaxFacts TaxCharge TaxRef Ante AnteTax Dyncomm.

Module DyncommFacts.
Import Ante Dyncomm.

(** ** The formula *)

(** The voting power in percent, and the rate as a function of it. *)
Definition voting_power (power total : Z) : Z := power * P18 / total * 100.
Definition raw_rate `{SdkMath} (p : Params) (x : Z) : Z :=
  dec_round ((x - MaxZero p) * (dec_round (x * P18 * P18 / SlopeVpImpact p) + SlopeBase p)).
Definition dyn_rate `{SdkMath} (p : Params) (minRate x : Z) : Z :=
  Z.max minRate (Z.min (Cap p) (raw_rate p x / 100)).

Record params_ok (p : Params) : Prop := {
  max_zero_ok : 0 <= MaxZero p <= OneDec;
  slope_base_ok : 0 <= SlopeBase p < 2 ^ 128;
  slope_vp_ok : 0 < SlopeVpImpact p;
  cap_ok : 0 <= Cap p <= OneDec }.

Section Formula.
Context {SS : Type} `{HM : SdkMath, HS : DynStaking SS, !SdkMathLaws, !DynStakingLaws SS}.

(** Staking state in which powers are int64 and somebody has power. *)
Record staking_ok (s : SS) : Prop := {
  total_ok : 0 < GetLastTotalPower s < 2 ^ 63;
  reduction_ok : 0 < DPowerReduction s;
  min_ok : 0 <= MinCommissionRate s <= OneDec;
  tokens_ok v : v ∈ Validators s -> 0 <= Tokens v < 2 ^ 63 * DPowerReduction s }.

Definition power (s : SS) (v : Validator) : Z := Tokens v / DPowerReduction s.
Definition rate_of (p : Params) (s : SS) (v : Validator) : Z :=
  dyn_rate p (MinCommissionRate s) (voting_power (power s v) (GetLastTotalPower s)).

Lemma power_range s v : staking_ok s -> v ∈ Validators s -> 0 <= power s v < 2 ^ 63.
Proof using Type.
  intros Hs Hv. pose proof (tokens_ok s Hs v Hv). pose proof (reduction_ok s Hs). unfold power.
  split; [apply Z.div_pos; lia|apply Z.div_lt_upper_bound; lia].
Qed.

Lemma voting_power_range a t : 0 <= a < 2 ^ 63 -> 0 < t -> 0 <= voting_power a t < 2 ^ 131.
Proof using Type.
  intros Ha Ht. unfold voting_power. assert (0 <= a * P18 / t <= a * P18).
  { split; [apply Z.div_pos; [unfold P18|]; lia|].
    apply Z.div_le_upper_bound; [done|]. unfold P18. nia. }
  unfold P18 in *. lia.
Qed.

Lemma CalculateVotingPower_Ok s v : staking_ok s -> v ∈ Validators s ->
  CalculateVotingPower s v = Ok (voting_power (power s v) (GetLastTotalPower s)).
Proof using Type*.
  intros Hs Hv. destruct (total_ok s Hs) as [Ht1 Ht2]. pose proof (reduction_ok s Hs) as Hr.
  pose proof (tokens_ok s Hs v Hv) as Htok. pose proof (power_range s v Hs Hv) as Hp.
  pose proof (voting_power_range (power s v) (GetLastTotalPower s) Hp Ht1) as Hx.
  assert (forall z, 0 <= z < 2 ^ 63 -> Int_Int64 z = Ok z) as Hi.
  { intros z Hz. unfold Int_Int64, is_int64. destruct (Z.leb_spec (- 2 ^ 63) z), (Z.ltb_spec z (2 ^ 63));
      (done || lia). }
  unfold CalculateVotingPower. rewrite Hi by lia. cbn [rbind].
  rewrite TokensToPower_spec by lia. rewrite Z.quot_div_nonneg by lia.
  fold (power s v). rewrite Hi by done. cbn [rbind]. sdk_unfold.
  destruct (Z.eqb_spec (GetLastTotalPower s) 0); [lia|]. cbn [rbind]. sdk_unfold.
  unfold NewDec. rewrite Z.quot_div_nonneg by (unfold P18; lia). fold (voting_power (power s v) (GetLastTotalPower s)).
  apply dec_chk_small. lia.
Qed.

Lemma dec_round_abs z k : Z.abs z <= k * P18 -> Z.abs (dec_round z) <= k.
Proof using Type*.
  intros Hz. pose proof (dec_round_le_mul z k). pose proof (dec_round_ge_mul z (- k)). lia.
Qed.

(** The inner quotient and the formula stay far from the overflow bound. *)
Lemma quotient_range p x : params_ok p -> 0 <= x < 2 ^ 131 ->
  0 <= dec_round (x * P18 * P18 / SlopeVpImpact p) < 2 ^ 191.
Proof using Type*.
  intros Hp Hx. pose proof (slope_vp_ok p Hp). assert (0 < P18 < 2 ^ 60) as HP by done.
  assert (0 <= x * P18 * P18 / SlopeVpImpact p <= x * P18 * P18) as Hq.
  { assert (0 <= x * P18 * P18) by nia. split; [by apply Z.div_pos|].
    apply Z.div_le_upper_bound; [done|]. nia. }
  split; [apply dec_round_nonneg; lia|].
  assert (dec_round (x * P18 * P18 / SlopeVpImpact p) <= x * P18) by (apply dec_round_le_mul; lia).
  assert (x * P18 <= 2 ^ 131 * P18) by nia. assert (2 ^ 131 * P18 < 2 ^ 191) by done. lia.
Qed.

Lemma raw_range p x : params_ok p -> 0 <= x < 2 ^ 131 -> Z.abs (raw_rate p x) < 2 ^ 315.
Proof using Type*.
  intros Hp Hx. pose proof (quotient_range p x Hp Hx) as Hq. unfold raw_rate.
  set (q := dec_round (x * P18 * P18 / SlopeVpImpact p)) in *.
  pose proof (slope_base_ok p Hp). pose proof (max_zero_ok p Hp). unfold OneDec in *.
  assert (P18 < 2 ^ 60) by done.
  assert (Z.abs (x - MaxZero p) <= 2 ^ 131) by lia. assert (0 <= q + SlopeBase p <= 2 ^ 192) by lia.
  apply (Z.le_lt_trans _ (2 ^ 264)); [|done]. apply dec_round_abs.
  rewrite Z.abs_mul, (Z.abs_eq (q + _)) by lia.
  transitivity (2 ^ 131 * 2 ^ 192); [apply Z.mul_le_mono_nonneg; lia|].
  vm_compute. discriminate.
Qed.

(** The code computes the formula, and never panics. *)
Lemma CalculateDynCommission_Ok p s v : params_ok p -> staking_ok s -> v ∈ Validators s ->
  CalculateDynCommission p s v = Ok (rate_of p s v).
Proof using Type*.
  intros Hp Hs Hv. unfold CalculateDynCommission.
  pose proof (voting_power_range (power s v) (GetLastTotalPower s) (power_range s v Hs Hv)
    (proj1 (total_ok s Hs))) as Hx.
  rewrite CalculateVotingPower_Ok by done. unfold rate_of.
  set (x := voting_power (power s v) (GetLastTotalPower s)) in *.
  pose proof (quotient_range p x Hp Hx) as Hq. pose proof (raw_range p x Hp Hx) as Hraw.
  pose proof (slope_base_ok p Hp). pose proof (slope_vp_ok p Hp) as HC.
  pose proof (max_zero_ok p Hp). pose proof (cap_ok p Hp). pose proof (min_ok s Hs).
  unfold OneDec in *. assert (0 < P18 < 2 ^ 60) as HP by done.
  sdk_unfold. rewrite dec_chk_small by lia. cbn [rbind].
  sdk_unfold. rewrite dec_chk_small by lia. cbn [rbind].
  sdk_unfold. destruct (Z.eqb_spec (SlopeVpImpact p) 0); [lia|].
  rewrite Z.quot_div_nonneg by nia. rewrite dec_chk_small by lia. cbn [rbind].
  sdk_unfold. rewrite dec_chk_small by lia. cbn [rbind].
  sdk_unfold. rewrite dec_chk_small by lia. cbn [rbind].
  sdk_unfold. fold (raw_rate p x). rewrite dec_chk_small by done. cbn [rbind].
  sdk_unfold. cbn [Z.eqb]. f_equal. unfold dyn_rate. set (y := raw_rate p x).
  destruct (Z.ltb_spec (Cap p * 100) y);
    match goal with |- context [?a <? ?b] => destruct (Z.ltb_spec a b) end;
    rewrite Z.quot_div_nonneg by lia; zlia.
Qed.

(** ** Its shape *)

Lemma dyn_rate_bounds p m x : m <= dyn_rate p m x <= Z.max m (Cap p).
Proof using Type. unfold dyn_rate. lia. Qed.

Lemma raw_rate_below p x : params_ok p -> 0 <= x <= MaxZero p -> raw_rate p x <= 0.
Proof using Type*.
  intros Hp Hx. pose proof (max_zero_ok p Hp). assert (P18 < 2 ^ 60) by done. unfold OneDec in *.
  pose proof (quotient_range p x Hp ltac:(lia)). pose proof (slope_base_ok p Hp).
  unfold raw_rate. apply dec_round_le_mul. nia.
Qed.

Lemma dyn_rate_mono p m x y : params_ok p -> 0 <= m -> 0 <= x <= y -> y < 2 ^ 131 ->
  dyn_rate p m x <= dyn_rate p m y.
Proof using Type*.
  intros Hp Hm Hxy Hy. unfold dyn_rate. destruct (decide (x <= MaxZero p)) as [Hle|Hgt].
  - pose proof (raw_rate_below p x Hp ltac:(lia)). pose proof (cap_ok p Hp).
    assert (raw_rate p x / 100 <= 0) by (apply Z.div_le_upper_bound; lia). lia.
  - assert (raw_rate p x <= raw_rate p y) as Hr; [|pose proof (Z.div_le_mono _ _ 100 ltac:(done) Hr); lia].
    pose proof (quotient_range p x Hp ltac:(lia)) as Hqx. pose proof (slope_base_ok p Hp).
    pose proof (slope_vp_ok p Hp). unfold raw_rate.
    assert (dec_round (x * P18 * P18 / SlopeVpImpact p) <= dec_round (y * P18 * P18 / SlopeVpImpact p)) as Hq.
    { apply dec_round_mono, Z.div_le_mono; [done|]. unfold P18. lia. }
    apply dec_round_mono. apply Z.mul_le_mono_nonneg; lia.
Qed.

Lemma voting_power_mono a b t : 0 <= a <= b -> 0 < t -> voting_power a t <= voting_power b t.
Proof using Type.
  intros Hab Ht. unfold voting_power. pose proof (Z.div_le_mono (a * P18) (b * P18) t Ht).
  unfold P18 in *. lia.
Qed.

(** The dynamic commission is computed without a panic from sane parameters,
    lies between the staking module's minimum and the larger of that and the
    cap, is the minimum for validators with at most [MaxZero] percent of the
    power, and never falls when a validator has more tokens. *)
Theorem dyn_commission p s v w : params_ok p -> staking_ok s ->
  v ∈ Validators s -> w ∈ Validators s -> Tokens v <= Tokens w ->
  exists rv rw,
    CalculateDynCommission p s v = Ok rv /\ CalculateDynCommission p s w = Ok rw /\
    rv <= rw /\
    MinCommissionRate s <= rv <= Z.max (MinCommissionRate s) (Cap p) /\
    (voting_power (power s v) (GetLastTotalPower s) <= MaxZero p -> rv = MinCommissionRate s).
Proof using Type*.
  intros Hp Hs Hv Hw Hle. exists (rate_of p s v), (rate_of p s w).
  pose proof (reduction_ok s Hs) as Hr. destruct (total_ok s Hs) as [Ht _].
  pose proof (power_range s v Hs Hv) as Pv. pose proof (power_range s w Hs Hw) as Pw.
  pose proof (voting_power_range _ _ Pv Ht) as Xv. pose proof (voting_power_range _ _ Pw Ht) as Xw.
  pose proof (min_ok s Hs). split_and!; try by apply CalculateDynCommission_Ok.
  - apply dyn_rate_mono; [done|lia| |lia]. split; [lia|]. apply voting_power_mono; [|done].
    split; [lia|]. by apply Z.div_le_mono.
  - apply dyn_rate_bounds.
  - apply dyn_rate_bounds.
  - intros Hz. unfold rate_of, dyn_rate. pose proof (cap_ok p Hp).
    pose proof (raw_rate_below p _ Hp (conj (proj1 Xv) Hz)).
    assert (raw_rate p (voting_power (power s v) (GetLastTotalPower s)) / 100 <= 0)
      by (apply Z.div_le_upper_bound; lia). lia.
Qed.

(** ** The weekly update *)

Section Epoch.
Variable (s0 : State SS).
Hypothesis (Hparams : params_ok (params s0)) (Hstaking : staking_ok (staking s0)).
Abbreviation vs := (Validators (staking s0)).

Definition new_rate (v : Validator) : Dec := rate_of (params s0) (staking s0) v.

(** A bonded validator after the update. *)
Definition updated (v : Validator) : Validator :=
  if Bonded v then
    mkValidator (OperatorAddress v) (Tokens v) true
      (mkCommission (Z.max (GetTargetCommissionRate s0 (OperatorAddress v)) (new_rate v))
         (Z.max (MaxRate (VCommission v)) (new_rate v))
         (MaxChangeRate (VCommission v)) (UpdateTime (VCommission v)))
  else v.

(** The stored minimum after the validators [l] have been visited. *)
Definition new_min (l : list Validator) (op : string) : Dec :=
  match List.find (fun v => Bonded v && String.eqb (OperatorAddress v) op) l with
  | Some v => new_rate v
  | None => GetDynCommissionRate s0 op
  end.

Record visited (l rest : list Validator) (s : State SS) : Prop := {
  v_params : params s = params s0;
  v_min : MinCommissionRate (staking s) = MinCommissionRate (staking s0);
  v_total : GetLastTotalPower (staking s) = GetLastTotalPower (staking s0);
  v_red : DPowerReduction (staking s) = DPowerReduction (staking s0);
  v_vals : Validators (staking s) = (updated <$> l) ++ rest;
  v_target op : GetTargetCommissionRate s op = GetTargetCommissionRate s0 op;
  v_dyn op : GetDynCommissionRate s op = new_min l op }.

Lemma updated_op v : OperatorAddress (updated v) = OperatorAddress v.
Proof using Type. unfold updated. by destruct (Bonded v). Qed.

Lemma new_min_app l v op : OperatorAddress v ∉ OperatorAddress <$> l ->
  new_min (l ++ [v]) op =
  if Bonded v && String.eqb (OperatorAddress v) op then new_rate v else new_min l op.
Proof using Type.
  intros Hv. unfold new_min. induction l as [|w l IH]; simpl.
  - by destruct (_ && _).
  - rewrite fmap_cons, not_elem_of_cons in Hv. destruct Hv as [Hne Hv].
    destruct (Bonded w && String.eqb (OperatorAddress w) op) eqn:Ew; [|by apply IH].
    apply andb_true_iff in Ew as [_ Ew%String.eqb_eq]. subst op.
    destruct (String.eqb_spec (OperatorAddress v) (OperatorAddress w)); [congruence|].
    by rewrite andb_false_r.
Qed.

(** Replacing one validator of the list. *)
Lemma replace_one l v rest v' : NoDup (OperatorAddress <$> (l ++ v :: rest)) ->
  OperatorAddress v' = OperatorAddress v ->
  (fun w => if decide (OperatorAddress w = OperatorAddress v') then v' else w) <$>
    ((updated <$> l) ++ v :: rest) = (updated <$> l) ++ v' :: rest.
Proof using Type.
  intros Hnd Hop. rewrite fmap_app, fmap_cons in Hnd. apply NoDup_app in Hnd as (_ & Hdis & Hnd).
  apply NoDup_cons in Hnd as [Hv _]. rewrite fmap_app, fmap_cons, Hop, decide_True by done.
  f_equal; [|f_equal].
  - rewrite <- (list_fmap_id (updated <$> l)) at 2. apply list_fmap_ext. intros i w Hw.
    rewrite decide_False; [done|]. intros E. apply list_elem_of_lookup_2, list_elem_of_fmap in Hw as (u & -> & Hu).
    rewrite updated_op in E. apply (Hdis (OperatorAddress u)); [apply list_elem_of_fmap; by exists u|].
    rewrite E. left.
  - rewrite <- (list_fmap_id rest) at 2. apply list_fmap_ext. intros i w Hw.
    rewrite decide_False; [done|]. intros E. apply Hv. rewrite <- E. apply list_elem_of_fmap.
    exists w. split; [done|]. by apply list_elem_of_lookup_2 in Hw.
Qed.

Lemma visit_one l v rest s : vs = l ++ v :: rest -> visited l (v :: rest) s ->
  exists s', (if negb (Bonded v) then ret tt else UpdateValidatorMinRates v) s = Ret tt s' /\
    visited (l ++ [v]) rest s'.
Proof using All.
  intros Hvs [Hp Hm Ht Hr Hv Htg Hd].
  assert (OperatorAddress v ∉ OperatorAddress <$> l) as Hni.
  { pose proof (Validators_NoDup (staking s0)) as Hnd. rewrite Hvs, fmap_app, fmap_cons in Hnd.
    apply NoDup_app in Hnd as (_ & Hdis & _). intros Hin. apply (Hdis _ Hin). left. }
  destruct (Bonded v) eqn:Eb; simpl.
  - assert (CalculateDynCommission (params s) (staking s) v = Ok (new_rate v)) as Hc.
    { trans (CalculateDynCommission (params s0) (staking s0) v).
      - unfold CalculateDynCommission, CalculateVotingPower. by rewrite Hp, Hm, Ht, Hr.
      - apply CalculateDynCommission_Ok; [done|done|].
        rewrite Hvs. apply elem_of_app. right. left. }
    unfold UpdateValidatorMinRates. eexists. split.
    { unfold bind, gets, lift, modify. change (id s) with s. rewrite Hc. reflexivity. }
    set (v' := mkValidator _ _ _ _).
    assert (v' = updated v) as Ev'.
    { unfold v', updated. rewrite Eb, Htg. do 2 f_equal;
        match goal with |- context [?a <? ?b] => destruct (Z.ltb_spec a b) end; lia. }
    split; simpl; [done|by rewrite MinCommissionRate_set|by rewrite GetLastTotalPower_set|
      by rewrite DPowerReduction_set| | |].
    + rewrite Validators_set; rewrite Hv.
      * rewrite Ev', replace_one, fmap_app, <- app_assoc; [done| |apply updated_op].
        rewrite <- Hvs. apply Validators_NoDup.
      * rewrite fmap_app. apply elem_of_app. right. rewrite fmap_cons. left.
    + intros op. rewrite <- Htg. unfold GetTargetCommissionRate. simpl.
      destruct (decide (OperatorAddress v = op)) as [<-|]; [by rewrite lookup_insert_eq|].
      by rewrite lookup_insert_ne.
    + intros op. rewrite new_min_app by done. rewrite Eb. simpl. rewrite <- Hd.
      unfold GetDynCommissionRate. simpl. destruct (String.eqb_spec (OperatorAddress v) op) as [<-|].
      * by rewrite lookup_insert_eq.
      * by rewrite lookup_insert_ne.
  - exists s. split; [done|]. split; try done.
    + rewrite Hv, fmap_app, <- app_assoc. simpl. unfold updated at 3. by rewrite Eb.
    + intros op. rewrite new_min_app, Eb by done. apply Hd.
Qed.

Lemma visit_all rest : forall l s, vs = l ++ rest -> visited l rest s ->
  exists s', mfor rest (fun v => if negb (Bonded v) then ret tt else UpdateValidatorMinRates v) s =
    Ret tt s' /\ visited vs [] s'.
Proof using All.
  induction rest as [|v rest IH]; intros l s Hvs Hs.
  - exists s. split; [done|]. by rewrite Hvs, app_nil_r in *.
  - destruct (visit_one l v rest s Hvs Hs) as (s1 & R1 & H1). cbn [mfor]. unfold bind. rewrite R1.
    apply (IH (l ++ [v])); [by rewrite <- app_assoc|done].
Qed.

Lemma UpdateAll_Ok : exists s', UpdateAllBondedValidatorRates s0 = Ret tt s' /\ visited vs [] s'.
Proof using All. unfold UpdateAllBondedValidatorRates, bind, gets. by apply (visit_all vs []). Qed.
End Epoch.

Lemma new_min_elem s v : v ∈ Validators (staking s) -> Bonded v = true ->
  new_min s (Validators (staking s)) (OperatorAddress v) = new_rate s v.
Proof using Type*.
  intros Hv Hb. unfold new_min. pose proof (Validators_NoDup (staking s)) as Hnd.
  induction (Validators (staking s)) as [|w l IH]; [by apply not_elem_of_nil in Hv|]. simpl.
  rewrite fmap_cons in Hnd. apply NoDup_cons in Hnd as [Hw Hnd].
  apply elem_of_cons in Hv as [<-|Hv]; [by rewrite Hb, String.eqb_refl|].
  destruct (String.eqb_spec (OperatorAddress w) (OperatorAddress v)) as [E|_].
  - exfalso. apply Hw. rewrite E. apply list_elem_of_fmap. by exists v.
  - rewrite andb_false_r. by apply IH.
Qed.

(** C9. In the last block of a week every bonded validator gets the commission it
    asked for, raised to its dynamic minimum where it is lower, with the maximal
    rate raised along; the minimum is stored, the targets and the validators that
    are not bonded stay as they are.  The update never fails. *)
Theorem epoch_commissions ctx s : IsPeriodLastBlock ctx BlocksPerWeek = Ok true ->
  params_ok (params s) -> staking_ok (staking s) ->
  exists s', EndBlocker ctx s = Ret tt s' /\
    Validators (staking s') = updated s <$> Validators (staking s) /\
    (forall op, GetTargetCommissionRate s' op = GetTargetCommissionRate s op) /\
    (forall v, v ∈ Validators (staking s) -> Bonded v = true ->
       GetDynCommissionRate s' (OperatorAddress v) = rate_of (params s) (staking s) v).
Proof using Type*.
  intros Hl Hp Hs. unfold EndBlocker, bind, lift. rewrite Hl. simpl.
  destruct (UpdateAll_Ok s Hp Hs) as (s' & R & Hv). exists s'. split_and!; [done|..].
  - by rewrite (v_vals _ _ _ _ Hv), app_nil_r.
  - apply (v_target _ _ _ _ Hv).
  - intros v Hin Hb. rewrite (v_dyn _ _ _ _ Hv). by apply new_min_elem.
Qed.
End Formula.

(** ** Edits *)

(** The commission rates a message asks for, at any depth. *)
Fixpoint edits (m : Msg) : list (string * Dec) :=
  match m with
  | MsgEditValidator v (Some r) => [(v, r)]
  | MsgExec (Some ms) => concat (map edits ms)
  | MsgRecvPacket true (Some (Some ms)) => concat (map edits ms)
  | _ => []
  end.
(** All inner messages can be unpacked. *)
Fixpoint decodable (m : Msg) : bool :=
  match m with
  | MsgExec None => false
  | MsgExec (Some ms) => forallb decodable ms
  | MsgRecvPacket true (Some (Some ms)) => forallb decodable ms
  | _ => true
  end.

Section Edits.
Context {SS : Type} `{HM : SdkMath, HS : DynStaking SS}.
Variable (s : State SS).
Definition fine (e : string * Dec) : Prop := GetDynCommissionRate s e.1 <= e.2.

Definition sound (m : Msg) : Prop :=
  (forall err r, filter_msg s err m = Ok r -> Forall fine (edits m)) /\
  (Forall fine (edits m) -> decodable m = true -> forall err, exists r, filter_msg s err m = Ok r).

Lemma filter_all_loop ms err :
  (fix go (err : option error) (ms : list Msg) : res unit :=
    match ms with
    | [] => Ok tt
    | m :: ms' => let! err' := filter_msg s err m in go err' ms'
    end) err ms = (let! _ := rfold (filter_msg s) err ms in Ok tt).
Proof using Type.
  revert err. induction ms as [|m ms IH]; intros err; [done|]. simpl.
  destruct (filter_msg s err m); simpl; [apply IH|done|done].
Qed.

Lemma sound_list ms : Forall sound ms ->
  (forall err r, rfold (filter_msg s) err ms = Ok r -> Forall fine (ms ≫= edits)) /\
  (Forall fine (ms ≫= edits) -> forallb decodable ms = true ->
   forall err, exists r, rfold (filter_msg s) err ms = Ok r).
Proof using Type.
  induction 1 as [|m ms [Hm1 Hm2] _ [IH1 IH2]]; [split; [constructor|by eexists]|].
  rewrite bind_cons. split.
  - intros err r (err' & R1 & R)%rbind_Ok. apply Forall_app. split; [by eapply Hm1|by eapply IH1].
  - intros [F1 F2]%Forall_app [D1 D2]%andb_true_iff err. destruct (Hm2 F1 D1 err) as [r1 R1]. simpl. rewrite R1.
    by apply IH2.
Qed.

(** A list of inner messages, as both kinds of wrapper treat it. *)
Lemma sound_inner ms : Forall sound ms ->
  let run := let! err := to_err (let! _ := rfold (filter_msg s) None ms in Ok tt) in unauthorized err in
  (forall r, run = Ok r -> Forall fine (ms ≫= edits)) /\
  (Forall fine (ms ≫= edits) -> forallb decodable ms = true -> exists r, run = Ok r).
Proof using Type.
  intros [H1 H2]%sound_list. simpl. split.
  - intros r R. destruct (rfold (filter_msg s) None ms) as [r'| |] eqn:E; [|done..]. by eapply H1.
  - intros F D. destruct (H2 F D None) as [r' ->]. by eexists.
Qed.

Lemma edits_inner ms : concat (map edits ms) = ms ≫= edits.
Proof using Type. induction ms as [|m ms IH]; [done|]. simpl. by rewrite IH. Qed.

Lemma sound_all m : sound m.
Proof using Type.
  induction m as [m IH] using AnteTax.Msg_nested_ind.
  destruct m as [| | | | | |[ms|]| | |v [rate|]| |[|] [[ms|]|]| | |];
    simpl in IH; try (split; simpl; [by constructor|intros; eexists; reflexivity]).
  - apply sound_inner in IH as [I1 I2]. unfold sound. simpl. rewrite edits_inner, filter_all_loop.
    split; [intros _; exact I1|intros F D _; by apply I2].
  - split; simpl; [constructor|done].
  - split; simpl; unfold fine.
    + intros err r. destruct (Z.ltb_spec rate (GetDynCommissionRate s v)); simpl; [done|].
      intros _. constructor; [done|constructor].
    + intros [F _]%Forall_cons _ err. simpl in F.
      destruct (Z.ltb_spec rate (GetDynCommissionRate s v)); [lia|by eexists].
  - apply sound_inner in IH as [I1 I2]. unfold sound. simpl. rewrite edits_inner, filter_all_loop.
    split; [intros _; exact I1|intros F D _; by apply I2].
Qed.

Lemma accepted_edits msgs : dyncomm_AnteHandle s false msgs = Ok tt -> Forall fine (msgs ≫= edits).
Proof using Type.
  assert (Forall sound msgs) as [I1 _]%sound_list by (apply Forall_forall; intros; apply sound_all).
  unfold dyncomm_AnteHandle, FilterMsgsAndProcessMsgs. intros (r & R & _)%rbind_Ok. by eapply I1.
Qed.

(** The ante handler accepts exactly the commission changes that respect the
    dynamic minimum, however deeply authorized executions and interchain-account
    packets wrap them: what it accepts respects the minimum, and transactions
    that respect it and can be unpacked are accepted. *)
Theorem edits_respect_minimum msgs :
  (dyncomm_AnteHandle s false msgs = Ok tt -> Forall fine (msgs ≫= edits)) /\
  (Forall fine (msgs ≫= edits) -> forallb decodable msgs = true ->
   dyncomm_AnteHandle s false msgs = Ok tt).
Proof using Type.
  split; [apply accepted_edits|]. intros F D.
  assert (Forall sound msgs) as [_ I2]%sound_list by (apply Forall_forall; intros; apply sound_all).
  unfold dyncomm_AnteHandle, FilterMsgsAndProcessMsgs. destruct (I2 F D None) as [r ->]. done.
Qed.
End Edits.
End DyncommFacts.
