(* ===== verification/DyncommRef.v ===== *)
(** * Dynamic commissions on a concrete validator set

    Reference staking state, the witnesses, and two runs that lose a
    validator's choice of commission. *)

From S2P Require Import Prelude Sdk SdkRef SdkFees Core OracleTypes OracleKeeper Market TreasuryTypes Treasury TaxExemption Tax TaxFacts TaxCharge TaxRef Ante AnteTax Dyncomm DyncommFacts.

Module DyncommRef.
Import Ref Ante Dyncomm DyncommFacts.

Record RefStakers := mkStakers { stakers : list Validator; total_power : Int; min_commission : Dec }.

Definition replace (v w : Validator) : Validator :=
  if decide (OperatorAddress w = OperatorAddress v) then v else w.

#[export] Instance ref_dyn_staking : DynStaking RefStakers := {|
  MinCommissionRate := min_commission;
  GetLastTotalPower := total_power;
  DPowerReduction _ := 1000000;
  Validators s := if decide (NoDup (OperatorAddress <$> stakers s)) then stakers s else [];
  SetValidator v s := mkStakers (replace v <$> stakers s) (total_power s) (min_commission s);
  TokensToPower t r := if r =? 0 then Panic else Int_Int64 (Z.quot t r) |}.

Lemma replace_ops v (l : list Validator) : OperatorAddress <$> (replace v <$> l) = OperatorAddress <$> l.
Proof.
  rewrite <- list_fmap_compose. apply list_fmap_ext. intros i w _. unfold compose, replace.
  by destruct (decide _).
Qed.

#[export] Instance ref_dyn_staking_laws : DynStakingLaws RefStakers.
Proof.
  split; try done.
  - intros s. simpl. destruct (decide _); [done|constructor].
  - intros v s. simpl. destruct (decide (NoDup (OperatorAddress <$> stakers s))) as [Hnd|Hnd].
    + intros _. by rewrite replace_ops, decide_True.
    + intros Hin. by apply not_elem_of_nil in Hin.
  - intros t r Hr. simpl. by destruct (Z.eqb_spec r 0).
Qed.

(** ** A validator set *)

Definition pct (n : Z) : Dec := NewDecWithPrec n 2.
Definition big : Validator :=
  mkValidator "big" (300000 * 1000000) true (mkCommission (pct 10) (pct 50) (pct 5) 0).
Definition small : Validator :=
  mkValidator "small" (2000 * 1000000) true (mkCommission (pct 7) (pct 20) (pct 1) 0).
Definition idle : Validator :=
  mkValidator "idle" (900000 * 1000000) false (mkCommission 0 (pct 20) (pct 1) 0).
Definition demo_stakers : RefStakers := mkStakers [big; small; idle] 1000000 (pct 5).
Definition demo : State RefStakers := mkState
  {[ "big" := mkRates "big" 0 (pct 10); "small" := mkRates "small" 0 (pct 7) ]} DefaultParams demo_stakers.

Lemma demo_params : params_ok DefaultParams.
Proof. split; vm_compute; intuition discriminate. Qed.
Lemma demo_validators : Validators demo_stakers = [big; small; idle].
Proof. by vm_compute. Qed.
Lemma demo_staking : staking_ok demo_stakers.
Proof.
  split; [by vm_compute|by vm_compute|vm_compute; intuition discriminate|].
  intros v Hv. rewrite demo_validators in Hv. rewrite !elem_of_cons in Hv.
  destruct Hv as [->|[->|[->|Hv]]]; [vm_compute; intuition discriminate..|].
  exfalso. revert Hv. apply not_elem_of_nil.
Qed.
Lemma demo_elem : small ∈ Validators demo_stakers /\ big ∈ Validators demo_stakers.
Proof. rewrite demo_validators. split; [right; left|left]. Qed.

Lemma dyn_commission_witness :
  CalculateDynCommission DefaultParams demo_stakers small = Ok (pct 5) /\
  CalculateDynCommission DefaultParams demo_stakers big = Ok (pct 20).
Proof.
  destruct (dyn_commission DefaultParams demo_stakers small big) as (rs & rb & E1 & E2 & _);
    [apply demo_params|apply demo_staking|apply demo_elem|apply demo_elem|by vm_compute|].
  split; [rewrite E1, <- E1|rewrite E2, <- E2]; by vm_compute.
Defined.

Definition week_end : Ctx := mkCtx (BlocksPerWeek - 1) 0 "columbus-5".
Definition epoch_after : State RefStakers := final (EndBlocker week_end demo) demo.

Lemma epoch_commissions_witness :
  (Rate ∘ VCommission) <$> Validators (staking epoch_after) = [pct 20; pct 7; 0].
Proof.
  destruct (epoch_commissions week_end demo) as (s' & R & Hv & _);
    [by vm_compute|apply demo_params|apply demo_staking|].
  assert (epoch_after = s') as -> by (unfold epoch_after; by rewrite R).
  rewrite Hv. by vm_compute.
Defined.

(** ** Choices that are lost *)

(** A commission change wrapped in an authorized execution passes the ante
    handler and is carried out by the staking module, but the post handler does
    not look inside the execution: the target stays at the old rate, and the next
    weekly update puts the old rate back. *)
Definition raise_to : Dec := pct 12.
Definition wrapped : list Msg := [MsgExec (Some [MsgEditValidator "small" (Some raise_to)])].
Definition plain : list Msg := [MsgEditValidator "small" (Some raise_to)].
(** the staking module's part of the edit *)
Definition edited : State RefStakers := mkState (rates demo) (params demo)
  (SetValidator (mkValidator "small" (Tokens small) true (mkCommission raise_to (pct 20) (pct 1) 0))
     (staking demo)).
Definition commission_after_week (msgs : list Msg) : option Dec :=
  match (do* dyncomm_PostHandle false false msgs in EndBlocker week_end) edited with
  | Ret _ s => (Rate ∘ VCommission) <$> List.find (fun v => String.eqb (OperatorAddress v) "small")
                 (Validators (staking s))
  | _ => None
  end.

Lemma edits_respect_minimum_witness : dyncomm_AnteHandle demo false wrapped = Ok tt.
Proof.
  apply (proj2 (edits_respect_minimum demo wrapped)); [|done].
  constructor; [vm_compute; discriminate|constructor].
Defined.

Example wrapped_edit_forgotten :
  dyncomm_AnteHandle demo false wrapped = Ok tt /\
  commission_after_week plain = Some raise_to /\ commission_after_week wrapped = Some (pct 7).
Proof. split_and!; by vm_compute. Qed.

(** An exported genesis carries the target rates, but importing it takes the
    current commissions for targets: a validator that was raised to its minimum
    keeps the raised rate as its target. *)
Definition reimported : State RefStakers :=
  final (InitGenesis (ExportGenesis epoch_after) (mkState ∅ DefaultParams (staking epoch_after)))
    (mkState ∅ DefaultParams (staking epoch_after)).

Example genesis_loses_targets :
  (mkRates "big" (pct 20) (pct 10) ∈ ValidatorCommissionRates (ExportGenesis epoch_after)) /\
  GetTargetCommissionRate epoch_after "big" = pct 10 /\
  GetTargetCommissionRate reimported "big" = pct 20.
Proof.
  split_and!; [|by vm_compute..].
  assert (ValidatorCommissionRates (ExportGenesis epoch_after) =
    [mkRates "big" (pct 20) (pct 10); mkRates "small" (pct 5) (pct 7)]) as -> by (by vm_compute). left.
Qed.
End DyncommRef.
