(* ===== verification/Vesting.v ===== *)
(** * Lazy graded vesting accounts ([x/vesting])

    Vesting schedules, the coins vested at a time, and the validity check of an
    account.  The base vesting account of the SDK is a parameter. *)

From S2P Require Import Prelude Sdk SdkRef SdkFees.

Module Vesting.

(** ** Schedules ([types/schedule.go]) *)

(** Times are int64 Unix seconds. *)
Record Schedule := mkSchedule { StartTime : Z; EndTime : Z; Ratio : Dec }.
Record VestingSchedule := mkVestingSchedule { VDenom : string; Schedules : list Schedule }.

Definition Schedule_Validate (s : Schedule) : res unit :=
  if StartTime s <? 0 then Err (Errorf "vesting start-time cannot be negative")
  else if EndTime s <? StartTime s
  then Err (Errorf "vesting start-time cannot be before end-time")
  else if Ratio s <=? 0
  then Err (Errorf "vesting ratio cannot be smaller than or equal with zero")
  else Ok tt.

Section Schedules.
Context `{SdkMath}.

(** [RoundInt64]: the rounded decimal must be an int64. *)
Definition Dec_RoundInt64 (d : Dec) : res Z := let! i := Dec_RoundInt d in Int_Int64 i.

(** The part of one schedule that has vested. *)
Definition schedule_ratio (blockTime : Z) (s : Schedule) : res (option Dec) :=
  if blockTime <? StartTime s then Ok None
  else if blockTime <? EndTime s then
    let! m := Dec_MulInt64 (Ratio s) (int64 (blockTime - StartTime s)) in
    let! r := Dec_QuoInt64 m (int64 (EndTime s - StartTime s)) in
    Ok (Some r)
  else Ok (Some (Ratio s)).

Definition GetVestedRatio (vs : VestingSchedule) (blockTime : Z) : res Dec :=
  rfold (fun sumRatio s =>
    let! r := schedule_ratio blockTime s in
    match r with None => Ok sumRatio | Some ratio => Dec_Add sumRatio ratio end)
    ZeroDec (Schedules vs).

Definition fixedPointDecimals : Z := 1000000000.

Definition VestingSchedule_Validate (vs : VestingSchedule) : res unit :=
  let! sumRatio := rfold (fun sumRatio s =>
    let! _ := Schedule_Validate s in Dec_Add sumRatio (Ratio s)) ZeroDec (Schedules vs) in
  let! m := Dec_MulInt64 sumRatio fixedPointDecimals in
  let! i := Dec_RoundInt64 m in
  let! q := Dec_QuoInt64 (NewDec i) fixedPointDecimals in
  if negb (q =? OneDec) then Err (Errorf "vesting total ratio must be one") else Ok tt.
End Schedules.

(** ** Accounts ([types/vesting_account.go]) *)

(** [vesttypes.BaseVestingAccount] *)
Class BaseVesting (A : Type) := {
  OriginalVesting : A -> Coins;
  LockedCoinsFromVesting : A -> Coins -> Coins;
  BaseTrackDelegation : Coins -> Coins -> Coins -> A -> res A;
  BaseValidate : A -> res unit;
}.

Record Account (A : Type) := mkAccount { base : A; VestingSchedules : list VestingSchedule }.
Arguments mkAccount {A} _ _.
Arguments base {A} _.
Arguments VestingSchedules {A} _.

Section Accounts.
Context {A : Type} `{SdkMath, SdkCoins, BaseVesting A}.

Definition GetVestingSchedule (a : Account A) (denom : string) : option VestingSchedule :=
  List.find (fun vs => String.eqb (VDenom vs) denom) (VestingSchedules a).

Definition GetVestedCoins (a : Account A) (blockTime : Z) : res Coins :=
  rfold (fun vestedCoins ovc =>
    match GetVestingSchedule a (Denom ovc) with
    | Some vestingSchedule =>
        let! vestedRatio := GetVestedRatio vestingSchedule blockTime in
        let! m := Dec_Mul (NewDec (Amount ovc)) vestedRatio in
        let! vestedAmt := Dec_RoundInt m in
        if vestedAmt =? 0 then Ok vestedCoins
        else let! c := NewCoin (Denom ovc) vestedAmt in Ok (vestedCoins ++ [c])
    | None => let! c := NewCoin (Denom ovc) (Amount ovc) in Ok (vestedCoins ++ [c])
    end) [] (OriginalVesting (base a)).

Definition GetVestingCoins (a : Account A) (blockTime : Z) : res Coins :=
  let! vested := GetVestedCoins a blockTime in Coins_Sub (OriginalVesting (base a)) vested.
Definition LockedCoins (a : Account A) (blockTime : Z) : res Coins :=
  let! vesting := GetVestingCoins a blockTime in Ok (LockedCoinsFromVesting (base a) vesting).
Definition TrackDelegation (a : Account A) (blockTime : Z) (balance amount : Coins)
    : res (Account A) :=
  let! vesting := GetVestingCoins a blockTime in
  let! b := BaseTrackDelegation balance vesting amount (base a) in
  Ok (mkAccount b (VestingSchedules a)).
Definition GetStartTime (a : Account A) : Z := 0.
Definition GetEndTime (a : Account A) : Z := 0.

Definition Validate (a : Account A) : res unit :=
  let! _ := rfold (fun denomMap vs =>
    if decide (VDenom vs ∈ denomMap) then Err (Errorf "cannot have multiple vesting schedules")
    else let! _ := VestingSchedule_Validate vs in Ok ({[ VDenom vs ]} ∪ denomMap : gset string))
    (∅ : gset string) (VestingSchedules a) in
  BaseValidate (base a).
End Accounts.
End Vesting.
