(* ===== verification/VestingFacts.v ===== *)
(** * Facts about vesting

    For the accounts that pass validation: the vested coins can be computed at
    every time and never shrink, and with the vesting coins they add up to the
    original ones, or else the vesting coins panic, which takes ratios that add up
    to more than one through the rounding of the check. *)

From S2P Require Import Prelude Sdk SdkRef SdkFees Core OracleTypes Market TreasuryTypes Treasury TaxExemption Tax TaxFacts Vesting.

Module VestingFacts.
Import Vesting TaxFacts.

(** ** Ratios *)

(** What of a schedule has vested at a time. *)
Definition vested_part (t : Z) (s : Schedule) : Z :=
  if t <? StartTime s then 0
  else if t <? EndTime s then Ratio s * (t - StartTime s) / (EndTime s - StartTime s)
  else Ratio s.
Definition vested_ratio (vs : VestingSchedule) (t : Z) : Z := zsum (vested_part t) (Schedules vs).

Definition schedule_ok (s : Schedule) : Prop :=
  0 <= StartTime s <= EndTime s /\ EndTime s < 2 ^ 63 /\ 0 < Ratio s.
(** Schedules whose ratios add up to one, up to half of the ninth digit: what
    validation accepts. *)
Definition half_unit : Z := 500000000.
Definition schedules_ok (vs : VestingSchedule) : Prop :=
  Forall schedule_ok (Schedules vs) /\ Z.abs (zsum Ratio (Schedules vs) - OneDec) <= half_unit.

Lemma vested_part_bounds t s : schedule_ok s -> 0 <= vested_part t s <= Ratio s.
Proof.
  intros (? & ? & ?). unfold vested_part. destruct (Z.ltb_spec t (StartTime s)); [lia|].
  destruct (Z.ltb_spec t (EndTime s)); [|lia]. split.
  - apply Z.div_pos; [nia|lia].
  - apply Z.div_le_upper_bound; [lia|]. nia.
Qed.

Lemma vested_part_mono t1 t2 s : schedule_ok s -> t1 <= t2 -> vested_part t1 s <= vested_part t2 s.
Proof.
  intros Hs Ht. pose proof (vested_part_bounds t1 s Hs). pose proof (vested_part_bounds t2 s Hs).
  destruct Hs as (? & ? & ?). unfold vested_part in *.
  destruct (Z.ltb_spec t1 (StartTime s)); [lia|]. destruct (Z.ltb_spec t2 (StartTime s)); [lia|].
  destruct (Z.ltb_spec t2 (EndTime s)); [|destruct (Z.ltb_spec t1 (EndTime s)); lia].
  destruct (Z.ltb_spec t1 (EndTime s)); [|lia]. apply Z.div_le_mono; [lia|nia].
Qed.

Lemma vested_ratio_bounds vs t : schedules_ok vs ->
  0 <= vested_ratio vs t <= zsum Ratio (Schedules vs) /\ vested_ratio vs t <= OneDec + half_unit.
Proof.
  intros [Hs Hsum]. enough (0 <= vested_ratio vs t <= zsum Ratio (Schedules vs)) by lia.
  unfold vested_ratio. split.
  - apply zsum_nonneg. eapply Forall_impl; [exact Hs|]. intros s ?. by apply vested_part_bounds.
  - apply zsum_le. eapply Forall_impl; [exact Hs|]. intros s ?. by apply vested_part_bounds.
Qed.
Lemma vested_ratio_mono vs t1 t2 : schedules_ok vs -> t1 <= t2 -> vested_ratio vs t1 <= vested_ratio vs t2.
Proof.
  intros [Hs _] Ht. apply zsum_le. eapply Forall_impl; [exact Hs|]. intros s ?. by apply vested_part_mono.
Qed.
(** Before every start nothing, from every end on everything. *)
Lemma vested_ratio_0 vs t : Forall (fun s => t < StartTime s) (Schedules vs) -> vested_ratio vs t = 0.
Proof.
  intros Hs. unfold vested_ratio. rewrite (zsum_ext _ (fun _ => 0)), zsum_0; [done|].
  intros s Hin. rewrite Forall_forall in Hs. specialize (Hs s Hin). unfold vested_part.
  destruct (Z.ltb_spec t (StartTime s)); lia.
Qed.
Lemma vested_ratio_end vs t : schedules_ok vs -> Forall (fun s => EndTime s <= t) (Schedules vs) ->
  vested_ratio vs t = zsum Ratio (Schedules vs).
Proof.
  intros [Hok _] Hs. apply zsum_ext. intros s Hin. rewrite Forall_forall in Hs, Hok.
  specialize (Hs s Hin). destruct (Hok s Hin) as (? & ? & ?). unfold vested_part.
  destruct (Z.ltb_spec t (StartTime s)); [lia|]. destruct (Z.ltb_spec t (EndTime s)); lia.
Qed.

Section Ratios.
Context `{HM : SdkMath, !SdkMathLaws}.

Lemma validated_sum l acc r :
  rfold (fun sumRatio s => let! _ := Schedule_Validate s in Dec_Add sumRatio (Ratio s)) acc l = Ok r ->
  Forall (fun s => Schedule_Validate s = Ok tt) l /\ r = acc + zsum Ratio l.
Proof using Type*.
  revert acc. induction l as [|s l IH]; intros acc; cbn [rfold].
  - intros [= <-]. rewrite zsum_nil. split; [constructor|lia].
  - intros (x & ([] & Hs & Hx)%rbind_Ok & R)%rbind_Ok. sdk_unfold. sdk_inv. apply IH in R as [Hl ->].
    rewrite zsum_cons. split; [by constructor|lia].
Qed.

(** Validation accepts a total that rounds to one at nine digits. *)
Lemma validated_schedules vs : VestingSchedule_Validate vs = Ok tt ->
  Forall (fun s => EndTime s < 2 ^ 63) (Schedules vs) -> schedules_ok vs.
Proof using Type*.
  unfold VestingSchedule_Validate, ZeroDec, Dec_RoundInt64. intros (sum & [Hs ->]%validated_sum & R)%rbind_Ok Ht.
  apply rbind_Ok in R as (m & Em & R). apply rbind_Ok in R as (i & (j & Ej & Ei)%rbind_Ok & R).
  apply rbind_Ok in R as (q & Eq & R). sdk_unfold. sdk_inv.
  unfold Int_Int64 in Ei. destruct (is_int64 _); [|done]. injection Ei as <-.
  destruct (Z.eqb_spec (Z.quot (NewDec (dec_round ((0 + zsum Ratio (Schedules vs)) * fixedPointDecimals)))
    fixedPointDecimals) OneDec) as [E|]; [|done].
  split.
  - apply Forall_forall. intros s Hin. rewrite Forall_forall in Hs, Ht. specialize (Hs s Hin). specialize (Ht s Hin).
    unfold Schedule_Validate in Hs. unfold schedule_ok.
    destruct (Z.ltb_spec (StartTime s) 0), (Z.ltb_spec (EndTime s) (StartTime s)), (Z.leb_spec (Ratio s) 0); done || lia.
  - pose proof (dec_round_near ((0 + zsum Ratio (Schedules vs)) * fixedPointDecimals)) as Hn. revert E Hn.
    generalize (dec_round ((0 + zsum Ratio (Schedules vs)) * fixedPointDecimals)).
    generalize (zsum Ratio (Schedules vs)). intros x y. unfold NewDec, OneDec, half_unit, fixedPointDecimals.
    replace (y * P18) with (y * 1000000000 * 1000000000) by (unfold P18; lia).
    rewrite Z.quot_mul by done. unfold P18. lia.
Qed.

Lemma GetVestedRatio_Ok vs t : schedules_ok vs -> 0 <= t < 2 ^ 63 ->
  GetVestedRatio vs t = Ok (vested_ratio vs t).
Proof using Type*.
  intros [Hs Hsum] Ht. unfold GetVestedRatio, vested_ratio, ZeroDec.
  assert (forall l acc, Forall schedule_ok l -> 0 <= acc -> acc + zsum Ratio l <= OneDec + half_unit ->
    rfold (fun sumRatio s =>
      let! r := schedule_ratio t s in
      match r with None => Ok sumRatio | Some ratio => Dec_Add sumRatio ratio end) acc l =
    Ok (acc + zsum (vested_part t) l)) as Hl.
  { clear Hs Hsum. assert (OneDec + half_unit < 2 ^ 60) as H1 by done. induction l as [|s l IH]; intros acc Hok Hacc Hle.
    - by rewrite zsum_nil, Z.add_0_r.
    - apply Forall_cons in Hok as [Hs Hl]. rewrite zsum_cons in *.
      pose proof (vested_part_bounds t s Hs) as Hb.
      assert (0 <= zsum Ratio l).
      { apply zsum_nonneg. eapply Forall_impl; [exact Hl|]. intros x (? & ? & ?). lia. }
      assert ((let! r := schedule_ratio t s in
        match r with None => Ok acc | Some ratio => Dec_Add acc ratio end) = Ok (acc + vested_part t s)) as E.
      { destruct Hs as (? & ? & ?). unfold schedule_ratio, vested_part in *.
        destruct (Z.ltb_spec t (StartTime s)); cbn [rbind]; [f_equal; lia|].
        destruct (Z.ltb_spec t (EndTime s)); cbn [rbind]; sdk_unfold; [|apply dec_chk_small; lia].
        rewrite !int64_id by lia. rewrite dec_chk_small by (unfold OneDec, P18, half_unit in *; nia). cbn [rbind].
        sdk_unfold. destruct (Z.eqb_spec (EndTime s - StartTime s) 0); [lia|]. cbn [rbind]. sdk_unfold.
        rewrite Z.quot_div_nonneg by nia. apply dec_chk_small. lia. }
      cbn [rfold]. etrans; [exact (f_equal (fun z => rbind z _) E)|].
      etrans; [apply (IH (acc + vested_part t s)); [done|lia|lia]|]. f_equal. lia. }
  apply (Hl _ 0); [done|done|lia].
Qed.
End Ratios.

(** ** Accounts *)

Section Accounts.
Context {A : Type} `{HM : SdkMath, HC : SdkCoins, HF : SdkFees, HV : BaseVesting A}.
Context `{!SdkMathLaws, !SdkCoinsLaws, !SdkFeesLaws}.

(** The vested amount of an original amount: everything of a denom without a
    schedule, otherwise the vested ratio's share, rounded. *)
Definition vested_amount (a : Account A) (t : Z) (d : string) (amount : Z) : Z :=
  match GetVestingSchedule a d with
  | Some vs => dec_round (amount * vested_ratio vs t)
  | None => amount
  end.

(** An account that passed validation: its times are int64 and its amounts are
    not astronomic. *)
Record account_ok (a : Account A) : Prop := {
  account_valid : Validate a = Ok tt;
  times_int64 : Forall (fun vs => Forall (fun s => EndTime s < 2 ^ 63) (Schedules vs)) (VestingSchedules a);
  original_ok : coins_ok (OriginalVesting (base a));
  original_small d : amt (OriginalVesting (base a)) d < 2 ^ 254 }.

Lemma schedules_valid a : account_ok a -> Forall schedules_ok (VestingSchedules a).
Proof using Type*.
  intros [Hv Ht _ _]. unfold Validate in Hv. apply rbind_Ok in Hv as (m & R & _). revert R Ht.
  generalize (∅ : gset string). induction (VestingSchedules a) as [|vs l IH]; intros s; [by constructor|].
  cbn [rfold]. intros (s' & R1 & R)%rbind_Ok [Ht Hl]%Forall_cons.
  destruct (decide _); [done|]. apply rbind_Ok in R1 as ([] & R1 & _). constructor; [by apply validated_schedules|].
  by eapply IH.
Qed.

Lemma schedule_found a d vs : account_ok a -> GetVestingSchedule a d = Some vs -> schedules_ok vs.
Proof using Type*.
  intros Ha [Hin _]%List.find_some. pose proof (schedules_valid a Ha) as Hs.
  rewrite List.Forall_forall in Hs. by apply Hs.
Qed.

Lemma vested_amount_bounds a t d x : account_ok a -> 0 <= x -> 0 <= vested_amount a t d x <= 2 * x.
Proof using Type*.
  intros Ha Hx. unfold vested_amount. destruct (GetVestingSchedule a d) as [vs|] eqn:E; [|lia].
  destruct (vested_ratio_bounds vs t (schedule_found _ _ _ Ha E)) as [[? _] ?].
  split; [apply dec_round_nonneg; nia|]. apply dec_round_le_mul. unfold OneDec, half_unit, P18 in *. nia.
Qed.

(** More than the original vests only in a denom whose ratios add up to more than
    one, and of which there are at least 10^9 units: the excess is rounded away
    below. *)
Lemma vested_amount_excess a t d x : account_ok a -> 0 <= x < vested_amount a t d x ->
  1000000000 <= x /\ exists vs, GetVestingSchedule a d = Some vs /\ OneDec < zsum Ratio (Schedules vs).
Proof using Type*.
  intros Ha [Hx Hv]. unfold vested_amount in Hv. destruct (GetVestingSchedule a d) as [vs|] eqn:E; [|lia].
  destruct (vested_ratio_bounds vs t (schedule_found _ _ _ Ha E)) as [[? ?] ?].
  destruct (Z.le_gt_cases (vested_ratio vs t) OneDec) as [Hle|Hgt].
  { assert (dec_round (x * vested_ratio vs t) <= x) by (apply dec_round_le_mul; unfold OneDec in *; nia). lia. }
  split; [|exists vs; split; [done|lia]].
  pose proof (dec_round_near (x * vested_ratio vs t)) as Hn.
  assert (P18 <= 2 * (x * (vested_ratio vs t - P18))) by nia.
  assert (x * (vested_ratio vs t - P18) <= x * half_unit) by (unfold OneDec in *; nia).
  unfold half_unit, P18 in *. lia.
Qed.

Lemma vested_amount_mono a t1 t2 d x : account_ok a -> 0 <= x -> t1 <= t2 ->
  vested_amount a t1 d x <= vested_amount a t2 d x.
Proof using Type*.
  intros Ha Hx Ht. unfold vested_amount. destruct (GetVestingSchedule a d) as [vs|] eqn:E; [|lia].
  apply dec_round_mono. pose proof (vested_ratio_mono vs t1 t2 (schedule_found _ _ _ Ha E) Ht). nia.
Qed.

Lemma vested_amount_0 a t d : vested_amount a t d 0 = 0.
Proof using Type*. unfold vested_amount. destruct (GetVestingSchedule a d); [apply dec_round_0|done]. Qed.

(** The coin of the vested part, if there is any. *)
Definition vested_coin (a : Account A) (t : Z) (c : Coin) : option Coin :=
  let v := vested_amount a t (Denom c) (Amount c) in
  if v =? 0 then None else Some (mkCoin (Denom c) v).

Lemma GetVestedCoins_Ok a t : account_ok a -> 0 <= t < 2 ^ 63 ->
  GetVestedCoins a t = Ok (omap (vested_coin a t) (OriginalVesting (base a))).
Proof using Type*.
  intros Ha Ht. unfold GetVestedCoins.
  assert (Forall (fun c => ValidateDenom (Denom c) = true /\ 0 < Amount c < 2 ^ 254)
    (OriginalVesting (base a))) as Hc.
  { apply Forall_forall. intros c Hc. destruct (original_ok a Ha) as [Hs Hp].
    rewrite Forall_forall in Hp. destruct (Hp c Hc). split; [done|]. split; [done|].
    rewrite <- (amt_elem _ c Hs Hc). by apply original_small. }
  assert (forall l acc, Forall (fun c => ValidateDenom (Denom c) = true /\ 0 < Amount c < 2 ^ 254) l ->
    rfold (fun vestedCoins ovc =>
      match GetVestingSchedule a (Denom ovc) with
      | Some vestingSchedule =>
          let! vestedRatio := GetVestedRatio vestingSchedule t in
          let! m := Dec_Mul (NewDec (Amount ovc)) vestedRatio in
          let! vestedAmt := Dec_RoundInt m in
          if vestedAmt =? 0 then Ok vestedCoins
          else let! c := NewCoin (Denom ovc) vestedAmt in Ok (vestedCoins ++ [c])
      | None => let! c := NewCoin (Denom ovc) (Amount ovc) in Ok (vestedCoins ++ [c])
      end) acc l = Ok (acc ++ omap (vested_coin a t) l)) as Hl; [|by rewrite Hl].
  induction l as [|c l IH]; intros acc Hl; [by rewrite app_nil_r|].
  apply Forall_cons in Hl as [[Hv Hpos] Hl]. cbn [rfold omap list_omap].
  pose proof (vested_amount_bounds a t (Denom c) (Amount c) Ha ltac:(lia)) as Hb.
  unfold vested_coin at 1. unfold vested_amount in *.
  destruct (GetVestingSchedule a (Denom c)) as [vs|] eqn:E.
  - pose proof (schedule_found _ _ _ Ha E) as Hvs. destruct (vested_ratio_bounds vs t Hvs) as [[Hr0 _] Hr].
    rewrite (GetVestedRatio_Ok vs t Hvs Ht). cbn [rbind]. sdk_unfold. unfold NewDec.
    rewrite <- Z.mul_assoc, (Z.mul_comm P18), Z.mul_assoc, dec_round_mul.
    assert (P18 + half_unit < 2 ^ 60) by done. unfold OneDec in *.
    rewrite dec_chk_small by nia. cbn [rbind]. sdk_unfold. unfold int_chk.
    rewrite int_fits_small by lia. cbn [rbind].
    destruct (Z.eqb_spec (dec_round (Amount c * vested_ratio vs t)) 0); cbn [rbind]; [by apply IH|].
    rewrite NewCoin_spec, Hv, (proj2 (Z.leb_le _ _)) by lia. cbn [rbind andb].
    rewrite IH by done. by rewrite <- app_assoc.
  - rewrite NewCoin_spec, Hv, (proj2 (Z.leb_le _ _)) by lia. cbn [rbind andb].
    rewrite (proj2 (Z.eqb_neq _ _)) by lia. rewrite IH by done. by rewrite <- app_assoc.
Qed.

(** Keeping part of every coin keeps a list of coins valid. *)
Lemma vested_omap a t cs : account_ok a -> coins_ok cs ->
  coins_ok (omap (vested_coin a t) cs) /\
  forall d, amt (omap (vested_coin a t) cs) d = vested_amount a t d (amt cs d).
Proof using Type*.
  intros Ha Hcs. assert (forall c c', vested_coin a t c = Some c' ->
    Denom c' = Denom c /\ Amount c' = vested_amount a t (Denom c) (Amount c) /\ Amount c' <> 0) as Hvc.
  { intros c c'. unfold vested_coin. destruct (Z.eqb_spec (vested_amount a t (Denom c) (Amount c)) 0); [done|].
    by intros [= <-]. }
  split; [split|].
  - destruct Hcs as [Hs _]. unfold coins_sorted. induction Hs as [|c cs Hs IH Hc]; [constructor|]. simpl.
    destruct (vested_coin a t c) as [c'|] eqn:E; [|done]. constructor; [done|].
    apply Forall_forall. intros x (y & Hy & Hx)%list_elem_of_omap. rewrite Forall_forall in Hc.
    destruct (Hvc _ _ E) as [-> _]. destruct (Hvc _ _ Hx) as [-> _]. by apply Hc.
  - destruct Hcs as [_ Hp]. apply Forall_forall. intros x (y & Hy & Hx)%list_elem_of_omap.
    rewrite Forall_forall in Hp. destruct (Hp y Hy). destruct (Hvc _ _ Hx) as (-> & Ex & Hne).
    split; [done|]. pose proof (vested_amount_bounds a t (Denom y) (Amount y) Ha). lia.
  - intros d. rewrite <- (zsum_sorted cs (vested_amount a t)); [|apply Hcs|apply vested_amount_0].
    clear Hcs. induction cs as [|c cs IH]; [done|]. rewrite zsum_cons, <- IH. simpl.
    unfold vested_coin at 1. unfold ind. destruct (Z.eqb_spec (vested_amount a t (Denom c) (Amount c)) 0) as [E|E].
    + rewrite E. destruct (decide _); simpl; change (list_omap Coin Coin) with (omap (M := list) (A := Coin) (B := Coin)); lia.
    + unfold amt at 1. rewrite zsum_cons. simpl. done.
Qed.

(** C23. Vesting splits the original coins of every account that passes validation
    (with amounts below 2^254 and int64 times). At every time the vested coins are
    computed; they never shrink, and nothing of a denom has vested before its
    schedules start. The vesting coins are computed as well and add up with the
    vested ones to the original coins, denom by denom, or else the computation
    panics, and it panics exactly when more of some denom has vested than there
    was: then the denom's ratios add up to more than one, which the rounding check
    let pass, and there are at least 10^9 units of it. When every schedule's
    ratios add up to exactly one and all schedules have ended, nothing is vesting.
    *)
Theorem vesting_splits (a : Account A) t : account_ok a -> 0 <= t < 2 ^ 63 ->
  exists vested, GetVestedCoins a t = Ok vested /\ coins_ok vested /\
    (forall t' vested', t <= t' < 2 ^ 63 -> GetVestedCoins a t' = Ok vested' ->
       forall d, amt vested d <= amt vested' d) /\
    (forall d vs, GetVestingSchedule a d = Some vs ->
       Forall (fun s => t < StartTime s) (Schedules vs) -> amt vested d = 0) /\
    match GetVestingCoins a t with
    | Ok vesting => coins_ok vesting /\
        (forall d, amt vested d + amt vesting d = amt (OriginalVesting (base a)) d) /\
        (Forall (fun vs => zsum Ratio (Schedules vs) = OneDec /\
           Forall (fun s => EndTime s <= t) (Schedules vs)) (VestingSchedules a) -> vesting = [])
    | Err _ => False
    | Panic => exists d vs, GetVestingSchedule a d = Some vs /\ OneDec < zsum Ratio (Schedules vs) /\
        1000000000 <= amt (OriginalVesting (base a)) d < amt vested d
    end.
Proof using Type*.
  intros Ha Ht. pose proof (original_ok a Ha) as Ho.
  destruct (vested_omap a t _ Ha Ho) as [Hv Av]. pose proof (GetVestedCoins_Ok a t Ha Ht) as Ev.
  set (vested := omap (vested_coin a t) (OriginalVesting (base a))) in *.
  exists vested. split_and!; [done|done|..].
  - intros t' vested' Ht' Ev' d. rewrite GetVestedCoins_Ok in Ev' by (done || lia). injection Ev' as <-.
    rewrite Av, (proj2 (vested_omap a t' _ Ha Ho)). apply vested_amount_mono; [done|by apply amt_nonneg|lia].
  - intros d vs E Hstart. rewrite Av. unfold vested_amount. rewrite E, vested_ratio_0 by done.
    by rewrite Z.mul_0_r, dec_round_0.
  - unfold GetVestingCoins. rewrite Ev. cbn [rbind].
    destruct (Coins_Sub_cases _ _ Ho Hv) as [(vesting & -> & Hw & _ & Aw)|(-> & d & Hd)].
    + split_and!; [done|intros d; rewrite Aw; lia|].
      intros Hend. apply coins_ext; [done|apply coins_ok_nil|]. intros d. rewrite Aw, Av.
      change (amt [] d) with 0. unfold vested_amount.
      destruct (GetVestingSchedule a d) as [vs|] eqn:E; [|lia]. pose proof (schedule_found _ _ _ Ha E).
      apply List.find_some in E as [Hin _]. rewrite List.Forall_forall in Hend. destruct (Hend vs Hin) as [Hone ?].
      rewrite vested_ratio_end, Hone by done. unfold OneDec. rewrite dec_round_mul. lia.
    + rewrite Av in Hd. pose proof (amt_nonneg _ d Ho) as Hnn.
      destruct (vested_amount_excess a t d _ Ha (conj Hnn Hd)) as (? & vs & ? & ?). exists d, vs.
      rewrite Av. by split_and!.
Qed.
End Accounts.

(** ** Concrete accounts *)

Import Ref RefFees.

(** A base account that is just its original vesting. *)
#[export] Instance ref_base : BaseVesting Coins := {|
  OriginalVesting cs := cs;
  LockedCoinsFromVesting _ vesting := vesting;
  BaseTrackDelegation _ _ _ cs := Ok cs;
  BaseValidate _ := Ok tt |}.

Definition halves : VestingSchedule := mkVestingSchedule "uluna"
  [mkSchedule 100 200 (NewDecWithPrec 5 1); mkSchedule 150 250 (NewDecWithPrec 5 1)].
Definition demo_account : Account Coins :=
  mkAccount [mkCoin "uluna" 1000; mkCoin "uusd" 7] [halves].

Lemma demo_account_ok : account_ok demo_account.
Proof.
  split.
  - by vm_compute.
  - repeat constructor.
  - apply Coins_IsValid_spec. by vm_compute.
  - intros d. unfold demo_account, amt. simpl. rewrite !zsum_cons, zsum_nil. simpl.
    repeat destruct (decide _); by vm_compute.
Qed.

(** The check of the total ratio rounds to nine digits.  An account whose ratios
    add up to slightly more than one is accepted; once everything has vested, more
    coins have vested than there were, and computing the coins that still vest
    panics. *)
Definition rounded_account : Account Coins :=
  mkAccount [mkCoin "uluna" 10000000000]
    [mkVestingSchedule "uluna" [mkSchedule 100 200 (NewDecWithPrec 5 1);
                                mkSchedule 100 200 (NewDecWithPrec 5000000004 10)]].

Lemma rounded_account_ok : account_ok rounded_account.
Proof.
  split.
  - by vm_compute.
  - repeat constructor.
  - apply Coins_IsValid_spec. by vm_compute.
  - intros d. unfold rounded_account, amt. simpl. rewrite !zsum_cons, zsum_nil. simpl.
    repeat destruct (decide _); by vm_compute.
Qed.

Example rounded_ratios_panic :
  Validate rounded_account = Ok tt /\
  GetVestedCoins rounded_account 300 = Ok [mkCoin "uluna" 10000000004] /\
  LockedCoins rounded_account 300 = Panic.
Proof. split_and!; by vm_compute. Qed.

(** Half way through the first account both parts are computed; at the end of the
    second one only the vested coins are. *)
Lemma vesting_splits_witness :
  (exists vested vesting, GetVestedCoins demo_account 175 = Ok vested /\
     GetVestingCoins demo_account 175 = Ok vesting /\ amt vested "uluna" + amt vesting "uluna" = 1000) /\
  (GetVestingCoins rounded_account 300 = Panic /\
   exists vested, GetVestedCoins rounded_account 300 = Ok vested).
Proof.
  split.
  - destruct (vesting_splits demo_account 175) as (v & Ev & _ & _ & _ & H);
      [apply demo_account_ok|vm_compute; split; [discriminate|done]|].
    assert (E : GetVestingCoins demo_account 175 = Ok [mkCoin "uluna" 500]) by by vm_compute.
    rewrite E in H. destruct H as (_ & Hs & _). exists v, [mkCoin "uluna" 500]. split_and!; [done|done|].
    rewrite Hs. by vm_compute.
  - destruct (vesting_splits rounded_account 300) as (v & Ev & _);
      [apply rounded_account_ok|vm_compute; split; [discriminate|done]|].
    split; [by vm_compute|by exists v].
Defined.
End VestingFacts.
