(* ===== verification/Simulation.v ===== *)
(** * Random genesis states of the simulator

    [x/{oracle,market,treasury}/simulation/genesis.go] and [params.go], the
    fixed state of [x/dyncomm/module.go], and the
    accounts and balances of [custom/{auth,bank}/simulation/genesis.go].  A draw is
    a run over the state of the random source; the source itself belongs to Go and
    to the SDK and is a parameter. *)

From S2P Require Import Prelude Sdk SdkRef SdkFees Core OracleTypes OracleGenesis Market TreasuryTypes Treasury Dyncomm TaxExemption Tax TaxFacts Vesting VestingFacts.

Module Simulation.

(** ** Random draws *)

Class Rand (R : Type) := {
  Intn : Z -> R -> Z * R;              (* [r.Intn(n)] *)
  Int63n : Z -> R -> Z * R;
  RandIntBetween : Z -> Z -> R -> Z * R;
}.

(** Numbers are drawn from the documented ranges. *)
Class RandLaws (R : Type) `{Rand R} : Prop := {
  Intn_range n r : 0 < n -> 0 <= (Intn n r).1 < n;
  Int63n_range n r : 0 < n -> 0 <= (Int63n n r).1 < n;
  RandIntBetween_range lo hi r : lo < hi -> lo <= (RandIntBetween lo hi r).1 < hi;
}.

(** The values that the simulation's parameter file presets, by key. *)
Class AppParams := preset : forall T : Type, string -> option T.

Section Draws.
Context {R : Type} `{HR : Rand R}.

Definition draw (f : R -> Z * R) : M R Z := fun r => let '(x, r') := f r in Ret x r'.
Definition intn (n : Z) : M R Z := draw (Intn n).

(** [AppParams.GetOrGenerate] *)
Definition GetOrGenerate `{AppParams} {T} (key : string) (gen : M R T) : M R T :=
  match preset T key with Some v => ret v | None => gen end.

(** [c] always returns, with a result that satisfies [P]. *)
Definition draws {A} (c : M R A) (P : A -> Prop) : Prop := forall r, exists x r', c r = Ret x r' /\ P x.

Lemma draws_ret {A} (x : A) (P : A -> Prop) : P x -> draws (ret x) P.
Proof using Type. intros Hx r. by exists x, r. Qed.
Lemma draws_lift {A} (x : A) res (P : A -> Prop) : res = Ok x -> P x -> draws (lift res) P.
Proof using Type. intros -> Hx r. by exists x, r. Qed.
Lemma draws_bind {A B} (c : M R A) (k : A -> M R B) P Q :
  draws c P -> (forall x, P x -> draws (k x) Q) -> draws (bind c k) Q.
Proof using Type.
  intros Hc Hk r. destruct (Hc r) as (x & r1 & E & Hx). destruct (Hk x Hx r1) as (y & r2 & E2 & Hy).
  exists y, r2. unfold bind. by rewrite E.
Qed.
Lemma draws_weaken {A} (c : M R A) (P Q : A -> Prop) : draws c P -> (forall x, P x -> Q x) -> draws c Q.
Proof using Type. intros Hc HPQ r. destruct (Hc r) as (x & r' & E & Hx). exists x, r'. auto. Qed.
Lemma draws_intn `{!RandLaws R} n : 0 < n -> draws (intn n) (fun x => 0 <= x < n).
Proof using Type.
  intros Hn r. unfold intn, draw. pose proof (Intn_range n r Hn) as Hx. destruct (Intn n r) as [x r']. by exists x, r'.
Qed.
Lemma draws_between `{!RandLaws R} lo hi : lo < hi -> draws (draw (RandIntBetween lo hi)) (fun x => lo <= x < hi).
Proof using Type.
  intros Hn r. unfold draw. pose proof (RandIntBetween_range lo hi r Hn) as Hx.
  destruct (RandIntBetween lo hi r) as [x r']. by exists x, r'.
Qed.
Lemma draws_63 `{!RandLaws R} n : 0 < n -> draws (draw (Int63n n)) (fun x => 0 <= x < n).
Proof using Type.
  intros Hn r. unfold draw. pose proof (Int63n_range n r Hn) as Hx. destruct (Int63n n r) as [x r']. by exists x, r'.
Qed.
Lemma draws_preset `{AppParams} {T} key (gen : M R T) P : (forall T k, preset T k = None) -> draws gen P ->
  draws (GetOrGenerate key gen) P.
Proof using Type. intros Hp Hg. unfold GetOrGenerate. by rewrite Hp. Qed.
End Draws.

(** ** Parameters *)

Section Params.
Context {R : Type} `{HR : Rand R, HAP : AppParams, HM : SdkMath, HC : SdkCoins, HF : SdkFees}.

(** [base.Add(NewDecWithPrec(int64(r.Intn(n)), prec))] *)
Definition plus (base : Dec) (n prec : Z) : M R Dec :=
  let* x := intn n in lift (Dec_Add base (NewDecWithPrec x prec)).

(** The oracle *)
Definition GenVotePeriod : M R Z := let* x := intn 100 in ret (1 + x).
Definition GenVoteThreshold : M R Dec := plus (NewDecWithPrec 333 3) 333 3.
Definition GenRewardBand : M R Dec := plus ZeroDec 100 3.
Definition GenRewardDistributionWindow : M R Z := let* x := intn 100000 in ret (100 + x).
Definition GenSlashFraction : M R Dec := plus ZeroDec 100 3.
Definition GenSlashWindow : M R Z := let* x := intn 100000 in ret (100 + x).
Definition GenMinValidPerWindow : M R Dec := plus ZeroDec 500 3.

Definition oracle_RandomizedGenState : M R OracleGenesis.GenesisState :=
  let* votePeriod := GetOrGenerate "vote_period" GenVotePeriod in
  let* voteThreshold := GetOrGenerate "vote_threshold" GenVoteThreshold in
  let* rewardBand := GetOrGenerate "reward_band" GenRewardBand in
  let* rewardDistributionWindow := GetOrGenerate "reward_distribution_window" GenRewardDistributionWindow in
  let* slashFraction := GetOrGenerate "slash_fraction" GenSlashFraction in
  let* slashWindow := GetOrGenerate "slash_window" GenSlashWindow in
  let* minValidPerWindow := GetOrGenerate "min_valid_per_window" GenMinValidPerWindow in
  let whitelist := [
    OracleTypes.mkDenom MicroKRWDenom OracleTypes.DefaultTobinTax; OracleTypes.mkDenom MicroSDRDenom OracleTypes.DefaultTobinTax;
    OracleTypes.mkDenom MicroUSDDenom OracleTypes.DefaultTobinTax; OracleTypes.mkDenom MicroMNTDenom (NewDecWithPrec 2 2)] in
  ret (OracleGenesis.mkGenesis
    (OracleTypes.mkParams votePeriod voteThreshold rewardBand rewardDistributionWindow whitelist slashFraction slashWindow
       minValidPerWindow) [] [] [] [] [] []).

(** The market *)
Definition GenBasePool : M R Dec := let* x := intn 10000000000 in lift (Dec_Add (NewDec 50000000000000) (NewDec x)).
Definition GenPoolRecoveryPeriod : M R Z := let* x := intn 10000000000 in ret (100 + x).
Definition GenMinSpread : M R Dec := plus (NewDecWithPrec 1 2) 100 3.

Definition market_RandomizedGenState : M R Market.GenesisState :=
  let* basePool := GetOrGenerate "base_pool" GenBasePool in
  let* poolRecoveryPeriod := GetOrGenerate "pool_recovery_period" GenPoolRecoveryPeriod in
  let* minStabilitySpread := GetOrGenerate "min_spread" GenMinSpread in
  ret (Market.mkGenesis (Market.mkParams basePool poolRecoveryPeriod minStabilitySpread) ZeroDec).

(** The treasury *)
Definition gen_policy (cap : res Coin) : M R TreasuryTypes.PolicyConstraints :=
  let* x := intn 5 in
  let* y := intn 5 in
  let* rateMax := lift (Dec_Add (NewDecWithPrec 6 3) (NewDecWithPrec (y + 1) 3)) in
  let* cap := lift cap in
  let* changeRateMax := plus (NewDecWithPrec 25 5) 75 5 in
  ret (TreasuryTypes.mkPolicy (NewDecWithPrec (x + 1) 3) rateMax cap changeRateMax).
Definition GenTaxPolicy : M R TreasuryTypes.PolicyConstraints := gen_policy (NewCoin MicroSDRDenom 1000000).
Definition GenRewardPolicy : M R TreasuryTypes.PolicyConstraints := gen_policy (NewCoin "unused" 0).
Definition GenSeigniorageBurdenTarget : M R Dec := let* x := intn 100 in ret (NewDecWithPrec x 2).
Definition GenMiningIncrement : M R Dec := let* x := intn 30 in ret (NewDecWithPrec (100 + x) 2).
Definition GenWindowShort : M R Z := let* x := intn 12 in ret (1 + x).
Definition GenWindowLong : M R Z := let* x := intn 24 in ret (12 + x).
Definition GenWindowProbation : M R Z := let* x := intn 6 in ret (1 + x).

(** Burn tax split, deposit ratio and oracle split are left unset, written as
    null and read back as zero. *)
Definition treasury_RandomizedGenState : M R Treasury.GenesisState :=
  let* taxPolicy := GetOrGenerate "tax_policy" GenTaxPolicy in
  let* rewardPolicy := GetOrGenerate "reward_policy" GenRewardPolicy in
  let* seigniorageBurdenTarget := GetOrGenerate "seigniorage_burden_target" GenSeigniorageBurdenTarget in
  let* miningIncrement := GetOrGenerate "mining_increment" GenMiningIncrement in
  let* windowShort := GetOrGenerate "window_short" GenWindowShort in
  let* windowLong := GetOrGenerate "window_long" GenWindowLong in
  let* windowProbation := GetOrGenerate "window_probation" GenWindowProbation in
  ret (Treasury.mkGenesis
    (TreasuryTypes.mkParams taxPolicy rewardPolicy seigniorageBurdenTarget miningIncrement windowShort windowLong
       windowProbation 0 0 0)
    (TreasuryTypes.RateMin taxPolicy) (TreasuryTypes.RateMin rewardPolicy) [(MicroLunaDenom, 0)] [] [] []).

(** The commissions are fixed, without a cap. *)
Definition dyncomm_GenerateGenesisState : Dyncomm.GenesisState :=
  let p := Dyncomm.DefaultParams in
  Dyncomm.mkGenesis (Dyncomm.mkParams (Dyncomm.MaxZero p) (Dyncomm.SlopeBase p) (Dyncomm.SlopeVpImpact p) ZeroDec) [].

Context `{!RandLaws R, !SdkMathLaws, !SdkCoinsLaws}.

Lemma draws_plus base n prec (P : Dec -> Prop) : 0 < n ->
  (forall x, 0 <= x < n -> P (base + NewDecWithPrec x prec) /\ Z.abs (base + NewDecWithPrec x prec) < 2 ^ 315) ->
  draws (plus base n prec) P.
Proof using Type*.
  intros Hn Hp. eapply draws_bind; [by apply draws_intn|]. intros x Hx. destruct (Hp x Hx) as [? ?].
  eapply draws_lift; [|done]. rewrite Dec_Add_spec. by apply dec_chk_small.
Qed.

Lemma draws_offset n k : 0 < n -> draws (let* x := intn n in ret (k + x)) (fun x => k <= x < k + n).
Proof using Type*. intros Hn. eapply draws_bind; [by apply draws_intn|]. intros x Hx. apply draws_ret. cbn beta in *. lia. Qed.

(** A parameter that is drawn as an offset, or as a decimal in a range. *)
Ltac offset n k := eapply draws_bind; [apply draws_preset; [done|by apply (draws_offset n k)]|cbn beta].
Ltac decimal n prec P :=
  eapply draws_bind; [apply draws_preset; [done|apply (draws_plus _ n prec P); [done|]]|];
  [intros ? ?; unfold NewDecWithPrec, P18, ZeroDec; lia|cbn beta].
(** Every check of a validation whose guard arithmetic refutes. *)
Ltac checks :=
  repeat match goal with
  | |- context [?a <? ?b] => rewrite (proj2 (Z.ltb_ge a b)) by lia
  | |- context [?a <=? ?b] => rewrite (proj2 (Z.leb_gt a b)) by lia
  | |- context [?a =? ?b] => rewrite (proj2 (Z.eqb_neq a b)) by lia
  end; cbn.

Hypothesis no_presets : forall T k, preset T k = None.

Lemma oracle_random : draws oracle_RandomizedGenState (fun g =>
  OracleGenesis.ValidateGenesis g = Ok tt /\ OracleGenesis.validate_param_set (OracleGenesis.GParams g) = Ok tt).
Proof using Type*.
  unfold oracle_RandomizedGenState. offset 100 1. intros vp Hvp.
  decimal 333 3 (fun d : Z => 333 * 10 ^ 15 <= d <= 10 ^ 18). intros th Hth.
  decimal 100 3 (fun d : Z => 0 <= d <= 10 ^ 18). intros rb Hrb. offset 100000 100. intros rw Hrw.
  decimal 100 3 (fun d : Z => 0 <= d <= 10 ^ 18). intros sf Hsf. offset 100000 100. intros sw Hsw.
  decimal 500 3 (fun d : Z => 0 <= d <= 10 ^ 18). intros mv Hmv. apply draws_ret.
  unfold OracleGenesis.ValidateGenesis, OracleTypes.Validate, OracleGenesis.validate_param_set,
    OracleTypes.validateVotePeriod, OracleTypes.validateVoteThreshold, OracleTypes.validateRewardBand,
    OracleTypes.validateRewardDistributionWindow, OracleTypes.validateSlashFraction, OracleTypes.validateSlashWindow,
    OracleTypes.validateMinValidPerWindow, NewDecWithPrec, OneDec, P18.
  cbn [OracleGenesis.GParams OracleTypes.VotePeriod OracleTypes.VoteThreshold OracleTypes.RewardBand
    OracleTypes.RewardDistributionWindow OracleTypes.SlashFraction OracleTypes.SlashWindow
    OracleTypes.MinValidPerWindow OracleTypes.Whitelist].
  split; checks; done.
Qed.

Lemma market_random : draws market_RandomizedGenState (fun g =>
  Market.ValidateGenesis g = Ok tt /\ Market.validate_param_set (Market.GParams g) = Ok tt).
Proof using Type*.
  unfold market_RandomizedGenState.
  eapply draws_bind; [apply draws_preset; [done|]|].
  { eapply draws_bind; [by apply draws_intn|]. cbn beta. intros x Hx. eapply (draws_lift _ _ (fun d => 0 <= d)).
    - rewrite Dec_Add_spec. apply dec_chk_small. unfold NewDec, P18. lia.
    - cbn beta. unfold NewDec, P18. lia. }
  cbn beta. intros bp Hbp. offset 10000000000 100. intros rp Hrp.
  decimal 100 3 (fun d : Z => 0 <= d <= 10 ^ 18). intros ms Hms. apply draws_ret.
  unfold Market.ValidateGenesis, Market.Validate, Market.validate_param_set, Market.validateBasePool,
    Market.validatePoolRecoveryPeriod, Market.validateMinStabilitySpread, OneDec, P18.
  cbn [Market.GParams Market.BasePool Market.PoolRecoveryPeriod Market.MinStabilitySpread]. split; checks; done.
Qed.

Hypothesis sdr_valid : ValidateDenom MicroSDRDenom = true.
Hypothesis unused_valid : ValidateDenom "unused" = true.

Definition policy_drawn (cap : Coin) (p : TreasuryTypes.PolicyConstraints) : Prop :=
  0 <= TreasuryTypes.RateMin p <= TreasuryTypes.RateMax p /\ 0 <= TreasuryTypes.ChangeRateMax p /\
  TreasuryTypes.Cap p = cap.

Lemma policy_random d a : ValidateDenom d = true -> 0 <= a -> draws (gen_policy (NewCoin d a)) (policy_drawn (mkCoin d a)).
Proof using Type*.
  intros Hd Ha. unfold gen_policy. eapply draws_bind; [by apply draws_intn|]. cbn beta. intros x Hx.
  eapply draws_bind; [by apply draws_intn|]. cbn beta. intros y Hy.
  eapply draws_bind; [eapply (draws_lift _ _ (fun d => d = NewDecWithPrec 6 3 + NewDecWithPrec (y + 1) 3)); [|done]|].
  { rewrite Dec_Add_spec. apply dec_chk_small. unfold NewDecWithPrec. lia. }
  cbn beta. intros rm Hrm. eapply draws_bind; [eapply (draws_lift (mkCoin d a) _ (fun c => c = mkCoin d a)); [|done]|].
  { rewrite NewCoin_spec, Hd. by rewrite (proj2 (Z.leb_le 0 a)). }
  cbn beta. intros c ->. eapply draws_bind; [apply (draws_plus _ 75 5 (fun d => 0 <= d)); [done|]|].
  { intros z Hz. unfold NewDecWithPrec. lia. }
  cbn beta. intros cr Hcr. apply draws_ret. split_and!; cbn; [|subst rm; unfold NewDecWithPrec|done|done]; unfold NewDecWithPrec; lia.
Qed.

(** The treasury's state can always be imported; it validates unless both windows
    are drawn as twelve. *)
Lemma treasury_random : draws treasury_RandomizedGenState (fun g =>
  let p := Treasury.GParams g in
  TreasuryTypes.validate_param_set p = Ok tt /\
  1 <= TreasuryTypes.WindowShort p <= 12 /\ 12 <= TreasuryTypes.WindowLong p < 36 /\
  (Treasury.ValidateGenesis g = Ok tt <-> ~ (TreasuryTypes.WindowShort p = 12 /\ TreasuryTypes.WindowLong p = 12))).
Proof using Type*.
  unfold treasury_RandomizedGenState.
  eapply draws_bind; [apply draws_preset; [done|by apply policy_random]|]. intros tp (Ht & Htc & Htcap).
  eapply draws_bind; [apply draws_preset; [done|by apply policy_random]|]. intros rp (Hr & Hrc & _).
  eapply draws_bind; [apply draws_preset; [done|]|].
  { eapply draws_bind; [by apply (draws_intn 100)|]. cbn beta. intros x Hx. apply (draws_ret _ (fun d => 0 <= d)).
    unfold NewDecWithPrec. lia. }
  cbn beta. intros sb Hsb. eapply draws_bind; [apply draws_preset; [done|]|].
  { eapply draws_bind; [by apply (draws_intn 30)|]. cbn beta. intros x Hx. apply (draws_ret _ (fun d => 0 <= d)).
    unfold NewDecWithPrec. lia. }
  cbn beta. intros mi Hmi. offset 12 1. intros ws Hws. offset 24 12. intros wl Hwl. offset 6 1. intros wp Hwp.
  apply draws_ret. cbn [Treasury.GParams TreasuryTypes.WindowShort TreasuryTypes.WindowLong].
  assert (Hcap : TreasuryTypes.Coin_IsValid (TreasuryTypes.Cap tp) = true).
  { rewrite Htcap. unfold TreasuryTypes.Coin_IsValid. cbn -[MicroSDRDenom]. by rewrite sdr_valid. }
  split_and!; [|lia..|].
  - unfold TreasuryTypes.validate_param_set, TreasuryTypes.validateTaxPolicy, TreasuryTypes.validateRewardPolicy,
      TreasuryTypes.validateSeigniorageBurdenTarget, TreasuryTypes.validateMiningIncrement,
      TreasuryTypes.validateBurnTaxSplit. rewrite ?Hcap. cbn. rewrite Hcap. checks. done.
  - unfold Treasury.ValidateGenesis, TreasuryTypes.Validate. cbn. rewrite Hcap. cbn.
    destruct (Z.leb_spec wl ws) as [Hle|Hlt]; checks; [|split; [lia|done]]. split; [done|lia].
Qed.

(** The commissions can be imported as well. *)
Lemma dyncomm_fixed : Dyncomm.validate_param_set (Dyncomm.GParams dyncomm_GenerateGenesisState) = Ok tt.
Proof using Type. by vm_compute. Qed.
End Params.

(** ** Windows that clash *)

Section Clash.
Import Ref RefFees.

(** A source that yields the largest window and otherwise zero. *)
#[local] Instance clash : Rand unit := {|
  Intn n _ := (if n =? 12 then 11 else 0, tt);
  Int63n _ _ := (0, tt);
  RandIntBetween lo _ _ := (lo, tt) |}.
#[local] Instance clash_laws : RandLaws unit.
Proof. split; intros; cbn; try lia. destruct (Z.eqb_spec n 12); lia. Qed.
#[local] Instance no_params : AppParams := fun _ _ => None.

Lemma windows_may_clash : exists g, treasury_RandomizedGenState tt = Ret g tt /\
  Treasury.ValidateGenesis g = Err (Errorf "WindowLong must be bigger than WindowShort").
Proof. eexists. split; [vm_compute; reflexivity|by vm_compute]. Qed.
End Clash.
End Simulation.
