(* ===== verification/SimAccounts.v ===== *)
(** * Random accounts and balances of the simulator

    [custom/auth/simulation/genesis.go] and [custom/bank/simulation/genesis.go]:
    the parameters and vesting accounts that are drawn, and balances that agree with the supply. *)

From S2P Require Import Prelude Sdk SdkRef SdkFees Core OracleTypes OracleGenesis Market TreasuryTypes Treasury Dyncomm TaxExemption Tax TaxFacts Ante Vesting VestingFacts Simulation.

Module SimAccounts.
Import Simulation Vesting Ante.

Record SimState := mkSim {
  Accounts : list string; NumBonded : Z; InitialStake : Int; GenTimestamp : Z }.

(** ** Accounts *)

(** A fresh [vesttypes.BaseVestingAccount] with nothing delegated. *)
Class FreshVesting (A : Type) := NewBaseVesting : string -> Coins -> A.

Class FreshVestingLaws (A : Type) `{BaseVesting A, FreshVesting A} : Prop := {
  fresh_original addr cs : OriginalVesting (NewBaseVesting addr cs) = cs;
  fresh_valid addr cs : BaseValidate (NewBaseVesting addr cs) = Ok tt;
}.

Inductive GenesisAccount (A : Type) := BaseAccount (addr : string) | LazyGraded (acc : Account A).
Arguments BaseAccount {A} _.
Arguments LazyGraded {A} _.

(** Run [c] [n] times. *)
Fixpoint mrepeat {S A} (n : nat) (c : M S A) : M S (list A) :=
  match n with
  | O => ret []
  | S n => let* x := c in let* l := mrepeat n c in ret (x :: l)
  end.

(** [authtypes.Params] *)
Record AuthParams := mkAuth {
  MaxMemoCharacters : Z; TxSigLimit : Z; TxSizeCostPerByte : Z;
  SigVerifyCostED25519 : Z; SigVerifyCostSecp256k1 : Z }.

Section Accounts.
Context {R A : Type}.
Context `{HR : Rand R, HAP : AppParams, HM : SdkMath, HC : SdkCoins, HBD : BondDenom, HV : BaseVesting A, HFV : FreshVesting A}.

Definition NewLazyGradedVestingAccount (addr : string) (originalVesting : Coins) (s : list VestingSchedule) : Account A :=
  mkAccount (NewBaseVesting addr originalVesting) s.

Definition random_schedule (startTime : Z) (ratio : Dec) : M R Schedule :=
  let* c := intn 100 in
  let* endTime :=
    if c <? 50 then draw (RandIntBetween (startTime + 1) (startTime + 60 * 60 * 24 * 30))
    else draw (RandIntBetween (startTime + 1) (startTime + 60 * 60 * 12)) in
  ret (mkSchedule startTime endTime ratio).

(** [int64(i) > simState.NumBonded && simState.Rand.Intn(100) < 50]; the second
    number is drawn only when the first test holds. *)
Definition chosen (s : SimState) (i : Z) : M R bool :=
  if NumBonded s <? i then let* c := intn 100 in ret (c <? 50) else ret false.

Definition random_account (s : SimState) (i : Z) (addr : string) : M R (GenesisAccount A) :=
  let* c := chosen s i in
  if negb c then ret (BaseAccount addr)
  else
    let* stake := lift (Int_Int64 (InitialStake s)) in
    let* amount := draw (Int63n stake) in
    let* coin := lift (NewCoin DefaultBondDenom amount) in
    let* initialVesting := lift (NewCoins [coin]) in
    let* c := chosen s i in
    if c then
      let* k := intn 10 in
      let scheduleNum := 1 + k in
      let scheduleNum := if negb (Z.rem scheduleNum 2 =? 0) then scheduleNum + 1 else scheduleNum in
      let* ratio := lift (Dec_QuoInt64 OneDec scheduleNum) in
      let* lazySchedules := mrepeat (Z.to_nat scheduleNum) (random_schedule (GenTimestamp s) ratio) in
      ret (LazyGraded (NewLazyGradedVestingAccount addr initialVesting [mkVestingSchedule MicroLunaDenom lazySchedules]))
    else ret (BaseAccount addr).

Fixpoint random_accounts (s : SimState) (i : Z) (addrs : list string) : M R (list (GenesisAccount A)) :=
  match addrs with
  | [] => ret []
  | addr :: rest =>
      let* acc := random_account s i addr in
      let* accs := random_accounts s (i + 1) rest in
      ret (acc :: accs)
  end.
Definition RandomGenesisAccounts (s : SimState) : M R (list (GenesisAccount A)) := random_accounts s 0 (Accounts s).

(** ** Parameters *)

Definition GenMaxMemoChars : M R Z := draw (RandIntBetween 100 200).
Definition GenTxSigLimit : M R Z := let* x := intn 7 in ret (x + 5).
Definition GenTxSizeCostPerByte : M R Z := draw (RandIntBetween 5 15).
Definition GenSigVerifyCostED25519 : M R Z := draw (RandIntBetween 500 1000).
Definition GenSigVerifyCostSECP256K1 : M R Z := draw (RandIntBetween 500 1000).

Definition auth_RandomizedGenState (s : SimState) : M R (AuthParams * list (GenesisAccount A)) :=
  let* maxMemoChars := GetOrGenerate "max_memo_characters" GenMaxMemoChars in
  let* txSigLimit := GetOrGenerate "tx_sig_limit" GenTxSigLimit in
  let* txSizeCostPerByte := GetOrGenerate "tx_size_cost_per_byte" GenTxSizeCostPerByte in
  let* sigVerifyCostED25519 := GetOrGenerate "sig_verify_cost_ed25519" GenSigVerifyCostED25519 in
  let* sigVerifyCostSECP256K1 := GetOrGenerate "sig_verify_cost_secp256k1" GenSigVerifyCostSECP256K1 in
  let* genesisAccs := RandomGenesisAccounts s in
  ret (mkAuth maxMemoChars txSigLimit txSizeCostPerByte sigVerifyCostED25519 sigVerifyCostSECP256K1, genesisAccs).

(** ** What is drawn *)

Context {HRL : RandLaws R} {HML : SdkMathLaws} {HCL : SdkCoinsLaws}.

Lemma draws_repeat {X} (c : M R X) P n : draws c P -> draws (mrepeat n c) (fun l => Forall P l /\ length l = n).
Proof using Type.
  intros Hc. induction n as [|n IH]; [by apply draws_ret|]. cbn.
  eapply draws_bind; [exact Hc|]. intros x Hx. eapply draws_bind; [exact IH|]. intros l [Hl <-].
  apply draws_ret. split; [by constructor|done].
Qed.

Lemma schedule_random start r : 0 <= start -> 0 < r ->
  draws (random_schedule start r) (fun sc => Schedule_Validate sc = Ok tt /\ Ratio sc = r).
Proof using Type*.
  intros Hs Hr. unfold random_schedule. eapply draws_bind; [by apply draws_intn|]. cbn beta. intros c _.
  eapply (draws_bind _ _ (fun e => start < e)).
  - destruct (c <? 50); (eapply draws_weaken; [apply draws_between; lia|cbn beta; lia]).
  - intros e He. apply draws_ret. split; [|done]. unfold Schedule_Validate. cbn.
    rewrite (proj2 (Z.ltb_ge start 0)), (proj2 (Z.ltb_ge e start)), (proj2 (Z.leb_gt r 0)) by lia. done.
Qed.

(** Equal ratios of which less than one unit each is cut off are accepted: the
    sum is rounded to nine decimals. *)
Lemma equal_schedules n r ss d : 0 < n <= 10 -> 10 ^ 18 - n < n * r <= 10 ^ 18 -> 0 < r ->
  Forall (fun sc => Schedule_Validate sc = Ok tt /\ Ratio sc = r) ss -> Z.of_nat (length ss) = n ->
  VestingSchedule_Validate (mkVestingSchedule d ss) = Ok tt.
Proof using HML.
  intros Hn Hr Hr0 Hss Hlen. unfold VestingSchedule_Validate. cbn [Schedules].
  assert (Hsum : forall acc, 0 <= acc -> acc + Z.of_nat (length ss) * r <= 10 ^ 18 ->
    rfold (fun sumRatio s => let! _ := Schedule_Validate s in Dec_Add sumRatio (Ratio s)) acc ss =
    Ok (acc + Z.of_nat (length ss) * r)).
  { clear Hlen. induction Hss as [|sc l [Hv Hrat] _ IH]; intros acc Hacc Hle; cbn [rfold length] in *; [f_equal; lia|].
    rewrite Hv. cbn [rbind]. rewrite Dec_Add_spec, Hrat, dec_chk_small by lia. cbn [rbind].
    rewrite IH by lia. f_equal. lia. }
  rewrite Hsum by (unfold ZeroDec; lia). rewrite Hlen. unfold ZeroDec. cbn [rbind].
  set (z := (0 + n * r) * fixedPointDecimals).
  assert (Hz : 10 ^ 27 - 10 ^ 10 <= z <= 10 ^ 27) by (unfold z, fixedPointDecimals; lia).
  assert (Hround : dec_round z = 10 ^ 9).
  { pose proof (dec_round_near z) as Hnear. unfold P18 in Hnear. lia. }
  unfold Dec_MulInt64. rewrite Dec_MulInt_spec. fold z. rewrite dec_chk_small by lia. cbn [rbind].
  unfold Dec_RoundInt64. rewrite Dec_RoundInt_spec, Hround. unfold int_chk. rewrite int_fits_small by done. cbn [rbind].
  change (Int_Int64 (10 ^ 9)) with (Ok (10 ^ 9)). cbn [rbind].
  unfold Dec_QuoInt64. by rewrite Dec_QuoInt_spec.
Qed.

Context `{!FreshVestingLaws A}.
Hypothesis bond_valid : ValidateDenom DefaultBondDenom = true.

(** A drawn account is valid.  Its schedule is for Luna, its coins are of the bond
    denom: unless these are the same, nothing of it is ever vesting. *)
Definition account_good (acc : GenesisAccount A) : Prop :=
  match acc with
  | BaseAccount _ => True
  | LazyGraded a => Validate a = Ok tt /\
      (DefaultBondDenom <> MicroLunaDenom -> forall t, GetVestingCoins a t = Ok [])
  end.

Lemma vesting_coin amount : 0 <= amount ->
  NewCoin DefaultBondDenom amount = Ok (mkCoin DefaultBondDenom amount) /\
  NewCoins [mkCoin DefaultBondDenom amount] = Ok (if amount =? 0 then [] else [mkCoin DefaultBondDenom amount]).
Proof using HCL bond_valid.
  intros Ha. rewrite NewCoin_spec, NewCoins_single. cbn [Denom Amount].
  by rewrite bond_valid, (proj2 (Z.leb_le 0 amount)).
Qed.

Lemma lazy_good addr cs amount ss n r : 0 <= amount ->
  cs = (if amount =? 0 then [] else [mkCoin DefaultBondDenom amount]) ->
  0 < n <= 10 -> 10 ^ 18 - n < n * r <= 10 ^ 18 -> 0 < r ->
  Forall (fun sc => Schedule_Validate sc = Ok tt /\ Ratio sc = r) ss -> Z.of_nat (length ss) = n ->
  account_good (LazyGraded (NewLazyGradedVestingAccount addr cs [mkVestingSchedule MicroLunaDenom ss])).
Proof using HRL HML HCL FreshVestingLaws0 bond_valid.
  intros Hamt Hif Hn Hr Hr0 Hss Hlen.
  assert (Hcs : cs = [] \/ cs = [mkCoin DefaultBondDenom amount] /\ 0 < amount)
    by (destruct (Z.eqb_spec amount 0); [by left|right; split; [done|lia]]).
  clear Hif. split.
  - unfold Validate, NewLazyGradedVestingAccount. cbn [VestingSchedules rfold VDenom base].
    rewrite decide_False by set_solver. rewrite (equal_schedules n r) by done. cbn [rbind]. apply fresh_valid.
  - intros Hne t. unfold GetVestingCoins.
    assert (Hok : coins_ok cs).
    { destruct Hcs as [->|[-> Ha]]; [apply coins_ok_nil|]. split; [by repeat constructor|]. by repeat constructor. }
    assert (Hv : GetVestedCoins (NewLazyGradedVestingAccount addr cs [mkVestingSchedule MicroLunaDenom ss]) t = Ok cs).
    { unfold GetVestedCoins, NewLazyGradedVestingAccount. cbn [base]. rewrite fresh_original.
      destruct Hcs as [->|[-> Ha]]; [done|]. cbn [rfold]. unfold GetVestingSchedule. cbn [VestingSchedules List.find VDenom Denom].
      rewrite (proj2 (String.eqb_neq MicroLunaDenom DefaultBondDenom)) by congruence.
      rewrite NewCoin_spec. cbn [Denom Amount]. rewrite bond_valid, (proj2 (Z.leb_le 0 amount)) by lia. done. }
    rewrite Hv. cbn [rbind base NewLazyGradedVestingAccount]. unfold NewLazyGradedVestingAccount. cbn [base]. rewrite fresh_original.
    destruct (Coins_Sub_Ok cs cs Hok Hok) as (c & -> & Hc & Ac); [done|]. f_equal.
    apply coins_ext; [done|apply coins_ok_nil|]. intros d. rewrite Ac. change (amt [] d) with 0. lia.
Qed.

(** The number of schedules is even, and the ratio is cut off by less than a unit. *)
Lemma even_number k : 0 <= k < 10 ->
  let n := if negb (Z.rem (1 + k) 2 =? 0) then 1 + k + 1 else 1 + k in
  0 < n <= 10 /\ 10 ^ 18 - n < n * Z.quot OneDec n <= 10 ^ 18 /\ 0 < Z.quot OneDec n.
Proof using Type.
  intros Hk. assert (Hall : forallb (fun k => let k := Z.of_nat k in
      let n := if negb (Z.rem (1 + k) 2 =? 0) then 1 + k + 1 else 1 + k in
      (0 <? n) && (n <=? 10) && (10 ^ 18 - n <? n * Z.quot OneDec n) && (n * Z.quot OneDec n <=? 10 ^ 18) &&
      (0 <? Z.quot OneDec n)) (seq 0 10) = true) by (by vm_compute).
  rewrite forallb_forall in Hall. specialize (Hall (Z.to_nat k)). rewrite in_seq, Z2Nat.id in Hall by lia.
  cbv zeta in *. rewrite !andb_true_iff, !Z.ltb_lt, !Z.leb_le in Hall. lia.
Qed.

Lemma account_random s i addr : 0 < InitialStake s < 2 ^ 63 -> 0 <= GenTimestamp s ->
  draws (random_account s i addr) account_good.
Proof using Type*.
  intros Hst Hg. unfold random_account.
  assert (Hch : draws (chosen s i) (fun _ => True)).
  { unfold chosen. destruct (NumBonded s <? i); [|by apply draws_ret].
    eapply draws_bind; [by apply draws_intn|]. intros c _. by apply draws_ret. }
  eapply draws_bind; [exact Hch|]. intros c _. destruct c; cbn [negb]; [|by apply draws_ret].
  eapply draws_bind; [apply (draws_lift (InitialStake s) _ (fun n => n = InitialStake s)); [|done]|].
  { unfold Int_Int64, is_int64. rewrite (proj2 (Z.leb_le _ _)) by lia. by rewrite (proj2 (Z.ltb_lt _ _)) by lia. }
  cbn beta. intros n ->. eapply draws_bind; [apply draws_63; lia|]. cbn beta. intros amount Ha.
  destruct (vesting_coin amount) as [E1 E2]; [lia|].
  eapply draws_bind; [apply (draws_lift _ _ (eq (mkCoin DefaultBondDenom amount)) E1); done|]. intros c <-.
  eapply draws_bind; [apply (draws_lift _ _ (eq (if amount =? 0 then [] else [mkCoin DefaultBondDenom amount])) E2); done|].
  intros cs Ecs. eapply draws_bind; [exact Hch|]. intros c _. destruct c; [|by apply draws_ret].
  eapply draws_bind; [by apply (draws_intn 10)|]. cbn beta. intros k Hk.
  destruct (even_number k Hk) as (Hn & Hr & Hr0). set (n := if negb _ then _ else _) in *.
  eapply draws_bind; [apply (draws_lift (Z.quot OneDec n) _ (eq (Z.quot OneDec n))); [|done]|].
  { unfold Dec_QuoInt64. rewrite Dec_QuoInt_spec. by rewrite (proj2 (Z.eqb_neq n 0)) by lia. }
  intros r <-. eapply draws_bind; [by apply draws_repeat, schedule_random|]. intros ss [Hss Hlen].
  apply draws_ret. eapply lazy_good; [|by symmetry|exact Hn|exact Hr|exact Hr0|exact Hss|]; [lia|].
  rewrite Hlen, Z2Nat.id; lia.
Qed.

(** Whatever is drawn, the simulator's accounts are in order: there is one
    for each of its keys, and every vesting account is valid, although its equal
    ratios add up to slightly less than one.  But its schedule is for Luna and its
    coins are of the bond denom, so that nothing of it is ever vesting. *)
Lemma random_accounts_valid s : 0 < InitialStake s < 2 ^ 63 -> 0 <= GenTimestamp s ->
  draws (RandomGenesisAccounts s) (fun accs => length accs = length (Accounts s) /\ Forall account_good accs).
Proof using Type*.
  intros Hst Hg. unfold RandomGenesisAccounts. generalize 0. induction (Accounts s) as [|addr l IH]; intros i.
  - by apply draws_ret.
  - cbn [random_accounts]. eapply draws_bind; [by apply account_random|]. intros acc Ha.
    eapply draws_bind; [apply IH|]. intros accs [Hl Hf]. apply draws_ret. split; [cbn; by rewrite Hl|by constructor].
Qed.

(** The parameters are positive, as [x/auth] asks, and leave room for several
    signatures. *)
Lemma auth_random s : (forall T k, preset T k = None) -> 0 < InitialStake s < 2 ^ 63 -> 0 <= GenTimestamp s ->
  draws (auth_RandomizedGenState s) (fun g =>
    5 <= TxSigLimit g.1 /\ 0 < MaxMemoCharacters g.1 /\ 0 < TxSizeCostPerByte g.1 /\
    0 < SigVerifyCostED25519 g.1 /\ 0 < SigVerifyCostSecp256k1 g.1 /\
    length g.2 = length (Accounts s) /\ Forall account_good g.2).
Proof using Type*.
  intros Hp Hst Hg. unfold auth_RandomizedGenState.
  eapply draws_bind; [apply draws_preset; [done|by apply draws_between]|]. cbn beta. intros a Ha.
  eapply draws_bind; [apply draws_preset; [done|]|].
  { eapply draws_bind; [by apply (draws_intn 7)|]. cbn beta. intros x Hx. apply (draws_ret _ (fun x => 5 <= x)). lia. }
  cbn beta. intros b Hb. eapply draws_bind; [apply draws_preset; [done|by apply draws_between]|]. cbn beta. intros c Hc.
  eapply draws_bind; [apply draws_preset; [done|by apply draws_between]|]. cbn beta. intros d Hd.
  eapply draws_bind; [apply draws_preset; [done|by apply draws_between]|]. cbn beta. intros e He.
  eapply draws_bind; [by apply random_accounts_valid|]. intros accs Haccs. apply draws_ret. cbn. split_and!; lia || apply Haccs.
Qed.
End Accounts.

(** ** Balances *)

Record Balance := mkBalance { BAddress : string; BCoins : Coins }.

Section Balances.
Context `{HM : SdkMath, HC : SdkCoins, HA : Bech32, HBD : BondDenom}.

(** [Int.Mul] *)
Variable Int_Mul : Int -> Int -> res Int.

(** Both coins in the same amount. *)
Definition both (bonded luna : Int) : res Coins :=
  let! a := NewCoin DefaultBondDenom bonded in
  let! b := NewCoin MicroLunaDenom luna in
  NewCoins [a; b].

Definition RandomGenesisBalances (s : SimState) : res (list Balance) :=
  rmap (fun acc => let! cs := both (InitialStake s) (InitialStake s) in Ok (mkBalance (AccString acc) cs)) (Accounts s).

(** The balances and the supply of the bank's genesis: the bonded tokens are in the
    supply and come from the staking module.  The flags for sending are drawn by
    the SDK and left out. *)
Definition bank_RandomizedGenState (s : SimState) : res (list Balance * Coins) :=
  let numAccs := Z.of_nat (length (Accounts s)) in
  let! totalSupply := Int_Mul (InitialStake s) (numAccs + NumBonded s) in
  let! totalLunaSupply := Int_Mul (InitialStake s) numAccs in
  let! supply := both totalSupply totalLunaSupply in
  let! balances := RandomGenesisBalances s in
  Ok (balances, supply).

Context {HML : SdkMathLaws} {HCL : SdkCoinsLaws}.
Hypothesis Int_Mul_spec : forall a b, Int_Mul a b = int_chk (a * b).
(** [sdk.NewCoins] sorts and panics on a denom that is given twice. *)
Hypothesis NewCoins_two : forall c1 c2 : Coin, ValidateDenom (Denom c1) = true -> ValidateDenom (Denom c2) = true ->
  0 < Amount c1 -> 0 < Amount c2 ->
  (Denom c1 <> Denom c2 -> exists cs, NewCoins [c1; c2] = Ok cs /\ coins_ok cs /\ forall d, amt cs d = amt [c1; c2] d) /\
  (Denom c1 = Denom c2 -> NewCoins [c1; c2] = Panic).
Hypothesis bond_valid : ValidateDenom DefaultBondDenom = true.
Hypothesis luna_valid : ValidateDenom MicroLunaDenom = true.

Lemma both_Ok x y : DefaultBondDenom <> MicroLunaDenom -> 0 < x -> 0 < y ->
  exists cs, both x y = Ok cs /\ coins_ok cs /\
    forall d, amt cs d = (if decide (d = DefaultBondDenom) then x else 0) + (if decide (d = MicroLunaDenom) then y else 0).
Proof using All.
  intros Hne Hx Hy. unfold both. rewrite !NewCoin_spec, bond_valid, luna_valid.
  rewrite (proj2 (Z.leb_le 0 x)), (proj2 (Z.leb_le 0 y)) by lia. cbn [andb rbind].
  destruct (NewCoins_two (mkCoin DefaultBondDenom x) (mkCoin MicroLunaDenom y)) as [Hok _]; [done..|].
  destruct (Hok Hne) as (cs & -> & Hcs & Ha). exists cs. split_and!; [done|done|]. intros d. rewrite Ha.
  unfold amt. rewrite !zsum_cons, zsum_nil. cbn [Denom Amount]. repeat case_decide; congruence || lia.
Qed.

(** The simulated bank is balanced: its supply is what the accounts hold, and the
    bonded tokens on top. *)
Lemma random_supply s : DefaultBondDenom <> MicroLunaDenom -> 0 < InitialStake s -> 0 <= NumBonded s ->
  Accounts s <> [] -> int_fits (InitialStake s * (Z.of_nat (length (Accounts s)) + NumBonded s)) = true ->
  exists balances supply, bank_RandomizedGenState s = Ok (balances, supply) /\ BAddress <$> balances = AccString <$> Accounts s /\
    forall d, amt supply d = zsum (fun b => amt (BCoins b) d) balances +
      (if decide (d = DefaultBondDenom) then InitialStake s * NumBonded s else 0).
Proof using All.
  intros Hne Hs Hn Hacc Hfit. unfold bank_RandomizedGenState. rewrite !Int_Mul_spec. unfold int_chk. rewrite Hfit.
  set (n := Z.of_nat (length (Accounts s))) in *. assert (0 < n) by (unfold n; destruct (Accounts s); [done|]; cbn; lia).
  rewrite (int_fits_down (InitialStake s * n) (InitialStake s * (n + NumBonded s))) by (done || nia). cbn [rbind].
  destruct (both_Ok (InitialStake s * (n + NumBonded s)) (InitialStake s * n)) as (supply & -> & _ & As); [done|nia|nia|].
  destruct (both_Ok (InitialStake s) (InitialStake s)) as (cs & Ecs & _ & Ac); [done..|]. cbn [rbind].
  assert (Hb : forall l, rmap (fun acc => let! cs := both (InitialStake s) (InitialStake s) in Ok (mkBalance (AccString acc) cs)) l =
    Ok ((fun acc => mkBalance (AccString acc) cs) <$> l)).
  { induction l as [|a l IH]; [done|]. cbn [rmap]. rewrite IH. by rewrite Ecs. }
  unfold RandomGenesisBalances. rewrite Hb. cbn [rbind]. eexists _, _. split; [reflexivity|].
  split; [by rewrite <- list_fmap_compose|]. intros d. rewrite As, zsum_fmap. cbn [BCoins].
  assert (Hc : forall l : list string, zsum (fun _ => amt cs d) l = Z.of_nat (length l) * amt cs d).
  { induction l as [|a l IH]; [done|]. rewrite zsum_cons, IH. cbn [length]. lia. }
  rewrite Hc, Ac. fold n. repeat case_decide; nia.
Qed.
End Balances.
End SimAccounts.
