(* ===== verification/Mempool.v ===== *)
(** * The application mempool

    [app/mempool/mempool_fifo.go]: two FIFO queues of pending transactions, one
    for oracle transactions and one for the rest, with a map from (sender,
    sequence) to queue element for each.  The queue is CometBFT's [clist], a
    third-party type: an interface with laws.  Operations run one at a time, as
    the ABCI connection serialises them. *)

From S2P Require Import Prelude Sdk Ante.

Module Mempool.

Definition ErrMempoolTxMaxCapacity := SdkError "pool reached max tx capacity".
Definition ErrTxNotFound := SdkError "tx not found in mempool".

Record customTxKey := mkKey { address : string; nonce : Z }.

#[export] Instance customTxKey_eq_dec : EqDecision customTxKey.
Proof. solve_decision. Defined.
#[export] Instance customTxKey_countable : Countable customTxKey.
Proof.
  refine (inj_countable' (fun k => (address k, nonce k)) (fun p => mkKey p.1 p.2) _).
  by intros [].
Defined.

(** Public keys, with [sdk.AccAddress(pk.Address()).String()]. *)
Class PubKeys := { PK : Type; acc_string : PK -> string }.

Record SignatureV2 `{PubKeys} := mkSig { PubKey : option PK; Sequence : Z }.

(** A transaction: its messages, and its signatures when it has
    [GetSignaturesV2] at all. *)
Record Tx `{PubKeys} := mkTx {
  GetMsgs : list Ante.Msg;
  GetSignaturesV2 : option (res (list SignatureV2)) }.

(** CometBFT's [clist.CList]: [elements] is the walk from [Front] along [Next]. *)
Class CLists (V : Type) := {
  CElement : Type;
  CList : Type;
  clist_New : CList;
  elements : CList -> list CElement;
  Len : CList -> Z;
  Value : CElement -> V;
  PushBack : V -> CList -> CElement * CList;
  clist_Remove : CElement -> CList -> res CList;
}.

(** An element pushed is new and last; one in the list can be removed. *)
Class CListsLaws (V : Type) `{CLists V} := {
  elements_New : elements clist_New = [];
  Len_elements l : Len l = Z.of_nat (length (elements l));
  elements_PushBack v l : elements (PushBack v l).2 = elements l ++ [(PushBack v l).1];
  PushBack_fresh v l : (PushBack v l).1 ∉ elements l;
  Value_PushBack v l : Value (PushBack v l).1 = v;
  elements_Remove e l l1 l2 : elements l = l1 ++ e :: l2 ->
    exists l', clist_Remove e l = Ok l' /\ elements l' = l1 ++ l2;
}.

Section Pool.
Context `{HK : PubKeys, HL : !CLists Tx}.

Definition getTxKey (tx : Tx) : res customTxKey :=
  match GetSignaturesV2 tx with
  | None => Panic
  | Some sigs =>
      let! sigs := sigs in
      match sigs with
      | [] => Err (Errorf "tx must have at least one signer")
      | sig :: _ =>
          match PubKey sig with
          | None => Panic
          | Some pk => Ok {| address := acc_string pk; nonce := Sequence sig |}
          end
      end
  end.

Record FifoMempool := mkPool {
  txs : CList;
  txsOracle : CList;
  txsMap : gmap customTxKey CElement;
  txsMapOracle : gmap customTxKey CElement;
  maxTx : Z }.

Definition DefaultMaxTx : Z := 5000.

Definition NewFifoMempool (opts : list (FifoMempool -> FifoMempool)) : FifoMempool :=
  foldl (fun mp opt => opt mp)
    {| txs := clist_New; txsOracle := clist_New; txsMap := ∅; txsMapOracle := ∅;
       maxTx := DefaultMaxTx |} opts.

Definition FifoMaxTxOpt (n : Z) (mp : FifoMempool) : FifoMempool :=
  {| txs := txs mp; txsOracle := txsOracle mp; txsMap := txsMap mp;
     txsMapOracle := txsMapOracle mp; maxTx := n |}.

Definition push_oracle (k : customTxKey) (tx : Tx) (mp : FifoMempool) : FifoMempool :=
  let '(e, q) := PushBack tx (txsOracle mp) in
  {| txs := txs mp; txsOracle := q; txsMap := txsMap mp;
     txsMapOracle := <[k := e]> (txsMapOracle mp); maxTx := maxTx mp |}.

Definition push_regular (k : customTxKey) (tx : Tx) (mp : FifoMempool) : FifoMempool :=
  let '(e, q) := PushBack tx (txs mp) in
  {| txs := q; txsOracle := txsOracle mp; txsMap := <[k := e]> (txsMap mp);
     txsMapOracle := txsMapOracle mp; maxTx := maxTx mp |}.

Definition Insert (tx : Tx) : M FifoMempool unit :=
  let* mp := gets id in
  let totalTxs := Len (txs mp) + Len (txsOracle mp) in
  if (0 <=? maxTx mp) && (maxTx mp <=? totalTxs) then fail ErrMempoolTxMaxCapacity
  else if maxTx mp <? 0 then ret tt
  else
    let* txKey := lift (getTxKey tx) in
    if Ante.IsOracleTx (GetMsgs tx) then modify (push_oracle txKey tx)
    else modify (push_regular txKey tx).

(** ** Iteration *)

Record fifoIterator := mkIter {
  currentTx : option CElement;
  listTxKey : list customTxKey;
  mapTxs : gmap customTxKey CElement;
  mapTxsOracle : gmap customTxKey CElement }.

(** [txKey, _ := getTxKey(tx)] *)
Definition key_or_zero (tx : Tx) : res customTxKey :=
  match getTxKey tx with Err _ => Ok {| address := ""; nonce := 0 |} | r => r end.

(** One of the two loops of [Select], over the elements of a queue. *)
Definition select_step (acc : list customTxKey * gmap customTxKey CElement) (e : CElement)
    : res (list customTxKey * gmap customTxKey CElement) :=
  let! txKey := key_or_zero (Value e) in
  Ok (acc.1 ++ [txKey], <[txKey := e]> acc.2).

Fixpoint Next_loop (keys : list customTxKey) (mo mr : gmap customTxKey CElement)
    : option fifoIterator :=
  match keys with
  | [] => None
  | txKey :: keys' =>
      match mo !! txKey with
      | Some e => Some {| currentTx := Some e; listTxKey := keys'; mapTxs := mr;
                          mapTxsOracle := delete txKey mo |}
      | None =>
          match mr !! txKey with
          | Some e => Some {| currentTx := Some e; listTxKey := keys';
                              mapTxs := delete txKey mr; mapTxsOracle := mo |}
          | None => Next_loop keys' mo mr
          end
      end
  end.

Definition Next (it : fifoIterator) : option fifoIterator :=
  Next_loop (listTxKey it) (mapTxsOracle it) (mapTxs it).

(** [fifoIterator.Tx] *)
Definition iter_Tx (it : fifoIterator) : res Tx :=
  match currentTx it with Some e => Ok (Value e) | None => Panic end.

Definition Select (mp : FifoMempool) : res (option fifoIterator) :=
  let! oracle := rfold select_step ([], ∅) (elements (txsOracle mp)) in
  let! all := rfold select_step (oracle.1, ∅) (elements (txs mp)) in
  Ok (Next {| currentTx := None; listTxKey := all.1; mapTxs := all.2;
              mapTxsOracle := oracle.2 |}).

Definition Remove (tx : Tx) : M FifoMempool unit :=
  let* mp := gets id in
  let* txKey := lift (getTxKey tx) in
  if Ante.IsOracleTx (GetMsgs tx) then
    match txsMapOracle mp !! txKey with
    | Some e =>
        let* q := lift (clist_Remove e (txsOracle mp)) in
        modify (fun _ => {| txs := txs mp; txsOracle := q; txsMap := txsMap mp;
          txsMapOracle := delete txKey (txsMapOracle mp); maxTx := maxTx mp |})
    | None => fail ErrTxNotFound
    end
  else
    match txsMap mp !! txKey with
    | Some e =>
        let* q := lift (clist_Remove e (txs mp)) in
        modify (fun _ => {| txs := q; txsOracle := txsOracle mp;
          txsMap := delete txKey (txsMap mp); txsMapOracle := txsMapOracle mp;
          maxTx := maxTx mp |})
    | None => fail ErrTxNotFound
    end.

Definition CountTx (mp : FifoMempool) : Z := Len (txs mp) + Len (txsOracle mp).

(** The loop over an iterator: [for it != nil { use(it.Tx()); it = it.Next() }],
    for at most [fuel] tests of its condition ([None]: not finished by then). *)
Fixpoint drain (fuel : nat) (it : option fifoIterator) : option (res (list Tx)) :=
  match fuel with
  | O => None
  | S fuel' =>
      match it with
      | None => Some (Ok [])
      | Some i =>
          match drain fuel' (Next i) with
          | None => None
          | Some rest => Some (let! tx := iter_Tx i in let! l := rest in Ok (tx :: l))
          end
      end
  end.

(** Everything a proposer that does not stop early sees of a pool. *)
Definition select_all (mp : FifoMempool) : res (list Tx) :=
  let! it := Select mp in
  match drain (S (Z.to_nat (CountTx mp))) it with Some r => r | None => Panic end.

End Pool.
End Mempool.
