(* ===== verification/MempoolFacts.v ===== *)
(** * The mempool is a FIFO queue with oracle priority

    An abstract pool of two lists of transactions, the proof that the mempool
    with its queues, maps and iterators refines it as long as no pending
    (sender, sequence) pair is submitted twice, and what happens when one is. *)

From S2P Require Import Prelude Sdk Ante Mempool.

Module MempoolFacts.
Import Mempool.

#[local] Instance res_eq_dec `{EqDecision A} : EqDecision (res A).
Proof. solve_decision. Defined.

(** ** Abstract specification *)

Section Spec.
Context `{HK : PubKeys}.

Record Pool := { oracle_txs : list Tx; regular_txs : list Tx }.

Definition has_key (k : customTxKey) (tx : Tx) : bool := bool_decide (getTxKey tx = Ok k).

Definition on_queue (oracle : bool) (f : list Tx -> list Tx) (p : Pool) : Pool :=
  if oracle then {| oracle_txs := f (oracle_txs p); regular_txs := regular_txs p |}
  else {| oracle_txs := oracle_txs p; regular_txs := f (regular_txs p) |}.
Definition queue (oracle : bool) (p : Pool) : list Tx :=
  if oracle then oracle_txs p else regular_txs p.
Definition size (p : Pool) : Z := Z.of_nat (length (oracle_txs p ++ regular_txs p)).

(** The calls of the mempool interface, and what they answer. *)
Inductive call := CInsert (tx : Tx) | CRemove (tx : Tx) | CSelect | CCount.
Inductive reply := RUnit | RTxs (l : list Tx) | RCount (n : Z).

Definition spec_call (max : Z) (c : call) : M Pool reply :=
  match c with
  | CInsert tx =>
      let* p := gets id in
      if max <? 0 then ret RUnit
      else if max <=? size p then fail ErrMempoolTxMaxCapacity
      else
        let* _ := lift (getTxKey tx) in
        do* modify (on_queue (Ante.IsOracleTx (GetMsgs tx)) (fun l => l ++ [tx])) in
        ret RUnit
  | CRemove tx =>
      let* p := gets id in
      let* k := lift (getTxKey tx) in
      let o := Ante.IsOracleTx (GetMsgs tx) in
      if existsb (has_key k) (queue o p) then
        do* modify (on_queue o (filter (fun t => has_key k t = false))) in ret RUnit
      else fail ErrTxNotFound
  | CSelect => gets (fun p => RTxs (oracle_txs p ++ regular_txs p))
  | CCount => gets (fun p => RCount (size p))
  end.

(** Run calls one after the other; a failed call leaves its state and the next
    one runs, a panic ends the run. *)
Inductive answer := ADone (r : reply) | AFailed (e : error) | APanicked.

Fixpoint replies {S} (f : call -> M S reply) (cs : list call) (s : S) : list answer :=
  match cs with
  | [] => []
  | c :: cs' =>
      match f c s with
      | Ret r s' => ADone r :: replies f cs' s'
      | Fail e s' => AFailed e :: replies f cs' s'
      | Halt => [APanicked]
      end
  end.

(** No transaction is inserted while one of the same key is pending in its
    queue. *)
Definition fresh_in (p : Pool) (c : call) : bool :=
  match c with
  | CInsert tx => forallb (fun t => bool_decide (getTxKey t <> getTxKey tx))
                    (queue (Ante.IsOracleTx (GetMsgs tx)) p)
  | _ => true
  end.

Fixpoint fresh_calls (max : Z) (cs : list call) (p : Pool) : bool :=
  match cs with
  | [] => true
  | c :: cs' =>
      fresh_in p c &&
      match spec_call max c p with
      | Ret _ p' | Fail _ p' => fresh_calls max cs' p'
      | Halt => true
      end
  end.

End Spec.

Definition pool_call `{HK : PubKeys, HL : !CLists Tx} (c : call) : M FifoMempool reply :=
  match c with
  | CInsert tx => do* Insert tx in ret RUnit
  | CRemove tx => do* Remove tx in ret RUnit
  | CSelect => let* mp := gets id in let* l := lift (select_all mp) in ret (RTxs l)
  | CCount => gets (fun mp => RCount (CountTx mp))
  end.

(** ** Filtered lists *)

Lemma filter_all {A} (P : A -> Prop) `{!forall x, Decision (P x)} (l : list A) :
  (forall x, x ∈ l -> P x) -> filter P l = l.
Proof.
  induction l as [|x l IH]; intros Hall; [done|].
  rewrite filter_cons_True by (apply Hall; left). f_equal. apply IH. intros y Hy. apply Hall. by right.
Qed.

(** ** Queues and their maps *)

Section Refinement.
Context `{HK : PubKeys, HL : !CLists Tx, HLL : !CListsLaws Tx}.

Implicit Types (es : list CElement) (m : gmap customTxKey CElement).

(** A map holds exactly the elements of a list, under their keys: keys are then
    unique in the list. *)
Definition indexes m es : Prop :=
  forall k e, m !! k = Some e <-> e ∈ es /\ getTxKey (Value e) = Ok k.

(** Every element of a list has a key. *)
Definition keyed es : Prop := forall e, e ∈ es -> exists k, getTxKey (Value e) = Ok k.

Lemma indexes_nil : indexes ∅ [].
Proof.
  intros k e. rewrite lookup_empty. split; [done|].
  intros [Hin _]. by apply not_elem_of_nil in Hin.
Qed.

Lemma indexes_snoc m es e k : indexes m es -> getTxKey (Value e) = Ok k ->
  (forall e', e' ∈ es -> getTxKey (Value e') <> Ok k) -> indexes (<[k := e]> m) (es ++ [e]).
Proof.
  intros Hm Hk Hf k' e'. rewrite elem_of_app, list_elem_of_singleton.
  destruct (decide (k' = k)) as [->|Hne].
  - rewrite lookup_insert_eq. split; [intros [= <-]; auto|].
    intros [[Hin | ->] Hk']; [by apply Hf in Hk'|done].
  - rewrite lookup_insert_ne by done. rewrite (Hm k' e').
    split; [intros []; auto|]. intros [[Hin | ->] Hk']; [done|congruence].
Qed.

Lemma indexes_remove m es1 es2 e k : indexes m (es1 ++ e :: es2) -> e ∉ es1 ++ es2 ->
  m !! k = Some e -> indexes (delete k m) (es1 ++ es2).
Proof.
  intros Hm Hni Hk k' e'. pose proof (proj1 (Hm k e) Hk) as [_ Hke].
  assert (e' ∈ es1 ++ e :: es2 <-> e' = e \/ e' ∈ es1 ++ es2) as Hsplit.
  { rewrite !elem_of_app, elem_of_cons. tauto. }
  destruct (decide (k' = k)) as [->|Hne].
  - rewrite lookup_delete_eq. split; [done|]. intros [Hin Hk'].
    assert (m !! k = Some e') by (apply Hm; split; [apply Hsplit; by right|done]).
    by simplify_eq.
  - rewrite lookup_delete_ne by done. rewrite (Hm k' e'), Hsplit.
    split; [|by intros []; split; [right|]]. intros [[->|Hin] Hk']; [congruence|done].
Qed.

Lemma indexes_tail m e es k : indexes m (e :: es) -> NoDup (e :: es) ->
  getTxKey (Value e) = Ok k -> m !! k = Some e /\ indexes (delete k m) es.
Proof.
  intros Hm [Hni Hnd]%NoDup_cons Hk.
  assert (m !! k = Some e) as Hmk by (apply Hm; split; [left|done]). split; [done|].
  by apply (indexes_remove m [] es e k).
Qed.

(** ** Selecting *)

(** [keys] are the keys of the elements [es], in order. *)
Definition keys_of (keys : list customTxKey) es : Prop :=
  Forall2 (fun k e => getTxKey (Value e) = Ok k) keys es.

Lemma keyed_keys es : keyed es -> exists keys, keys_of keys es.
Proof.
  induction es as [|e es IH]; intros Hk; [by exists []; constructor|].
  destruct (Hk e) as [k E]; [left|].
  destruct IH as [ks Hks]; [intros x Hx; apply Hk; by right|].
  exists (k :: ks). by constructor.
Qed.

(** The loop of [Select] collects the keys in order and a map of the elements. *)
Lemma select_loop es done keys m ks : indexes m done -> keys_of ks es ->
  (exists m', indexes m' (done ++ es)) -> NoDup (done ++ es) ->
  exists m', indexes m' (done ++ es) /\
    rfold select_step (keys, m) es = Ok (keys ++ ks, m').
Proof.
  intros Hm Hks. revert done keys m Hm.
  induction Hks as [|k e ks es Hk Hks IH]; intros done keys m Hm [mx Hmx] Hnd.
  - exists m. by rewrite !app_nil_r.
  - assert (indexes (<[k := e]> m) (done ++ [e])) as Hm'.
    { apply indexes_snoc; [done|done|]. intros e' Hin Hk'.
      assert (mx !! k = Some e') by (apply Hmx; split; [apply elem_of_app; by left|done]).
      assert (mx !! k = Some e)
        by (apply Hmx; split; [apply elem_of_app; right; left|done]).
      assert (e' = e) as -> by congruence.
      apply NoDup_app in Hnd as (_ & Hd & _). apply (Hd e); [done|left]. }
    simpl. unfold select_step at 1. unfold key_or_zero. rewrite Hk. simpl.
    destruct (IH (done ++ [e]) (keys ++ [k]) _ Hm') as (m' & Hi & E).
    { exists mx. by rewrite <- app_assoc. }
    { by rewrite <- app_assoc. }
    exists m'. rewrite <- app_assoc in Hi, E. by split.
Qed.

(** Walking an iterator whose maps index the elements still to come yields
    them, and ends. *)
Lemma drain_keys ko es kr rs mo mr fuel :
  keys_of ko es -> keys_of kr rs -> NoDup es -> NoDup rs -> indexes mo es -> indexes mr rs ->
  (length es + length rs < fuel)%nat ->
  drain fuel (Next_loop (ko ++ kr) mo mr) = Some (Ok (Value <$> es ++ rs)).
Proof.
  intros Hko Hkr. revert mo mr fuel.
  induction Hko as [|k e ko es Hk Hko IH]; intros mo mr fuel Hne Hnr Hmo Hmr Hf.
  - simpl. assert (forall k, mo !! k = None) as Hno.
    { intros k. destruct (mo !! k) as [e|] eqn:E; [|done].
      apply Hmo in E as [Hin _]. by apply not_elem_of_nil in Hin. }
    clear Hmo Hne. revert mr fuel Hmr Hf Hnr.
    induction Hkr as [|k e kr rs Hk Hkr IH]; intros mr fuel Hmr Hf Hnr;
      (destruct fuel as [|fuel]; [simpl in *; lia|]); [done|].
    destruct (indexes_tail mr e rs k Hmr Hnr Hk) as [Hl Hi].
    simpl. rewrite Hno, Hl. unfold Next. simpl.
    rewrite IH; [done|done|simpl in *; lia|by apply NoDup_cons in Hnr as []].
  - destruct fuel as [|fuel]; [simpl in *; lia|].
    destruct (indexes_tail mo e es k Hmo Hne Hk) as [Hl Hi].
    simpl. rewrite Hl. unfold Next. simpl.
    rewrite IH; [done|by apply NoDup_cons in Hne as []|done|done|done|simpl in *; lia].
Qed.

(** ** The simulation relation *)

Record refines_queue (q : CList) m (l : list Tx) : Prop := {
  rq_values : Value <$> elements q = l;
  rq_nodup : NoDup (elements q);
  rq_keyed : keyed (elements q);
  rq_index : indexes m (elements q) }.

Record refines (max : Z) (mp : FifoMempool) (p : Pool) : Prop := {
  r_oracle : refines_queue (txsOracle mp) (txsMapOracle mp) (oracle_txs p);
  r_regular : refines_queue (txs mp) (txsMap mp) (regular_txs p);
  r_max : maxTx mp = max }.

Lemma refines_queue_New : refines_queue clist_New ∅ [].
Proof.
  constructor; rewrite elements_New; [done|constructor| |apply indexes_nil].
  intros e Hin. by apply not_elem_of_nil in Hin.
Qed.

Lemma Len_queue q m l : refines_queue q m l -> Len q = Z.of_nat (length l).
Proof. intros Hq. rewrite Len_elements, <- (rq_values q m l Hq). by rewrite length_fmap. Qed.

Lemma CountTx_size max mp p : refines max mp p -> CountTx mp = size p.
Proof.
  intros [Ho Hr _]. unfold CountTx, size. rewrite (Len_queue _ _ _ Ho), (Len_queue _ _ _ Hr).
  rewrite length_app. lia.
Qed.

Lemma refines_push q m l tx k : refines_queue q m l -> getTxKey tx = Ok k ->
  (forall t, t ∈ l -> getTxKey t <> Ok k) ->
  refines_queue (PushBack tx q).2 (<[k := (PushBack tx q).1]> m) (l ++ [tx]).
Proof.
  intros [<- Hnd Hk Hi] Htx Hf.
  constructor; rewrite elements_PushBack.
  - by rewrite fmap_app, fmap_cons, Value_PushBack.
  - apply NoDup_app. split; [done|]. split; [|apply NoDup_singleton].
    intros x Hx ->%list_elem_of_singleton. by apply PushBack_fresh in Hx.
  - intros e [Hin| ->%list_elem_of_singleton]%elem_of_app; [by apply Hk|].
    exists k. by rewrite Value_PushBack.
  - apply indexes_snoc; [done|by rewrite Value_PushBack|].
    intros e' Hin. apply Hf. by apply list_elem_of_fmap_2.
Qed.

Lemma refines_delete q m l e k : refines_queue q m l -> m !! k = Some e ->
  existsb (has_key k) l = true /\
  exists q', clist_Remove e q = Ok q' /\
    refines_queue q' (delete k m) (filter (fun t => has_key k t = false) l).
Proof.
  intros [<- Hnd Hk Hi] Hm. pose proof (proj1 (Hi k e) Hm) as [Hin Hke]. split.
  { apply existsb_exists. exists (Value e). split; [|by apply bool_decide_eq_true].
    apply list_elem_of_In. by apply list_elem_of_fmap_2. }
  apply list_elem_of_split in Hin as (l1 & l2 & El).
  destruct (elements_Remove e q l1 l2 El) as (q' & Hr & He). exists q'. split; [done|].
  rewrite El in *. apply NoDup_app in Hnd as (Hn1 & Hd & [Hn2 Hnd2]%NoDup_cons).
  assert (e ∉ l1 ++ l2) as Hni.
  { rewrite elem_of_app. intros [Hi1|Hi2]; [|done]. apply (Hd e Hi1). left. }
  pose proof (indexes_remove m l1 l2 e k Hi Hni Hm) as Hrest.
  constructor; rewrite He; [| | |done].
  - rewrite !fmap_app, fmap_cons, filter_app, filter_cons_False, <- filter_app, <- fmap_app
      by (unfold has_key; by rewrite bool_decide_eq_true_2).
    symmetry. apply filter_all. intros t Ht. apply bool_decide_eq_false. intros Hkt.
    apply list_elem_of_fmap in Ht as (x & -> & Hx).
    pose proof (proj2 (Hrest k x) (conj Hx Hkt)) as Hc. by rewrite lookup_delete_eq in Hc.
  - apply NoDup_app. split; [done|]. split; [|done]. intros x Hx1 Hx2. apply (Hd x Hx1). by right.
  - intros x Hx. apply Hk. rewrite elem_of_app, elem_of_cons. apply elem_of_app in Hx. tauto.
Qed.

Lemma refines_absent q m l k : refines_queue q m l -> m !! k = None ->
  existsb (has_key k) l = false.
Proof.
  intros [<- Hnd Hk Hi] Hm. apply not_true_is_false. intros Hx.
  apply existsb_exists in Hx as (t & Hin & Ht%bool_decide_eq_true).
  apply list_elem_of_In, list_elem_of_fmap in Hin as (e & -> & Hin).
  assert (m !! k = Some e) by by apply Hi. congruence.
Qed.

Lemma select_all_refines max mp p : refines max mp p ->
  select_all mp = Ok (oracle_txs p ++ regular_txs p).
Proof.
  intros Hr. pose proof Hr as [[<- Hno Hko Hio] [<- Hnr Hkr Hir] _].
  destruct (keyed_keys _ Hko) as [ko Eo], (keyed_keys _ Hkr) as [kr Er].
  destruct (select_loop _ [] [] ∅ ko indexes_nil Eo) as (mo & Hmo & E1); [by eexists|done|].
  destruct (select_loop _ [] ko ∅ kr indexes_nil Er) as (mr & Hmr & E2); [by eexists|done|].
  unfold select_all, Select. simpl in E1, E2. rewrite E1. cbn [rbind fst snd].
  rewrite E2. cbn [rbind fst snd]. unfold Next. cbn [listTxKey mapTxs mapTxsOracle].
  rewrite (drain_keys ko (elements (txsOracle mp)) kr (elements (txs mp)) mo mr); try done.
  - by rewrite fmap_app.
  - unfold CountTx. rewrite !Len_elements. lia.
Qed.

(** ** Every call is simulated *)

Definition simulates max (o1 : out FifoMempool reply) (o2 : out Pool reply) : Prop :=
  match o1, o2 with
  | Ret r1 mp, Ret r2 p => r1 = r2 /\ refines max mp p
  | Fail e1 mp, Fail e2 p => e1 = e2 /\ refines max mp p
  | Halt, Halt => True
  | _, _ => False
  end.

Lemma insert_simulates max tx mp p : refines max mp p -> fresh_in p (CInsert tx) = true ->
  simulates max (pool_call (CInsert tx) mp) (spec_call max (CInsert tx) p).
Proof.
  intros Hr Hf. pose proof (CountTx_size _ _ _ Hr) as Hc. pose proof Hr as [Ho Hg <-].
  unfold pool_call, spec_call, Insert, bind, gets, fail, ret, lift, modify, id.
  unfold CountTx in Hc. rewrite Hc.
  destruct (Z.leb_spec 0 (maxTx mp)), (Z.ltb_spec (maxTx mp) 0); try lia; simpl; [|by split].
  destruct (maxTx mp <=? size p); [by split|].
  destruct (getTxKey tx) as [k| |] eqn:Hk; [|by split|done].
  assert (forall t, t ∈ queue (Ante.IsOracleTx (GetMsgs tx)) p -> getTxKey t <> Ok k) as Hfresh.
  { intros t Hin. simpl in Hf. rewrite forallb_forall in Hf.
    apply list_elem_of_In, Hf, bool_decide_eq_true in Hin. by rewrite Hk in Hin. }
  destruct (Ante.IsOracleTx (GetMsgs tx)); simpl in *; split; try done.
  - pose proof (refines_push _ _ _ tx k Ho Hk Hfresh) as Hp. unfold push_oracle.
    destruct (PushBack tx (txsOracle mp)) as [e q]. by constructor.
  - pose proof (refines_push _ _ _ tx k Hg Hk Hfresh) as Hp. unfold push_regular.
    destruct (PushBack tx (txs mp)) as [e q]. by constructor.
Qed.

Lemma remove_simulates max tx mp p : refines max mp p ->
  simulates max (pool_call (CRemove tx) mp) (spec_call max (CRemove tx) p).
Proof.
  intros Hr. pose proof Hr as [Ho Hg <-].
  unfold pool_call, spec_call, Remove, bind, gets, fail, ret, lift, modify, id.
  destruct (getTxKey tx) as [k| |]; [|by split|done].
  destruct (Ante.IsOracleTx (GetMsgs tx)); simpl.
  - destruct (txsMapOracle mp !! k) as [e|] eqn:Hm.
    + destruct (refines_delete _ _ _ _ _ Ho Hm) as (-> & q & -> & Hq). split; [done|]. by constructor.
    + rewrite (refines_absent _ _ _ _ Ho Hm). by split.
  - destruct (txsMap mp !! k) as [e|] eqn:Hm.
    + destruct (refines_delete _ _ _ _ _ Hg Hm) as (-> & q & -> & Hq). split; [done|]. by constructor.
    + rewrite (refines_absent _ _ _ _ Hg Hm). by split.
Qed.

Lemma call_simulates max c mp p : refines max mp p -> fresh_in p c = true ->
  simulates max (pool_call c mp) (spec_call max c p).
Proof.
  intros Hr Hf. destruct c as [tx|tx| |].
  - by apply insert_simulates.
  - by apply remove_simulates.
  - unfold pool_call, spec_call, bind, gets, lift, id.
    rewrite (select_all_refines max mp p Hr). by split.
  - unfold pool_call, spec_call, gets. rewrite (CountTx_size max mp p Hr). by split.
Qed.

Lemma replies_refine max cs mp p : refines max mp p -> fresh_calls max cs p = true ->
  replies pool_call cs mp = replies (spec_call max) cs p.
Proof.
  revert mp p. induction cs as [|c cs IH]; intros mp p Hr Hf; [done|].
  simpl in Hf. apply andb_true_iff in Hf as [Hf Hfs].
  pose proof (call_simulates max c mp p Hr Hf) as Hs. unfold simulates in Hs. simpl.
  destruct (pool_call c mp), (spec_call max c p); try done; destruct Hs as [-> Hs]; f_equal; auto.
Qed.

(** C10. The mempool refines a pair of FIFO queues: for every limit and every
    sequence of [Insert], [Remove], [Select] and [CountTx] calls on a new pool in
    which no (sender, sequence) pair is inserted while pending, each call answers
    what the abstract pool answers, errors included.  In particular [Select]
    followed by [Next] until nil ends within [CountTx] + 1 tests and yields
    first the oracle transactions and then the others, both in order of
    arrival, and no call panics unless a transaction has no readable signer. *)
Theorem mempool_refines max cs :
  fresh_calls max cs {| oracle_txs := []; regular_txs := [] |} = true ->
  replies pool_call cs (NewFifoMempool [FifoMaxTxOpt max]) =
  replies (spec_call max) cs {| oracle_txs := []; regular_txs := [] |}.
Proof. apply replies_refine. constructor; [apply refines_queue_New..|done]. Qed.

(** ** Termination in general *)

Lemma Next_loop_shorter keys mo mr it : Next_loop keys mo mr = Some it ->
  (length (listTxKey it) < length keys)%nat /\ is_Some (currentTx it).
Proof.
  revert mo mr. induction keys as [|k keys IH]; intros mo mr E; [done|]. simpl in E.
  destruct (mo !! k); [simplify_eq; simpl; split; [lia|by eexists]|].
  destruct (mr !! k); [simplify_eq; simpl; split; [lia|by eexists]|].
  apply IH in E as [? ?]. split; [simpl; lia|done].
Qed.

Lemma drain_terminates fuel keys mo mr : (length keys < fuel)%nat ->
  exists l, drain fuel (Next_loop keys mo mr) = Some (Ok l) /\ (length l <= length keys)%nat.
Proof.
  revert keys mo mr. induction fuel as [|fuel IH]; intros keys mo mr Hf; [lia|]. simpl.
  destruct (Next_loop keys mo mr) as [it|] eqn:E; [|exists []; split; [done|simpl; lia]].
  apply Next_loop_shorter in E as [Hlt [e He]].
  destruct (IH (listTxKey it) (mapTxsOracle it) (mapTxs it)) as (l & El & Hl); [lia|].
  unfold Next. rewrite El. unfold iter_Tx. rewrite He. simpl.
  exists (Value e :: l). split; [done|simpl; lia].
Qed.

Lemma select_length es acc r : rfold select_step acc es = Ok r ->
  length r.1 = (length acc.1 + length es)%nat.
Proof.
  revert acc. induction es as [|e es IH]; intros acc E; simpl in E; simplify_eq; [simpl; lia|].
  go_inv. apply IH in E1. unfold select_step in E0. go_inv.
  rewrite length_app in E1. simpl in *. lia.
Qed.

(** C39. Iteration always ends: whatever the queues and maps hold, keys repeated
    or not, once [Select] has returned an iterator, walking it reaches nil within
    [CountTx] + 1 tests, delivers at most [CountTx] transactions, and [Tx] never
    dereferences nil on the way. *)
Theorem iteration_terminates mp it : Select mp = Ok it ->
  exists l, drain (S (Z.to_nat (CountTx mp))) it = Some (Ok l) /\
    Z.of_nat (length l) <= CountTx mp.
Proof.
  unfold Select. intros E. apply rbind_Ok in E as (x & E0 & E).
  apply rbind_Ok in E as (x0 & E1 & E). injection E as <-.
  apply select_length in E0. apply select_length in E1. simpl in *.
  unfold CountTx, Next. rewrite !Len_elements. cbn [listTxKey mapTxs mapTxsOracle].
  edestruct (drain_terminates (S (Z.to_nat (Z.of_nat (length (elements (txs mp))) +
    Z.of_nat (length (elements (txsOracle mp)))))) x0.1 x.2 x0.2) as (l & El & Hl); [lia|].
  exists l. split; [done|lia].
Qed.

End Refinement.
(** ** A concrete queue *)

(** Elements are values with a serial number, distinct in a queue. *)
Definition serials_ok {V} (l : list (nat * V)) : Prop := NoDup (l.*1).

Lemma serials_push {V} (l : list (nat * V)) v : serials_ok l ->
  serials_ok (l ++ [(S (max_list (l.*1)), v)]).
Proof.
  intros Hl. unfold serials_ok. rewrite fmap_app. apply NoDup_app.
  split; [done|]. split; [|apply NoDup_singleton].
  intros n Hn ->%list_elem_of_singleton. apply max_list_elem_of_le in Hn. simpl in Hn. lia.
Qed.

Lemma serials_filter {V} (P : nat * V -> Prop) `{!forall x, Decision (P x)} l :
  serials_ok l -> serials_ok (filter P l).
Proof.
  unfold serials_ok. induction l as [|x l IH]; intros Hl; [done|].
  rewrite fmap_cons in Hl. apply NoDup_cons in Hl as [Hn Hl].
  rewrite filter_cons. destruct (decide (P x)); [|by apply IH].
  rewrite fmap_cons. apply NoDup_cons. split; [|by apply IH]. intros Hin. apply Hn.
  apply list_elem_of_fmap in Hin as (y & -> & [_ Hy]%list_elem_of_filter).
  by apply list_elem_of_fmap_2.
Qed.

#[local] Instance list_clists (V : Type) : CLists V := {
  CElement := nat * V;
  CList := { l : list (nat * V) | serials_ok l };
  clist_New := [] ↾ NoDup_nil_2;
  elements l := `l;
  Len l := Z.of_nat (length (`l));
  Value e := e.2;
  PushBack v l :=
    ((S (max_list ((`l).*1)), v), (_ ↾ serials_push (`l) v (proj2_sig l)));
  clist_Remove e l :=
    if bool_decide (e.1 ∈ (`l).*1)
    then Ok (_ ↾ serials_filter (fun x => x.1 <> e.1) (`l) (proj2_sig l)) else Panic;
}.

#[local] Instance list_clists_laws (V : Type) : CListsLaws V.
Proof.
  constructor; try done.
  - intros v [l Hl] Hin. simpl in Hin. apply (list_elem_of_fmap_2 fst) in Hin.
    apply max_list_elem_of_le in Hin. simpl in Hin. lia.
  - intros e [l Hl] l1 l2 El. cbn in El. subst l. eexists. cbn.
    rewrite bool_decide_eq_true_2
      by (rewrite fmap_app, fmap_cons, elem_of_app; right; left).
    split; [done|]. cbn. pose proof Hl as Hs. unfold serials_ok in Hs.
    rewrite fmap_app, fmap_cons in Hs. apply NoDup_app in Hs as (_ & Hd & [Hn _]%NoDup_cons).
    rewrite filter_app, filter_cons_False by (intros Hc; by apply Hc).
    rewrite !filter_all; [done|..]; intros x Hx E; apply (list_elem_of_fmap_2 fst) in Hx;
      rewrite E in Hx; [done|]. apply (Hd _ Hx). left.
Qed.

(** ** Concrete runs *)

#[local] Instance string_keys : PubKeys := {| PK := string; acc_string s := s |}.

Definition tx_of (msgs : list Ante.Msg) (sender : string) (seq : Z) : Tx :=
  {| GetMsgs := msgs;
     GetSignaturesV2 := Some (Ok [{| PubKey := Some sender; Sequence := seq |}]) |}.
Definition pay (to : string) : list Ante.Msg := [Ante.MsgSend "alice" to []].
Definition vote : list Ante.Msg := [Ante.MsgOracleVote "val" "val"].

Definition day : list call :=
  [CInsert (tx_of (pay "bob") "alice" 1); CInsert (tx_of vote "val" 7);
   CInsert (tx_of (pay "carol") "alice" 2); CInsert (tx_of vote "val2" 3); CSelect;
   CRemove (tx_of vote "val" 7); CRemove (tx_of vote "val" 7); CSelect; CCount].

Lemma mempool_refines_witness :
  replies pool_call day (NewFifoMempool [FifoMaxTxOpt 3]) =
  [ADone RUnit; ADone RUnit; ADone RUnit; AFailed ErrMempoolTxMaxCapacity;
   ADone (RTxs [tx_of vote "val" 7; tx_of (pay "bob") "alice" 1; tx_of (pay "carol") "alice" 2]);
   ADone RUnit; AFailed ErrTxNotFound;
   ADone (RTxs [tx_of (pay "bob") "alice" 1; tx_of (pay "carol") "alice" 2]);
   ADone (RCount 2)].
Proof. etrans; [apply mempool_refines; vm_compute; reflexivity|vm_compute; reflexivity]. Defined.

(** A pool after calls that all succeed. *)
Definition after (cs : list call) (mp : FifoMempool) : FifoMempool :=
  foldl (fun mp c => match pool_call c mp with Ret _ mp' | Fail _ mp' => mp' | Halt => mp end) mp cs.

(** The same transaction key inserted twice. *)
Definition twice : FifoMempool :=
  after [CInsert (tx_of (pay "bob") "alice" 1); CInsert (tx_of (pay "carol") "alice" 1)]
    (NewFifoMempool [FifoMaxTxOpt 3]).

Lemma iteration_terminates_witness : exists it l, Select twice = Ok it /\
  drain (S (Z.to_nat (CountTx twice))) it = Some (Ok l) /\ Z.of_nat (length l) <= CountTx twice.
Proof.
  destruct (Select twice) as [it| |] eqn:E; [|vm_compute in E; discriminate E..].
  exists it. destruct (iteration_terminates twice it E) as (l & El & Hl). by exists l.
Defined.

(** A transaction whose (sender, sequence) pair is pending is queued again, and
    only the newer one is in the map.  When it has been included and removed,
    the older one is selected, but a [Remove] does not find it: it stays in the
    pool, and keeps its place in the capacity, for good. *)
Example repeated_key_lingers :
  replies pool_call
    [CInsert (tx_of (pay "bob") "alice" 1); CInsert (tx_of (pay "carol") "alice" 1);
     CSelect; CRemove (tx_of (pay "carol") "alice" 1);
     CSelect; CRemove (tx_of (pay "bob") "alice" 1); CCount]
    (NewFifoMempool [FifoMaxTxOpt 3]) =
  [ADone RUnit; ADone RUnit; ADone (RTxs [tx_of (pay "carol") "alice" 1]); ADone RUnit;
   ADone (RTxs [tx_of (pay "bob") "alice" 1]); AFailed ErrTxNotFound; ADone (RCount 1)].
Proof. vm_compute. reflexivity. Qed.

(** A limit of 0 is no absence of a limit: every transaction is refused. *)
Example zero_limit_refuses tx : Insert tx (NewFifoMempool [FifoMaxTxOpt 0]) =
  Fail ErrMempoolTxMaxCapacity (NewFifoMempool [FifoMaxTxOpt 0]).
Proof. reflexivity. Qed.

End MempoolFacts.
