(* ===== verification/FeeEstimate.v ===== *)
(** * Fee estimates of the client

    [custom/auth/client/utils/feeutils.go]: the command line queries the tax rate
    and the tax caps of a node, computes the taxes of the messages the way the
    node will, and adds the gas fee.  Queries, the account retriever and the gas
    simulation go over the network: they are parameters. *)

From S2P Require Import Prelude Sdk SdkRef SdkFees Market Tax Ante.

Module FeeEstimate.
Import Tax Ante.

(** What the code reads of a [tx.Factory]; [GasAdjustment] is the value of
    [int64(txf.GasAdjustment())], which is all that is used of the float. *)
Record Factory := mkFactory {
  AccountNumber : Z; Sequence : Z;
  SimulateAndExecute : bool;
  FGas : Z;
  Fees : Coins;
  FGasPrices : DecCoins;
  GasAdjustment : Z }.

Definition WithAccountNumber (n : Z) (txf : Factory) : Factory :=
  mkFactory n (Sequence txf) (SimulateAndExecute txf) (FGas txf) (Fees txf) (FGasPrices txf)
    (GasAdjustment txf).
Definition WithSequence (n : Z) (txf : Factory) : Factory :=
  mkFactory (AccountNumber txf) n (SimulateAndExecute txf) (FGas txf) (Fees txf) (FGasPrices txf)
    (GasAdjustment txf).

(** [legacytx.StdFee] *)
Record StdFee := mkStdFee { FAmount : Coins; FeeGas : Z }.

(** The node and the network, as the client sees them. *)
Class Node := {
  EnsureExists : res unit;
  GetAccountNumberSequence : res (Z * Z);
  CalculateGas : Factory -> list Msg -> res Z;
  queryTaxRate : res Dec;
  queryTaxCap : string -> res Int;
}.

Section Client.
Context `{SdkMath, SdkCoins, SdkFees, Node}.

Definition prepareFactory (txf : Factory) : res Factory :=
  let! _ := EnsureExists in
  let initNum := AccountNumber txf in
  let initSeq := Sequence txf in
  if (initNum =? 0) || (initSeq =? 0) then
    let! p := GetAccountNumberSequence in
    let '(num, seq) := p in
    let txf := if initNum =? 0 then WithAccountNumber num txf else txf in
    Ok (if initSeq =? 0 then WithSequence seq txf else txf)
  else Ok txf.

Definition computeTax (taxRate : Dec) (principal : Coins) : res Coins :=
  coin_loop (fun coin =>
    let! taxCap := queryTaxCap (Denom coin) in
    let! taxDue := tax_amount (Some taxRate) (Amount coin) in
    let taxDue := if taxCap <? taxDue then taxCap else taxDue in
    Ok (if taxDue =? 0 then None else Some taxDue)) [] principal.

(** One message; the messages of an authorized execution that cannot be unpacked
    panic, and the nested call queries the rate again. *)
Fixpoint msg_tax (taxRate : Dec) (taxes : Coins) (msg : Msg) : res Coins :=
  match msg with
  | MsgSend _ _ amount =>
      let! tax := computeTax taxRate amount in Coins_Add taxes tax
  | MsgMultiSend inputs _ =>
      rfold (fun taxes input =>
        let! tax := computeTax taxRate (IOCoins input) in Coins_Add taxes tax) taxes inputs
  | MsgExec None => Panic
  | MsgExec (Some messages) =>
      let! rate := queryTaxRate in
      let! tax := (fix go taxes ms := match ms with
                                      | [] => Ok taxes
                                      | m :: ms' => let! taxes := msg_tax rate taxes m in go taxes ms'
                                      end) [] messages in
      Coins_Add taxes tax
  | MsgSwapSend m =>
      let! offer := NewCoins [Market.SOfferCoin m] in
      let! tax := computeTax taxRate offer in Coins_Add taxes tax
  | _ => Ok taxes
  end.

Definition FilterMsgAndComputeTax (msgs : list Msg) : res Coins :=
  let! taxRate := queryTaxRate in
  rfold (msg_tax taxRate) [] msgs.

(** The gas fees of every gas price. *)
Definition gas_fees (gasPrices : DecCoins) (gas adj : Z) : res Coins :=
  let glDec := NewDec (int64 gas) in
  let adjustment := NewDecWithPrec (int64 (adj * 100)) 2 in
  let adjustment := if adjustment <? OneDec then OneDec else adjustment in
  rmap (fun gp =>
    let! m := Dec_Mul (DAmount gp) glDec in
    let! fee := Dec_Mul m adjustment in
    let! a := Dec_RoundInt (Dec_Ceil fee) in
    NewCoin (DDenom gp) a) gasPrices.

Definition ComputeFeesWithCmd (factory : res Factory) (msgs : list Msg) : res StdFee :=
  let! txf := factory in
  let! gas :=
    if SimulateAndExecute txf then
      let! txf := prepareFactory txf in CalculateGas txf msgs
    else Ok (FGas txf) in
  let! taxes := FilterMsgAndComputeTax msgs in
  let! fees := Coins_Add (Fees txf) taxes in
  let gasPrices := FGasPrices txf in
  let! fees :=
    if negb (DecCoins_IsZero gasPrices) then
      let! gasFees := gas_fees gasPrices gas (GasAdjustment txf) in
      Coins_Add fees (Coins_Sort gasFees)
    else Ok fees in
  Ok (mkStdFee fees gas).
End Client.
End FeeEstimate.
