(* ===== verification/FeeEstimateFacts.v ===== *)
(** * The client's estimate is enough

    The taxes the client computes against those the node will ask for, and the
    fee check of the node on an estimated fee. *)

From S2P Require Import Prelude Sdk SdkRef SdkFees Core OracleTypes Market TreasuryTypes Treasury TaxExemption Tax TaxFacts TaxRef Ante AnteTax AnteFee FeeEstimate.

Module FeeEstimateFacts.
Import Tax TaxFacts Ante AnteTax AnteFee.

(** A node that answers from the stores. *)
Definition node_of `{SdkCoins} (rate : Dec) (tk : Treasury.Store) (gas : Z) : FeeEstimate.Node := {|
  FeeEstimate.EnsureExists := Ok tt;
  FeeEstimate.GetAccountNumberSequence := Ok (1, 1);
  FeeEstimate.CalculateGas _ _ := Ok gas;
  FeeEstimate.queryTaxRate := Ok rate;
  FeeEstimate.queryTaxCap d := Treasury.query_tax_cap tk (Some d) |}.

Section Estimate.
Context `{HM : SdkMath, HC : SdkCoins, HF : SdkFees, HBD : BondDenom}.
Context `{!SdkMathLaws, !SdkCoinsLaws, !SdkFeesLaws}.
Variable (te : TaxExemption.Store) (tk : Treasury.Store) (rate : Dec) (simulated_gas : Z).
Hypothesis (rate_nonneg : 0 <= rate).
Hypothesis (caps_nonneg : forall d, 0 <= Treasury.GetTaxCap tk d).
#[local] Instance node : FeeEstimate.Node := node_of rate tk simulated_gas.

(** The client's tax of an amount, and the amounts it taxes. *)
Definition est (d : string) (a : Z) : Z :=
  if a =? 0 then 0 else Z.min (Treasury.GetTaxCap tk d) (tax_of rate a).
Definition est_all (l : list Coins) (d : string) : Z := zsum (fun cs => est d (amt cs d)) l.
Definition est_taxable (m : Msg) : list Coins :=
  match m with
  | MsgSend _ _ amount => [amount]
  | MsgMultiSend ins _ => IOCoins <$> ins
  | MsgSwapSend m => [[Market.SOfferCoin m]]
  | _ => []
  end.

Lemma est_nonneg d a : 0 <= a -> 0 <= est d a.
Proof using rate_nonneg caps_nonneg.
  intros Ha. unfold est. specialize (caps_nonneg d). destruct (a =? 0); [done|].
  assert (0 <= tax_of rate a) by (apply Z.div_pos; [nia|done]). lia.
Qed.

Lemma due_le_est d a : 0 <= a -> due tk rate false d a <= est d a.
Proof using rate_nonneg caps_nonneg.
  intros Ha. pose proof (est_nonneg d a Ha). unfold due. destruct (_ || _ || _ || _) eqn:E; [done|].
  unfold est. apply orb_false_iff in E as [[[_ E]%orb_false_iff _]%orb_false_iff _]. rewrite E. lia.
Qed.

Lemma due_all_le_est l d : Forall coins_ok l -> due_all tk rate false l d <= est_all l d.
Proof using rate_nonneg caps_nonneg.
  induction 1 as [|cs l Hcs _ IH]; [done|]. unfold due_all, est_all in *. rewrite !zsum_cons.
  pose proof (due_le_est d (amt cs d) (amt_nonneg cs d Hcs)). lia.
Qed.

Lemma est_all_nonneg l d : Forall coins_ok l -> 0 <= est_all l d.
Proof using rate_nonneg caps_nonneg.
  intros Hl. apply zsum_nonneg. eapply Forall_impl; [exact Hl|]. intros cs Hcs.
  by apply est_nonneg, amt_nonneg.
Qed.

Lemma est_taxable_ok m : msg_wf m -> Forall coins_ok (est_taxable m).
Proof using Type.
  destruct m; simpl; intros Hw; try apply List.Forall_nil;
    try (by apply List.Forall_cons; [|apply List.Forall_nil]). by apply Forall_fmap.
Qed.

(** Exempted messages only add to the estimate. *)
Lemma node_le_client ms d : Forall msg_wf ms ->
  due_all tk rate false (ms ≫= taxable te) d <= est_all (ms ≫= est_taxable) d.
Proof using rate_nonneg caps_nonneg.
  induction 1 as [|m ms Hm _ IH]; [done|]. rewrite !bind_cons. unfold est_all in *.
  rewrite due_all_app, zsum_app. fold (est_all (est_taxable m) d).
  pose proof (est_taxable_ok m Hm) as Hok.
  assert (due_all tk rate false (taxable te m) d <= est_all (est_taxable m) d); [|lia].
  destruct (taxable_ok te m Hm) as [Ht _].
  assert (taxable te m = [] \/ taxable te m = est_taxable m) as [->| ->].
  { destruct m; simpl; auto; destruct (TaxExemption.IsExemptedFromTax _ _ _) || destruct (forallb _ _); auto. }
  - rewrite due_all_nil. by apply est_all_nonneg.
  - by apply due_all_le_est.
Qed.

Lemma computeTax_est principal taxes : coins_ok principal ->
  FeeEstimate.computeTax rate principal = Ok taxes ->
  coins_ok taxes /\ forall d, amt taxes d = est d (amt principal d).
Proof using All.
  intros Hok R. unfold FeeEstimate.computeTax in R.
  apply (coin_loop_inv _ (fun c => est (Denom c) (Amount c))) in R as (? & Ha & _).
  - split; [done|]. intros d. rewrite Ha, (zsum_sorted principal est); [done|apply Hok|done].
  - intros c x Hc (cap & Hcap & (t & Ht & [= <-])%rbind_Ok)%rbind_Ok.
    destruct Hok as [_ Hp]. rewrite Forall_forall in Hp. destruct (Hp c Hc) as [_ Hpos].
    apply tax_amount_inv in Ht as ->; [|done|lia].
    simpl in Hcap. destruct (ValidateDenom (Denom c)); [|done]. injection Hcap as <-.
    unfold est. rewrite (proj2 (Z.eqb_neq (Amount c) 0)) by lia.
    destruct (Z.ltb_spec (Treasury.GetTaxCap tk (Denom c)) (tax_of rate (Amount c)));
      match goal with |- context [?z =? 0] => destruct (Z.eqb_spec z 0) end; simpl; lia.
  - apply coins_ok_nil.
Qed.

Lemma add_est acc principal r : coins_ok acc -> coins_ok principal ->
  (let! tax := FeeEstimate.computeTax rate principal in Coins_Add acc tax) = Ok r ->
  coins_ok r /\ forall d, amt r d = amt acc d + est_all [principal] d.
Proof using All.
  intros Hacc Hp (t & Ht & Ha)%rbind_Ok. apply computeTax_est in Ht as [Ht At]; [|done].
  apply Coins_Add_inv in Ha as [Hr Ar]; [|by apply coins_ok_weak..].
  split; [done|]. intros d. rewrite Ar, At. unfold est_all. zsum_lia.
Qed.

Lemma add_inputs_est ins : Forall (fun i => coins_ok (IOCoins i)) ins -> forall acc r,
  coins_ok acc ->
  rfold (fun taxes i => let! tax := FeeEstimate.computeTax rate (IOCoins i) in Coins_Add taxes tax)
    acc ins = Ok r ->
  coins_ok r /\ forall d, amt r d = amt acc d + est_all (IOCoins <$> ins) d.
Proof using All.
  induction 1 as [|i ins Hi _ IH]; intros acc r Hacc R; cbn [rfold] in R.
  - injection R as <-. split; [done|]. intros d. unfold est_all. rewrite fmap_nil. zsum_lia.
  - apply rbind_Ok in R as (acc' & R1 & R). apply add_est in R1 as [Hacc' A1]; [|done|done].
    apply IH in R as [Hr Ar]; [|done]. split; [done|]. intros d.
    rewrite Ar, A1. unfold est_all. rewrite fmap_cons. zsum_lia.
Qed.

(** A message adds the estimates of what it and the messages inside it pay. *)
Definition adds_est (m : Msg) : Prop := forall acc r, coins_ok acc ->
  Forall msg_wf (flatten m) -> FeeEstimate.msg_tax rate acc m = Ok r ->
  coins_ok r /\ forall d, amt r d = amt acc d + est_all (flatten m ≫= est_taxable) d.

Lemma adds_est_list ms : Forall adds_est ms -> forall acc r, coins_ok acc ->
  Forall msg_wf (ms ≫= flatten) -> rfold (FeeEstimate.msg_tax rate) acc ms = Ok r ->
  coins_ok r /\ forall d, amt r d = amt acc d + est_all ((ms ≫= flatten) ≫= est_taxable) d.
Proof using Type.
  induction 1 as [|m ms Hm _ IH]; intros acc r Hacc Hw R; cbn [rfold] in R.
  - injection R as <-. split; [done|]. intros d. unfold est_all. simpl. zsum_lia.
  - apply rbind_Ok in R as (acc' & R1 & R). rewrite bind_cons in Hw. apply Forall_app in Hw as [W1 W2].
    apply Hm in R1 as [O1 A1]; [|done..]. apply IH in R as [Or Ar]; [|done..].
    split; [done|]. intros d. rewrite bind_cons, bind_app, Ar, A1. unfold est_all. zsum_lia.
Qed.

Lemma exec_loop_est ms acc :
  (fix go taxes ms := match ms with
                      | [] => Ok taxes
                      | m :: ms' => let! taxes := FeeEstimate.msg_tax rate taxes m in go taxes ms'
                      end) acc ms = rfold (FeeEstimate.msg_tax rate) acc ms.
Proof using Type.
  revert acc. induction ms as [|m ms IH]; intros acc; [done|]. simpl. apply rbind_ext. intros. apply IH.
Qed.

Lemma adds_est_leaf m : match m with MsgExec _ => False | _ => True end -> adds_est m.
Proof using All.
  intros Hl acc r Hacc Hw R. assert (flatten m = [m]) as Hf by (by destruct m).
  rewrite Hf in *. apply Forall_cons in Hw as [Hw _].
  change ([m] ≫= est_taxable) with (est_taxable m ++ []). rewrite app_nil_r.
  assert (forall d, amt acc d = amt acc d + est_all [] d) as Hnil
    by (intros; unfold est_all; zsum_lia).
  destruct m; cbn [FeeEstimate.msg_tax est_taxable msg_wf] in *;
    try (injection R as <-; split; done); try contradiction.
  - by apply add_est in R.
  - by apply add_inputs_est in R.
  - apply rbind_Ok in R as (offer & Ho & R). pose proof Hw as [_ [[_ Hpos] _]%Forall_cons].
    apply NewCoins_pos in Ho as [-> Hok]; [|done]. by apply add_est in R.
Qed.

Lemma adds_est_all m : adds_est m.
Proof using All.
  induction m as [m IH] using Msg_nested_ind.
  assert (m = MsgExec None \/ (exists ms, m = MsgExec (Some ms)) \/
    match m with MsgExec _ => False | _ => True end) as [->|[[ms ->]|Hl]]
    by (destruct m as [| | | | | |[ms|]| | | | | | | |]; eauto); [done| |by apply adds_est_leaf].
  intros acc r Hacc Hw R. simpl in IH. rewrite flatten_exec in *.
  cbn [FeeEstimate.msg_tax] in R. apply rbind_Ok in R as (rt & [= <-] & R).
  rewrite exec_loop_est in R. apply rbind_Ok in R as (t & Rt & R).
  apply adds_est_list in Rt as [Ot At]; [|done|apply coins_ok_nil|done].
  apply Coins_Add_inv in R as [Or Ar]; [|by apply coins_ok_weak..].
  split; [done|]. intros d. by rewrite Ar, At.
Qed.

Lemma client_taxes msgs taxes : Forall msg_wf (msgs ≫= flatten) ->
  FeeEstimate.FilterMsgAndComputeTax msgs = Ok taxes ->
  coins_ok taxes /\ forall d, amt taxes d = est_all ((msgs ≫= flatten) ≫= est_taxable) d.
Proof using All.
  intros Hw (rt & [= <-] & R)%rbind_Ok.
  apply adds_est_list in R as [? A]; [|apply Forall_forall; intros; apply adds_est_all|
    apply coins_ok_nil|done]. by split.
Qed.

(** ** Gas fees *)

(** The client's gas fee is at least the node's. *)
Lemma gas_fees_est prices gas adj fees : decoins_weak prices -> 0 <= gas < 2 ^ 63 ->
  FeeEstimate.gas_fees prices gas adj = Ok fees ->
  coins_weak fees /\ forall d, gas_fee (damt prices d) gas <= amt fees d.
Proof using HF H H0 H1.
  intros Hp Hg. unfold FeeEstimate.gas_fees. rewrite (int64_id gas) by lia. cbv zeta.
  set (A := if NewDecWithPrec (int64 (adj * 100)) 2 <? OneDec then OneDec
            else NewDecWithPrec (int64 (adj * 100)) 2). assert (OneDec <= A) as HA.
  { unfold A. match goal with |- context [?x <? ?y] => destruct (Z.ltb_spec x y) end; lia. }
  clearbody A. intros R%rmap_Forall2.
  destruct (priced_coins (fun a => - (- dec_round (a * gas * A) / P18)) prices fees) as [Hw Ha];
    [done|cbn beta; by rewrite !Z.mul_0_l, dec_round_0| |].
  - eapply Forall2_impl; [exact R|]. intros p c (m & Hm & (f & Hf & (a & Ha & Hc)%rbind_Ok)%rbind_Ok)%rbind_Ok.
    apply NewCoin_weak in Hc as (-> & Ha0 & _ & [[Hvd _] _]%Forall_cons).
    sdk_run. simpl. split_and!; [done| |done|done].
    unfold NewDec. by rewrite Dec_Ceil_spec, dec_round_mul, Z.mul_assoc, dec_round_mul.
  - split; [done|]. intros d. rewrite Ha. unfold gas_fee.
    pose proof (damt_nonneg prices d Hp).
    assert (damt prices d * gas <= dec_round (damt prices d * gas * A)).
    { apply dec_round_ge_mul. unfold OneDec in HA. unfold P18 in *. nia. }
    apply -> Z.opp_le_mono. apply Z.div_le_mono; [done|lia].
Qed.

Lemma getTxPriority_Ok fee gas : gas <> 0 -> exists p, getTxPriority fee gas = Ok p.
Proof using HF H H0 H1.
  intros Hg. unfold getTxPriority. match goal with |- context [rfold ?f _ _] => set (F := f) end.
  generalize 0. induction fee as [|c fee IH]; intros p; [by eexists|].
  cbn [rfold]. unfold F at 1. rewrite Int_QuoRaw_spec, (proj2 (Z.eqb_neq _ _) Hg). cbn [rbind]. apply IH.
Qed.

(** What an estimated fee consists of. *)
Lemma estimate_parts txf msgs fee : coins_ok (FeeEstimate.Fees txf) ->
  decoins_weak (FeeEstimate.FGasPrices txf) -> Forall msg_wf (msgs ≫= flatten) ->
  FeeEstimate.ComputeFeesWithCmd (Ok txf) msgs = Ok fee -> 0 <= FeeEstimate.FeeGas fee < 2 ^ 63 ->
  coins_ok (FeeEstimate.FAmount fee) /\
  forall d, amt (FeeEstimate.Fees txf) d + est_all ((msgs ≫= flatten) ≫= est_taxable) d +
    gas_fee (damt (FeeEstimate.FGasPrices txf) d) (FeeEstimate.FeeGas fee) <=
    amt (FeeEstimate.FAmount fee) d.
Proof using All.
  intros Hf Hp Hw R Hg. unfold FeeEstimate.ComputeFeesWithCmd in R. cbn [rbind] in R.
  apply rbind_Ok in R as (gas & _ & R). apply rbind_Ok in R as (taxes & Ht & R).
  apply rbind_Ok in R as (fees & Ha & R). apply rbind_Ok in R as (all & Hall & [= <-]).
  cbn [FeeEstimate.FAmount FeeEstimate.FeeGas] in *.
  apply client_taxes in Ht as [Ht At]; [|done].
  apply Coins_Add_inv in Ha as [Hfees Af]; [|by apply coins_ok_weak..].
  destruct (DecCoins_IsZero (FeeEstimate.FGasPrices txf)) eqn:Ez; simpl in Hall.
  - injection Hall as <-. split; [done|]. intros d. rewrite Af, At, damt_IsZero, gas_fee_0 by done. lia.
  - apply rbind_Ok in Hall as (gf & Hgf & Hall). apply gas_fees_est in Hgf as [Wg Ag]; [|done|done].
    destruct (Coins_Sort_weak gf Wg) as [Ws As].
    apply Coins_Add_inv in Hall as [Hok A]; [|by apply coins_ok_weak|done].
    split; [done|]. intros d. rewrite A, Af, At, As. specialize (Ag d). lia.
Qed.

End Estimate.

Section Accepted.
Context `{HM : SdkMath, HC : SdkCoins, HF : SdkFees, HBD : BondDenom}.
Context `{!SdkMathLaws, !SdkCoinsLaws, !SdkFeesLaws}.

(** A fee that covers taxes and gas fees is accepted without reverse charge. *)
Lemma covered_accepted prices tx taxes nonTaxable req : decoins_weak prices ->
  coins_ok (GetFee tx) -> coins_ok taxes -> coins_ok nonTaxable ->
  IsOracleTx (GetMsgs tx) = false -> 0 < GetGas tx < 2 ^ 63 ->
  min_gas_fees prices (GetGas tx) = Ok req ->
  (forall d, amt taxes d + gas_fee (damt prices d) (GetGas tx) <= amt (GetFee tx) d) ->
  exists p refund, checkTxFee prices tx taxes nonTaxable = Ok (p, false, refund).
Proof using Type*.
  intros Hp Hf Ht Hn Ho Hg Hreq Hcov. unfold checkTxFee. rewrite Ho, Hreq. cbn [negb rbind].
  apply min_gas_fees_inv in Hreq as [Hreq Areq]; [|done|lia].
  assert (forall d, 0 <= amt req d) as Hnn by (intros; by apply amt_weak_nonneg).
  set (short rem := negb (Coins_IsZero req) && negb (Coins_IsAnyGTE rem req)).
  assert (forall rem, coins_ok rem -> (forall d, amt req d <= amt rem d) -> short rem = false) as Hshort.
  { intros rem Hrem Hle. unfold short. destruct (Coins_IsZero req) eqn:Ez; [done|]. simpl.
    apply negb_false_iff, Coins_IsAnyGTE_spec; [done|done|].
    rewrite Coins_IsZero_spec in Ez. apply not_true_iff_false in Ez. rewrite forallb_forall in Ez.
    destruct (decide (Exists (fun c => Amount c <> 0) req)) as [(c & Hc & Hne)%Exists_exists|Hno].
    - exists (Denom c). rewrite <- (amt_elem req c) in Hne by (apply Hreq || done).
      specialize (Hnn (Denom c)). specialize (Hle (Denom c)). lia.
    - destruct Ez. intros c Hc%list_elem_of_In. apply Z.eqb_eq.
      destruct (decide (Amount c = 0)); [done|]. destruct Hno. apply Exists_exists. eauto. }
  assert (exists rem, cover_tax (GetFee tx) taxes req = Ok (rem, false) /\ coins_ok rem /\
    forall d, amt req d <= amt rem d) as (rem & -> & Hrem & Arem).
  { unfold cover_tax. destruct (Coins_IsZero taxes) eqn:Ez; cbn [negb].
    - exists (GetFee tx). split_and!; [done|done|]. intros d. rewrite Areq.
      specialize (Hcov d). pose proof (amt_nonneg taxes d Ht). lia.
    - rewrite (proj2 (Coins_IsAllGTE_spec _ _ Hf Ht))
        by (intros d; specialize (Hcov d); specialize (Hnn d); rewrite Areq in Hnn; lia).
      destruct (Coins_Sub_Ok (GetFee tx) taxes Hf Ht) as (c & -> & Hc & Ac);
        [intros d; specialize (Hcov d); specialize (Hnn d); rewrite Areq in Hnn; lia|].
      cbn [rbind negb]. fold (short c).
      assert (forall d, amt req d <= amt c d) as Hle
        by (intros d; rewrite Ac, Areq; specialize (Hcov d); lia).
      rewrite Hshort by done. by exists c. }
  cbn [rbind]. unfold refund_tax. fold (short rem).
  destruct (getTxPriority_Ok (GetFee tx) (int64 (GetGas tx))) as [p Hprio]; [rewrite int64_id; lia|].
  destruct (negb (Coins_IsZero nonTaxable)); cbn [andb].
  2: { cbn [rbind]. fold (short rem). rewrite Hshort, Hprio by done. cbn [rbind]. eauto. }
  destruct (Coins_IsAllGTE rem nonTaxable) eqn:Eg.
  2: { cbn [rbind]. fold (short rem). rewrite Hshort, Hprio by done. cbn [rbind]. eauto. }
  pose proof (proj1 (Coins_IsAllGTE_spec _ _ Hrem Hn) Eg) as Hle.
  destruct (Coins_Sub_Ok rem nonTaxable Hrem Hn Hle) as (c & -> & Hc & _). cbn [rbind].
  fold (short c). destruct (short c) eqn:Es; cbn [rbind].
  - fold (short rem). rewrite Hshort, Hprio by done. cbn [rbind]. eauto.
  - fold (short c). rewrite Es, Hprio. cbn [rbind]. eauto.
Qed.

Lemma gas_fee_mono p q gas : p <= q -> 0 <= gas -> gas_fee p gas <= gas_fee q gas.
Proof using Type.
  intros Hle Hg. unfold gas_fee. apply -> Z.opp_le_mono. apply Z.div_le_mono; [done|nia].
Qed.

(** A fee computed by the command line is enough: when the client's tax rate
    and caps come from the node, its gas prices are at least the node's, and the
    gas is positive, the transaction with the estimated fee passes the node's
    fee check, and its tax is taken from the fee instead of being reverse charged
    on the messages.  Exempt transfers, the bond denom and IBC vouchers only make
    the estimate larger than what is due. *)
Lemma estimate_accepted te tk rate sim_gas txf msgs fee taxes nonTaxable prices req payer granter :
  rate_ok rate -> (forall d, 0 <= Treasury.GetTaxCap tk d) ->
  Forall msg_wf (msgs ≫= flatten) -> IsOracleTx msgs = false ->
  coins_ok (FeeEstimate.Fees txf) -> decoins_weak (FeeEstimate.FGasPrices txf) ->
  decoins_weak prices -> (forall d, damt prices d <= damt (FeeEstimate.FGasPrices txf) d) ->
  @FeeEstimate.ComputeFeesWithCmd _ _ _ (node_of rate tk sim_gas) (Ok txf) msgs = Ok fee ->
  0 < FeeEstimate.FeeGas fee < 2 ^ 63 ->
  FilterMsgAndComputeTax te tk (Some rate) false msgs = Ok (taxes, nonTaxable) ->
  min_gas_fees prices (FeeEstimate.FeeGas fee) = Ok req ->
  exists priority refund,
    checkTxFee prices
      {| GetMsgs := msgs; GetFee := FeeEstimate.FAmount fee; GetGas := FeeEstimate.FeeGas fee;
         FeePayer := payer; FeeGranter := granter |} taxes nonTaxable =
    Ok (priority, false, refund).
Proof using Type*.
  intros [Hr Hr1] Hcap Hw Ho Hf Hcp Hp Hle R Hg Hnode Hreq.
  apply (estimate_parts te tk rate sim_gas) in R as [Hfee Afee]; [|done..|lia].
  destruct (FilterMsg_inv te tk rate false Hr msgs taxes nonTaxable Hw Hnode) as (Ht & Hn & At & _).
  eapply covered_accepted; simpl; try done. intros d.
  pose proof (node_le_client te tk rate Hr Hcap (msgs ≫= flatten) d Hw).
  pose proof (gas_fee_mono _ _ (FeeEstimate.FeeGas fee) (Hle d) ltac:(lia)).
  specialize (Afee d). pose proof (amt_nonneg _ d Hf). rewrite At. lia.
Qed.
End Accepted.
End FeeEstimateFacts.
