(* ===== verification/TransferCommands.v ===== *)
(** * Transfers and swaps from the command line

    [send], [multi-send] ([custom/bank/client/cli/tx.go]) and [swap]
    ([x/market/client/cli/tx.go]): the messages they build, and the estimated fees
    they attach.  Flags, keyring, parsers and the bank's own checks belong to the
    SDK and are parameters. *)

From S2P Require Import Prelude Sdk SdkRef SdkFees Core Market Tax Ante FeeEstimate.

Module TransferCommands.
Import Tax Ante FeeEstimate.

Class Client := {
  (** [client.GetClientTxContext] with the value of [--from]: the signer's address *)
  GetClientTxContext : string -> res string;
  NewFactoryCLI : res Factory;
  GenerateOnly : bool;
  FlagSplit : res bool;
  ParseCoinsNormalized : string -> res Coins;
  ParseCoinNormalized : string -> res Coin;
  (** [Factory.WithFees] parses the rendered coins *)
  WithFees : Coins -> res Coins;
  Coins_QuoInt : Coins -> Int -> res Coins;
  Coins_MulInt : Coins -> Int -> res Coins;
  (** [ValidateBasic] of the bank's messages *)
  bank_ValidateBasic : Msg -> res unit;
}.

Definition cobra_args := Errorf "accepts a different number of arguments".

Section Commands.
Context `{HM : SdkMath, HC : SdkCoins, HF : SdkFees, HA : Bech32, HN : Node, HCl : Client}.

(** ** Fees *)

(** Unless the transaction is only generated or fees are given, taxes and gas are
    estimated and take the place of gas prices and simulation. *)
Definition with_estimate (txf : Factory) (msg : Msg) : res Factory :=
  if negb GenerateOnly && Coins_IsZero (Fees txf) then
    let! stdFee := ComputeFeesWithCmd NewFactoryCLI [msg] in
    let! fees := WithFees (FAmount stdFee) in
    Ok (mkFactory (AccountNumber txf) (Sequence txf) false (FeeGas stdFee) fees [] (GasAdjustment txf))
  else Ok txf.

(** ** The bank's commands *)

Definition sendTxCmd (args : list string) : res (Factory * Msg) :=
  match args with
  | [fromArg; toArg; amount] =>
      let! from := GetClientTxContext fromArg in
      let! toAddr := AccAddressFromBech32 toArg in
      let! coins := ParseCoinsNormalized amount in
      let msg := MsgSend (AccString from) (AccString toAddr) coins in
      let! _ := bank_ValidateBasic msg in
      let! txf := NewFactoryCLI in
      let! txf := with_estimate txf msg in
      Ok (txf, msg)
  | _ => Err cobra_args
  end.

(** The message of [multi-send]: [tos] are the arguments between the first and
    the last one. *)
Definition multi_send_msg (from : string) (split : bool) (tos : list string) (coins : Coins) : res Msg :=
  let totalAddrs := Z.of_nat (length tos) in
  let! sendCoins := if split then Coins_QuoInt coins totalAddrs else Ok coins in
  let! output := rmap (fun arg =>
    let! toAddr := AccAddressFromBech32 arg in Ok (mkInOut (AccString toAddr) sendCoins)) tos in
  let! amount := if split then Coins_MulInt sendCoins totalAddrs else Coins_MulInt coins totalAddrs in
  let msg := MsgMultiSend [mkInOut (AccString from) amount] output in
  let! _ := bank_ValidateBasic msg in
  Ok msg.

Definition multiSendTxCmd (args : list string) : res (Factory * Msg) :=
  match args with
  | fromArg :: rest =>
      if (length args <? 4)%nat then Err cobra_args
      else
        let! from := GetClientTxContext fromArg in
        let! coins := ParseCoinsNormalized (List.last rest "") in
        if Coins_IsZero coins then Err (Errorf "must send positive amount")
        else
          let! split := FlagSplit in
          let! msg := multi_send_msg from split (List.removelast rest) coins in
          let! txf := NewFactoryCLI in
          let! txf := with_estimate txf msg in
          Ok (txf, msg)
  | [] => Err cobra_args
  end.

(** ** The market's command *)

Inductive SwapMsg := Swap (m : Market.MsgSwap) | SwapSend (m : Market.MsgSwapSend).

Definition NewMsgSwap (trader : string) (offer : Coin) (ask : string) : Market.MsgSwap :=
  Market.mkMsgSwap (AccString trader) offer ask.
Definition NewMsgSwapSend (from to : string) (offer : Coin) (ask : string) : Market.MsgSwapSend :=
  Market.mkMsgSwapSend (AccString from) (AccString to) offer ask.

Definition must_address (r : res string) : res (list string) :=
  match r with Ok a => Ok [a] | _ => Panic end.
Definition MsgSwap_GetSigners (m : Market.MsgSwap) : res (list string) :=
  must_address (AccAddressFromBech32 (Market.Trader m)).
Definition MsgSwapSend_GetSigners (m : Market.MsgSwapSend) : res (list string) :=
  must_address (AccAddressFromBech32 (Market.FromAddress m)).

(** Only a swap with a receiver is taxed, so only it is estimated.  [fromFlag] is
    the value of [--from]. *)
Definition GetSwapCmd (fromFlag : string) (args : list string) : res (Factory * SwapMsg) :=
  match args with
  | offerCoinStr :: askDenom :: rest =>
      if (1 <? length rest)%nat then Err cobra_args
      else
        let! fromAddress := GetClientTxContext fromFlag in
        let! txf := NewFactoryCLI in
        let! offerCoin := ParseCoinNormalized offerCoinStr in
        match rest with
        | toArg :: _ =>
            let! toAddress := AccAddressFromBech32 toArg in
            let msg := NewMsgSwapSend fromAddress toAddress offerCoin askDenom in
            let! _ := Market.MsgSwapSend_ValidateBasic msg in
            let! txf := with_estimate txf (MsgSwapSend msg) in
            Ok (txf, SwapSend msg)
        | [] =>
            let msg := NewMsgSwap fromAddress offerCoin askDenom in
            let! _ := Market.MsgSwap_ValidateBasic msg in
            Ok (txf, Swap msg)
        end
  | _ => Err cobra_args
  end.
End Commands.

(** ** What the SDK promises *)

Definition scale (f : Z -> Z) (cs : Coins) : Coins := (fun c => mkCoin (Denom c) (f (Amount c))) <$> cs.

Section Laws.
Context `{HM : SdkMath, HC : SdkCoins, HA : Bech32, HCl : Client}.

(** A side of a transfer: a proper address and positive coins. *)
Definition io_ok (i : InOut) : Prop :=
  (exists a, AccAddressFromBech32 (Address i) = Ok a) /\ coins_ok (IOCoins i) /\ IOCoins i <> [].

Class ClientLaws : Prop := {
  Context_valid s a : GetClientTxContext s = Ok a -> addr_ok a = true;
  Parse_valid s cs : ParseCoinsNormalized s = Ok cs -> coins_ok cs;
  WithFees_spec cs : coins_ok cs -> WithFees cs = Ok cs;
  QuoInt_spec cs n : coins_ok cs -> 0 < n -> Coins_QuoInt cs n = Ok (scale (fun a => Z.quot a n) cs);
  MulInt_spec cs n : Forall (fun c => ValidateDenom (Denom c) = true /\ 0 <= Amount c) cs -> 0 < n ->
    Coins_MulInt cs n = if forallb (fun c => int_fits (Amount c * n)) cs
                        then Ok (scale (fun a => a * n) cs) else Panic;
  (** one sender, and as much goes in as comes out *)
  MultiSend_ValidateBasic i outs :
    (forall d, int_fits (zsum (fun o => amt (IOCoins o) d) outs) = true) ->
    bank_ValidateBasic (MsgMultiSend [i] outs) = Ok tt <->
    io_ok i /\ outs <> [] /\ Forall io_ok outs /\
    forall d, amt (IOCoins i) d = zsum (fun o => amt (IOCoins o) d) outs;
}.
End Laws.
Arguments ClientLaws {_ _ _ _}.

(** ** Theorems *)

Section Facts.
Context `{HM : SdkMath, HC : SdkCoins, HF : SdkFees, HA : Bech32, HN : Node, HCl : Client}.
Context `{!SdkMathLaws, !SdkCoinsLaws, !Bech32Laws, !ClientLaws}.

Lemma scale_denoms f cs : Denom <$> scale f cs = Denom <$> cs.
Proof using Type. unfold scale. by rewrite <- list_fmap_compose. Qed.

Lemma scale_sorted f cs : coins_sorted cs -> coins_sorted (scale f cs).
Proof using Type.
  unfold coins_sorted, scale. intros Hs. induction Hs as [|c cs _ IH Hc]; [constructor|].
  rewrite fmap_cons. constructor; [done|]. by apply Forall_fmap.
Qed.

Lemma scale_ok f cs : coins_ok cs -> Forall (fun c => 0 < f (Amount c)) cs -> coins_ok (scale f cs).
Proof using Type.
  intros [Hs Hc] Hf. split; [by apply scale_sorted|]. apply Forall_fmap.
  apply Forall_forall. intros c Hin. rewrite Forall_forall in Hc, Hf. cbn. split; [by apply Hc|by apply Hf].
Qed.

(** Denoms are unique, so an amount is scaled as a whole. *)
Lemma amt_scale f cs d : f 0 = 0 -> coins_sorted cs -> amt (scale f cs) d = f (amt cs d).
Proof using Type.
  intros Hf0 Hs. unfold scale. unfold amt at 1. rewrite zsum_fmap. by apply (zsum_sorted cs (fun _ => f) d).
Qed.

Lemma zsum_const {A} (l : list A) z : zsum (fun _ => z) l = Z.of_nat (length l) * z.
Proof using Type. induction l as [|x l IH]; [done|]. rewrite zsum_cons, IH. cbn [length]. lia. Qed.

Lemma outputs_built tos (share : Coins) addrs :
  Forall2 (fun arg a => AccAddressFromBech32 arg = Ok a) tos addrs ->
  rmap (fun arg => let! toAddr := AccAddressFromBech32 arg in Ok (mkInOut (AccString toAddr) share)) tos =
  Ok ((fun a => mkInOut (AccString a) share) <$> addrs).
Proof using Type. induction 1 as [|x a l addrs Hx _ IH]; [done|]. cbn. rewrite Hx. cbn. by rewrite IH. Qed.

Lemma addresses_parsed tos : Forall (fun a => exists b, AccAddressFromBech32 a = Ok b) tos ->
  exists addrs, Forall2 (fun arg a => AccAddressFromBech32 arg = Ok a) tos addrs.
Proof using Type.
  induction 1 as [|x l [b Hb] _ [addrs IH]]; [by exists []|]. exists (b :: addrs). by constructor.
Qed.

(** What one address gets. *)
Definition share_of (split : bool) (n : Z) (coins : Coins) : Coins :=
  if split then scale (fun a => a / n) coins else coins.

Lemma share_elem split n coins c : 0 < n -> coins_ok coins -> c ∈ share_of split n coins ->
  exists c', c' ∈ coins /\ Denom c = Denom c' /\ 0 <= Amount c <= Amount c'.
Proof using Type.
  intros Hn [_ Hc] Hin. rewrite Forall_forall in Hc. destruct split; cbn in Hin.
  - apply list_elem_of_fmap in Hin as (c' & -> & Hin). exists c'. specialize (Hc c' Hin). cbn.
    split_and!; [done|done|apply Z.div_pos; lia|apply Z.div_le_upper_bound; nia].
  - exists c. specialize (Hc c Hin). split_and!; [done|done|lia|done].
Qed.

Lemma share_ok split n coins : 0 < n -> coins_ok coins ->
  split = false \/ Forall (fun c => n <= Amount c) coins -> coins_ok (share_of split n coins).
Proof using Type.
  intros Hn Hc Hok. destruct split; [|done]. destruct Hok as [|Hok]; [done|]. apply scale_ok; [done|].
  eapply Forall_impl; [exact Hok|]. intros c Hle. cbn in *. apply Z.div_str_pos. lia.
Qed.

Lemma share_positive n coins : 0 < n -> coins_ok coins -> coins_ok (share_of true n coins) ->
  Forall (fun c => n <= Amount c) coins.
Proof using Type.
  intros Hn [_ Hc] [_ Hs]. cbn in Hs. apply Forall_fmap in Hs. rewrite Forall_forall in Hc, Hs.
  apply Forall_forall. intros c Hin. specialize (Hs c Hin). specialize (Hc c Hin). cbn in Hs.
  destruct (Z.le_gt_cases n (Amount c)); [done|]. rewrite Z.div_small in Hs; lia.
Qed.

Lemma amount_fits n coins d : coins_ok coins -> Forall (fun c => int_fits (Amount c * n) = true) coins ->
  int_fits (amt coins d * n) = true.
Proof using Type*.
  intros [Hs _] Hfit. destruct (decide (d ∈ Denom <$> coins)) as [(c & -> & Hin)%list_elem_of_fmap|Hd].
  - rewrite amt_elem by done. rewrite Forall_forall in Hfit. by apply Hfit.
  - rewrite amt_dens by done. by apply int_fits_small.
Qed.

(** The sender's side of an accepted message. *)
Lemma sender_ok from n share : addr_ok from = true -> 0 < n -> coins_ok share -> share <> [] ->
  io_ok (mkInOut (AccString from) (scale (fun a => a * n) share)).
Proof using Type*.
  intros Hf Hn Hs Hne. split_and!; cbn; [by exists from; apply AccAddress_roundtrip| |by destruct share].
  apply scale_ok; [done|]. destruct Hs as [_ Hs]. eapply Forall_impl; [exact Hs|]. cbn. nia.
Qed.

Lemma share_nonempty split n coins : coins <> [] -> share_of split n coins <> [].
Proof using Type. by destruct coins, split. Qed.

(** The command up to the bank's check. *)
Lemma multi_send_run from (split : bool) tos coins addrs :
  let n := Z.of_nat (length tos) in
  let share := share_of split n coins in
  coins_ok coins -> 0 < n -> Forall (fun c => int_fits (Amount c * n) = true) coins ->
  Forall2 (fun arg a => AccAddressFromBech32 arg = Ok a) tos addrs ->
  let msg := MsgMultiSend [mkInOut (AccString from) (scale (fun a => a * n) share)]
    ((fun a => mkInOut (AccString a) share) <$> addrs) in
  multi_send_msg from split tos coins = let! _ := bank_ValidateBasic msg in Ok msg.
Proof using Type*.
  intros n share Hc Hn Hfit Ha msg. unfold multi_send_msg. fold n.
  assert (Rs : (if split then Coins_QuoInt coins n else Ok coins) = Ok share).
  { unfold share. destruct split; [|done]. rewrite QuoInt_spec by done. f_equal. apply list_fmap_ext.
    intros i c Hi%list_elem_of_lookup_2. destruct Hc as [_ Hc]. rewrite Forall_forall in Hc.
    specialize (Hc c Hi). f_equal. apply Z.quot_div_nonneg; lia. }
  rewrite Rs. cbn [rbind]. rewrite (outputs_built tos share addrs) by done. cbn [rbind].
  assert (Rm : Coins_MulInt share n = Ok (scale (fun a => a * n) share)).
  { rewrite MulInt_spec; [| |done].
    - rewrite (proj2 (forallb_forall _ _)); [done|]. intros c (c' & Hin & _ & Hle)%list_elem_of_In%share_elem; [|done..].
      rewrite Forall_forall in Hfit. eapply int_fits_down; [|by apply (Hfit c')]. nia.
    - apply Forall_forall. intros c (c' & Hin & -> & Hle)%share_elem; [|done..]. destruct Hc as [_ Hc].
      rewrite Forall_forall in Hc. split; [by apply Hc|apply Hle]. }
  unfold msg. destruct split; unfold share in *; cbn [share_of] in *; by rewrite Rm.
Qed.

(** What [multi-send] signs, for proper addresses and amounts in range.  Without
    [--split] every address gets the whole amount, with it the rounded-down share,
    of which less than one unit per address is left over in each denom; the sender
    pays exactly the sum of the outputs, so the bank accepts the message.  A split
    that would leave an address with nothing of some denom is refused. *)
Theorem multi_send_built from (split : bool) tos coins :
  let n := Z.of_nat (length tos) in
  let share := share_of split n coins in
  addr_ok from = true -> coins_ok coins -> coins <> [] -> tos <> [] ->
  Forall (fun a => exists b, AccAddressFromBech32 a = Ok b) tos ->
  Forall (fun c => int_fits (Amount c * n) = true) coins ->
  (split = false \/ Forall (fun c => n <= Amount c) coins ->
     exists addrs, Forall2 (fun arg a => AccAddressFromBech32 arg = Ok a) tos addrs /\
       multi_send_msg from split tos coins =
         Ok (MsgMultiSend [mkInOut (AccString from) (scale (fun a => a * n) share)]
               ((fun a => mkInOut (AccString a) share) <$> addrs)) /\
       forall d, amt (scale (fun a => a * n) share) d = n * amt share d /\
         if split then 0 <= amt coins d - n * amt share d < n else amt share d = amt coins d) /\
  (split = true -> ~ Forall (fun c => n <= Amount c) coins -> forall msg, multi_send_msg from split tos coins <> Ok msg).
Proof using Type*.
  intros n share Hf Hc Hne Ht Hto Hfit.
  assert (Hn : 0 < n) by (destruct tos; [done|]; unfold n; cbn; lia).
  destruct (addresses_parsed tos Hto) as [addrs Ha].
  rewrite (multi_send_run from split tos coins addrs) by done. fold n. fold share.
  set (outs := _ <$> addrs). set (i := mkInOut _ _).
  assert (Hsum : forall d, zsum (fun o => amt (IOCoins o) d) outs = n * amt share d).
  { intros d. unfold outs. rewrite zsum_fmap. cbn. rewrite zsum_const. by rewrite <- (Forall2_length _ _ _ Ha). }
  assert (Hs : coins_sorted share) by (unfold share; destruct split; [apply scale_sorted|]; apply Hc).
  assert (Hrest : forall d, if split then 0 <= amt coins d - n * amt share d < n else amt share d = amt coins d).
  { intros d. unfold share. destruct split; cbn [share_of]; [|done]. rewrite amt_scale; [|done|apply Hc].
    pose proof (Z.mod_pos_bound (amt coins d) n Hn). pose proof (Z.div_mod (amt coins d) n). lia. }
  assert (Hfits : forall d, int_fits (zsum (fun o => amt (IOCoins o) d) outs) = true).
  { intros d. rewrite Hsum. specialize (Hrest d). pose proof (amt_nonneg coins d Hc).
    assert (0 <= amt share d).
    { unfold share. destruct split; cbn [share_of]; [|done]. rewrite amt_scale; [|done|apply Hc]. by apply Z.div_pos. }
    apply (int_fits_down _ (amt coins d * n)); [destruct split; nia|by apply amount_fits]. }
  pose proof (MultiSend_ValidateBasic i outs Hfits) as Hv. split.
  - intros Hok. assert (Hsh : coins_ok share) by (by apply share_ok).
    exists addrs. split; [done|]. split; [|by intros d; rewrite amt_scale by done; split; [lia|apply Hrest]].
    rewrite (proj2 Hv); [done|]. split_and!.
    + apply sender_ok; [done..|by apply share_nonempty].
    + unfold outs. destruct tos; [done|]. by inversion Ha.
    + apply Forall_fmap, Forall_forall. intros a Hin. split; cbn; [|split; [done|by apply share_nonempty]].
      apply list_elem_of_lookup in Hin as [k Hk]. destruct (Forall2_lookup_r _ _ _ _ _ Ha Hk) as (x & _ & Hx).
      exists a. apply AccAddress_roundtrip. by eapply AccAddress_valid.
    + intros d. cbn. by rewrite amt_scale, Hsum by done; lia.
  - intros -> Hno msg ([] & E & _)%rbind_Ok. apply Hno. apply Hv in E as (_ & Hone & Hio & _). unfold outs in *. destruct addrs as [|a addrs]; [done|].
    apply Forall_cons in Hio as [(_ & Hsh & _) _]. by eapply share_positive.
Qed.

(** What the estimate leaves of the factory: its fees, with gas as estimated and
    neither simulation nor gas prices. *)
Lemma estimate_attached txf txf' msg fee : GenerateOnly = false -> Coins_IsZero (Fees txf) = true ->
  ComputeFeesWithCmd NewFactoryCLI [msg] = Ok fee -> coins_ok (FAmount fee) ->
  with_estimate txf msg = Ok txf' ->
  Fees txf' = FAmount fee /\ FGas txf' = FeeGas fee /\ SimulateAndExecute txf' = false /\ FGasPrices txf' = [].
Proof using Type*.
  intros Hg Hz Hfee Hok R. unfold with_estimate in R. rewrite Hg, Hz, Hfee in R. cbn in R.
  rewrite WithFees_spec in R by done. by injection R as <-.
Qed.

(** A swap is signed by the account the command runs for. *)
Lemma swap_signer fromFlag args txf m : GetSwapCmd fromFlag args = Ok (txf, m) ->
  exists from, GetClientTxContext fromFlag = Ok from /\
    match m with Swap sw => MsgSwap_GetSigners sw | SwapSend sw => MsgSwapSend_GetSigners sw end = Ok [from].
Proof using Type*.
  intros R. destruct args as [|o [|a rest]]; [done..|]. unfold GetSwapCmd in R. destruct (1 <? length rest)%nat; [done|].
  apply rbind_Ok in R as (from & Hf & R). apply rbind_Ok in R as (f & _ & R). apply rbind_Ok in R as (c & _ & R).
  exists from. split; [done|]. pose proof (Context_valid _ _ Hf) as Hok.
  destruct rest as [|to rest].
  - apply rbind_Ok in R as (? & _ & [= <- <-]). unfold MsgSwap_GetSigners. cbn. by rewrite AccAddress_roundtrip.
  - apply rbind_Ok in R as (? & _ & R). apply rbind_Ok in R as (? & _ & R). apply rbind_Ok in R as (? & _ & [= <- <-]).
    unfold MsgSwapSend_GetSigners. cbn. by rewrite AccAddress_roundtrip.
Qed.
End Facts.

(** ** A concrete client *)

Import Ref.

Definition io_check (i : InOut) : bool :=
  match AccAddressFromBech32 (Address i) with Ok _ => true | _ => false end &&
  Coins_IsValid (IOCoins i) && negb (length (IOCoins i) =? 0)%nat.
Definition balanced (i : InOut) (outs : list InOut) : bool :=
  forallb (fun d => amt (IOCoins i) d =? zsum (fun o => amt (IOCoins o) d) outs)
    ((i :: outs) ≫= fun o => Denom <$> IOCoins o).

#[local] Instance demo_client : Client := {|
  GetClientTxContext s := if address_ok s then Ok s else Err (Errorf "key not found");
  NewFactoryCLI := Ok (mkFactory 1 1 false 200000 [] [] 1);
  GenerateOnly := false;
  FlagSplit := Ok true;
  ParseCoinsNormalized s := if String.eqb s "100uluna,7uusd" then Ok [mkCoin "uluna" 100; mkCoin "uusd" 7] else Err (Errorf "");
  ParseCoinNormalized s := Err (Errorf "");
  WithFees cs := Ok cs;
  Coins_QuoInt cs n := if n =? 0 then Panic else Ok (scale (fun a => Z.quot a n) cs);
  Coins_MulInt cs n := if n =? 0 then Panic else if forallb (fun c => int_fits (Amount c * n)) cs
                       then Ok (scale (fun a => a * n) cs) else Panic;
  bank_ValidateBasic msg :=
    match msg with
    | MsgMultiSend [i] outs =>
        if io_check i && negb (length outs =? 0)%nat && forallb io_check outs && balanced i outs
        then Ok tt else Err (Errorf "")
    | _ => Ok tt
    end |}.

Lemma io_check_spec i : io_check i = true <-> io_ok i.
Proof.
  unfold io_check, io_ok. rewrite !andb_true_iff, Coins_IsValid_spec, negb_true_iff, Nat.eqb_neq.
  rewrite <- (length_zero_iff_nil (IOCoins i)).
  destruct (AccAddressFromBech32 (Address i)) as [a| |]; naive_solver.
Qed.

Lemma balanced_spec i outs : balanced i outs = true <->
  forall d, amt (IOCoins i) d = zsum (fun o => amt (IOCoins o) d) outs.
Proof.
  unfold balanced. rewrite forallb_forall. split.
  - intros Hb d. destruct (decide (d ∈ (i :: outs) ≫= fun o => Denom <$> IOCoins o)) as [Hin|Hd].
    { apply Z.eqb_eq, Hb. by apply list_elem_of_In. }
    assert (forall o, o ∈ i :: outs -> amt (IOCoins o) d = 0) as Hz.
    { intros o Ho. apply amt_dens. intros Hin. apply Hd, list_elem_of_bind. by exists o. }
    rewrite Hz by left. rewrite (zsum_ext _ (fun _ => 0)), zsum_0; [done|]. intros o Ho. apply Hz. by right.
  - intros Hb d _. by apply Z.eqb_eq.
Qed.

#[local] Instance demo_client_laws : ClientLaws.
Proof.
  split.
  - intros s a. cbn. by destruct (address_ok s) eqn:E; intros [= <-].
  - intros s cs. cbn. destruct (String.eqb _ _); [|done]. intros [= <-].
    apply (proj1 (Coins_IsValid_spec _)). by vm_compute.
  - done.
  - intros cs n _ Hn. cbn. by destruct (Z.eqb_spec n 0); [lia|].
  - intros cs n _ Hn. cbn. by destruct (Z.eqb_spec n 0); [lia|].
  - intros i outs _. cbn [bank_ValidateBasic demo_client].
    assert (Hf : Forall io_ok outs <-> forallb io_check outs = true).
    { rewrite forallb_forall, Forall_forall. setoid_rewrite list_elem_of_In.
      split; intros Hio o Ho; apply io_check_spec; by apply Hio. }
    rewrite Hf, <- io_check_spec, <- balanced_spec.
    destruct (io_check i), (forallb io_check outs), (balanced i outs), outs; cbn; naive_solver.
Qed.

(** A hundred and seven, in two denoms, split three ways. *)
Lemma multi_send_built_witness :
  multi_send_msg "aaaa" true ["terra1bbbb"; "terra1cccc"; "terra1dddd"] [mkCoin "uluna" 100; mkCoin "uusd" 7] =
  Ok (MsgMultiSend [mkInOut "terra1aaaa" [mkCoin "uluna" 99; mkCoin "uusd" 6]]
        [mkInOut "terra1bbbb" [mkCoin "uluna" 33; mkCoin "uusd" 2];
         mkInOut "terra1cccc" [mkCoin "uluna" 33; mkCoin "uusd" 2];
         mkInOut "terra1dddd" [mkCoin "uluna" 33; mkCoin "uusd" 2]]) /\
  (forall msg, multi_send_msg "aaaa" true ["terra1bbbb"; "terra1cccc"; "terra1dddd"] [mkCoin "uusd" 2] <> Ok msg).
Proof.
  assert (Hto : Forall (fun a => exists b, AccAddressFromBech32 a = Ok b) ["terra1bbbb"; "terra1cccc"; "terra1dddd"])
    by (repeat constructor; eexists; vm_compute; reflexivity).
  split.
  - destruct (multi_send_built "aaaa" true ["terra1bbbb"; "terra1cccc"; "terra1dddd"]
      [mkCoin "uluna" 100; mkCoin "uusd" 7]) as [Hok _];
      [by vm_compute|apply (proj1 (Coins_IsValid_spec _)); by vm_compute|done|done|done|repeat constructor|].
    destruct Hok as (addrs & Ha & -> & _); [right; repeat constructor; cbn; lia|].
    repeat (apply Forall2_cons_inv_l in Ha as (? & ? & [= <-] & Ha & ->)). apply Forall2_nil_inv_l in Ha as ->.
    by vm_compute.
  - apply (multi_send_built "aaaa" true ["terra1bbbb"; "terra1cccc"; "terra1dddd"] [mkCoin "uusd" 2]);
      [by vm_compute|apply (proj1 (Coins_IsValid_spec _)); by vm_compute|done|done|done|repeat constructor|done|].
    intros Hall. apply Forall_cons in Hall as [Hle _]. cbn in Hle. lia.
Defined.
End TransferCommands.
