(* ===== verification/WasmCommands.v ===== *)
(** * Contracts and authorizations from the command line

    [execute], [instantiate] and [instantiate2] ([custom/wasm/client/cli/tx.go])
    and [authz exec] ([custom/authz/client/cli/tx.go]): the messages they build
    from arguments and flags, the decoding of a salt, and the fee estimate they
    attach.  Flags, keyring, files and the checks of [x/wasm] and [x/authz] belong
    to other projects and are parameters. *)

From S2P Require Import Prelude Sdk SdkRef SdkFees Core OracleTypes Market Tax Ante FeeEstimate TransferCommands.

(** ** Numbers and base64 of the Go library *)

Module GoText.

Definition digit_value (c : Ascii.ascii) : option Z :=
  let n := Z.of_N (Ascii.N_of_ascii c) in
  if (48 <=? n) && (n <=? 57) then Some (n - 48) else None.

Fixpoint parse_digits (acc : Z) (s : string) : res Z :=
  match s with
  | EmptyString => Ok acc
  | String c s' =>
      match digit_value c with
      | None => Err (Errorf "invalid syntax")
      | Some d => if 2 ^ 64 <=? acc * 10 + d then Err (Errorf "value out of range") else parse_digits (acc * 10 + d) s'
      end
  end.

(** [strconv.ParseUint(s, 10, 64)] *)
Definition ParseUint (s : string) : res Z :=
  match s with EmptyString => Err (Errorf "invalid syntax") | _ => parse_digits 0 s end.

(** The number that a string of digits denotes. *)
Inductive denotes : Z -> string -> Z -> Prop :=
  | denotes_end acc : denotes acc "" acc
  | denotes_digit acc c s d n : digit_value c = Some d -> denotes (acc * 10 + d) s n -> denotes acc (String c s) n.

(** [base64.StdEncoding] *)
Definition alphabet : string := "ABCDEFGHIJKLMNOPQRSTUVWXYZabcdefghijklmnopqrstuvwxyz0123456789+/".
Definition b64_char (n : Z) : Ascii.ascii := default Ascii.zero (String.get (Z.to_nat n) alphabet).
Fixpoint b64_find (i : Z) (s : string) (c : Ascii.ascii) : option Z :=
  match s with
  | EmptyString => None
  | String c' s' => if Ascii.eqb c c' then Some i else b64_find (i + 1) s' c
  end.
Definition b64_value (c : Ascii.ascii) : option Z := b64_find 0 alphabet c.
Definition byte_value (c : Ascii.ascii) : Z := Z.of_N (Ascii.N_of_ascii c).
Definition byte_of (n : Z) : Ascii.ascii := Ascii.ascii_of_N (Z.to_N (n mod 256)).
Definition pad : Ascii.ascii := Ascii.ascii_of_nat 61.

Fixpoint b64_encode (s : string) : string :=
  match s with
  | EmptyString => ""
  | String a EmptyString =>
      let v := byte_value a * 2 ^ 16 in
      String (b64_char (v / 2 ^ 18)) (String (b64_char (v / 2 ^ 12 mod 64)) (String pad (String pad "")))
  | String a (String b EmptyString) =>
      let v := byte_value a * 2 ^ 16 + byte_value b * 2 ^ 8 in
      String (b64_char (v / 2 ^ 18)) (String (b64_char (v / 2 ^ 12 mod 64))
        (String (b64_char (v / 2 ^ 6 mod 64)) (String pad "")))
  | String a (String b (String c s')) =>
      let v := byte_value a * 2 ^ 16 + byte_value b * 2 ^ 8 + byte_value c in
      String (b64_char (v / 2 ^ 18)) (String (b64_char (v / 2 ^ 12 mod 64))
        (String (b64_char (v / 2 ^ 6 mod 64)) (String (b64_char (v mod 64)) (b64_encode s'))))
  end.

Definition newline (c : Ascii.ascii) : bool := Ascii.eqb c (Ascii.ascii_of_nat 10) || Ascii.eqb c (Ascii.ascii_of_nat 13).
Fixpoint strip_newlines (s : string) : string :=
  match s with
  | EmptyString => ""
  | String c s' => if newline c then strip_newlines s' else String c (strip_newlines s')
  end.

Definition corrupt := Errorf "illegal base64 data".

(** Quanta of four characters, of which the last may be padded. *)
Fixpoint b64_quanta (s : string) : res string :=
  match s with
  | EmptyString => Ok ""
  | String c0 (String c1 (String c2 (String c3 s'))) =>
      match b64_value c0, b64_value c1, b64_value c2, b64_value c3 with
      | Some v0, Some v1, Some v2, Some v3 =>
          let v := v0 * 2 ^ 18 + v1 * 2 ^ 12 + v2 * 2 ^ 6 + v3 in
          let! rest := b64_quanta s' in
          Ok (String (byte_of (v / 2 ^ 16)) (String (byte_of (v / 2 ^ 8)) (String (byte_of v) rest)))
      | Some v0, Some v1, Some v2, None =>
          let v := v0 * 2 ^ 18 + v1 * 2 ^ 12 + v2 * 2 ^ 6 in
          if Ascii.eqb c3 pad && String.eqb s' "" then Ok (String (byte_of (v / 2 ^ 16)) (String (byte_of (v / 2 ^ 8)) ""))
          else Err corrupt
      | Some v0, Some v1, None, None =>
          let v := v0 * 2 ^ 18 + v1 * 2 ^ 12 in
          if Ascii.eqb c2 pad && Ascii.eqb c3 pad && String.eqb s' "" then Ok (String (byte_of (v / 2 ^ 16)) "")
          else Err corrupt
      | _, _, _, _ => Err corrupt
      end
  | _ => Err corrupt
  end.

Definition b64_DecodeString (s : string) : res string := b64_quanta (strip_newlines s).

(** ** Their laws *)

Lemma digit_range c d : digit_value c = Some d -> 0 <= d < 10.
Proof. unfold digit_value. case_match eqn:E; [|done]. intros [= <-]. lia. Qed.

Lemma denotes_grows acc s n : denotes acc s n -> 0 <= acc -> acc <= n.
Proof. induction 1 as [|acc c s d n Hd%digit_range _ IH]; lia. Qed.

Lemma parse_digits_spec s : forall acc n, 0 <= acc < 2 ^ 64 ->
  parse_digits acc s = Ok n <-> denotes acc s n /\ n < 2 ^ 64.
Proof.
  induction s as [|c s IH]; intros acc n Hacc; cbn [parse_digits].
  - split; [intros [= <-]; split; [constructor|lia]|]. intros [Hd _]. by inversion Hd.
  - destruct (digit_value c) as [d|] eqn:Ed.
    + pose proof (digit_range _ _ Ed). destruct (Z.leb_spec (2 ^ 64) (acc * 10 + d)) as [Hle|Hlt].
      * split; [done|]. intros [Hd Hn]. inversion Hd as [|? ? ? d' ? Ed' Hd']; subst.
        rewrite Ed in Ed'. injection Ed' as <-. apply denotes_grows in Hd'; lia.
      * rewrite IH by lia. split; intros [Hd Hn]; (split; [|done]).
        { by econstructor. }
        inversion Hd as [|? ? ? d' ? Ed' Hd']; subst. rewrite Ed in Ed'. by injection Ed' as <-.
    + split; [done|]. intros [Hd _]. inversion Hd. congruence.
Qed.

Lemma ParseUint_spec s n : ParseUint s = Ok n <-> s <> "" /\ denotes 0 s n /\ n < 2 ^ 64.
Proof.
  unfold ParseUint. destruct s as [|c s]; [naive_solver|]. rewrite parse_digits_spec by done. naive_solver.
Qed.

Lemma b64_table : forallb (fun n => match b64_value (b64_char (Z.of_nat n)) with Some m => m =? Z.of_nat n | None => false end
  && negb (newline (b64_char (Z.of_nat n)))) (seq 0 64) = true.
Proof. by vm_compute. Qed.

Lemma b64_char_ok n : 0 <= n < 64 -> b64_value (b64_char n) = Some n /\ newline (b64_char n) = false.
Proof.
  intros Hn. pose proof b64_table as Ht. rewrite forallb_forall in Ht. specialize (Ht (Z.to_nat n)).
  rewrite in_seq, Z2Nat.id in Ht by lia. apply andb_true_iff in Ht as [Hv Hnl%negb_true_iff]; [|lia].
  split; [|done]. destruct (b64_value (b64_char n)); [|done]. f_equal. by apply Z.eqb_eq.
Qed.

Lemma byte_range c : 0 <= byte_value c < 256.
Proof. unfold byte_value. pose proof (Ascii.N_ascii_bounded c). lia. Qed.

Lemma byte_of_value c n : n mod 256 = byte_value c -> byte_of n = c.
Proof. intros E. unfold byte_of, byte_value in *. by rewrite E, N2Z.id, Ascii.ascii_N_embedding. Qed.

(** A quantum of four characters, decoded. *)
Lemma b64_quantum v s rest : 0 <= v < 2 ^ 24 -> b64_DecodeString s = Ok rest ->
  b64_DecodeString (String (b64_char (v / 2 ^ 18)) (String (b64_char (v / 2 ^ 12 mod 64))
    (String (b64_char (v / 2 ^ 6 mod 64)) (String (b64_char (v mod 64)) s)))) =
  Ok (String (byte_of (v / 2 ^ 16)) (String (byte_of (v / 2 ^ 8)) (String (byte_of v) rest))).
Proof.
  intros Hv R. unfold b64_DecodeString in *. cbn [strip_newlines].
  destruct (b64_char_ok (v / 2 ^ 18)) as [V0 N0]; [zlia|]. destruct (b64_char_ok (v / 2 ^ 12 mod 64)) as [V1 N1]; [zlia|].
  destruct (b64_char_ok (v / 2 ^ 6 mod 64)) as [V2 N2]; [zlia|]. destruct (b64_char_ok (v mod 64)) as [V3 N3]; [zlia|].
  rewrite N0, N1, N2, N3. cbn [b64_quanta]. rewrite V0, V1, V2, V3, R. cbn [rbind].
  by replace (v / 2 ^ 18 * 2 ^ 18 + v / 2 ^ 12 mod 64 * 2 ^ 12 + v / 2 ^ 6 mod 64 * 2 ^ 6 + v mod 64) with v by zlia.
Qed.

Lemma string_ind3 (P : string -> Prop) : P "" -> (forall a, P (String a "")) -> (forall a b, P (String a (String b ""))) ->
  (forall a b c s, P s -> P (String a (String b (String c s)))) -> forall s, P s.
Proof.
  intros H0 H1' H2' H3'. fix IH 1. intros [|a [|b [|c s]]]; [done|apply H1'|apply H2'|apply H3', IH].
Qed.

Lemma b64_decode_encode s : b64_DecodeString (b64_encode s) = Ok s.
Proof.
  induction s as [|a|a b|a b c s IH] using string_ind3; [done|..]; cbn [b64_encode].
  - pose proof (byte_range a). set (v := byte_value a * 2 ^ 16).
    destruct (b64_char_ok (v / 2 ^ 18)) as [V0 N0]; [zlia|]. destruct (b64_char_ok (v / 2 ^ 12 mod 64)) as [V1 N1]; [zlia|].
    unfold b64_DecodeString. cbn [strip_newlines]. rewrite N0, N1. change (newline pad) with false. cbn [strip_newlines b64_quanta].
    rewrite V0, V1. change (b64_value pad) with (@None Z). cbn. do 2 f_equal. apply byte_of_value. zlia.
  - pose proof (byte_range a). pose proof (byte_range b). set (v := byte_value a * 2 ^ 16 + byte_value b * 2 ^ 8).
    destruct (b64_char_ok (v / 2 ^ 18)) as [V0 N0]; [zlia|]. destruct (b64_char_ok (v / 2 ^ 12 mod 64)) as [V1 N1]; [zlia|].
    destruct (b64_char_ok (v / 2 ^ 6 mod 64)) as [V2 N2]; [zlia|].
    unfold b64_DecodeString. cbn [strip_newlines]. rewrite N0, N1, N2. change (newline pad) with false. cbn [strip_newlines b64_quanta].
    rewrite V0, V1, V2. change (b64_value pad) with (@None Z). cbn [Ascii.eqb pad]. cbn.
    do 2 f_equal; [apply byte_of_value; zlia|]. f_equal. apply byte_of_value. zlia.
  - pose proof (byte_range a). pose proof (byte_range b). pose proof (byte_range c).
    rewrite (b64_quantum _ _ s) by (done || zlia). do 2 f_equal; [apply byte_of_value; zlia|].
    f_equal; [apply byte_of_value; zlia|]. f_equal. apply byte_of_value. zlia.
Qed.
End GoText.

Module WasmCommands.
Import Tax Ante FeeEstimate TransferCommands GoText.
Abbreviation wrap_err := OracleTypes.wrap_err.

(** ** Salts *)

Record argumentDecoder := mkArgDecoder {
  dec : string -> res string;  (* the default decoder *)
  asciiF : bool; hexF : bool; b64F : bool }.
Definition newArgDecoder (def : string -> res string) : argumentDecoder := mkArgDecoder def false false false.
(** The values that the command line gives the registered flags. *)
Definition RegisterFlags (ascii hex b64 : bool) (a : argumentDecoder) : argumentDecoder :=
  mkArgDecoder (dec a) ascii hex b64.

Definition asciiDecodeString (s : string) : res string := Ok s.

Definition DecodeString (a : argumentDecoder) (s : string) : res string :=
  let! found := rfold (fun found iv =>
    let '(i, v) := iv in
    if negb v then Ok found
    else if negb (found =? -1) then Err (Errorf "multiple decoding flags used")
    else Ok i) (-1) [(0, asciiF a); (1, hexF a); (2, b64F a)] in
  if found =? 0 then asciiDecodeString s
  else if found =? 1 then OracleTypes.hex_DecodeString s
  else if found =? 2 then b64_DecodeString s
  else dec a s.

(** ** Messages of [x/wasm] *)

Record ExecuteContract := mkExecute { ESender : string; EContract : string; EFunds : Coins; EMsg : string }.
Record InstantiateContract := mkInstantiate {
  ISender : string; ICodeID : Z; IFunds : Coins; IMsg : string; IAdmin : string; ILabel : string }.
Record InstantiateContract2 := mkInstantiate2 {
  I2Sender : string; I2Admin : string; I2CodeID : Z; I2Msg : string; I2Funds : Coins; I2Label : string;
  I2Salt : string; I2FixMsg : bool }.

(** What the fee estimate and the ante handler read of them. *)
Definition execute_msg (m : ExecuteContract) : Msg := MsgExecuteContract (ESender m) (EContract m) (EFunds m).
Definition instantiate_msg (m : InstantiateContract) : Msg := MsgInstantiateContract (IFunds m).
Definition instantiate2_msg (m : InstantiateContract2) : Msg := MsgInstantiateContract2 (I2Funds m).

Definition flagAmount := "amount".
Definition flagAdmin := "admin".
Definition flagNoAdmin := "no-admin".
Definition flagFixMsg := "fix-msg".
Definition flagLabel := "label".

(** The flag set of a command, the checks of the messages and the transaction
    that [authz exec] reads. *)
Class ContractClient := {
  GetString : string -> res string;
  GetBool : string -> res bool;
  execute_ValidateBasic : ExecuteContract -> res unit;
  instantiate_ValidateBasic : InstantiateContract -> res unit;
  instantiate2_ValidateBasic : InstantiateContract2 -> res unit;
  ReadTxFromFile : string -> res (list Msg);
  exec_ValidateBasic : string -> list Msg -> res unit;
}.

Section Commands.
Context `{HM : SdkMath, HC : SdkCoins, HF : SdkFees, HA : Bech32, HN : Node, HCl : Client, HCC : ContractClient}.

Definition parseExecuteArgs (contractAddr execMsg sender : string) : res ExecuteContract :=
  let! amountStr := wrap_err (GetString flagAmount) (Errorf "amount: %s") in
  let! amount := ParseCoinsNormalized amountStr in
  Ok (mkExecute (AccString sender) contractAddr amount execMsg).

Definition parseInstantiateArgs (rawCodeID initMsg sender : string) : res InstantiateContract :=
  let! codeID := ParseUint rawCodeID in
  let! amountStr := wrap_err (GetString flagAmount) (Errorf "amount: %s") in
  let! amount := wrap_err (ParseCoinsNormalized amountStr) (Errorf "amount: %s") in
  let! label := wrap_err (GetString flagLabel) (Errorf "label: %s") in
  if String.eqb label "" then Err (Errorf "label is required on all contracts")
  else
    let! adminStr := wrap_err (GetString flagAdmin) (Errorf "admin: %s") in
    let! noAdmin := wrap_err (GetBool flagNoAdmin) (Errorf "no-admin: %s") in
    if String.eqb adminStr "" && negb noAdmin then Err (Errorf "you must set an admin or explicitly pass --no-admin")
    else if negb (String.eqb adminStr "") && noAdmin then
      Err (Errorf "you set an admin and passed --no-admin, those cannot both be true")
    else Ok (mkInstantiate (AccString sender) codeID amount initMsg adminStr label).

(** [from] is the value of [--from]. *)
Definition ExecuteContractCmd (from : string) (args : list string) : res (Factory * ExecuteContract) :=
  match args with
  | [contract; execMsg] =>
      let! sender := GetClientTxContext from in
      let! txf := NewFactoryCLI in
      let! msg := parseExecuteArgs contract execMsg sender in
      let! _ := execute_ValidateBasic msg in
      let! txf := with_estimate txf (execute_msg msg) in
      Ok (txf, msg)
  | _ => Err cobra_args
  end.

Definition InstantiateContractCmd (from : string) (args : list string) : res (Factory * InstantiateContract) :=
  match args with
  | [rawCodeID; initMsg] =>
      let! sender := GetClientTxContext from in
      let! msg := parseInstantiateArgs rawCodeID initMsg sender in
      let! _ := instantiate_ValidateBasic msg in
      let! txf := NewFactoryCLI in
      let! txf := with_estimate txf (instantiate_msg msg) in
      Ok (txf, msg)
  | _ => Err cobra_args
  end.

Definition InstantiateContract2Cmd (ascii hex b64 : bool) (from : string) (args : list string)
    : res (Factory * InstantiateContract2) :=
  let decoder := RegisterFlags ascii hex b64 (newArgDecoder OracleTypes.hex_DecodeString) in
  match args with
  | [rawCodeID; initMsg; rawSalt] =>
      let! sender := GetClientTxContext from in
      let! salt := wrap_err (DecodeString decoder rawSalt) (Errorf "salt: %w") in
      let! fixMsg := wrap_err (GetBool flagFixMsg) (Errorf "fix msg: %w") in
      let! data := parseInstantiateArgs rawCodeID initMsg sender in
      let msg := mkInstantiate2 (ISender data) (IAdmin data) (ICodeID data) (IMsg data) (IFunds data) (ILabel data)
                   salt fixMsg in
      let! _ := instantiate2_ValidateBasic msg in
      let! txf := NewFactoryCLI in
      let! txf := with_estimate txf (instantiate2_msg msg) in
      Ok (txf, msg)
  | _ => Err cobra_args
  end.

(** An [--offline] flag that cannot be read counts as not given.  The signed
    message names the grantee and carries the messages of the file. *)
Definition NewCmdExecAuthorization (from : string) (args : list string) : res (Factory * (string * list Msg)) :=
  match args with
  | [file] =>
      let! grantee := GetClientTxContext from in
      if match GetBool "offline" with Ok offline => offline | _ => false end
      then Err (Errorf "cannot broadcast tx during offline mode")
      else
        let! theTx := ReadTxFromFile file in
        let! txf := NewFactoryCLI in
        let! _ := exec_ValidateBasic (AccString grantee) theTx in
        let! txf := with_estimate txf (MsgExec (Some theTx)) in
        Ok (txf, (AccString grantee, theTx))
  | _ => Err cobra_args
  end.
End Commands.

(** ** Salts and arguments *)

(** How a salt is written for the given flags. *)
Definition encode_salt (ascii b64 : bool) (salt : string) : string :=
  if ascii then salt else if b64 then b64_encode salt else OracleTypes.hex_EncodeToString salt.

Lemma salt_roundtrip ascii hex b64 salt :
  (Z.b2z ascii + Z.b2z hex + Z.b2z b64 <= 1 ->
     DecodeString (RegisterFlags ascii hex b64 (newArgDecoder OracleTypes.hex_DecodeString))
       (encode_salt ascii b64 salt) = Ok salt) /\
  (1 < Z.b2z ascii + Z.b2z hex + Z.b2z b64 -> forall s def,
     DecodeString (RegisterFlags ascii hex b64 (newArgDecoder def)) s = Err (Errorf "multiple decoding flags used")).
Proof.
  split; intros Hf; destruct ascii, hex, b64; cbn in Hf; try lia; try done;
    first [exact (OracleTypes.hex_decode_encode salt)|exact (b64_decode_encode salt)].
Qed.

Section Facts.
Context `{HM : SdkMath, HC : SdkCoins, HF : SdkFees, HA : Bech32, HN : Node, HCl : Client, HCC : ContractClient}.

(** The code id is a decimal number of 64 bits, the label is there, and there is
    an admin or an explicit renunciation, not both. *)
Lemma instantiate_args_spec raw initMsg sender amount label admin noAdmin m :
  GetString flagAmount = Ok amount -> GetString flagLabel = Ok label ->
  GetString flagAdmin = Ok admin -> GetBool flagNoAdmin = Ok noAdmin ->
  parseInstantiateArgs raw initMsg sender = Ok m <->
  exists id funds, raw <> "" /\ denotes 0 raw id /\ id < 2 ^ 64 /\ ParseCoinsNormalized amount = Ok funds /\
    label <> "" /\ (admin = "" <-> noAdmin = true) /\
    m = mkInstantiate (AccString sender) id funds initMsg admin label.
Proof using Type.
  intros Ha Hl Had Hno. unfold parseInstantiateArgs, wrap_err, OracleTypes.wrap_err. rewrite Ha, Hl, Had, Hno. cbn [rbind].
  assert (Hid : forall id, ParseUint raw = Ok id <-> raw <> "" /\ denotes 0 raw id /\ id < 2 ^ 64) by (intros; apply ParseUint_spec).
  split.
  - intros (id & E%Hid & (funds & Ef & R)%rbind_Ok)%rbind_Ok. destruct E as (? & ? & ?).
    destruct (ParseCoinsNormalized amount) as [cs| |]; try done. injection Ef as ->.
    destruct (String.eqb_spec label ""); [done|]. exists id, funds.
    destruct (String.eqb_spec admin ""), noAdmin; cbn in R; try done; injection R as <-; naive_solver.
  - intros (id & funds & E1 & E2 & E3 & -> & Hne & Hadm & ->). rewrite (proj2 (Hid id)) by done. cbn [rbind].
    rewrite (proj2 (String.eqb_neq label "")) by done.
    destruct (String.eqb_spec admin ""), noAdmin; cbn; try done; exfalso; naive_solver.
Qed.
End Facts.
End WasmCommands.
