(* ===== verification/CommandFees.v ===== *)
(** * From the command line to the node

    Every command that estimates its fee ([custom/bank], [custom/wasm],
    [custom/authz] and [x/market] client packages) signs a transaction that the
    node's fee check accepts. *)

From S2P Require Import Prelude Sdk SdkRef SdkFees Core OracleTypes Market TreasuryTypes Treasury TaxExemption Tax TaxFacts TaxRef Ante AnteTax AnteFee FeeEstimate FeeEstimateFacts TransferCommands WasmCommands.

Module CommandFees.
Import Tax TaxFacts Ante AnteTax AnteFee FeeEstimate TransferCommands WasmCommands.

(** ** The signed transactions *)

Section Signed.
Context `{HM : SdkMath, HC : SdkCoins, HF : SdkFees, HA : Bech32, HN : Node, HCl : Client, HCC : ContractClient}.

(** A factory and a message that some command hands to
    [GenerateOrBroadcastTxWithFactory]. *)
Inductive signed : Factory -> Msg -> Prop :=
  | signed_send args txf msg : sendTxCmd args = Ok (txf, msg) -> signed txf msg
  | signed_multi_send args txf msg : multiSendTxCmd args = Ok (txf, msg) -> signed txf msg
  | signed_swap from args txf m : GetSwapCmd from args = Ok (txf, SwapSend m) -> signed txf (MsgSwapSend m)
  | signed_execute from args txf m : ExecuteContractCmd from args = Ok (txf, m) -> signed txf (execute_msg m)
  | signed_instantiate from args txf m :
      InstantiateContractCmd from args = Ok (txf, m) -> signed txf (instantiate_msg m)
  | signed_instantiate2 ascii hex b64 from args txf m :
      InstantiateContract2Cmd ascii hex b64 from args = Ok (txf, m) -> signed txf (instantiate2_msg m)
  | signed_exec from args txf grantee msgs :
      NewCmdExecAuthorization from args = Ok (txf, (grantee, msgs)) -> signed txf (MsgExec (Some msgs)).

(** Through the checks of a command that went through. *)
Ltac steps R := repeat (go_step || (case_match; try done)).

(** All of them estimate the fee of the very message they sign. *)
Lemma signed_estimated txf' msg : signed txf' msg ->
  exists txf, NewFactoryCLI = Ok txf /\ with_estimate txf msg = Ok txf'.
Proof using Type.
  destruct 1 as [args txf' msg R|args txf' msg R|from args txf' m R|from args txf' m R|from args txf' m R
    |ascii hex b64 from args txf' m R|from args txf' grantee msgs R];
    unfold sendTxCmd, multiSendTxCmd, GetSwapCmd, ExecuteContractCmd, InstantiateContractCmd,
      InstantiateContract2Cmd, NewCmdExecAuthorization in R; steps R; eauto.
Qed.
End Signed.

(** ** The node accepts them *)

Section Accepted.
Context `{HM : SdkMath, HC : SdkCoins, HF : SdkFees, HA : Bech32, HBD : BondDenom, HCl : Client, HCC : ContractClient}.
Context `{!SdkMathLaws, !SdkCoinsLaws, !SdkFeesLaws, !Bech32Laws, !ClientLaws}.
Variable (te : TaxExemption.Store) (tk : Treasury.Store) (rate : Dec) (simulated_gas : Z).
#[local] Instance node : Node := FeeEstimateFacts.node_of rate tk simulated_gas.

(** What the flags of the command line say: estimate the fee, with gas prices
    that are at least the node's. *)
Record estimating (prices : DecCoins) (txf : Factory) : Prop := {
  est_factory : NewFactoryCLI = Ok txf;
  est_broadcast : GenerateOnly = false;
  est_fees : Fees txf = [];
  est_prices : decoins_weak (FGasPrices txf);
  est_enough : forall d, damt prices d <= damt (FGasPrices txf) d }.

(** C25. From the command line to the node.  Whatever [send], [multi-send],
    [swap], [execute], [instantiate], [instantiate2] or [authz exec] signs with an
    estimated fee, taken from the node's tax rate and caps and from gas prices
    that are at least the node's, passes the node's fee check, with its tax taken
    from the fee and not reverse charged on its messages; the estimate also
    replaces the gas prices and the simulation of the transaction. *)
Theorem commands_accepted prices txf txf' msg taxes nonTaxable req payer granter :
  rate_ok rate -> (forall d, 0 <= Treasury.GetTaxCap tk d) -> decoins_weak prices ->
  estimating prices txf -> signed txf' msg ->
  Forall msg_wf (flatten msg) -> IsOracleTx [msg] = false -> 0 < FGas txf' < 2 ^ 63 ->
  Ante.FilterMsgAndComputeTax te tk (Some rate) false [msg] = Ok (taxes, nonTaxable) ->
  min_gas_fees prices (FGas txf') = Ok req ->
  SimulateAndExecute txf' = false /\ FGasPrices txf' = [] /\
  exists priority refund,
    checkTxFee prices
      {| GetMsgs := [msg]; GetFee := Fees txf'; GetGas := FGas txf'; FeePayer := payer; FeeGranter := granter |}
      taxes nonTaxable = Ok (priority, false, refund).
Proof using Type*.
  intros Hrate Hcap Hp [Hcli Hgen Hf Hcp Hle] Hs Hw Ho Hg Hnode Hreq.
  apply signed_estimated in Hs as (txf0 & E & Hest). rewrite Hcli in E. injection E as <-.
  assert (Hz : Coins_IsZero (Fees txf) = true) by (by rewrite Hf, Coins_IsZero_spec).
  pose proof Hest as Hrun. unfold with_estimate in Hrun. rewrite Hgen, Hz in Hrun. cbn [negb andb] in Hrun.
  apply rbind_Ok in Hrun as (fee & Hfee & Hrun).
  assert (Hgas : FGas txf' = FeeGas fee) by (by apply rbind_Ok in Hrun as (? & _ & [= <-])).
  rewrite Hcli in Hfee. rewrite Hgas in *.
  assert (Hfl : Forall msg_wf ([msg] ≫= flatten)) by (by rewrite bind_cons, app_nil_r).
  assert (Hfs : coins_ok (Fees txf)) by (rewrite Hf; apply coins_ok_nil).
  assert (Hok : coins_ok (FAmount fee))
    by (eapply (FeeEstimateFacts.estimate_parts te tk rate simulated_gas); [apply Hrate|done..|lia]).
  rewrite <- Hcli in Hfee. destruct (estimate_attached _ _ _ _ Hgen Hz Hfee Hok Hest) as (-> & _ & ? & ?).
  split; [done|]. split; [done|]. rewrite Hcli in Hfee.
  by eapply (FeeEstimateFacts.estimate_accepted te tk rate simulated_gas).
Qed.
End Accepted.

(** ** A grantee executes the messages of a file *)

Import Ref TaxRef.

Definition node_prices : DecCoins := [mkDecCoin MicroLunaDenom (NewDecWithPrec 28325 3)].
Definition cli_factory : Factory := mkFactory 0 0 true 0 [] node_prices 1.

#[local] Instance cli : Client := {|
  GetClientTxContext := @GetClientTxContext demo_client;
  NewFactoryCLI := Ok cli_factory;
  GenerateOnly := false;
  FlagSplit := @FlagSplit demo_client;
  ParseCoinsNormalized := @ParseCoinsNormalized demo_client;
  ParseCoinNormalized := @ParseCoinNormalized demo_client;
  WithFees := @WithFees demo_client;
  Coins_QuoInt := @Coins_QuoInt demo_client;
  Coins_MulInt := @Coins_MulInt demo_client;
  bank_ValidateBasic := @bank_ValidateBasic demo_client |}.
#[local] Instance cli_laws : ClientLaws.
Proof. destruct demo_client_laws. by split. Qed.

#[local] Instance contract_cli : ContractClient := {|
  GetString _ := Ok "";
  GetBool _ := Ok false;
  execute_ValidateBasic _ := Ok tt;
  instantiate_ValidateBasic _ := Ok tt;
  instantiate2_ValidateBasic _ := Ok tt;
  ReadTxFromFile file := if String.eqb file "tx.json" then Ok demo_msgs else Err (Errorf "no such file");
  exec_ValidateBasic _ _ := Ok tt |}.

Definition demo_node : Node := FeeEstimateFacts.node_of (NewDecWithPrec 5 3) tax_treasury 200000.
Definition signed_factory : Factory :=
  mkFactory 0 0 false 200000 [mkCoin MicroLunaDenom 5665006; mkCoin MicroUSDDenom 60] [] 1.

Lemma commands_accepted_witness : exists priority refund,
  checkTxFee node_prices
    {| GetMsgs := [MsgExec (Some demo_msgs)]; GetFee := [mkCoin MicroLunaDenom 5665006; mkCoin MicroUSDDenom 60];
       GetGas := 200000; FeePayer := alice; FeeGranter := None |}
    [mkCoin MicroLunaDenom 6; mkCoin MicroUSDDenom 60] [mkCoin MicroLunaDenom 3] = Ok (priority, false, refund).
Proof.
  apply (commands_accepted (TaxExemption.mkStore ∅ ∅) tax_treasury (NewDecWithPrec 5 3) 200000 node_prices
    cli_factory signed_factory (MsgExec (Some demo_msgs)) _ _ [mkCoin MicroLunaDenom 5665000]).
  - split; vm_compute; discriminate.
  - apply demo_caps.
  - split; [repeat constructor|]. repeat constructor; by vm_compute.
  - split; [done..| |done]. split; [repeat constructor|]. repeat constructor; by vm_compute.
  - apply (signed_exec (HN := demo_node) "aaaa" ["tx.json"] _ "terra1aaaa"). vm_compute. reflexivity.
  - repeat (apply List.Forall_cons; [apply coins_ok_check; by vm_compute|]). apply List.Forall_nil.
  - done.
  - by vm_compute.
  - vm_compute. reflexivity.
  - vm_compute. reflexivity.
Defined.
End CommandFees.
