(* ===== verification/Wasm.v ===== *)
(** * Contracts

    Messages a contract emits and queries it asks: the SDK message handler
    ([custom/wasm/keeper/handler_plugin.go]), the custom messenger and querier
    ([wasmbinding/message_plugin.go], [query_plugin.go]) and the whitelisted
    stargate queries with their shared response objects
    ([stargate_whitelist.go], [helper.go]).  Encoders, the message router and
    codecs belong to wasmd and the SDK: they are parameters. *)

From S2P Require Import Prelude Sdk SdkFees Core Market TreasuryTypes Treasury TaxExemption Tax Ante TaxMarket.

Module Wasm.
Import Tax TaxMarket.

Definition ErrUnauthorized := SdkError "unauthorized".
Definition ErrUnknownRequest := SdkError "unknown request".
Definition ErrJSONMarshal := SdkError "failed to marshal JSON bytes".
Definition UnsupportedRequest := SdkError "wasmvm: unsupported request".
Definition InvalidRequest := SdkError "wasmvm: invalid request".
Definition Unknown := SdkError "wasmvm: unknown".

(** ** Messages through the SDK ([handler_plugin.go]) *)

(** [sdk.Result], with the events and bytes kept as strings. *)
Record Result := mkResult { Data : string; REvents : list string }.

(** The encoders turn a contract's message into SDK messages; every message
    knows its checks and signers; the router finds its handler. *)
Class Messages (CosmosMsg SdkMsg S : Type) := {
  Encode : TxCtx -> string -> string -> CosmosMsg -> res (list SdkMsg);
  ValidateBasic : SdkMsg -> res unit;
  GetSigners : SdkMsg -> res (list string);
  Handler : SdkMsg -> option (TxCtx -> M S Result);
}.

Section Dispatch.
Context {CosmosMsg SdkMsg S : Type} `{Messages CosmosMsg SdkMsg S}.

(** [ctx.WithValue(ContextKeyTaxReverseCharge, true)] *)
Definition reverse_charged (ctx : TxCtx) : TxCtx :=
  mkTxCtx (Height ctx) (MinGasPrices ctx) (Some true) (TaxDue ctx) (TaxPayer ctx) (Priority ctx).

Definition handleSdkMessage (ctx : TxCtx) (contractAddr : string) (msg : SdkMsg) : M S Result :=
  do* lift (ValidateBasic msg) in
  let* signers := lift (GetSigners msg) in
  if negb (forallb (fun acct => String.eqb acct contractAddr) signers) then fail ErrUnauthorized
  else
    match Handler msg with
    | Some handler => handler ctx
    | None => fail ErrUnknownRequest
    end.

(** The events and data of all messages, in order. *)
Definition DispatchMsg (ctx : TxCtx) (contractAddr contractIBCPortID : string) (msg : CosmosMsg)
    : M S (list string * list string) :=
  let* sdkMsgs := lift (Encode ctx contractAddr contractIBCPortID msg) in
  let ctx := reverse_charged ctx in
  mfold (fun acc sdkMsg =>
    let* res := handleSdkMessage ctx contractAddr sdkMsg in
    ret (acc.1 ++ REvents res, acc.2 ++ [Data res])) ([], []) sdkMsgs.
End Dispatch.

(** ** The terra messages ([message_plugin.go], [bindings/msg.go]) *)

Record SwapMsg := mkSwapMsg { OfferCoin : Coin; AskDenom : string }.
Record SwapSendMsg := mkSwapSendMsg { ToAddress : string; SOfferCoin : Coin; SAskDenom : string }.
Record TerraMsg := mkTerraMsg { TSwap : option SwapMsg; TSwapSend : option SwapSendMsg }.

(** A contract's message: the raw custom JSON, or something else. *)
Record CosmosMsg (R : Type) := mkCosmosMsg { Custom : option string; Other : R }.
Arguments mkCosmosMsg {R} _ _.
Arguments Custom {R} _.
Arguments Other {R} _.

(** [encoding/json] on the types of the bindings. *)
Class Json := {
  unmarshal_msg : string -> res TerraMsg;
  marshal_swap : Market.MsgSwapResponse -> res string;
}.

Section Messenger.
Context {R O B DS : Type}.
Context `{SdkMath, SdkCoins, Bech32, Market.OracleReader O, BankKeeper B, Json}.
Abbreviation XM := (M (State (Rest O) B DS)).

Definition PerformSwap (contractAddr : string) (contractMsg : option SwapMsg)
    : XM Market.MsgSwapResponse :=
  match contractMsg with
  | None => fail InvalidRequest
  | Some m =>
      let msgSwap := Market.mkMsgSwap (AccString contractAddr) (OfferCoin m) (AskDenom m) in
      do* lift (Market.MsgSwap_ValidateBasic msgSwap) in
      on_market (as_market (Market.Swap msgSwap))
  end.

Definition PerformSwapSend (contractAddr : string) (contractMsg : option SwapSendMsg)
    : XM Market.MsgSwapResponse :=
  match contractMsg with
  | None => fail InvalidRequest
  | Some m =>
      let* toAddr := lift (AccAddressFromBech32 (ToAddress m)) in
      let msgSwapSend := Market.mkMsgSwapSend (AccString contractAddr) (AccString toAddr)
        (SOfferCoin m) (SAskDenom m) in
      do* lift (Market.MsgSwapSend_ValidateBasic msgSwapSend) in
      on_market (as_market (Market.SwapSend msgSwapSend))
  end.

Definition swap (contractAddr : string) (contractMsg : option SwapMsg)
    : XM (list string * list string) :=
  let* res := PerformSwap contractAddr contractMsg in
  let* bz := lift (marshal_swap res) in
  ret ([], [bz]).

Definition swapSend (contractAddr : string) (contractMsg : option SwapSendMsg)
    : XM (list string * list string) :=
  let* res := PerformSwapSend contractAddr contractMsg in
  let* bz := lift (marshal_swap res) in
  ret ([], [bz]).

(** [CustomMessenger.DispatchMsg]; [wrapped] is the messenger it decorates. *)
Definition custom_DispatchMsg
    (wrapped : TxCtx -> string -> string -> CosmosMsg R -> XM (list string * list string))
    (ctx : TxCtx) (contractAddr contractIBCPortID : string) (msg : CosmosMsg R)
    : XM (list string * list string) :=
  match Custom msg with
  | Some json =>
      let* contractMsg := lift (unmarshal_msg json) in
      match TSwap contractMsg, TSwapSend contractMsg with
      | Some m, _ => swap contractAddr (Some m)
      | None, Some m => swapSend contractAddr (Some m)
      | None, None => fail UnsupportedRequest
      end
  | None => wrapped ctx contractAddr contractIBCPortID msg
  end.
End Messenger.

(** ** The terra queries ([query_plugin.go], [bindings/query.go]) *)

Record ExchangeRateQueryParams := mkRatesQuery { BaseDenom : string; QuoteDenoms : list string }.
Record TerraQuery := mkTerraQuery {
  QSwap : option SwapMsg;
  ExchangeRates : option ExchangeRateQueryParams;
  QTaxRate : option unit;
  QTaxCap : option string }.

(** The responses, before they are marshalled. *)
Inductive TerraResponse :=
  | SwapQueryResponse (receive : Coin)
  | ExchangeRatesQueryResponse (items : list (string * Dec)) (base : string)
  | TaxRateQueryResponse (rate : Dec)
  | TaxCapQueryResponse (cap : Int).

Class QueryJson := {
  unmarshal_query : string -> res TerraQuery;
  marshal_response : TerraResponse -> res string;
  coin_String : Coin -> string;
}.

Section Queries.
Context {O : Type} `{SdkMath, SdkCoins, Market.OracleReader O, Market.CoinNormalizer, QueryJson}.

(** The rates of the quote denoms that have one. *)
Definition exchange_items (o : O) (base : Dec) (quotes : list string) : res (list (string * Dec)) :=
  rfold (fun items quoteDenom =>
    match Market.GetLunaExchangeRate o quoteDenom with
    | Ok quote => let! rate := Dec_Quo quote base in Ok (items ++ [(quoteDenom, rate)])
    | Err _ => Ok items
    | Panic => Panic
    end) [] quotes.

Definition marshal (r : TerraResponse) : res string :=
  match marshal_response r with Err _ => Err ErrJSONMarshal | x => x end.

Definition CustomQuerier (o : O) (k : Market.Keeper) (tk : Treasury.Store) (request : string)
    : res string :=
  let! q := unmarshal_query request in
  match QSwap q, ExchangeRates q, QTaxRate q, QTaxCap q with
  | Some m, _, _, _ =>
      let! receive := Market.query_swap o k (Some (coin_String (OfferCoin m), AskDenom m)) in
      marshal (SwapQueryResponse receive)
  | None, Some p, _, _ =>
      let! base := Market.GetLunaExchangeRate o (BaseDenom p) in
      let! items := exchange_items o base (QuoteDenoms p) in
      marshal (ExchangeRatesQueryResponse items (BaseDenom p))
  | None, None, Some _, _ => marshal (TaxRateQueryResponse (Treasury.GetTaxRate tk))
  | None, None, None, Some denom => marshal (TaxCapQueryResponse (Treasury.GetTaxCap tk denom))
  | None, None, None, None => Err UnsupportedRequest
  end.
End Queries.

(** ** Stargate queries ([stargate_whitelist.go], [helper.go]) *)

(** Protobuf responses.  [Unmarshal] merges the bytes into the object it is
    given, and may have changed it when it fails. *)
Class Proto := {
  PMsg : Type;
  Unmarshal : string -> PMsg -> PMsg * bool;
  MarshalJSON : PMsg -> res string;
  Zero : PMsg;
}.

Section Stargate.
Context `{Proto}.

(** The whitelist maps a path to one response object, which all queries of the
    path share. *)
Abbreviation Whitelist := (gmap string PMsg).

Definition whitelisted_paths : list string :=
  [ "/terra.market.v1beta1.Query/Swap";
    "/terra.treasury.v1beta1.Query/TaxCap";
    "/terra.treasury.v1beta1.Query/TaxRate";
    "/terra.oracle.v1beta1.Query/ExchangeRate" ].

Definition setWhitelistedQuery (queryPath : string) (w : Whitelist) : Whitelist :=
  <[queryPath := Zero]> w.
Definition initial_whitelist : Whitelist := foldr setWhitelistedQuery ∅ whitelisted_paths.

(** The shared object itself is returned: callers know it by its path. *)
Definition GetWhitelistedQuery (w : Whitelist) (queryPath : string) : res string :=
  match w !! queryPath with Some _ => Ok queryPath | None => Err UnsupportedRequest end.

(** The steps of [ConvertProtoToJSONMarshal] on the shared object of a path. *)
Definition unmarshal_step (path bz : string) : M Whitelist unit := fun w =>
  let '(m, ok) := Unmarshal bz (default Zero (w !! path)) in
  if ok then Ret tt (<[path := m]> w) else Fail Unknown (<[path := m]> w).
Definition marshal_step (path : string) : M Whitelist string := fun w =>
  match MarshalJSON (default Zero (w !! path)) with
  | Ok bz => Ret bz w
  | Err _ => Fail Unknown w
  | Panic => Halt
  end.
Definition reset_step (path : string) : M Whitelist unit := modify (<[path := Zero]>).

Definition ConvertProtoToJSONMarshal (path bz : string) : M Whitelist string :=
  do* unmarshal_step path bz in
  let* json := marshal_step path in
  do* reset_step path in
  ret json.

(** [route] is the query router: the handler of a path, if any. *)
Definition StargateQuerier (route : string -> option (string -> res string)) (path data : string)
    : M Whitelist string :=
  let* w := gets id in
  let* protoResponseType := lift (GetWhitelistedQuery w path) in
  match route path with
  | None => fail UnsupportedRequest
  | Some handler =>
      let* value := lift (handler data) in
      ConvertProtoToJSONMarshal protoResponseType value
  end.
End Stargate.
End Wasm.
