(* ===== verification/WasmFacts.v ===== *)
(** * What contracts can do

    A contract acts only for itself and always pays its taxes out of what it
    sends; stargate queries are answered correctly one at a time, and wrongly
    when two of them run at once. *)

From S2P Require Import Prelude Sdk SdkRef SdkFees Core OracleTypes OracleKeeper Market TreasuryTypes Treasury TreasuryFacts TaxExemption Tax TaxFacts TaxCharge Ante TaxRef TaxSend TaxMarket Wasm.

Module WasmFacts.
Import Tax TaxFacts TaxCharge Wasm.

(** ** Dispatching *)

Section Dispatch.
Context {CosmosMsg SdkMsg S : Type} `{HMsg : Messages CosmosMsg SdkMsg S}.

(** A message the contract may send: it is valid and signed by the contract
    alone. *)
Definition allowed (contract : string) (m : SdkMsg) : Prop :=
  ValidateBasic m = Ok tt /\ exists signers, GetSigners m = Ok signers /\ Forall (.= contract) signers.

(** The handlers of some messages run one after the other in a context. *)
Inductive ran (ctx : TxCtx) : list SdkMsg -> S -> S -> list Result -> Prop :=
  | ran_nil s : ran ctx [] s s []
  | ran_cons m ms s s1 s2 handler r rs :
      Handler m = Some handler -> handler ctx s = Ret r s1 -> ran ctx ms s1 s2 rs ->
      ran ctx (m :: ms) s s2 (r :: rs).

Lemma handle_Ret ctx contract m s r s' :
  handleSdkMessage ctx contract m s = Ret r s' <->
  allowed contract m /\ exists handler, Handler m = Some handler /\ handler ctx s = Ret r s'.
Proof using Type.
  unfold handleSdkMessage, allowed. split.
  - intros ([] & s1 & [Hv ->]%lift_Ret & R)%bind_Ret.
    apply bind_Ret in R as (signers & s2 & [Hs ->]%lift_Ret & R).
    destruct (forallb _ signers) eqn:E; [|done]. simpl in R.
    destruct (Handler m) as [h|]; [|done]. split; [|by exists h].
    split; [done|]. exists signers. split; [done|]. rewrite forallb_forall in E.
    apply Forall_forall. intros a Ha%list_elem_of_In. by apply String.eqb_eq, E.
  - intros [[Hv (signers & Hs & Hf)] (h & Hh & R)].
    unfold bind, lift. rewrite Hv, Hs, Hh. rewrite Forall_forall in Hf.
    assert (forallb (fun acct => String.eqb acct contract) signers = true) as ->; [|done].
    apply forallb_forall. intros a Ha%list_elem_of_In. by apply String.eqb_eq, Hf.
Qed.

Lemma dispatch_loop ctx contract ms s s' acc out :
  mfold (fun acc m => let* r := handleSdkMessage ctx contract m in
                      ret (acc.1 ++ REvents r, acc.2 ++ [Data r])) acc ms s = Ret out s' <->
  Forall (allowed contract) ms /\ exists rs, ran ctx ms s s' rs /\
    out = (acc.1 ++ (rs ≫= REvents), acc.2 ++ (Data <$> rs)).
Proof using Type.
  revert acc s. induction ms as [|m ms IH]; intros acc s; cbn [mfold].
  - split.
    + intros [= <- <-]. split; [constructor|]. exists []. split; [constructor|].
      destruct acc. simpl. by rewrite !app_nil_r.
    + intros (_ & rs & Hr & ->). inversion Hr; subst. simpl. rewrite !app_nil_r. by destruct acc.
  - rewrite bind_Ret. split.
    + intros (acc' & s1 & R1 & R2). apply bind_Ret in R1 as (r & s2 & R1 & [= <- <-]).
      apply handle_Ret in R1 as [Ha (h & Hh & R1)].
      apply IH in R2 as (Hall & rs & Hr & ->). split; [by constructor|].
      exists (r :: rs). split; [by econstructor|]. simpl. by rewrite <- !app_assoc.
    + intros ([Ha Hall]%Forall_cons & rs & Hr & ->). inversion Hr as [|? ? ? s1 ? h r rs' Hh R1 R2]; subst.
      exists (acc.1 ++ REvents r, acc.2 ++ [Data r]), s1. split.
      * apply bind_Ret. exists r, s1. split; [|done]. apply handle_Ret. eauto.
      * apply IH. split; [done|]. exists rs'. split; [done|]. simpl. by rewrite <- !app_assoc.
Qed.

(** A contract acts only for itself, and only under reverse charge: a dispatch
    succeeds exactly when its message can be encoded, every resulting SDK
    message is valid and signed by nobody but the contract, and their handlers,
    run in order on the state left by the one before and in a context that is
    marked as reverse charged whatever it was before, all succeed; events and
    data come back in the same order. *)
Theorem contract_dispatch ctx contract port msg s events data s' :
  DispatchMsg ctx contract port msg s = Ret (events, data) s' <->
  exists ms rs, Encode ctx contract port msg = Ok ms /\ Forall (allowed contract) ms /\
    ran (reverse_charged ctx) ms s s' rs /\ events = rs ≫= REvents /\ data = Data <$> rs.
Proof using Type.
  unfold DispatchMsg. rewrite bind_Ret. split.
  - intros (ms & s1 & [He ->]%lift_Ret & R). apply dispatch_loop in R as (Hall & rs & Hr & [= -> ->]).
    by exists ms, rs.
  - intros (ms & rs & He & Hall & Hr & -> & ->). exists ms, s. split; [by apply lift_Ret|].
    apply dispatch_loop. split; [done|]. by exists rs.
Qed.
End Dispatch.

(** ** Transfers of contracts *)

Section Transfers.
Context {CosmosMsg SdkMsg X B DS : Type}.
Context `{HM : SdkMath, HC : SdkCoins, HF : SdkFees, HA : Bech32, HB : BankKeeper B,
  HD : DistrKeeper DS, HP : DistrParams DS, HS : BankServer B,
  HMsg : Messages CosmosMsg SdkMsg (State X B DS)}.
Context `{!SdkMathLaws, !SdkCoinsLaws, !SdkFeesLaws, !Bech32Laws, !BankLaws B, !DistrLaws DS,
  !BankServerLaws B}.
Abbreviation St := (State X B DS).

(** C26. A contract pays the burn tax on what it sends, in whatever context it runs:
    when its message becomes one bank transfer, which the router hands to the
    taxing bank server, a successful dispatch takes exactly the amount from the
    contract's own account, gives the receiver the amount less the tax, and books
    the tax as proceeds, even if the transaction that called the contract paid
    its tax with the fee, or the context says nothing about the charge. *)
Theorem contract_send_taxed ctx contract port msg m from to amount rate x y r (s s' : St) out :
  Encode ctx contract port msg = Ok [m] ->
  Handler m = Some (fun ctx => do* Send ctx from to amount in ret r) ->
  GetSigners m = Ok [x] ->
  coins_ok amount -> GetBurnTaxRate s = Some rate -> 0 <= rate ->
  splits_ok s -> coins_ok (Treasury.PeekEpochTaxProceeds (treasury s)) ->
  AccAddressFromBech32 from = Ok x -> AccAddressFromBech32 to = Ok y ->
  NoDup TaxSend.module_accounts -> x ∉ TaxSend.module_accounts -> y ∉ TaxSend.module_accounts ->
  x <> y ->
  DispatchMsg ctx contract port msg s = Ret out s' ->
  contract = x /\
  TaxSend.net_transfer x y (amt amount)
    (fun d => if TaxExemption.IsExemptedFromTax (zones s) from [to] then 0
              else tax_of rate (amt amount d)) s s'.
Proof using Type*.
  intros He Hh Hg Ha Hr Hr0 Hs Hp Hx Hy Hnd Nx Ny Hxy R. destruct out as [events data].
  apply contract_dispatch in R as (ms & rs & He' & Hall & Hran & _).
  rewrite He in He'. injection He' as <-. apply Forall_cons in Hall as [[_ (l & Hl & Hf)] _].
  rewrite Hg in Hl. injection Hl as <-. apply Forall_cons in Hf as [-> _]. split; [done|].
  inversion Hran as [|? ? ? s1 ? h r' rs' Hh' R1 R2]; subst. inversion R2; subst.
  rewrite Hh in Hh'. injection Hh' as <-. apply bind_Ret in R1 as ([] & s2 & R1 & [= _ <-]).
  by eapply TaxSend.send_charged; last exact R1.
Qed.
End Transfers.

(** ** Stargate queries *)

Section Stargate.
Context `{HP : Proto}.

(** One at a time: a query whose shared object is empty answers what its own
    bytes say, and leaves the object empty for the next one. *)
Lemma query_alone path bz m json w : w !! path = Some Zero ->
  Unmarshal bz Zero = (m, true) -> MarshalJSON m = Ok json ->
  ConvertProtoToJSONMarshal path bz w = Ret json w.
Proof using Type.
  intros Hw Hu Hm.
  unfold ConvertProtoToJSONMarshal, bind, unmarshal_step, marshal_step, reset_step, modify, ret.
  rewrite Hw. change (default Zero (Some Zero)) with Zero. rewrite Hu. cbv beta iota.
  rewrite lookup_insert_eq. change (default Zero (Some m)) with m. rewrite Hm.
  by rewrite insert_insert_eq, insert_id.
Qed.
End Stargate.

(** ** Concrete runs *)

Import Ref TaxRef.

(** Messages are bank transfers of alice's contract. *)
#[local] Instance demo_messages : Messages unit unit (State unit RefBank RefDistr) := {|
  Encode _ _ _ _ := Ok [tt];
  ValidateBasic _ := Ok tt;
  GetSigners _ := Ok [alice];
  Handler _ := Some (fun ctx =>
    do* Send ctx (acc alice) (acc bob) TaxSend.demo_amount in ret (mkResult "" [])) |}.

(** A context without a word on the charge. *)
Definition plain_ctx : TxCtx := mkTxCtx 7 [] None None None 0.

Lemma contract_send_taxed_witness :
  bal (bank TaxSend.send_after) alice MicroLunaDenom = 10 ^ 9 - 1000000 /\
  bal (bank TaxSend.send_after) bob MicroLunaDenom = 5 + 995000.
Proof.
  destruct (contract_send_taxed plain_ctx alice "" tt tt (acc alice) (acc bob) TaxSend.demo_amount
    (NewDecWithPrec 5 3) alice bob (mkResult "" []) tax_state TaxSend.send_after ([], [""]))
    as [_ Hn].
  - done.
  - done.
  - done.
  - apply coins_ok_check. by vm_compute.
  - done.
  - by vm_compute.
  - apply TaxSend.tax_splits_ok.
  - apply coins_ok_check. by vm_compute.
  - done.
  - done.
  - apply (bool_decide_unpack _). by vm_compute.
  - apply (bool_decide_unpack _). by vm_compute.
  - apply (bool_decide_unpack _). by vm_compute.
  - done.
  - vm_compute. reflexivity.
  - destruct (Hn MicroLunaDenom) as (Ha & Hb & _). rewrite Ha, Hb. split; vm_compute; reflexivity.
Defined.

(** Two queries of the same path that run at once share the response object: the
    first one answers with the bytes of the second, and the second one with an
    empty response. *)
#[local] Instance demo_proto : Proto := {|
  PMsg := string; Unmarshal bz _ := (bz, true); MarshalJSON m := Ok m; Zero := "" |}.

Definition tax_rate_path : string := "/terra.treasury.v1beta1.Query/TaxRate".

Example concurrent_queries_mixed :
  (do* unmarshal_step tax_rate_path "first" in
   do* unmarshal_step tax_rate_path "second" in
   let* answer1 := marshal_step tax_rate_path in
   do* reset_step tax_rate_path in
   let* answer2 := marshal_step tax_rate_path in
   do* reset_step tax_rate_path in
   ret (answer1, answer2)) initial_whitelist = Ret ("second", "") initial_whitelist.
Proof. vm_compute. reflexivity. Qed.
End WasmFacts.
