(* ===== verification/GenAccounts.v ===== *)
(** * Genesis accounts of the command line

    [terrad add-genesis-account] ([cmd/terrad/genaccounts.go]) and the genesis
    file of [terrad testnet] ([cmd/terrad/testnet.go]), on the decoded genesis
    state: what is added, which vesting accounts are refused, and that the total
    supply stays the sum of the balances. *)

From S2P Require Import Prelude Sdk SdkRef SdkFees Core Vesting VestingFacts.

Module GenAccounts.
Import Vesting.

(** ** Strings *)

(** [strings.Split] with a separator of one byte *)
Fixpoint strings_Split (sep : Ascii.ascii) (s : string) : list string :=
  match s with
  | EmptyString => [""]
  | String c s' =>
      if Ascii.eqb c sep then "" :: strings_Split sep s'
      else match strings_Split sep s' with
           | [] => [String c ""]
           | x :: l => String c x :: l
           end
  end.
Definition comma : Ascii.ascii := Ascii.ascii_of_nat 44.
Definition bar : Ascii.ascii := Ascii.ascii_of_nat 124.

(** [strconv.Atoi]: an optional sign and decimal digits, in the range of an int *)
Definition digit (c : Ascii.ascii) : option Z :=
  let n := Z.of_nat (Ascii.nat_of_ascii c) in
  if (48 <=? n) && (n <=? 57) then Some (n - 48) else None.
Fixpoint digits (acc : Z) (s : string) : option Z :=
  match s with
  | EmptyString => Some acc
  | String c s' => d ← digit c; digits (10 * acc + d) s'
  end.
Definition unsigned (s : string) : option Z := if String.eqb s "" then None else digits 0 s.
Definition strconv_Atoi (s : string) : res Z :=
  let v := match s with
           | String c s' => if Ascii.eqb c (Ascii.ascii_of_nat 45) then Z.opp <$> unsigned s'
                            else if Ascii.eqb c (Ascii.ascii_of_nat 43) then unsigned s' else unsigned s
           | EmptyString => None
           end in
  match v with
  | Some z => if is_int64 z then Ok z else Err (Errorf "value out of range")
  | None => Err (Errorf "invalid syntax")
  end.

(** [genesisTime.AddDate(0, 0, days)] in Unix seconds; genesis times are UTC. *)
Definition AddDays (genesisTime days : Z) : Z := int64 (genesisTime + 86400 * days).

(** ** State *)

Inductive GenAccount (A : Type) :=
  | BaseAccount (addr : string)
  | LazyAccount (addr : string) (acc : Account A).
Arguments BaseAccount {A} _.
Arguments LazyAccount {A} _ _.

Definition acc_addr {A} (a : GenAccount A) : string :=
  match a with BaseAccount addr | LazyAccount addr _ => addr end.

Record Balance := mkBalance { BAddress : string; BCoins : Coins }.

Record Genesis (A : Type) := mkGenesis {
  GenTime : Z; Accounts : list (GenAccount A); Balances : list Balance; Supply : Coins }.
Arguments mkGenesis {A} _ _ _ _.
Arguments GenTime {A} _.
Arguments Accounts {A} _.
Arguments Balances {A} _.
Arguments Supply {A} _.

(** The keyring, parsers and account types of the SDK; account numbers are not
    kept, so sanitizing accounts is a reordering. *)
Class GenesisTools (A : Type) := {
  lookupKey : string -> res string;
  ParseCoinsNormalized : string -> res Coins;
  NewDecFromStr : string -> res Dec;
  Coins_IsAnyGT : Coins -> Coins -> bool;
  NewBaseVestingAccount : string -> Coins -> Z -> A;
  BaseAccount_Validate : string -> res unit;
  SanitizeGenesisAccounts : list (GenAccount A) -> list (GenAccount A);
  SanitizeGenesisBalances : list Balance -> res (list Balance);
  TokensFromConsensusPower : Z -> Int;
  ExternalIP : res string;
  ParseIPv4 : string -> option (Z * Z * Z * Z);
  IP_String : Z * Z * Z * Z -> string;
}.

Class GenesisToolsLaws (A : Type) `{SdkMath, SdkCoins, BaseVesting A, GenesisTools A} : Prop := {
  ParseCoins_valid s cs : ParseCoinsNormalized s = Ok cs -> coins_ok cs;
  (** "for any denom in coins, the denom is present at a greater amount than in
      coinsB"; a denom that [coinsB] lacks does not count *)
  IsAnyGT_spec a b : coins_ok a -> coins_ok b ->
    Coins_IsAnyGT a b = true <-> exists d, 0 < amt b d /\ amt b d < amt a d;
  NewBaseVesting_original addr ov e : OriginalVesting (NewBaseVestingAccount addr ov e) = ov;
  SanitizeAccounts_perm l : SanitizeGenesisAccounts l ≡ₚ l;
  SanitizeBalances_perm l l' : Forall (fun b => coins_ok (BCoins b)) l ->
    SanitizeGenesisBalances l = Ok l' -> l' ≡ₚ l;
}.

(** ** [AddGenesisAccountCmd] *)

Section Command.
Context {A : Type} `{HM : SdkMath, HC : SdkCoins, HA : Bech32, HV : BaseVesting A, HT : GenesisTools A}.

(** One entry of [--vesting-schedules]: denom, start day, end day and ratio. *)
Definition add_schedule (genesisTime : Z) (m : gmap string (list Schedule)) (unparsed : string)
    : res (gmap string (list Schedule)) :=
  match strings_Split bar unparsed with
  | [denom; startDay; endDay; ratio] =>
      let! startDay := strconv_Atoi startDay in
      let! endDay := strconv_Atoi endDay in
      let! ratio := NewDecFromStr ratio in
      let lazySchedule := mkSchedule (AddDays genesisTime startDay) (AddDays genesisTime endDay) ratio in
      Ok (match m !! denom with
          | Some l => <[denom := l ++ [lazySchedule]]> m
          | None => <[denom := [lazySchedule]]> m
          end)
  | _ => Err (Errorf "vesting schedule parse error")
  end.

Definition parse_schedules (genesisTime : Z) (s : string) : res (gmap string (list Schedule)) :=
  rfold (add_schedule genesisTime) ∅ (strings_Split comma s).

(** The schedules leave the map in the order in which Go ranges over it. *)
Definition vesting_account {rt : GoRuntime} (addr : string) (balance vestingAmt : Coins)
    (m : gmap string (list Schedule)) : res (GenAccount A) :=
  let vestingSchedules := (fun e => mkVestingSchedule e.1 e.2) <$> map_range 7 m in
  let base := NewBaseVestingAccount addr (Coins_Sort vestingAmt) 0 in
  if existsb (fun c => negb (bool_decide (is_Some (m !! Denom c)))) vestingAmt
  then Err (Errorf "must provide vesting schedule for all vesting amount")
  else if (Coins_IsZero balance && negb (Coins_IsZero (OriginalVesting base)))
          || Coins_IsAnyGT (OriginalVesting base) balance
  then Err (Errorf "vesting amount cannot be greater than total amount")
  else Ok (LazyAccount addr (mkAccount base vestingSchedules)).

Definition GenAccount_Validate (a : GenAccount A) : res unit :=
  match a with
  | BaseAccount addr => BaseAccount_Validate addr
  | LazyAccount _ acc => Validate acc
  end.

Definition AddGenesisAccount {rt : GoRuntime} (address_or_key coinStr vestingAmtStr vestingSchedulesStr : string)
    (g : Genesis A) : res (Genesis A) :=
  let! addr := match AccAddressFromBech32 address_or_key with
               | Ok a => Ok a
               | Err _ => lookupKey address_or_key
               | Panic => Panic
               end in
  let! coins := ParseCoinsNormalized coinStr in
  let! vestingAmt := ParseCoinsNormalized vestingAmtStr in
  let balances := mkBalance (AccString addr) (Coins_Sort coins) in
  let! genAccount :=
    if negb (Coins_IsZero vestingAmt) then
      let! m := parse_schedules (GenTime g) vestingSchedulesStr in
      vesting_account addr (BCoins balances) vestingAmt m
    else Ok (BaseAccount addr) in
  let! _ := GenAccount_Validate genAccount in
  if existsb (fun a => String.eqb (acc_addr a) addr) (Accounts g)
  then Err (Errorf "cannot add account at existing address")
  else
    let accs := SanitizeGenesisAccounts (Accounts g ++ [genAccount]) in
    let! bals := SanitizeGenesisBalances (Balances g ++ [balances]) in
    let! supply := Coins_Add (Supply g) (BCoins balances) in
    Ok (mkGenesis (GenTime g) accs bals supply).

(** ** [terrad testnet] *)

(** The fourth byte is incremented [i] times. *)
Definition next_ip (ip : Z * Z * Z * Z) : Z * Z * Z * Z :=
  let '(a, b, c, d) := ip in (a, b, c, (d + 1) mod 256).
Definition calculateIP (ip : string) (i : nat) : res string :=
  match ParseIPv4 ip with
  | None => Err (Errorf "non ipv4 address")
  | Some ipv4 => Ok (IP_String (Nat.iter i next_ip ipv4))
  end.
Definition getIP (i : nat) (startingIPAddr : string) : res string :=
  if (String.length startingIPAddr =? 0)%nat then ExternalIP else calculateIP startingIPAddr i.

(** The account of one node. *)
Definition node_balance (node : string * string) : res Balance :=
  let '(nodeDirName, addr) := node in
  let! token := NewCoin (nodeDirName +:+ "token") (TokensFromConsensusPower 1000) in
  let! luna := NewCoin MicroLunaDenom (TokensFromConsensusPower 50000) in
  Ok (mkBalance (AccString addr) (Coins_Sort [token; luna])).

(** [initGenFiles]: accounts, balances and supply of the new chain. *)
Definition initGenFiles (genAccounts : list (GenAccount A)) (genBalances : list Balance) : res (Genesis A) :=
  let! totalSupply := rfold (fun total b => Coins_Add total (BCoins b)) [] genBalances in
  Ok (mkGenesis 0 genAccounts genBalances totalSupply).

Definition InitTestnet (nodes : list (string * string)) : res (Genesis A) :=
  let! genBalances := rmap node_balance nodes in
  initGenFiles ((fun n => BaseAccount n.2) <$> nodes) genBalances.
End Command.

(** ** What the command promises *)

Section Facts.
Context {A : Type} `{HM : SdkMath, HC : SdkCoins, HF : SdkFees, HA : Bech32, HV : BaseVesting A,
  HT : GenesisTools A}.
Context `{!SdkMathLaws, !SdkCoinsLaws, !SdkFeesLaws, !GenesisToolsLaws A}.

(** A genesis state in order: no address twice, valid balances, and the supply is
    their sum. *)
Record genesis_ok (g : Genesis A) : Prop := {
  accounts_distinct : NoDup (acc_addr <$> Accounts g);
  balances_valid : Forall (fun b => coins_ok (BCoins b)) (Balances g);
  supply_valid : coins_ok (Supply g);
  supply_total d : amt (Supply g) d = zsum (fun b => amt (BCoins b) d) (Balances g) }.

Lemma coins_nodup cs : coins_ok cs -> NoDup (Denom <$> cs).
Proof using Type.
  intros [Hs _]. induction Hs as [|c cs _ IH Hc]; [constructor|]. cbn. constructor; [|done].
  intros (c' & Hd & Hin)%list_elem_of_fmap. rewrite Forall_forall in Hc. by destruct (Hc _ Hin).
Qed.

Lemma amt_perm cs cs' d : cs ≡ₚ cs' -> amt cs d = amt cs' d.
Proof using Type. intros Hp. unfold amt. by rewrite Hp. Qed.

Lemma sort_ok cs : NoDup (Denom <$> cs) ->
  Forall (fun c => ValidateDenom (Denom c) = true /\ 0 < Amount c) cs ->
  coins_ok (Coins_Sort cs) /\ forall d, amt (Coins_Sort cs) d = amt cs d.
Proof using Type*.
  intros Hn Hv. split; [|intros d; apply amt_perm, Coins_Sort_perm].
  split; [by apply Coins_Sort_strict|]. by rewrite Coins_Sort_perm.
Qed.

Lemma sort_valid cs : coins_ok cs -> Coins_Sort cs = cs.
Proof using Type*.
  intros Hc. destruct (sort_ok cs) as [Hs Ha]; [by apply coins_nodup|apply Hc|]. by apply coins_ext.
Qed.

(** Whatever order Go takes the denoms in, each is given its own schedules. *)
Lemma range_schedule (rt : GoRuntime) `{!GoRuntimeLaws rt} b (m : gmap string (list Schedule)) d :
  GetVestingSchedule (mkAccount b ((fun e => mkVestingSchedule e.1 e.2) <$> map_range 7 m) : Account A) d =
  mkVestingSchedule d <$> m !! d.
Proof using Type.
  unfold GetVestingSchedule. cbn [VestingSchedules].
  assert (Hin : forall e, e ∈ map_range 7 m <-> m !! e.1 = Some e.2).
  { intros [k v]. rewrite map_range_perm. by rewrite elem_of_map_to_list. }
  destruct (List.find _ _) as [vs|] eqn:E.
  - apply List.find_some in E as [E Hd]. apply list_elem_of_In, list_elem_of_fmap in E as (e & -> & He).
    apply Hin in He. cbn in Hd. apply String.eqb_eq in Hd. by rewrite <- Hd, He.
  - destruct (m !! d) as [l|] eqn:Em; [|done]. exfalso.
    eapply List.find_none in E; [|apply list_elem_of_In, list_elem_of_fmap; exists (d, l); split;
      [reflexivity|by apply Hin]]. cbn in E. by rewrite String.eqb_refl in E.
Qed.

(** What a vesting account that passes the checks looks like. *)
Record vesting_ok (addr : string) (balance vestingAmt : Coins) (m : gmap string (list Schedule))
    (acc : Account A) : Prop := {
  vests_all : OriginalVesting (base acc) = vestingAmt;
  vests_by d : GetVestingSchedule acc d = mkVestingSchedule d <$> m !! d;
  vests_scheduled : Forall (fun c => is_Some (m !! Denom c)) vestingAmt;
  vests_within d : 0 < amt balance d -> amt vestingAmt d <= amt balance d }.

Lemma vesting_account_inv (rt : GoRuntime) `{!GoRuntimeLaws rt} addr balance vestingAmt m a :
  coins_ok balance -> coins_ok vestingAmt -> vesting_account addr balance vestingAmt m = Ok a ->
  exists acc, a = LazyAccount addr acc /\ vesting_ok addr balance vestingAmt m acc.
Proof using Type*.
  intros Hb Hv. unfold vesting_account. rewrite sort_valid by done.
  destruct (existsb _ vestingAmt) eqn:Es; [done|]. rewrite NewBaseVesting_original.
  destruct (Coins_IsZero balance && _); [done|]. cbn [orb].
  destruct (Coins_IsAnyGT vestingAmt balance) eqn:Eg; [done|]. intros [= <-]. eexists. split; [done|]. split.
  - apply NewBaseVesting_original.
  - intros d. apply range_schedule. done.
  - apply Forall_forall. intros c Hc. apply not_true_iff_false in Es. rewrite existsb_exists in Es.
    destruct (decide (is_Some (m !! Denom c))) as [|Hn]; [done|]. exfalso. apply Es. exists c.
    split; [by apply list_elem_of_In|]. by rewrite bool_decide_eq_false_2.
  - intros d Hd. apply not_true_iff_false in Eg. rewrite IsAnyGT_spec in Eg by done.
    apply Z.nlt_ge. intros Hlt. apply Eg. by exists d.
Qed.

Lemma no_account g addr :
  existsb (fun a => String.eqb (acc_addr a) addr) (Accounts g) = false -> addr ∉ acc_addr <$> (Accounts g : list (GenAccount A)).
Proof using Type.
  intros He%not_true_iff_false (a & -> & Ha)%list_elem_of_fmap. apply He, existsb_exists. exists a.
  split; [by apply list_elem_of_In|apply String.eqb_refl].
Qed.

(** C36. Adding a genesis account keeps the genesis state in order: the address
    must be new, exactly one account and one balance are added, and the supply
    grows by that balance, so that it stays the sum of all balances.  A vesting
    account is accepted only when every vesting denom has a schedule and no more
    of a denom vests than the account holds, for the denoms it holds; the
    schedule of each denom is the one given, whatever order the map is ranged
    in. *)
Theorem genesis_account_added (rt : GoRuntime) `{!GoRuntimeLaws rt} key coinStr amtStr schedStr (g g' : Genesis A) :
  genesis_ok g -> AddGenesisAccount key coinStr amtStr schedStr g = Ok g' ->
  genesis_ok g' /\
  exists addr coins vestingAmt acc,
    (addr ∉ acc_addr <$> Accounts g) /\ acc_addr acc = addr /\
    ParseCoinsNormalized coinStr = Ok coins /\ ParseCoinsNormalized amtStr = Ok vestingAmt /\
    Accounts g' ≡ₚ Accounts g ++ [acc] /\
    Balances g' ≡ₚ Balances g ++ [mkBalance (AccString addr) coins] /\
    (forall d, amt (Supply g') d = amt (Supply g) d + amt coins d) /\
    (vestingAmt = [] -> acc = BaseAccount addr) /\
    (vestingAmt <> [] -> exists m va, acc = LazyAccount addr va /\
      parse_schedules (GenTime g) schedStr = Ok m /\ vesting_ok addr coins vestingAmt m va /\
      Validate va = Ok tt).
Proof using Type*.
  intros [Hd Hb Hs Ht] R. unfold AddGenesisAccount in R.
  apply rbind_Ok in R as (addr & _ & R). apply rbind_Ok in R as (coins & Ec & R).
  apply rbind_Ok in R as (vestingAmt & Ev & R). apply rbind_Ok in R as (acc & Ea & R).
  apply rbind_Ok in R as ([] & Eval & R). cbn [BCoins] in *.
  pose proof (ParseCoins_valid _ _ Ec) as Hc. pose proof (ParseCoins_valid _ _ Ev) as Hv.
  rewrite (sort_valid coins Hc) in *.
  destruct (existsb _ (Accounts g)) eqn:Ex; [done|]. apply no_account in Ex.
  apply rbind_Ok in R as (bals & Eb & R). apply rbind_Ok in R as (supply & Es & [= <-]).
  assert (Hb' : Forall (fun b => coins_ok (BCoins b)) (Balances g ++ [mkBalance (AccString addr) coins])).
  { apply Forall_app. split; [done|]. by constructor. }
  apply SanitizeBalances_perm in Eb; [|done].
  apply Coins_Add_inv in Es as [Hsup Asup]; [|by apply coins_ok_weak..].
  pose proof (SanitizeAccounts_perm (Accounts g ++ [acc])) as Hp.
  assert (Hacc : acc_addr acc = addr /\ (vestingAmt = [] -> acc = BaseAccount addr) /\
    (vestingAmt <> [] -> exists m va, acc = LazyAccount addr va /\
      parse_schedules (GenTime g) schedStr = Ok m /\ vesting_ok addr coins vestingAmt m va /\ Validate va = Ok tt)).
  { destruct (Coins_IsZero vestingAmt) eqn:Ez; cbn [negb] in Ea.
    - apply coins_zero in Ez as ->; [|done]. injection Ea as <-. done.
    - apply rbind_Ok in Ea as (m & Em & Ea). apply vesting_account_inv in Ea as (va & -> & Hva); [|done..].
      split; [done|]. split; [intros ->; by rewrite Coins_IsZero_spec in Ez|]. intros _. by exists m, va. }
  destruct Hacc as (Haddr & Hbase & Hlazy). split.
  - split; cbn.
    + rewrite Hp, fmap_app. apply NoDup_app. split_and!; [done| |apply NoDup_singleton].
      intros x Hx ->%list_elem_of_singleton. by rewrite Haddr in Hx.
    + by rewrite Eb.
    + done.
    + intros d. rewrite Asup, Ht, Eb, zsum_app, zsum_cons, zsum_nil. cbn. lia.
  - exists addr, coins, vestingAmt, acc. cbn. by split_and!.
Qed.

(** ** The test network *)

Lemma next_ip_iter a b c d i : 0 <= d < 256 ->
  Nat.iter i next_ip (a, b, c, d) = (a, b, c, (d + Z.of_nat i) mod 256).
Proof using Type.
  intros Hd. induction i as [|i IH]; [by rewrite Z.add_0_r, Z.mod_small|].
  cbn [Nat.iter nat_rect]. change (nat_rect _ _ _ i) with (Nat.iter i next_ip (a, b, c, d)). rewrite IH.
  unfold next_ip. rewrite Zplus_mod_idemp_l. do 2 f_equal. lia.
Qed.

(** The addresses of a test network's nodes count up in the last byte only
    and wrap at 256: two nodes get the same address exactly when their numbers
    differ by a multiple of 256, so that up to 256 nodes are told apart. *)
Theorem testnet_addresses ip a b c d i j : ParseIPv4 ip = Some (a, b, c, d) -> 0 <= d < 256 ->
  calculateIP ip i = Ok (IP_String (a, b, c, (d + Z.of_nat i) mod 256)) /\
  (Nat.iter i next_ip (a, b, c, d) = Nat.iter j next_ip (a, b, c, d) <->
   (Z.of_nat i - Z.of_nat j) mod 256 = 0).
Proof using Type.
  intros Hip Hd. unfold calculateIP. rewrite Hip, !next_ip_iter by done. split; [done|].
  split.
  - intros [= Heq]. replace (Z.of_nat i - Z.of_nat j) with ((d + Z.of_nat i) - (d + Z.of_nat j)) by lia.
    by rewrite Zminus_mod, Heq, Z.sub_diag.
  - intros Hm. f_equal. apply Z.mod_divide in Hm as [k Hk]; [|done].
    replace (d + Z.of_nat i) with (d + Z.of_nat j + k * 256) by lia. apply Z_mod_plus_full.
Qed.

Lemma token_denom name : name +:+ "token" <> MicroLunaDenom.
Proof using Type. by do 6 (destruct name as [|? name]; [done|]). Qed.

Lemma node_balance_inv n b : 0 < TokensFromConsensusPower 1000 -> 0 < TokensFromConsensusPower 50000 ->
  node_balance n = Ok b ->
  coins_ok (BCoins b) /\ amt (BCoins b) MicroLunaDenom = TokensFromConsensusPower 50000.
Proof using Type*.
  intros P1 P2. destruct n as [name addr]. unfold node_balance. rewrite !NewCoin_spec.
  destruct (ValidateDenom (name +:+ "token")) eqn:Et; [|done]. destruct (Z.leb_spec 0 (TokensFromConsensusPower 1000)); [|lia].
  destruct (ValidateDenom MicroLunaDenom) eqn:El; [|done]. destruct (Z.leb_spec 0 (TokensFromConsensusPower 50000)); [|lia].
  cbn. intros [= <-]. cbn [BCoins]. pose proof (token_denom name) as Hne.
  edestruct sort_ok as [Hok ->].
  - cbn. apply NoDup_cons. split; [by intros ?%list_elem_of_singleton|apply NoDup_singleton].
  - by repeat constructor.
  - split; [done|]. unfold amt. rewrite !zsum_cons, zsum_nil. cbn. destruct (decide _); [done|].
    rewrite decide_True by done. lia.
Qed.

Lemma total_inv l : forall acc total, coins_ok acc -> Forall (fun b => coins_ok (BCoins b)) l ->
  rfold (fun total b => Coins_Add total (BCoins b)) acc l = Ok total ->
  coins_ok total /\ forall d, amt total d = amt acc d + zsum (fun b => amt (BCoins b) d) l.
Proof using Type*.
  induction l as [|b l IH]; intros acc total Ha Hl; cbn.
  - intros [= <-]. split; [done|]. intros d. rewrite zsum_nil. lia.
  - inversion_clear Hl as [|? ? Hb Hl']. intros (acc' & E & R)%rbind_Ok.
    apply Coins_Add_inv in E as [Ha' Aa]; [|by apply coins_ok_weak..].
    destruct (IH _ _ Ha' Hl' R) as [Ht At]. split; [done|]. intros d. rewrite At, Aa, zsum_cons. lia.
Qed.

(** The genesis file of a test network is in order, and every node holds the
    same Luna. *)
Lemma testnet_genesis nodes g : 0 < TokensFromConsensusPower 1000 -> 0 < TokensFromConsensusPower 50000 ->
  NoDup nodes.*2 -> InitTestnet nodes = Ok g ->
  genesis_ok g /\ amt (Supply g) MicroLunaDenom = Z.of_nat (length nodes) * TokensFromConsensusPower 50000.
Proof using Type*.
  intros P1 P2 Hn R. unfold InitTestnet, initGenFiles in R. apply rbind_Ok in R as (bals & Eb & R).
  apply rbind_Ok in R as (total & Et & [= <-]). apply rmap_Forall2 in Eb.
  assert (Hb : Forall (fun b => coins_ok (BCoins b) /\
    amt (BCoins b) MicroLunaDenom = TokensFromConsensusPower 50000) bals).
  { clear Et Hn. induction Eb as [|n b ns bs E _ IH]; constructor; [by eapply node_balance_inv|done]. }
  apply total_inv in Et as [Ht At]; [|apply coins_ok_nil|eapply Forall_impl; [exact Hb|by intros ? []]].
  split; [split; cbn|].
  - rewrite <- list_fmap_compose. done.
  - eapply Forall_impl; [exact Hb|by intros ? []].
  - done.
  - intros d. by rewrite At.
  - cbn. rewrite At. change (amt [] MicroLunaDenom) with 0. rewrite (Forall2_length _ _ _ Eb).
    clear -Hb. induction Hb as [|b l [_ Hl] _ IH]; [done|]. rewrite zsum_cons, Hl. cbn [length]. lia.
Qed.
End Facts.

(** ** Concrete runs *)

Section Witnesses.
Import Ref RefFees VestingFacts.

Definition parse_demo (s : string) : res Coins :=
  if String.eqb s "" then Ok []
  else if String.eqb s "100uluna" then Ok [mkCoin "uluna" 100]
  else if String.eqb s "40uluna" then Ok [mkCoin "uluna" 40]
  else if String.eqb s "9uusd" then Ok [mkCoin "uusd" 9]
  else Err (Errorf "invalid coin expression").

#[local] Instance demo_tools : GenesisTools Coins := {|
  lookupKey k := Err (Errorf "key not found");
  ParseCoinsNormalized := parse_demo;
  NewDecFromStr s := if String.eqb s "1" then Ok OneDec else Err (Errorf "bad decimal");
  Coins_IsAnyGT a b := existsb (fun c => (0 <? amt b (Denom c)) && (amt b (Denom c) <? Amount c)) a;
  NewBaseVestingAccount _ ov _ := ov;
  BaseAccount_Validate _ := Ok tt;
  SanitizeGenesisAccounts l := l;
  SanitizeGenesisBalances l := Ok l;
  TokensFromConsensusPower p := p * 1000000;
  ExternalIP := Ok "10.0.0.1";
  ParseIPv4 s := if String.eqb s "192.168.0.250" then Some (192, 168, 0, 250) else None;
  IP_String ip := let '(_, _, _, d) := ip in String (Ascii.ascii_of_nat (Z.to_nat d)) "" |}.

#[local] Instance demo_tools_laws : GenesisToolsLaws Coins.
Proof.
  split.
  - intros s cs. unfold ParseCoinsNormalized, demo_tools, parse_demo.
    repeat (case_match; [intros [= <-]; apply Coins_IsValid_spec; by vm_compute|]). done.
  - intros a b Ha Hb. unfold Coins_IsAnyGT, demo_tools. rewrite existsb_exists. split.
    + intros (c & Hin & Hc). apply list_elem_of_In in Hin. apply andb_true_iff in Hc.
      rewrite !Z.ltb_lt in Hc. exists (Denom c). rewrite (amt_elem a c); [done|apply Ha|done].
    + intros (d & Hd & Hlt). destruct (decide (d ∈ Denom <$> a)) as [Hin|Hno];
        [|rewrite (amt_dens a d Hno) in Hlt; lia].
      apply list_elem_of_fmap in Hin as (c & -> & Hc). exists c. split; [by apply list_elem_of_In|].
      rewrite (amt_elem a c) in Hlt; [|apply Ha|done]. apply andb_true_iff. by rewrite !Z.ltb_lt.
  - done.
  - done.
  - by intros l l' _ [= <-].
Qed.

Definition demo_genesis : Genesis Coins :=
  mkGenesis 1000 [BaseAccount "aaaa"] [mkBalance "terra1aaaa" [mkCoin "uluna" 5]] [mkCoin "uluna" 5].

Lemma demo_genesis_ok : genesis_ok demo_genesis.
Proof.
  split; cbn.
  - apply NoDup_singleton.
  - repeat constructor; by vm_compute.
  - apply Coins_IsValid_spec. by vm_compute.
  - intros d. rewrite zsum_cons, zsum_nil. cbn. lia.
Qed.

Definition added : Genesis Coins :=
  value (AddGenesisAccount (rt := runtime1) "terra1bbbb" "100uluna" "40uluna" "uluna|0|30|1" demo_genesis) demo_genesis.

Lemma genesis_account_added_witness : genesis_ok added /\ length (Accounts added) = 2%nat.
Proof.
  split; [|by vm_compute].
  apply (genesis_account_added runtime1 "terra1bbbb" "100uluna" "40uluna" "uluna|0|30|1" demo_genesis);
    [apply demo_genesis_ok|]. by vm_compute.
Defined.

(** An amount that vests in a denom the account does not hold is let through:
    nine of a coin vest in an account that has none of it. *)
Example vesting_more_than_held :
  AddGenesisAccount (rt := runtime2) "terra1bbbb" "100uluna" "9uusd" "uusd|0|30|1" demo_genesis =
  Ok (mkGenesis 1000
    [BaseAccount "aaaa"; LazyAccount "bbbb" (mkAccount [mkCoin "uusd" 9]
       [mkVestingSchedule "uusd" [mkSchedule 1000 2593000 OneDec]])]
    [mkBalance "terra1aaaa" [mkCoin "uluna" 5]; mkBalance "terra1bbbb" [mkCoin "uluna" 100]]
    [mkCoin "uluna" 105]).
Proof. by vm_compute. Qed.

Lemma testnet_addresses_witness :
  calculateIP (A := Coins) "192.168.0.250" 10 = Ok (String (Ascii.ascii_of_nat 4) "") /\
  Nat.iter 10 next_ip (192, 168, 0, 250) = Nat.iter 266 next_ip (192, 168, 0, 250).
Proof.
  destruct (testnet_addresses (A := Coins) "192.168.0.250" 192 168 0 250 10 266) as [E Hs]; [done|lia|].
  split; [vm_compute; reflexivity|]. apply (proj2 Hs). vm_compute. reflexivity.
Defined.
End Witnesses.
End GenAccounts.
