(* ===== verification/CustomSdk.v ===== *)
(** * Changed modules of the SDK

    The staking hook that limits a validator's share of the voting power
    ([custom/staking/hook.go]), the supply queries of the bank, which leave
    out what the alliance module has bonded ([custom/bank/keeper/keeper.go]), the
    height of an API request ([server/middleware.go]) and the contract message
    server that the application does not register
    ([x/tax/handlers/wasm_msg_server.go]). *)

From S2P Require Import Prelude Sdk SdkRef SdkFees Core Dyncomm Vesting GenAccounts.

Module CustomSdk.

(** ** The power limit *)

Definition ColumbusChainID : string := "columbus-5".

Section Hook.
Context {SS : Type} `{SdkMath, Dyncomm.DynStaking SS}.

(** [GetValidator] of the staking keeper *)
Definition GetValidator (s : SS) (valAddr : string) : option Dyncomm.Validator :=
  List.find (fun v => String.eqb (Dyncomm.OperatorAddress v) valAddr) (Dyncomm.Validators s).

Definition AfterDelegationModified (chainID : string) (s : SS) (valAddr : string) : res unit :=
  if negb (String.eqb chainID ColumbusChainID) then Ok tt
  else
    match GetValidator s valAddr with
    | None => Ok tt
    | Some validator =>
        let! validatorPower :=
          Dyncomm.TokensToPower (Dyncomm.Tokens validator) (Dyncomm.DPowerReduction s) in
        let totalPower := Dyncomm.GetLastTotalPower s in
        if totalPower =? 0 then Ok tt
        else
          let! total := Int_Int64 totalPower in
          let! validatorDelegationPercent := Dec_QuoInt64 (NewDec validatorPower) total in
          if NewDecWithPrec 20 2 <? validatorDelegationPercent
          then Err (Errorf "validator power is over the allowed limit") else Ok tt
    end.
End Hook.

(** ** Supply queries *)

Definition StatusInvalidArgument := SdkError "rpc: invalid argument".
Definition StatusInternal := SdkError "rpc: internal".

(** The alliance module: the reward weights of its assets and what it has
    bonded; the paginated supply of the bank. *)
Class Alliance (B : Type) := {
  StakingBondDenom : B -> string;
  RewardWeights : B -> list Dec;
  GetAllianceBondedAmount : B -> Int;
  GetPaginatedTotalSupply : B -> string -> res Coins;
}.

Section Supply.
Context {B : Type} `{SdkMath, SdkCoins, BankKeeper B, Alliance B}.

(** The request is [None] when the pointer is nil.  The sum of the reward weights
    is computed and not used. *)
Definition SupplyOf (b : B) (req : option string) : res Coin :=
  match req with
  | None => Err StatusInvalidArgument
  | Some denom =>
      if String.eqb denom "" then Err StatusInvalidArgument
      else
        let supply := Amount (GetSupply b denom) in
        let! supply :=
          if String.eqb denom (StakingBondDenom b) then
            let! _ := rfold Dec_Add ZeroDec (RewardWeights b) in
            Int_Sub supply (GetAllianceBondedAmount b)
          else Ok supply in
        NewCoin denom supply
  end.

(** [page] is the page request. *)
Definition TotalSupply (b : B) (page : string) : res Coins :=
  let! totalSupply := match GetPaginatedTotalSupply b page with
                      | Err _ => Err StatusInternal
                      | r => r
                      end in
  let bondDenom := StakingBondDenom b in
  if 0 <? Coins_AmountOf totalSupply bondDenom then
    let! c := NewCoin bondDenom (GetAllianceBondedAmount b) in
    Coins_Sub totalSupply [c]
  else Ok totalSupply.
End Supply.

(** ** Facts *)

Section Facts.
Context {SS : Type} `{HM : SdkMath, HD : Dyncomm.DynStaking SS}.
Context `{!SdkMathLaws, !Dyncomm.DynStakingLaws SS}.

(** The hook decides the limit: on the main chain, for a known validator and a
    total power in range, it accepts exactly a share of at most 20%, measured to
    eighteen decimals. *)
Theorem power_limit s valAddr v p : GetValidator s valAddr = Some v ->
  Dyncomm.TokensToPower (Dyncomm.Tokens v) (Dyncomm.DPowerReduction s) = Ok p ->
  0 <= p < 2 ^ 63 -> 0 < Dyncomm.GetLastTotalPower s < 2 ^ 63 ->
  AfterDelegationModified ColumbusChainID s valAddr =
  if 5 * p * P18 <? (P18 + 5) * Dyncomm.GetLastTotalPower s then Ok tt
  else Err (Errorf "validator power is over the allowed limit").
Proof using Type*.
  intros Hv Hp Hr Ht. unfold AfterDelegationModified. rewrite Hv, String.eqb_refl, Hp.
  cbn [negb rbind].
  set (t := Dyncomm.GetLastTotalPower s) in *. rewrite (proj2 (Z.eqb_neq t 0)) by lia.
  unfold Int_Int64, is_int64. rewrite (proj2 (Z.leb_le _ _)), (proj2 (Z.ltb_lt t _)) by lia.
  cbn [andb rbind]. unfold Dec_QuoInt64. rewrite Dec_QuoInt_spec, (proj2 (Z.eqb_neq t 0)) by lia.
  cbn [rbind].
  unfold NewDec. rewrite Z.quot_div_nonneg by (unfold P18; lia).
  change (NewDecWithPrec 20 2) with (2 * 10 ^ 17).
  assert (2 * 10 ^ 17 < p * P18 / t <-> (P18 + 5) * t <= 5 * p * P18) as Hiff.
  { pose proof (Z.div_mod (p * P18) t ltac:(lia)). pose proof (Z.mod_pos_bound (p * P18) t ltac:(lia)).
    unfold P18 in *. nia. }
  destruct (Z.ltb_spec (2 * 10 ^ 17) (p * P18 / t)) as [Hq|Hq],
    (Z.ltb_spec (5 * p * P18) ((P18 + 5) * t)) as [Hc|Hc]; try done; exfalso.
  - apply Hiff in Hq. by apply Z.lt_nge in Hc.
  - apply Hiff, Z.lt_nge in Hc. by apply Hc.
Qed.

(** Elsewhere nothing is limited. *)
Lemma no_limit chainID s valAddr : chainID <> ColumbusChainID ->
  AfterDelegationModified chainID s valAddr = Ok tt.
Proof using Type.
  intros Hne. unfold AfterDelegationModified. by rewrite (proj2 (String.eqb_neq _ _) Hne).
Qed.
End Facts.

Section SupplyFacts.
Context {B : Type} `{HM : SdkMath, HC : SdkCoins, HB : BankKeeper B, HAl : Alliance B}.
Context `{!SdkMathLaws, !SdkCoinsLaws}.

(** The two queries agree on the bond denom: both report its supply without what
    the alliance module has bonded. *)
Theorem supply_queries_agree b page total c cs :
  GetPaginatedTotalSupply b page = Ok total -> coins_ok total ->
  amt total (StakingBondDenom b) = Amount (GetSupply b (StakingBondDenom b)) ->
  0 < amt total (StakingBondDenom b) -> 0 < GetAllianceBondedAmount b ->
  SupplyOf b (Some (StakingBondDenom b)) = Ok c -> TotalSupply b page = Ok cs ->
  amt cs (StakingBondDenom b) = Amount c /\
  forall d, d <> StakingBondDenom b -> amt cs d = amt total d.
Proof using Type*.
  intros Hp Hok Hs Hpos Hal R1 R2. set (d0 := StakingBondDenom b) in *.
  unfold TotalSupply in R2. rewrite Hp in R2. cbn [rbind] in R2. fold d0 in R2.
  unfold SupplyOf in R1. fold d0 in R1. destruct (String.eqb d0 ""); [done|].
  rewrite String.eqb_refl in R1.
  apply rbind_Ok in R1 as (v & (w & _ & Hw)%rbind_Ok & R1).
  rewrite NewCoin_spec in R1. destruct (ValidateDenom d0) eqn:Ev; [|done].
  destruct (0 <=? v); [|done]. injection R1 as <-. rewrite Int_Sub_spec in Hw.
  apply int_chk_Ok in Hw as [_ ->]. cbn [Amount].
  rewrite Coins_AmountOf_spec, (proj2 (Z.ltb_lt _ _) Hpos) in R2 by (apply Hok || done).
  rewrite NewCoin_spec, Ev, (proj2 (Z.leb_le _ _)) in R2 by lia. cbn [andb rbind] in R2.
  assert (coins_ok [mkCoin d0 (GetAllianceBondedAmount b)]) as Hb
    by (split; repeat constructor; done).
  destruct (decide (GetAllianceBondedAmount b <= amt total d0)) as [Hle|Hlt].
  - destruct (Coins_Sub_Ok total _ Hok Hb) as (x & Hx & _ & Ax).
    { intros d. rewrite amt_one. unfold ind. cbn [Denom Amount]. pose proof (amt_nonneg total d Hok).
      destruct (decide _) as [<-|]; lia. }
    rewrite Hx in R2. injection R2 as <-. split; [|intros d Hd]; rewrite Ax, amt_one; unfold ind;
      cbn [Denom Amount]; destruct (decide _); try congruence; lia.
  - rewrite (Coins_Sub_Panic total _ d0 Hok Hb) in R2; [done|]. rewrite amt_one. unfold ind.
    cbn [Denom Amount]. rewrite decide_True by done. lia.
Qed.
End SupplyFacts.

(** ** The height of an API request *)

Inductive Response (R : Type) := BadRequest (err : string) | Served (r : R).
Arguments BadRequest {R} _.
Arguments Served {R} _.

(** [header] is the value of the height header, [next] the handler behind. *)
Definition BlockHeightMiddleware {R} (next : option string -> R) (heightStr : string) (header : option string)
    : Response R :=
  if negb (String.eqb heightStr "") then
    match GenAccounts.strconv_Atoi heightStr with
    | Ok height =>
        if height <? 0 then BadRequest "height must be equal or greater than zero"
        else Served (next (if 0 <? height then Some heightStr else header))
    | _ => BadRequest "syntax error"
    end
  else Served (next header).

(** A request is served exactly without a height or with one that is an int64 of
    at least zero; the header then holds a positive height as it was written. *)
Lemma middleware_serves {R} (next : option string -> R) heightStr header :
  (exists r, BlockHeightMiddleware next heightStr header = Served r) <->
  heightStr = "" \/ exists h, GenAccounts.strconv_Atoi heightStr = Ok h /\ 0 <= h < 2 ^ 63.
Proof.
  unfold BlockHeightMiddleware. destruct (String.eqb_spec heightStr "") as [->|Hne]; cbn [negb]; [split; eauto|].
  destruct (GenAccounts.strconv_Atoi heightStr) as [h| |] eqn:E.
  - assert (Hh : h < 2 ^ 63).
    { unfold GenAccounts.strconv_Atoi in E. case_match; [|done]. destruct (is_int64 z) eqn:Ei; [|done].
      injection E as <-. unfold is_int64 in Ei. apply andb_true_iff in Ei as [_ Ei]. by apply Z.ltb_lt in Ei. }
    destruct (Z.ltb_spec h 0) as [Hn|Hn]; split.
    + by intros [].
    + intros [|(h' & [= <-] & ?)]; [done|lia].
    + intros _. right. by exists h.
    + eauto.
  - split; [by intros []|]. by intros [|(? & ? & _)].
  - split; [by intros []|]. by intros [|(? & ? & _)].
Qed.

(** ** The unused contract server *)

(** The wrapped server is a parameter of the constructor and not stored, so its
    field stays nil; a call through it panics. *)
Record WasmMsgServer (Req Resp : Type) := mkWasmServer { messageServer : option (Req -> res Resp) }.
Arguments mkWasmServer {Req Resp} _.
Arguments messageServer {Req Resp} _.
Definition NewWasmMsgServer {Req Resp} (orig : Req -> res Resp) : WasmMsgServer Req Resp := mkWasmServer None.
Definition ExecuteContract {Req Resp} (s : WasmMsgServer Req Resp) (msg : Req) : res Resp :=
  match messageServer s with Some f => f msg | None => Panic end.

Lemma wasm_server_panics {Req Resp} (orig : Req -> res Resp) msg :
  ExecuteContract (NewWasmMsgServer orig) msg = Panic.
Proof. done. Qed.
End CustomSdk.
