(* ===== verification/TxChain.v ===== *)
(** * The chains of decorators

    How the application puts its decorators together: the ante handler
    ([custom/auth/ante/ante.go]) with the decorators of other projects around
    those of this repository, the post handler ([custom/auth/post/post.go]), and
    the tax query of the transaction service ([custom/auth/tx/service.go]).  What
    a transaction that passes the whole chain is guaranteed to satisfy. *)

From S2P Require Import Prelude Sdk SdkRef SdkFees Core OracleTypes OracleKeeper Market TreasuryTypes Treasury TreasuryFacts TaxExemption Tax TaxFacts TaxCharge TaxRef TaxSend Ante AnteTax AnteFee AnteChecks Dyncomm DyncommFacts DyncommRef.

Module TxChain.
Import Tax TaxFacts Ante AnteTax AnteFee AnteChecks.

Definition ErrLogic := SdkError "internal logic error".

(** ** Handlers and decorators *)

(** [sdk.Tx]: most transactions are fee transactions. *)
Inductive Tx :=
  | IsFeeTx (tx : FeeTx)
  | IsOtherTx (msgs : list Msg).
Definition tx_msgs (tx : Tx) : list Msg :=
  match tx with IsFeeTx tx => GetMsgs tx | IsOtherTx msgs => msgs end.
Definition as_FeeTx (tx : Tx) : option FeeTx :=
  match tx with IsFeeTx tx => Some tx | IsOtherTx _ => None end.

(** The context: what this repository reads, and the values that only the SDK and
    wasmd use (gas meter, transaction counter, gas register) by name. *)
Record AnteCtx := mkAnteCtx {
  txctx : TxCtx; IsCheckTx : bool; IsReCheckTx : bool; SdkValues : gmap string Z }.

(** The state the handlers work on.  The spamming maps live in the decorator's
    memory; [dyncomm] has its own store. *)
Record App (X B DS SS : Type) := mkApp {
  tax : State X B DS;
  spam : Spam;
  dyncomm : Dyncomm.State SS }.
Arguments mkApp {X B DS SS} _ _ _.
Arguments tax {X B DS SS} _.
Arguments spam {X B DS SS} _.
Arguments dyncomm {X B DS SS} _.

(** The decorators of the SDK, of wasmd and of ibc-go in the chain. *)
Inductive SdkDecorator :=
  | SetUpContext | LimitSimulationGas | CountTX | GasRegister | ExtensionOptions
  | ValidateBasicTx | TxTimeoutHeight | ValidateMemo | ConsumeGasForTxSize
  | SetPubKey | ValidateSigCount | SigGasConsume | SigVerification | IncrementSequence
  | RedundantRelay.

(** [govKeeper.GetParams(ctx).MinDeposit] *)
Class GovParams (X : Type) := MinDeposit : X -> Coins.

Section Chain.
Context {X B DS SS : Type}.
Abbreviation AppS := (App X B DS SS).

Definition AnteHandler : Type := AnteCtx -> Tx -> bool -> M AppS AnteCtx.
Definition AnteDecorator : Type := AnteCtx -> Tx -> bool -> AnteHandler -> M AppS AnteCtx.
Definition PostHandler : Type := AnteCtx -> Tx -> bool -> bool -> M AppS AnteCtx.
Definition PostDecorator : Type := AnteCtx -> Tx -> bool -> bool -> PostHandler -> M AppS AnteCtx.

Definition on_tax {A} (c : M (State X B DS) A) : M AppS A :=
  zoom tax (fun t s => mkApp t (spam s) (dyncomm s)) c.
Definition on_spam {A} (c : M Spam A) : M AppS A :=
  zoom spam (fun p s => mkApp (tax s) p (dyncomm s)) c.
Definition on_dyncomm {A} (c : M (Dyncomm.State SS) A) : M AppS A :=
  zoom dyncomm (fun d s => mkApp (tax s) (spam s) d) c.
End Chain.

(** The chaining of decorators and the foreign decorators themselves. *)
Class Chains (X B DS SS : Type) := {
  ChainAnteDecorators : list (@AnteDecorator X B DS SS) -> @AnteHandler X B DS SS;
  ChainPostDecorators : list (@PostDecorator X B DS SS) -> @PostHandler X B DS SS;
  sdk_AnteHandle : SdkDecorator -> @AnteDecorator X B DS SS;
}.

(** Writes to the stores of other projects: account keys and sequences, the
    transaction counter, IBC clients.  The governance parameters and the feeder
    delegations are not among them. *)
Definition other_stores {X B DS SS} `{GovParams X, FeederCheck X} (s s' : App X B DS SS) : Prop :=
  exists o, s' = mkApp (mkState (params (tax s)) (treasury (tax s)) (zones (tax s)) (bank (tax s))
                          (distr (tax s)) o (events (tax s))) (spam s) (dyncomm s) /\
  MinDeposit o = MinDeposit (others (tax s)) /\
  forall f v, check_feeder o f v = check_feeder (others (tax s)) f v.

(** Only the values of the SDK and of wasmd differ. *)
Definition same_ctx (ctx ctx' : AnteCtx) : Prop :=
  txctx ctx' = txctx ctx /\ IsCheckTx ctx' = IsCheckTx ctx /\ IsReCheckTx ctx' = IsReCheckTx ctx.

(** What the documentation of each decorator says it hands over to the next one:
    - [SetUpContext], [LimitSimulationGas], [ConsumeGasForTxSize] and
      [SigGasConsume] set or consume the gas meter of the context, [GasRegister]
      puts the register into it;
    - [CountTX] stores the position of the transaction in the block, in its own
      store and in the context;
    - [ExtensionOptions], [ValidateBasicTx], [TxTimeoutHeight], [ValidateMemo],
      [ValidateSigCount] and [SigVerification] check and write nothing;
    - [SetPubKey] and [IncrementSequence] write the signers' accounts, and
      [RedundantRelay] may update IBC clients. *)
Definition documented {X B DS SS} `{GovParams X, FeederCheck X} (d : SdkDecorator)
    (ctx ctx' : AnteCtx) (s s' : App X B DS SS) : Prop :=
  match d with
  | SetUpContext | LimitSimulationGas | ConsumeGasForTxSize | SigGasConsume | GasRegister =>
      same_ctx ctx ctx' /\ s' = s
  | CountTX => same_ctx ctx ctx' /\ other_stores s s'
  | ExtensionOptions | ValidateBasicTx | TxTimeoutHeight | ValidateMemo | ValidateSigCount
  | SigVerification => ctx' = ctx /\ s' = s
  | SetPubKey | IncrementSequence | RedundantRelay => ctx' = ctx /\ other_stores s s'
  end.

(** A chain runs its first decorator with the rest as [next] and ends with the
    terminator; a foreign decorator that succeeds has called [next] and returns
    what it returns. *)
Class ChainsLaws (X B DS SS : Type) `{GovParams X, FeederCheck X, Chains X B DS SS} : Prop := {
  ChainAnte_nil ctx tx simulate s : ChainAnteDecorators [] ctx tx simulate s = Ret ctx s;
  ChainAnte_cons d ds ctx tx simulate s :
    ChainAnteDecorators (d :: ds) ctx tx simulate s = d ctx tx simulate (ChainAnteDecorators ds) s;
  ChainPost_nil ctx tx simulate success s : ChainPostDecorators [] ctx tx simulate success s = Ret ctx s;
  ChainPost_cons d ds ctx tx simulate success s :
    ChainPostDecorators (d :: ds) ctx tx simulate success s =
    d ctx tx simulate success (ChainPostDecorators ds) s;
  sdk_passes d ctx tx simulate next s r s' :
    sdk_AnteHandle d ctx tx simulate next s = Ret r s' ->
    exists ctx1 s1, documented d ctx ctx1 s s1 /\ next ctx1 tx simulate s1 = Ret r s';
}.

(** ** The ante handler *)

(** The fields of [HandlerOptions] that can be nil: true when they are set. *)
Record HandlerOptions := mkOptions {
  has_AccountKeeper : bool;
  has_BankKeeper : bool;
  has_FeegrantKeeper : bool;
  has_OracleKeeper : bool;
  has_TreasuryKeeper : bool;
  has_SignModeHandler : bool;
  has_WasmKeeper : bool;
  has_WasmConfig : bool;
  has_TXCounterStoreKey : bool;
  has_TaxKeeper : bool }.

Section Handlers.
Context {X B DS SS : Type}.
Context `{HM : SdkMath, HC : SdkCoins, HF : SdkFees, HA : Bech32, HB : BankKeeper B,
  HD : DistrKeeper DS, HP : DistrParams DS, HX : AccountKeeper X, HBD : BondDenom}.
Context `{HG : GovParams X, HO : FeederCheck X, HCh : Chains X B DS SS}.
Abbreviation AppS := (App X B DS SS).

Definition spam_decorator : @AnteDecorator X B DS SS := fun ctx tx simulate next =>
  let* s := gets id in
  do* on_spam (spam_AnteHandle (IsReCheckTx ctx) (IsCheckTx ctx) simulate (others (tax s))
                 (Height (txctx ctx)) (tx_msgs tx)) in
  next ctx tx simulate.

Definition ibc_decorator : @AnteDecorator X B DS SS := fun ctx tx simulate next =>
  do* lift (ibc_AnteHandle (IsReCheckTx ctx) (tx_msgs tx)) in
  next ctx tx simulate.

Definition deposit_decorator : @AnteDecorator X B DS SS := fun ctx tx simulate next =>
  let* s := gets id in
  do* lift (deposit_AnteHandle (MinDeposit (others (tax s))) (treasury (tax s)) simulate (tx_msgs tx)) in
  next ctx tx simulate.

(** [fee_collector]: the fee collector account is set. *)
Variable fee_collector : bool.

Definition fee_decorator (feegrant : bool) : @AnteDecorator X B DS SS := fun ctx tx simulate next =>
  let* newCtx := on_tax (AnteHandle fee_collector feegrant (txctx ctx) (as_FeeTx tx) simulate) in
  next (mkAnteCtx newCtx (IsCheckTx ctx) (IsReCheckTx ctx) (SdkValues ctx)) tx simulate.

Definition dyncomm_decorator : @AnteDecorator X B DS SS := fun ctx tx simulate next =>
  let* s := gets id in
  do* lift (Dyncomm.dyncomm_AnteHandle (dyncomm s) simulate (tx_msgs tx)) in
  next ctx tx simulate.

Definition ante_decorators (options : HandlerOptions) : list (@AnteDecorator X B DS SS) := [
  sdk_AnteHandle SetUpContext;
  sdk_AnteHandle LimitSimulationGas;
  sdk_AnteHandle CountTX;
  sdk_AnteHandle GasRegister;
  sdk_AnteHandle ExtensionOptions;
  sdk_AnteHandle ValidateBasicTx;
  sdk_AnteHandle TxTimeoutHeight;
  sdk_AnteHandle ValidateMemo;
  spam_decorator;
  ibc_decorator;
  deposit_decorator;
  sdk_AnteHandle ConsumeGasForTxSize;
  fee_decorator (has_FeegrantKeeper options);
  dyncomm_decorator;
  sdk_AnteHandle SetPubKey;
  sdk_AnteHandle ValidateSigCount;
  sdk_AnteHandle SigGasConsume;
  sdk_AnteHandle SigVerification;
  sdk_AnteHandle IncrementSequence;
  sdk_AnteHandle RedundantRelay ].

(** The wasm keeper is asked for its gas register, and is not checked. *)
Definition NewAnteHandler (options : HandlerOptions) : res (@AnteHandler X B DS SS) :=
  if negb (has_AccountKeeper options) then Err ErrLogic
  else if negb (has_BankKeeper options) then Err ErrLogic
  else if negb (has_OracleKeeper options) then Err ErrLogic
  else if negb (has_TreasuryKeeper options) then Err ErrLogic
  else if negb (has_SignModeHandler options) then Err ErrLogic
  else if negb (has_WasmConfig options) then Err ErrLogic
  else if negb (has_TXCounterStoreKey options) then Err ErrLogic
  else if negb (has_TaxKeeper options) then Err ErrLogic
  else if negb (has_WasmKeeper options) then Panic
  else Ok (ChainAnteDecorators (ante_decorators options)).

(** ** The post handler *)

Definition dyncomm_post_decorator : @PostDecorator X B DS SS := fun ctx tx simulate success next =>
  do* on_dyncomm (Dyncomm.dyncomm_PostHandle simulate (IsCheckTx ctx) (tx_msgs tx)) in
  next ctx tx simulate success.
Definition tax_post_decorator : @PostDecorator X B DS SS := fun ctx tx simulate success next =>
  do* on_tax (PostHandle (txctx ctx)) in
  next ctx tx simulate success.
Definition NewPostHandler : res (@PostHandler X B DS SS) :=
  Ok (ChainPostDecorators [dyncomm_post_decorator; tax_post_decorator]).

(** ** The tax query of the transaction service *)

Definition InvalidArgument := Errorf "rpc error: code = InvalidArgument".

(** The request: nil, or the bytes of a transaction and a transaction. *)
Record ComputeTaxRequest := mkComputeTax { TxBytes : string; ReqTx : option Tx }.

(** Whether a message makes the tax computation ask the exemption keeper. *)
Fixpoint asks_exemption (msg : Msg) : bool :=
  match msg with
  | MsgSend _ _ _ => true
  | MsgMultiSend inputs _ => negb (length inputs =? 0)%nat
  | MsgExecuteContract _ _ _ => true
  | MsgExec (Some messages) => existsb asks_exemption messages
  | _ => false
  end.

(** [NewTxServer] leaves the exemption keeper at its zero value ([te = None]),
    and its store cannot be opened: the first question panics. *)
Definition ComputeTax_service (TxDecoder : string -> res Tx) (te : option TaxExemption.Store)
    (s : State X B DS) (req : option ComputeTaxRequest) : res Coins :=
  let! req := match req with None => Err InvalidArgument | Some req => Ok req end in
  let! msgs :=
    if negb (String.eqb (TxBytes req) "") then
      let! tx := TxDecoder (TxBytes req) in Ok (tx_msgs tx)
    else match ReqTx req with
         | Some tx => Ok (tx_msgs tx)
         | None => Err InvalidArgument
         end in
  match te with
  | Some te =>
      let! taxes := FilterMsgAndComputeTax te (treasury s) (GetBurnTaxRate s) false msgs in
      Ok taxes.1
  | None =>
      if existsb asks_exemption msgs then Panic
      else
        let! taxes := FilterMsgAndComputeTax (TaxExemption.mkStore ∅ ∅) (treasury s)
                        (GetBurnTaxRate s) false msgs in
        Ok taxes.1
  end.
End Handlers.

(** ** What passes the chain *)

(** The bounds of the spamming check on one message. *)
Definition transfer_fine (msg : Msg) : Prop :=
  match msg with
  | MsgTransfer memo receiver =>
      (String.length memo <= DefaultMaxMemoLength)%nat /\
      (String.length receiver <= DefaultMaxReceiverLength)%nat
  | _ => True
  end.

Lemma ibc_check_fine msgs : ibc_check msgs = Ok tt <-> Forall transfer_fine msgs.
Proof.
  induction msgs as [|m msgs IH]; [by split|]. rewrite Forall_cons, <- IH.
  destruct m; simpl; try naive_solver.
  destruct (Nat.ltb_spec DefaultMaxMemoLength (String.length memo)); [naive_solver lia|].
  destruct (Nat.ltb_spec DefaultMaxReceiverLength (String.length receiver)); naive_solver lia.
Qed.

Section Facts.
Context {X B DS SS : Type}.
Context `{HM : SdkMath, HC : SdkCoins, HF : SdkFees, HA : Bech32, HB : BankKeeper B,
  HD : DistrKeeper DS, HP : DistrParams DS, HX : AccountKeeper X, HBD : BondDenom}.
Context `{HG : GovParams X, HO : FeederCheck X, HCh : Chains X B DS SS, !ChainsLaws X B DS SS}.
Abbreviation AppS := (App X B DS SS).

(** What foreign decorators leave alone together: money, parameters, treasury,
    zones, the spamming maps, the commissions, the governance parameters and the
    feeder delegations. *)
Definition untouched (s s' : AppS) : Prop :=
  same_money (tax s) (tax s') /\ spam s' = spam s /\ dyncomm s' = dyncomm s /\
  MinDeposit (others (tax s')) = MinDeposit (others (tax s)) /\
  forall f v, check_feeder (others (tax s')) f v = check_feeder (others (tax s)) f v.

#[local] Instance untouched_preorder : PreOrder untouched.
Proof using Type.
  split.
  - intros s. by repeat split.
  - intros s1 s2 s3 ((P1 & T1 & Z1 & B1 & D1) & S1 & C1 & G1 & F1) ((P2 & T2 & Z2 & B2 & D2) & S2 & C2 & G2 & F2).
    split_and!; [split_and!; congruence|congruence..|]. intros f v. by rewrite F2, F1.
Qed.
#[local] Instance same_ctx_preorder : PreOrder same_ctx.
Proof using Type.
  split; [by intros ctx; split_and!|]. intros c1 c2 c3 (? & ? & ?) (? & ? & ?). split_and!; congruence.
Qed.

Lemma documented_frame d ctx ctx' s s' : documented d ctx ctx' s s' -> same_ctx ctx ctx' /\ untouched s s'.
Proof using Type.
  assert (forall s s', other_stores s s' -> untouched s s') as Ho.
  { intros t t' (o & -> & Hg & Hf). by split_and!. }
  destruct d; simpl; intros [Hc Hs]; subst; split; done || by apply Ho.
Qed.

(** Foreign decorators at the front of a chain hand over to the rest. *)
Lemma sdk_prefix ds rest ctx tx simulate s r s' :
  ChainAnteDecorators ((sdk_AnteHandle <$> ds) ++ rest) ctx tx simulate s = Ret r s' ->
  exists ctx1 s1, same_ctx ctx ctx1 /\ untouched s s1 /\ ChainAnteDecorators rest ctx1 tx simulate s1 = Ret r s'.
Proof using Type*.
  revert ctx s. induction ds as [|d ds IH]; intros ctx s R; [by exists ctx, s|].
  simpl in R. rewrite ChainAnte_cons in R. apply sdk_passes in R as (c1 & s1 & [C1 U1]%documented_frame & R).
  apply IH in R as (c2 & s2 & C2 & U2 & R). exists c2, s2. split_and!; [by trans c1|by trans s1|done].
Qed.

(** The own decorators: each lets [next] run exactly when its check passes. *)
Lemma spam_passes ds ctx tx simulate s r s' :
  ChainAnteDecorators (spam_decorator :: ds) ctx tx simulate s = Ret r s' ->
  exists p, spam_AnteHandle (IsReCheckTx ctx) (IsCheckTx ctx) simulate (others (tax s))
    (Height (txctx ctx)) (tx_msgs tx) (spam s) = Ret tt p /\
  ChainAnteDecorators ds ctx tx simulate (mkApp (tax s) p (dyncomm s)) = Ret r s'.
Proof using Type*.
  rewrite ChainAnte_cons. unfold spam_decorator. intros (? & ? & [= <- <-] & R)%bind_Ret.
  apply bind_Ret in R as ([] & s1 & (p & R1 & ->)%zoom_Ret & R). by exists p.
Qed.

Lemma ibc_passes ds ctx tx simulate s r s' :
  ChainAnteDecorators (ibc_decorator :: ds) ctx tx simulate s = Ret r s' ->
  ibc_AnteHandle (IsReCheckTx ctx) (tx_msgs tx) = Ok tt /\
  ChainAnteDecorators ds ctx tx simulate s = Ret r s'.
Proof using Type*.
  rewrite ChainAnte_cons. by intros ([] & s1 & [? ->]%lift_Ret & R)%bind_Ret.
Qed.

Lemma deposit_passes ds ctx tx simulate s r s' :
  ChainAnteDecorators (deposit_decorator :: ds) ctx tx simulate s = Ret r s' ->
  deposit_AnteHandle (MinDeposit (others (tax s))) (treasury (tax s)) simulate (tx_msgs tx) = Ok tt /\
  ChainAnteDecorators ds ctx tx simulate s = Ret r s'.
Proof using Type*.
  rewrite ChainAnte_cons. unfold deposit_decorator. intros (? & ? & [= <- <-] & R)%bind_Ret.
  by apply bind_Ret in R as ([] & s1 & [? ->]%lift_Ret & R).
Qed.

Lemma fee_passes fc fg ds ctx tx simulate s r s' :
  ChainAnteDecorators (fee_decorator fc fg :: ds) ctx tx simulate s = Ret r s' ->
  exists c t, AnteHandle fc fg (txctx ctx) (as_FeeTx tx) simulate (tax s) = Ret c t /\
  ChainAnteDecorators ds (mkAnteCtx c (IsCheckTx ctx) (IsReCheckTx ctx) (SdkValues ctx)) tx simulate
    (mkApp t (spam s) (dyncomm s)) = Ret r s'.
Proof using Type*.
  rewrite ChainAnte_cons. intros (c & s1 & (t & R1 & ->)%zoom_Ret & R)%bind_Ret. by exists c, t.
Qed.

Lemma dyncomm_passes ds ctx tx simulate s r s' :
  ChainAnteDecorators (dyncomm_decorator :: ds) ctx tx simulate s = Ret r s' ->
  Dyncomm.dyncomm_AnteHandle (dyncomm s) simulate (tx_msgs tx) = Ok tt /\
  ChainAnteDecorators ds ctx tx simulate s = Ret r s'.
Proof using Type*.
  rewrite ChainAnte_cons. unfold dyncomm_decorator. intros (? & ? & [= <- <-] & R)%bind_Ret.
  by apply bind_Ret in R as ([] & s1 & [? ->]%lift_Ret & R).
Qed.

(** The whole chain: every own check has passed, on states that differ from the
    first one only in what foreign decorators may touch. *)
Record chain_run (fc fg : bool) (ctx ctx' : AnteCtx) (tx : Tx) (simulate : bool)
    (s s' : AppS) : Prop := {
  run_spam : spam_AnteHandle (IsReCheckTx ctx) (IsCheckTx ctx) simulate (others (tax s))
    (Height (txctx ctx)) (tx_msgs tx) (spam s) = Ret tt (spam s');
  run_ibc : ibc_AnteHandle (IsReCheckTx ctx) (tx_msgs tx) = Ok tt;
  run_deposit : deposit_AnteHandle (MinDeposit (others (tax s))) (treasury (tax s)) simulate
    (tx_msgs tx) = Ok tt;
  run_fee : exists t1 t2, same_money (tax s) t1 /\
    AnteHandle fc fg (txctx ctx) (as_FeeTx tx) simulate t1 = Ret (txctx ctx') t2 /\
    same_money t2 (tax s');
  run_dyncomm : Dyncomm.dyncomm_AnteHandle (dyncomm s) simulate (tx_msgs tx) = Ok tt;
  run_rates : dyncomm s' = dyncomm s }.

Lemma spam_feeder recheck check_tx simulate (o o' : X) h msgs : forall p,
  (forall f v, check_feeder o' f v = check_feeder o f v) ->
  spam_AnteHandle recheck check_tx simulate o' h msgs p =
  spam_AnteHandle recheck check_tx simulate o h msgs p.
Proof using Type.
  intros p Ho. unfold spam_AnteHandle. destruct recheck; [done|]. destruct (_ && _); [|done].
  assert (forall f v, check_permission o' f v = check_permission o f v) as Hp.
  { intros f v. unfold check_permission. apply rbind_ext. intros a. apply rbind_ext. intros b. apply Ho. }
  revert p. induction msgs as [|m msgs IH]; intros p; [done|].
  destruct m; try done; simpl; rewrite Hp; unfold bind, lift; destruct (check_permission o _ _); try done;
    simpl; destruct (check_height _ _ _); try done; apply IH.
Qed.

Lemma chain_inv fc options h ctx tx simulate ctx' s s' :
  NewAnteHandler fc options = Ok h -> h ctx tx simulate s = Ret ctx' s' ->
  chain_run fc (has_FeegrantKeeper options) ctx ctx' tx simulate s s'.
Proof using Type*.
  unfold NewAnteHandler. repeat (case_match; [done|]). intros [= <-] R.
  change (ante_decorators fc options) with
    ((sdk_AnteHandle <$> [SetUpContext; LimitSimulationGas; CountTX; GasRegister; ExtensionOptions;
        ValidateBasicTx; TxTimeoutHeight; ValidateMemo]) ++
     spam_decorator :: ibc_decorator :: deposit_decorator ::
     (sdk_AnteHandle <$> [ConsumeGasForTxSize]) ++
     fee_decorator fc (has_FeegrantKeeper options) :: dyncomm_decorator ::
     (sdk_AnteHandle <$> [SetPubKey; ValidateSigCount; SigGasConsume; SigVerification;
        IncrementSequence; RedundantRelay]) ++ []) in R.
  apply sdk_prefix in R as (c1 & s1 & (X1 & K1 & J1) & (Hm1 & Hs1 & Hc1 & Hg1 & Hf1) & R).
  apply spam_passes in R as (p & Rs & R). apply ibc_passes in R as [Ri R].
  apply deposit_passes in R as [Rd R].
  apply sdk_prefix in R as (c2 & s2 & (X2 & K2 & J2) & (Hm2 & Hs2 & Hc2 & Hg2 & Hf2) & R).
  apply fee_passes in R as (c & t & Rf & R). apply dyncomm_passes in R as [Rdy R].
  apply sdk_prefix in R as (c3 & s3 & (X3 & _) & (Hm3 & Hs3 & Hc3 & _) & R).
  rewrite ChainAnte_nil in R. injection R as <- <-. simpl in *. rewrite X2, X1 in Rf.
  rewrite K1, J1, X1 in Rs. rewrite J1 in Ri. rewrite <- X3 in Rf.
  destruct Hm1 as (P1 & T1 & Z1 & B1 & D1), Hm2 as (P2 & T2 & Z2 & B2 & D2). split.
  - rewrite Hs3, Hs2, <- Hs1, <- Rs. symmetry. by apply spam_feeder.
  - done.
  - by rewrite <- Hg1, <- T1.
  - exists (tax s2), t. split_and!; [split_and!; congruence|done|exact Hm3].
  - by rewrite <- Hc1, <- Hc2.
  - congruence.
Qed.

Context `{!SdkMathLaws, !SdkCoinsLaws, !SdkFeesLaws, !Bech32Laws, !BankLaws B, !DistrLaws DS}.

(** Prices, taxes and balances are the same in states with the same money. *)
Lemma tx_ok_same ctx t rate (s1 s2 : State X B DS) : same_money s1 s2 ->
  tx_ok ctx t rate s1 -> tx_ok ctx t rate s2.
Proof using Type.
  intros (Hp & _) [Hf Hg Hw Hpr Hr Hr0]. split; [done..| | |done].
  - unfold GetEffectiveGasPrices, GetGasPrices, GetParams in *. by rewrite Hp.
  - unfold GetBurnTaxRate, GetParams in *. by rewrite Hp.
Qed.

Lemma ante_outcome_same ctx ctx' t rate (s s1 s2 s' : State X B DS) reverse refund :
  same_money s s1 -> same_money s2 s' ->
  ante_outcome ctx ctx' t rate s1 s2 reverse refund -> ante_outcome ctx ctx' t rate s s' reverse refund.
Proof using Type.
  intros (P1 & T1 & Z1 & B1 & D1) (P2 & T2 & Z2 & B2 & D2) [Hr (Hb & Hs & Hp & Ht & Hz & Hd) Hdue Hg].
  assert (GetEffectiveGasPrices ctx s1 = GetEffectiveGasPrices ctx s) as Eg
    by (unfold GetEffectiveGasPrices, GetGasPrices, GetParams; by rewrite P1).
  rewrite ?Eg, ?T1, ?Z1, ?B1 in *. split; [done| |done|done].
  split_and!; [|intros d; by rewrite B2, Hs|congruence..]. intros acc d. by rewrite B2, Hb.
Qed.

(** C4. What an accepted transaction guarantees, when the decorators of the SDK,
    wasmd and ibc-go around those of this repository do what they document: check,
    meter gas, write accounts, counters and IBC clients.  When the ante handler
    accepts a transaction, its IBC transfers have short memos and receivers and
    its proposals deposit the required share of the minimal deposit (transfers and
    proposals wrapped in another message are not looked at); no commission change,
    however deeply wrapped, goes below the validator's dynamic minimum; the oracle
    messages it starts with, when the mempool checks it, are all different, are
    the validators' first of their kind at the height, and are recorded as such;
    and the fee is settled: the payer has paid the fee less the tax that the post
    handler will charge and less the refund, and the gas fee is covered. *)
Theorem accepted_guarantees fc options h ctx t rate c ctx' (s s' : AppS) :
  let ratio := TreasuryTypes.MinInitialDepositRatio (Treasury.KParams (treasury (tax s))) in
  NewAnteHandler fc options = Ok h ->
  tx_ok (txctx ctx) t rate (tax s) -> IsReCheckTx ctx = false ->
  head (MinDeposit (others (tax s))) = Some c -> 0 <= Amount c < 2 ^ 255 -> rate_ok ratio ->
  ValidateDenom MicroLunaDenom = true ->
  (forall cs, MsgSubmitProposal cs ∈ GetMsgs t -> coins_ok cs) ->
  h ctx (IsFeeTx t) false s = Ret ctx' s' ->
  Forall transfer_fine (GetMsgs t) /\
  (forall cs, MsgSubmitProposal cs ∈ GetMsgs t -> tax_of ratio (Amount c) <= amt cs MicroLunaDenom) /\
  Forall (DyncommFacts.fine (dyncomm s)) (GetMsgs t ≫= DyncommFacts.edits) /\
  (IsCheckTx ctx = true -> NoDup (leading (GetMsgs t)) /\ forall p v, (p, v) ∈ leading (GetMsgs t) ->
     ~ submitted (Height (txctx ctx)) v p (spam s) /\ submitted (Height (txctx ctx)) v p (spam s')) /\
  exists reverse refund, ante_outcome (txctx ctx) (txctx ctx') t rate (tax s) (tax s') reverse refund.
Proof using Type*.
  intros ratio Hnew Hok Hre Hc Hcr Hr Hl Hp R.
  destruct (chain_inv _ _ _ _ _ _ _ _ _ Hnew R) as [Rs Ri Rd (t1 & t2 & M1 & Rf & M2) Rdy _].
  rewrite Hre in Rs, Ri. change (tx_msgs (IsFeeTx t)) with (GetMsgs t) in *.
  change (as_FeeTx (IsFeeTx t)) with (Some t) in Rf. split_and!.
  - by apply ibc_check_fine.
  - by eapply deposits_enforced.
  - by apply DyncommFacts.accepted_edits.
  - intros Hchk. rewrite Hchk in Rs. by apply (accepted_leading _ _ _ _ _ Rs).
  - apply (AnteHandle_inv _ _ _ _ rate) in Rf as (reverse & refund & Hout); [|by eapply tx_ok_same].
    exists reverse, refund. by eapply ante_outcome_same.
Qed.
End Facts.

(** ** The ante handler's constructor and the tax query *)

Section Construct.
Context {X B DS SS : Type}.
Context `{HM : SdkMath, HC : SdkCoins, HF : SdkFees, HA : Bech32, HB : BankKeeper B,
  HD : DistrKeeper DS, HP : DistrParams DS, HX : AccountKeeper X, HBD : BondDenom}.
Context `{HG : GovParams X, HO : FeederCheck X, HCh : Chains X B DS SS}.

(** The options whose absence the constructor reports. *)
Definition required (options : HandlerOptions) : list bool :=
  [has_AccountKeeper options; has_BankKeeper options; has_OracleKeeper options;
   has_TreasuryKeeper options; has_SignModeHandler options; has_WasmConfig options;
   has_TXCounterStoreKey options; has_TaxKeeper options].

(** A missing option is an error, with the exception of the wasm keeper, whose
    absence is a panic. *)
Lemma NewAnteHandler_cases fc options :
  NewAnteHandler (X:=X) (B:=B) (DS:=DS) (SS:=SS) fc options =
  if forallb id (required options) then
    if has_WasmKeeper options then Ok (ChainAnteDecorators (ante_decorators fc options)) else Panic
  else Err ErrLogic.
Proof using Type. unfold NewAnteHandler. destruct options as [[] [] ? [] [] [] [] [] [] []]; done. Qed.

(** Messages that do not ask for exemptions are taxed the same whatever the
    exemptions are. *)
Definition taxed_alike (th : option Dec) (tk : Treasury.Store) (m : Msg) : Prop :=
  asks_exemption m = false -> forall te te' acc,
  msg_taxes te tk th false acc m = msg_taxes te' tk th false acc m.

Lemma taxed_alike_list th tk ms : Forall (taxed_alike th tk) ms -> existsb asks_exemption ms = false ->
  forall te te' acc, rfold (msg_taxes te tk th false) acc ms = rfold (msg_taxes te' tk th false) acc ms.
Proof using Type.
  induction 1 as [|m ms Hm _ IH]; [done|]. simpl. intros [Em Ems]%orb_false_iff te te' acc.
  rewrite (Hm Em te te'). apply rbind_ext. intros acc'. by apply IH.
Qed.

Lemma taxed_alike_all th tk m : taxed_alike th tk m.
Proof using Type.
  induction m as [m IH] using Msg_nested_ind.
  destruct m as [| ins outs| | | | |[ms|]| | | | | | | |]; intros Ha te te' [t n]; try done.
  - by destruct ins.
  - simpl in IH, Ha. simpl. rewrite !msgs_loop. by rewrite (taxed_alike_list th tk ms IH Ha te te').
Qed.

(** The query with an exemption keeper answers with the tax that the fee
    decorator computes for the same messages; without one, as the constructor
    leaves it, it agrees on messages that move no coins between accounts and
    panics on all others. *)
Lemma ComputeTax_service_cases dec te (s : State X B DS) bytes tx :
  let answer := ComputeTax_service dec (Some te) s (Some (mkComputeTax bytes (Some tx))) in
  bytes = "" ->
  answer = (let! taxes := FilterMsgAndComputeTax te (treasury s) (GetBurnTaxRate s) false (tx_msgs tx) in
            Ok taxes.1) /\
  ComputeTax_service dec None s (Some (mkComputeTax bytes (Some tx))) =
    if existsb asks_exemption (tx_msgs tx) then Panic else answer.
Proof using Type.
  intros answer ->. split; [done|]. subst answer. cbn. destruct (existsb _ _) eqn:Ea; [done|].
  unfold FilterMsgAndComputeTax.
  rewrite (taxed_alike_list (GetBurnTaxRate s) (treasury s) (tx_msgs tx)
             ltac:(apply Forall_forall; intros; apply taxed_alike_all) Ea _ te). done.
Qed.
End Construct.

(** ** A concrete transaction through the whole chain *)

Import Ref TaxRef DyncommRef.

#[local] Instance demo_gov : GovParams unit := fun _ => [mkCoin MicroLunaDenom 1001].
#[local] Instance demo_feeder : FeederCheck unit := fun _ _ _ => Ok tt.
(** The foreign decorators of the demo chain count the transaction and set its gas
    limit in the context. *)
Definition with_value (name : string) (z : Z) (ctx : AnteCtx) : AnteCtx :=
  mkAnteCtx (txctx ctx) (IsCheckTx ctx) (IsReCheckTx ctx) (<[name := z]> (SdkValues ctx)).
#[local] Instance demo_chains : Chains unit RefBank RefDistr RefStakers := {|
  ChainAnteDecorators := foldr (fun d next ctx tx simulate => d ctx tx simulate next) (fun ctx _ _ => ret ctx);
  ChainPostDecorators := foldr (fun d next ctx tx simulate success => d ctx tx simulate success next)
    (fun ctx _ _ _ => ret ctx);
  sdk_AnteHandle d ctx tx simulate next :=
    match d with
    | SetUpContext => next (with_value "gas limit" 100000 ctx) tx simulate
    | CountTX => next (with_value "tx counter" 0 ctx) tx simulate
    | _ => next ctx tx simulate
    end |}.
#[local] Instance demo_chains_laws : ChainsLaws unit RefBank RefDistr RefStakers.
Proof.
  split; try done. intros d ctx tx simulate next s r s' R.
  assert (other_stores s s) as Ho by (exists tt; destruct s as [[? ? ? ? ? [] ?] ? ?]; by split_and!).
  destruct d; simpl in R; eexists _, s; (split; [|exact R]); split; done.
Qed.

Definition all_set : HandlerOptions := mkOptions true true true true true true true true true true.
Definition chain_tx : FeeTx := mkTx
  [MsgOraclePrevote (acc alice) (val bob); MsgSend (acc alice) (acc bob) [mkCoin MicroLunaDenom 1000];
   MsgTransfer "memo" "osmo1receiver"; MsgSubmitProposal [mkCoin MicroLunaDenom 600];
   MsgExec (Some [MsgEditValidator "big" (Some (pct 30))])]
  [mkCoin MicroLunaDenom 3000000; mkCoin MicroUSDDenom 500] 100000 alice None.
Definition chain_state : App unit RefBank RefDistr RefStakers :=
  mkApp (mkState (Some tax_params) deposit_treasury (TaxExemption.mkStore ∅ ∅) tax_bank (mkDistr ∅ []) tt [])
    (mkSpam ∅ ∅) demo.
Definition chain_handler : @AnteHandler unit RefBank RefDistr RefStakers :=
  ChainAnteDecorators (ante_decorators true all_set).
Definition chain_result := chain_handler (mkAnteCtx ante_ctx true false ∅) (IsFeeTx chain_tx) false chain_state.
Definition chain_ctx' : AnteCtx := match chain_result with Ret c _ => c | _ => mkAnteCtx ante_ctx true false ∅ end.

Lemma chain_returns : chain_result = Ret chain_ctx' (final chain_result chain_state).
Proof.
  assert (returned chain_result = true) by (by vm_compute). unfold chain_ctx'. by destruct chain_result.
Qed.

Lemma chain_tx_ok : tx_ok ante_ctx chain_tx (NewDecWithPrec 5 3) (tax chain_state).
Proof.
  split.
  - apply coins_ok_check. by vm_compute.
  - vm_compute. split; [discriminate|done].
  - apply List.Forall_cons; [done|]. apply List.Forall_cons; [apply coins_ok_check; by vm_compute|].
    repeat (apply List.Forall_cons; [done|]). apply List.Forall_nil.
  - split; [apply (bool_decide_unpack _)|apply (bool_decide_unpack _)]; by vm_compute.
  - done.
  - vm_compute. discriminate.
Qed.

Lemma chain_proposal cs : MsgSubmitProposal cs ∈ GetMsgs chain_tx -> cs = [mkCoin MicroLunaDenom 600].
Proof.
  simpl. rewrite !elem_of_cons. intros [?|[?|[?|[[= ->]|[?|Hin]]]]]; [done..|]. by apply not_elem_of_nil in Hin.
Qed.

Lemma accepted_guarantees_witness :
  submitted 7 (val bob) true (spam (final chain_result chain_state)).
Proof.
  destruct (accepted_guarantees true all_set chain_handler (mkAnteCtx ante_ctx true false ∅) chain_tx
    (NewDecWithPrec 5 3) (mkCoin MicroLunaDenom 1001) chain_ctx' chain_state (final chain_result chain_state))
    as (_ & _ & _ & Hs & _).
  - done.
  - apply chain_tx_ok.
  - done.
  - done.
  - vm_compute. split; [discriminate|done].
  - split; vm_compute; discriminate.
  - done.
  - intros cs ->%chain_proposal. apply coins_ok_check. by vm_compute.
  - apply chain_returns.
  - destruct (Hs eq_refl) as [_ Hs']. by apply (Hs' true (val bob) ltac:(left)).
Defined.
End TxChain.
