(* ===== verification/AppBlock.v ===== *)
(** * The end of a block

    The application's end blocker ([app/app.go]) runs the modules in the order of
    [orderEndBlockers] ([app/modules.go]).  The oracle, the treasury, the market
    and the dynamic commissions work on one state here: they share the bank, the
    staking module and the distribution, and the treasury reads the rates that
    the oracle has just written. *)

From S2P Require Import Prelude Sdk SdkRef SdkFees Core OracleBallot OracleTypes OracleKeeper OracleTally OracleVotes OracleTallyFacts OracleRef OracleDeterminism OracleEndBlock OracleHandlers OracleGenesis OracleMachine Market MarketFacts MarketOracle TreasuryTypes Treasury TreasuryFacts TreasuryEpoch TreasuryGenesis TreasuryOracle TaxExemption Tax Ante Dyncomm.

Module AppBlock.
Import TreasuryOracle MarketOracle.

(** ** The application's state *)

Record App (B SS DS : Type) := mkApp {
  oracle : OracleKeeper.Store;
  market : Market.Keeper;
  treasury : Treasury.Store;
  rates : gmap string Dyncomm.ValidatorCommissionRate;
  rate_params : Dyncomm.Params;
  bank : B;
  staking : SS;
  distr : DS;
  oracle_events : list OracleKeeper.Event;
  treasury_events : list Treasury.Event }.
Arguments mkApp {B SS DS} _ _ _ _ _ _ _ _ _ _.
Arguments oracle {B SS DS} _.
Arguments market {B SS DS} _.
Arguments treasury {B SS DS} _.
Arguments rates {B SS DS} _.
Arguments rate_params {B SS DS} _.
Arguments bank {B SS DS} _.
Arguments staking {B SS DS} _.
Arguments distr {B SS DS} _.
Arguments oracle_events {B SS DS} _.
Arguments treasury_events {B SS DS} _.

(** The modules by the package that names them. *)
Inductive AppModule :=
  | crisistypes | govtypes | stakingtypes | capabilitytypes | authtypes | banktypes | distrtypes
  | slashingtypes | minttypes | genutiltypes | evidencetypes | authz | feegrant | paramstypes
  | upgradetypes | ibcexported | ibctransfertypes | icatypes | ibcfeetypes | ibchookstypes
  | oracletypes | treasurytypes | taxexemptiontypes | markettypes | wasmtypes | dyncommtypes
  | taxtypes | alliancetypes | consensusparamtypes.

#[export] Instance AppModule_eq_dec : EqDecision AppModule.
Proof. solve_decision. Defined.

Definition orderEndBlockers : list AppModule := [
  crisistypes; govtypes; stakingtypes; capabilitytypes; authtypes; banktypes; distrtypes;
  slashingtypes; minttypes; genutiltypes; evidencetypes; authz; feegrant; paramstypes;
  upgradetypes; ibcexported; ibctransfertypes; icatypes; ibcfeetypes; ibchookstypes;
  oracletypes; treasurytypes; taxexemptiontypes; markettypes; wasmtypes; dyncommtypes;
  taxtypes; alliancetypes; consensusparamtypes ].

Definition orderBeginBlockers : list AppModule := [
  upgradetypes; capabilitytypes; minttypes; distrtypes; slashingtypes; evidencetypes;
  stakingtypes; authtypes; banktypes; govtypes; crisistypes; genutiltypes; authz; feegrant;
  paramstypes; ibcexported; ibctransfertypes; icatypes; ibcfeetypes; ibchookstypes;
  oracletypes; treasurytypes; taxexemptiontypes; markettypes; wasmtypes; dyncommtypes;
  taxtypes; alliancetypes; consensusparamtypes ].

(** The module manager and the modules of other projects. *)
Class ModuleManager (B SS DS : Type) := {
  mm_EndBlock : list AppModule -> (AppModule -> M (App B SS DS) unit) -> M (App B SS DS) unit;
  mm_BeginBlock : list AppModule -> (AppModule -> M (App B SS DS) unit) -> M (App B SS DS) unit;
  sdk_EndBlock : AppModule -> Ctx -> M (App B SS DS) unit;
  sdk_BeginBlock : AppModule -> Ctx -> M (App B SS DS) unit;
}.

(** Two states that differ in the order of the oracle's events only. *)
Definition app_eq {B SS DS} (s1 s2 : App B SS DS) : Prop :=
  oracle s1 = oracle s2 /\ market s1 = market s2 /\ treasury s1 = treasury s2 /\
  rates s1 = rates s2 /\ rate_params s1 = rate_params s2 /\ bank s1 = bank s2 /\
  staking s1 = staking s2 /\ distr s1 = distr s2 /\
  oracle_events s1 ≡ₚ oracle_events s2 /\ treasury_events s1 = treasury_events s2.

(** The stores of this repository's modules are the same. *)
Definition same_stores {B SS DS} (s s' : App B SS DS) : Prop :=
  oracle s' = oracle s /\ market s' = market s /\ treasury s' = treasury s /\
  rates s' = rates s /\ rate_params s' = rate_params s.

Section Application.
Context {B SS DS : Type}.
Context `{HM : SdkMath, HC : SdkCoins, HA : Bech32, HT : OracleTypes.TmHash, HP : OracleTypes.CoinParser,
  HB : BankKeeper B, HS : StakingKeeper SS, HY : Dyncomm.DynStaking SS, HD : DistrKeeper DS, HL : SlashKeeper B SS DS,
  HG : GoStrings, HMM : ModuleManager B SS DS}.
Abbreviation AppS := (App B SS DS).
Abbreviation AM := (M (App B SS DS)).

(** Each module's view of the state. *)
Definition oracle_view (s : AppS) : OracleKeeper.State B SS DS :=
  OracleKeeper.mkState (oracle s) (bank s) (staking s) (distr s) (oracle_events s).
Definition set_oracle (o : OracleKeeper.State B SS DS) (s : AppS) : AppS :=
  mkApp (OracleKeeper.store o) (market s) (treasury s) (rates s) (rate_params s)
    (OracleKeeper.bank o) (OracleKeeper.staking o) (OracleKeeper.distr o)
    (OracleKeeper.events o) (treasury_events s).
Definition treasury_view (s : AppS) : Treasury.State OracleKeeper.Store B SS DS :=
  Treasury.mkState (treasury s) (oracle s) (bank s) (staking s) (distr s) (treasury_events s).
Definition set_treasury (t : Treasury.State OracleKeeper.Store B SS DS) (s : AppS) : AppS :=
  mkApp (oracle s) (market s) (Treasury.store t) (rates s) (rate_params s)
    (Treasury.bank t) (Treasury.staking t) (Treasury.distr t) (oracle_events s) (Treasury.events t).
Definition set_market (k : Market.Keeper) (s : AppS) : AppS :=
  mkApp (oracle s) k (treasury s) (rates s) (rate_params s) (bank s) (staking s) (distr s)
    (oracle_events s) (treasury_events s).
Definition dyncomm_view (s : AppS) : Dyncomm.State SS :=
  Dyncomm.mkState (rates s) (rate_params s) (staking s).
Definition set_dyncomm (d : Dyncomm.State SS) (s : AppS) : AppS :=
  mkApp (oracle s) (market s) (treasury s) (Dyncomm.rates d) (Dyncomm.params d) (bank s)
    (Dyncomm.staking d) (distr s) (oracle_events s) (treasury_events s).

(** [EndBlock] of each module: the tax modules have nothing to do. *)
Definition EndBlock {rt : GoRuntime} (distrName : string) (ctx : Ctx) (m : AppModule) : AM unit :=
  match m with
  | oracletypes => zoom oracle_view set_oracle (OracleTally.EndBlocker distrName ctx)
  | treasurytypes => zoom treasury_view set_treasury (Treasury.EndBlocker ctx)
  | markettypes => fun s =>
      match Market.EndBlocker (market s) with
      | Ok k => Ret tt (set_market k s)
      | Err e => Fail e s
      | Panic => Halt
      end
  | dyncommtypes => zoom dyncomm_view set_dyncomm (Dyncomm.EndBlocker ctx)
  | taxexemptiontypes | taxtypes => ret tt
  | _ => sdk_EndBlock m ctx
  end.

(** [TerraApp.EndBlocker] *)
Definition EndBlocker {rt : GoRuntime} (distrName : string) (ctx : Ctx) : AM unit :=
  mm_EndBlock orderEndBlockers (EndBlock distrName ctx).

(** ** The beginning of a block ([app.go], [forks.go]) *)

(** None of this repository's modules begins a block with work. *)
Definition BeginBlock (ctx : Ctx) (m : AppModule) : AM unit :=
  match m with
  | oracletypes | treasurytypes | markettypes | dyncommtypes | taxexemptiontypes | taxtypes => ret tt
  | _ => sdk_BeginBlock m ctx
  end.

Record Fork := mkFork { UpgradeName : string; UpgradeHeight : Z; BeginForkLogic : Ctx -> AM unit }.

(** The first fork of this height runs; the others do not. *)
Fixpoint BeginBlockForks (forks : list Fork) (ctx : Ctx) : AM unit :=
  match forks with
  | [] => ret tt
  | fork :: forks' =>
      if BlockHeight ctx =? UpgradeHeight fork then BeginForkLogic fork ctx
      else BeginBlockForks forks' ctx
  end.

(** [TerraApp.BeginBlocker]; the list of forks is empty. *)
Definition Forks : list Fork := [].
Definition BeginBlocker (ctx : Ctx) : AM unit :=
  do* BeginBlockForks Forks ctx in
  mm_BeginBlock orderBeginBlockers (BeginBlock ctx).
End Application.

(** ** What the foreign modules promise *)

Definition good {B SS DS} `{Bech32, StakingKeeper SS} (s : App B SS DS) : Prop :=
  OracleMachine.inv (oracle_view s) /\ OracleTallyFacts.active_ok (oracle_view s).

(** The manager runs the modules one after the other in the given order.  The
    foreign modules do not read the oracle's events, keep the votes well-formed,
    the parameters valid and the powers in range, and all but governance, which
    executes proposals, leave this repository's stores alone. *)
Class ModuleManagerLaws (B SS DS : Type) `{Bech32, StakingKeeper SS, ModuleManager B SS DS} : Prop := {
  mm_EndBlock_order order f s : mm_EndBlock order f s = mfor order f s;
  mm_BeginBlock_order order f s : mm_BeginBlock order f s = mfor order f s;
  sdk_end_proper m ctx s1 s2 : app_eq s1 s2 ->
    orel eq app_eq (sdk_EndBlock m ctx s1) (sdk_EndBlock m ctx s2);
  sdk_end_good m ctx s s' : sdk_EndBlock m ctx s = Ret tt s' -> good s -> good s';
  sdk_end_stores m ctx s s' : m <> govtypes -> sdk_EndBlock m ctx s = Ret tt s' -> same_stores s s';
}.

Lemma mfor_app {S A} (l1 l2 : list A) (f : A -> M S unit) s :
  mfor (l1 ++ l2) f s = (do* mfor l1 f in mfor l2 f) s.
Proof.
  revert s. induction l1 as [|x l1 IH]; intros s; [done|]. simpl. unfold bind.
  destruct (f x s); [|done..]. apply IH.
Qed.

Lemma mfor_ext {S A} (l : list A) (f g : A -> M S unit) s :
  (forall x, x ∈ l -> forall s, f x s = g x s) -> mfor l f s = mfor l g s.
Proof.
  revert s. induction l as [|x l IH]; intros s Hfg; [done|]. simpl. unfold bind.
  rewrite Hfg by left. destruct (g x s); [|done..]. apply IH. intros y Hy. apply Hfg. by right.
Qed.

Lemma mfor_orel {S A} (R : relation S) (l : list A) (f : A -> M S unit) :
  (forall x s1 s2, x ∈ l -> R s1 s2 -> orel eq R (f x s1) (f x s2)) ->
  forall s1 s2, R s1 s2 -> orel eq R (mfor l f s1) (mfor l f s2).
Proof.
  induction l as [|x l IH]; intros Hf s1 s2 Hs; [done|]. simpl. eapply bind_orel; [apply Hf; [left|done]|].
  intros [] [] t1 t2 _ Ht. apply IH; [|done]. intros y u1 u2 Hy. apply Hf. by right.
Qed.

Lemma mfor_keeps {S A} (P : S -> Prop) (l : list A) (f : A -> M S unit) :
  (forall x s s', x ∈ l -> f x s = Ret tt s' -> P s -> P s') ->
  forall s s', mfor l f s = Ret tt s' -> P s -> P s'.
Proof.
  induction l as [|x l IH]; intros Hf s s' R Hs; [by injection R as <-|].
  apply bind_Ret in R as ([] & s1 & R1 & R). apply (IH) with s1; [|done|].
  - intros y t t' Hy. apply Hf. by right.
  - by apply (Hf x s); [left| |].
Qed.

Lemma zoom_orel {S T A} (R : relation S) (get : S -> T) set (c : M T A) s1 s2 :
  get s1 = get s2 -> (forall t, R (set t s1) (set t s2)) -> orel eq R (zoom get set c s1) (zoom get set c s2).
Proof. intros E Hset. unfold zoom. rewrite E. destruct (c (get s2)); simpl; auto. Qed.

Definition before_oracle : list AppModule := take 20 orderEndBlockers.
Definition after_oracle : list AppModule := drop 21 orderEndBlockers.

Lemma after_other m : m ∈ after_oracle -> m <> oracletypes.
Proof. intros Hm ->. apply (bool_decide_eq_true_2 _) in Hm. by vm_compute in Hm. Qed.

Section Facts.
Context {B SS DS : Type}.
Context `{HM : SdkMath, HC : SdkCoins, HA : Bech32, HT : OracleTypes.TmHash, HP : OracleTypes.CoinParser,
  HB : BankKeeper B, HS : StakingKeeper SS, HY : Dyncomm.DynStaking SS, HD : DistrKeeper DS, HL : SlashKeeper B SS DS,
  HG : GoStrings, HMM : ModuleManager B SS DS}.
Context `{!SdkMathLaws, !SdkCoinsLaws, !Bech32Laws, !BankLaws B, !StakingLaws SS, !DistrLaws DS,
  !ModuleManagerLaws B SS DS}.
Abbreviation AppS := (App B SS DS).

(** The end blocker in three parts. *)
Lemma EndBlocker_parts {rt : GoRuntime} distrName ctx (s : AppS) :
  EndBlocker distrName ctx s =
  (do* mfor before_oracle (fun m => sdk_EndBlock m ctx) in
   do* EndBlock distrName ctx oracletypes in
   mfor after_oracle (EndBlock distrName ctx)) s.
Proof using Type*.
  unfold EndBlocker. rewrite mm_EndBlock_order.
  change orderEndBlockers with (before_oracle ++ oracletypes :: after_oracle).
  rewrite mfor_app. unfold bind at 1 2.
  rewrite (mfor_ext before_oracle _ (fun m => sdk_EndBlock m ctx)); [done|].
  intros m Hm t. apply (bool_decide_eq_true_2 _) in Hm. destruct m; try done; by vm_compute in Hm.
Qed.

(** Without the oracle, no module depends on the runtime's choices. *)
Lemma EndBlock_rt (rt rt' : GoRuntime) distrName ctx m (s : AppS) : m <> oracletypes ->
  EndBlock (rt := rt) distrName ctx m s = EndBlock (rt := rt') distrName ctx m s.
Proof using Type. by destruct m. Qed.

Lemma EndBlock_proper {rt : GoRuntime} distrName ctx m (s1 s2 : AppS) : m <> oracletypes ->
  app_eq s1 s2 -> orel eq app_eq (EndBlock distrName ctx m s1) (EndBlock distrName ctx m s2).
Proof using Type*.
  intros Hm Hs. pose proof Hs as (Eo & Em & Et & Er & Ep & Eb & Es & Ed & Ev & Ew).
  destruct m; try done; try (by apply sdk_end_proper); simpl.
  - apply zoom_orel; [unfold treasury_view; congruence|]. intros t. by split_and!.
  - rewrite Em. destruct (Market.EndBlocker (market s2)); [|done..]. split; [done|]. by split_and!.
  - apply zoom_orel; [unfold dyncomm_view; congruence|]. intros t. by split_and!.
Qed.

(** C1. Consensus safety of the application's end blocker: two nodes whose Go
    runtimes iterate maps and sort in different ways end a block with the same
    outcome.  From a state with well-formed votes and powers in range, running
    all modules in the application's order either halts on both nodes, fails with
    the same error on both, or leaves both with the same rates, taxes, pools,
    commissions, balances, stakes and rewards, up to the order of emitted events. *)
Theorem app_end_block_deterministic (rt rt' : GoRuntime) `{!GoRuntimeLaws rt, !GoRuntimeLaws rt'}
    distrName ctx (s : AppS) : good s ->
  orel eq app_eq (EndBlocker (rt := rt) distrName ctx s) (EndBlocker (rt := rt') distrName ctx s).
Proof using Type*.
  intros Hg. rewrite !EndBlocker_parts. unfold bind at 1 3.
  destruct (mfor before_oracle _ s) as [[] s1|e s1|] eqn:R; [|by repeat split|done].
  assert (good s1) as [Hi Ha].
  { eapply (mfor_keeps good); [|exact R|done]. intros m t t' _. apply sdk_end_good. }
  eapply bind_orel.
  - pose proof (OracleDeterminism.EndBlocker_rel rt rt' distrName ctx (oracle_view s1)
      (OracleMachine.inv_votes _ Hi) Ha) as Hrel.
    simpl. unfold zoom. destruct (OracleTally.EndBlocker (rt := rt) _ _ _) as [[] o1|e1 o1|],
      (OracleTally.EndBlocker (rt := rt') _ _ _) as [[] o2|e2 o2|]; try done; simpl in *;
      destruct Hrel as [Hv (Eo & Eb & Es & Ed & Ev)]; (split; [done|]); unfold app_eq; simpl; by split_and!.
  - intros [] [] t1 t2 _ Ht.
    rewrite (mfor_ext _ (EndBlock (rt := rt') distrName ctx) (EndBlock (rt := rt) distrName ctx) t2).
    + apply mfor_orel; [|done]. intros m u1 u2 Hm. apply EndBlock_proper. by apply after_other.
    + intros m Hm t. apply EndBlock_rt. by apply after_other.
Qed.

(** The modules after the oracle, one by one. *)
Lemma after_oracle_run {rt : GoRuntime} distrName ctx (s s' : AppS) :
  mfor after_oracle (EndBlock distrName ctx) s = Ret tt s' ->
  exists t, Treasury.EndBlocker ctx (treasury_view s) = Ret tt t /\ treasury s' = Treasury.store t /\
  Market.EndBlocker (market s) = Ok (market s') /\ oracle s' = oracle s /\
  exists u d, Dyncomm.EndBlocker ctx u = Ret tt d /\ Dyncomm.rates u = rates s /\
    Dyncomm.params u = rate_params s /\ rates s' = Dyncomm.rates d.
Proof using Type*.
  change after_oracle with [treasurytypes; taxexemptiontypes; markettypes; wasmtypes; dyncommtypes;
    taxtypes; alliancetypes; consensusparamtypes]. cbn [mfor EndBlock]. intros R.
  apply bind_Ret in R as ([] & s1 & (t & Rt & ->)%zoom_Ret & R).
  apply bind_Ret in R as ([] & s2 & [= <-] & R). apply bind_Ret in R as ([] & s3 & Rm & R).
  destruct (Market.EndBlocker _) as [k| |] eqn:Ek; [|done..]. injection Rm as <-.
  apply bind_Ret in R as ([] & s4 & Rw & R). apply bind_Ret in R as ([] & s5 & (d & Rd & ->)%zoom_Ret & R).
  apply bind_Ret in R as ([] & s6 & [= <-] & R). apply bind_Ret in R as ([] & s7 & Ra & R).
  apply bind_Ret in R as ([] & s8 & Rc & [= <-]).
  apply sdk_end_stores in Rw as (Wo & Wm & Wt & Wr & Wp); [|done].
  apply sdk_end_stores in Ra as (Ao & Am & At & Ar & Ap); [|done].
  apply sdk_end_stores in Rc as (Co & Cm & Ct & Cr & Cp); [|done]. simpl in *.
  exists t. split_and!; [done|congruence|congruence|congruence|].
  exists (dyncomm_view s4), d. simpl. split_and!; [done|congruence..].
Qed.

(** C8. How the modules compose at the end of a block.  The oracle goes first: its
    new rates are the final ones of the block.  The treasury then works with
    them: in the last block of a week after the probation period, tax rate and
    reward weight obey their policies, and the tax cap of a whitelisted denom other
    than the policy's own becomes the policy's cap at the rate this same block has
    decided, rounded down; without such a rate, and for all other denoms, the cap
    stays.  The market moves its pools one step back, and outside of the last block
    of a week treasury and commissions keep their stores. *)
Theorem block_end_composes {rt : GoRuntime} distrName ctx (s s' : AppS) :
  EndBlocker distrName ctx s = Ret tt s' ->
  exists s1, mfor before_oracle (fun m => sdk_EndBlock m ctx) s = Ret tt s1 /\
  (exists o, OracleTally.EndBlocker distrName ctx (oracle_view s1) = Ret tt o /\
     oracle s' = OracleKeeper.store o) /\
  Market.EndBlocker (market s1) = Ok (market s') /\
  let p := Treasury.KParams (treasury s1) in
  let tp := TreasuryTypes.TaxPolicy p in
  let cap := mkDecCoin (Denom (TreasuryTypes.Cap tp)) (NewDec (Amount (TreasuryTypes.Cap tp))) in
  (IsPeriodLastBlock ctx BlocksPerWeek = Ok false ->
     treasury s' = treasury s1 /\ rates s' = rates s1) /\
  (IsPeriodLastBlock ctx BlocksPerWeek = Ok true -> TreasuryEpoch.probation ctx p = false ->
     TreasuryFacts.policy_ok tp -> TreasuryFacts.policy_ok (TreasuryTypes.RewardPolicy p) ->
     NoDup (Treasury.Whitelist (oracle s')) ->
     TreasuryEpoch.obeys tp (Treasury.GetTaxRate (treasury s1)) (Treasury.GetTaxRate (treasury s')) /\
     TreasuryEpoch.obeys (TreasuryTypes.RewardPolicy p)
       (Treasury.GetRewardWeight (treasury s1)) (Treasury.GetRewardWeight (treasury s')) /\
     forall d, Treasury.TaxCaps (treasury s') !! d =
       if decide (d ∈ Treasury.Whitelist (oracle s'))
       then TreasuryEpoch.new_cap (oracle s') cap d (Treasury.TaxCaps (treasury s1) !! d)
       else Treasury.TaxCaps (treasury s1) !! d).
Proof using Type*.
  rewrite EndBlocker_parts. intros ([] & s1 & R1 & R)%bind_Ret. exists s1. split; [done|].
  apply bind_Ret in R as ([] & s2 & (o & Ro & ->)%zoom_Ret & R).
  apply after_oracle_run in R as (t & Rt & Et & Em & Eo & u & d & Rd & Eu & Ep & Er).
  simpl in *. split_and!; [by exists o|done|..].
  - intros Hw. split.
    + rewrite Et. rewrite TreasuryEpoch.EndBlocker_mid in Rt by done.
      apply TreasuryEpoch.BurnCoinsFromBurnAccount_burned in Rt as [_ _ (Est & _)]. by rewrite Est.
    + rewrite Er. unfold Dyncomm.EndBlocker, bind, lift in Rd. rewrite Hw in Rd. injection Rd as <-. done.
  - intros Hw Hp Ht Hr Hnd. rewrite Eo in *.
    apply TreasuryEpoch.end_block_policies in Rt as [_ Hpol]; [|done..].
    simpl in Hpol. rewrite Hp in Hpol. rewrite Et. exact Hpol.
Qed.
End Facts.

(** ** A concrete block *)

Import OracleRef Ref.

Section Demo.
#[local] Instance demo_dyn_staking : Dyncomm.DynStaking RefStaking := {|
  Dyncomm.MinCommissionRate _ := NewDecWithPrec 5 2;
  Dyncomm.GetLastTotalPower _ := 100;
  Dyncomm.DPowerReduction _ := 1000000;
  Dyncomm.Validators _ := [];
  Dyncomm.SetValidator _ s := s;
  Dyncomm.TokensToPower t r := if r =? 0 then Panic else Int_Int64 (Z.quot t r) |}.
#[local] Instance demo_manager : ModuleManager RefBank RefStaking RefDistr := {|
  mm_EndBlock order f := mfor order f;
  mm_BeginBlock order f := mfor order f;
  sdk_EndBlock _ _ := ret tt;
  sdk_BeginBlock _ _ := ret tt |}.
#[local] Instance demo_manager_laws : ModuleManagerLaws RefBank RefStaking RefDistr.
Proof.
  split; [done|done|by intros m ctx s1 s2 Hs| |].
  - by intros m ctx s s' [= <-].
  - intros m ctx s s' _ [= <-]. by split_and!.
Qed.

Definition demo_app : App RefBank RefStaking RefDistr :=
  mkApp (OracleKeeper.store demo_state) (Market.mkKeeper (Some (NewDec 3600)) Market.DefaultParams)
    treasury_store ∅ Dyncomm.DefaultParams (OracleKeeper.bank demo_state)
    (OracleKeeper.staking demo_state) (OracleKeeper.distr demo_state) (OracleKeeper.events demo_state) [].

Lemma demo_good : good demo_app.
Proof.
  destruct OracleMachine.demo_inv as [Hv Hw Hn Ht]. split; [by split|]. apply OracleDeterminism.demo_active_ok.
Qed.

Lemma app_end_block_deterministic_witness :
  orel eq app_eq (EndBlocker (rt := runtime1) distrName last_ctx demo_app)
    (EndBlocker (rt := runtime2) distrName last_ctx demo_app).
Proof. apply (app_end_block_deterministic runtime1 runtime2 distrName last_ctx demo_app demo_good). Defined.

Definition demo_end (ctx : Ctx) : App RefBank RefStaking RefDistr :=
  final (EndBlocker (rt := runtime1) distrName ctx demo_app) demo_app.

(** Inside of a week the pool delta regresses by one part in the recovery period
    and the treasury's store stays; at the end of the week the rates obey their
    policies, and the cap in won is one SDR at the rates of the same block. *)
Lemma block_end_composes_witness :
  (treasury (demo_end demo_ctx) = treasury demo_app /\
   Market.EndBlocker (market demo_app) = Ok (market (demo_end demo_ctx))) /\
  TreasuryEpoch.obeys TreasuryTypes.DefaultTaxPolicy TreasuryTypes.DefaultTaxRate
    (Treasury.GetTaxRate (treasury (demo_end last_ctx))) /\
  Treasury.TaxCaps (treasury (demo_end last_ctx)) !! MicroKRWDenom = Some 1499999999.
Proof.
  split.
  - destruct (block_end_composes (rt := runtime1) distrName demo_ctx demo_app (demo_end demo_ctx))
      as (s1 & R1 & _ & Hm & Hmid & _); [apply returned_final; by vm_compute|].
    injection R1 as <-. split; [|exact Hm]. apply Hmid. by vm_compute.
  - destruct (block_end_composes (rt := runtime1) distrName last_ctx demo_app (demo_end last_ctx))
      as (s1 & R1 & _ & _ & _ & Hend); [apply returned_final; by vm_compute|].
    injection R1 as <-. destruct demo_policy_ok as [Ht Hr].
    destruct Hend as (Hrate & _ & Hcap); [by vm_compute|by vm_compute|exact Ht|exact Hr|
      apply (bool_decide_unpack _); by vm_compute|].
    split; [exact Hrate|]. rewrite Hcap. by vm_compute.
Defined.
End Demo.
End AppBlock.
