(* ===== verification/Upgrades.v ===== *)
(** * Upgrades and forks

    The upgrade handlers ([app/upgrades]) and the height forks
    ([app/upgrades/forks]): what they change in the stores of this repository,
    with the migrations of the module manager, the parameter subspaces and the IBC
    keepers as parameters.  The move of the burn-tax exemption list into a zone
    keeps every exemption, the switch to the tax module turns the treasury's own
    tax off for good, and the swap fork really stops swaps of Luna. *)

From S2P Require Import Prelude Sdk SdkRef SdkFees Core OracleTypes OracleKeeper OracleRef Market MarketFacts MarketSwap MarketOracle TreasuryTypes Treasury TreasuryFacts TreasuryEpoch TreasuryGenesis TreasuryOracle TaxExemption TaxExemptionFacts Tax TaxFacts TaxRef.

Module Upgrades.

(** ** State *)

(** [X] is the state of the other projects' modules. *)
Record UState (X : Type) := mkUState {
  treasury : Treasury.Store;
  tax_params : Tax.Params;
  zones : TaxExemption.Store;
  market : Market.Keeper;
  others : X }.
Arguments mkUState {X} _ _ _ _ _.
Arguments treasury {X} _.
Arguments tax_params {X} _.
Arguments zones {X} _.
Arguments market {X} _.
Arguments others {X} _.

Abbreviation VersionMap := (gmap string Z).

(** The key tables of the modules whose parameters v8 moves. *)
Inductive KeyTable :=
  | EmptyTable
  | AuthTable | BankTable | StakingTable | MintTable | DistrTable | SlashingTable | GovTable
  | WasmTable | CrisisTable | ConsensusTable.

Inductive ChannelState := CLOSED | OPEN | OtherState (n : Z).
Record Channel := mkChannel { CState : ChannelState; CRest : string }.

(** The module names of the SDK that v8 compares with. *)
Class SdkNames := {
  authName : string; bankName : string; stakingName : string; mintName : string;
  distributionName : string; slashingName : string; govName : string; wasmName : string;
  crisisName : string; baseappParamspace : string; localhostClient : string;
  transferPort : string }.

Class UpgradeKeepers (X : Type) := {
  (** the modules' migrations, [InitGenesis] of new modules included *)
  RunMigrations : VersionMap -> M (UState X) VersionMap;
  (** parameter subspaces by name, and their key tables *)
  GetSubspaces : X -> list string;
  HasKeyTable : X -> string -> bool;
  WithKeyTable : string -> KeyTable -> M X unit;
  NewSubspace : string -> M X unit;
  (** [baseapp.MigrateParams] *)
  MigrateParams : string -> M X unit;
  AllowedClients : X -> list string;
  SetAllowedClients : list string -> X -> X;
  GetChannel : X -> string -> string -> option Channel;
  SetChannel : string -> string -> Channel -> X -> X;
  SetModuleVersionMap : VersionMap -> X -> X;
  GetVersionMap : VersionMap;
}.

Section Handlers.
Context {X : Type} `{HM : SdkMath, HC : SdkCoins, HF : SdkFees, HA : Bech32, HN : SdkNames,
  HU : UpgradeKeepers X}.
Abbreviation UM := (M (UState X)).

Definition on_treasury (f : Treasury.Store -> res Treasury.Store) : UM unit := fun s =>
  match f (treasury s) with
  | Ok t => Ret tt (mkUState t (tax_params s) (zones s) (market s) (others s))
  | Err e => Fail e s
  | Panic => Halt
  end.
Definition on_zones {A} (c : M TaxExemption.Store A) : UM A := zoom zones
  (fun z s => mkUState (treasury s) (tax_params s) z (market s) (others s)) c.
Definition on_others {A} (c : M X A) : UM A := zoom others
  (fun x s => mkUState (treasury s) (tax_params s) (zones s) (market s) x) c.

(** ** Handlers *)

(** These only run the modules' migrations. *)
Definition CreateV2UpgradeHandler (fromVM : VersionMap) : UM VersionMap := RunMigrations fromVM.
Definition CreateV3UpgradeHandler (fromVM : VersionMap) : UM VersionMap := RunMigrations fromVM.
Definition CreateV4UpgradeHandler (fromVM : VersionMap) : UM VersionMap := RunMigrations fromVM.
Definition CreateV5UpgradeHandler (fromVM : VersionMap) : UM VersionMap := RunMigrations fromVM.
Definition CreateV6UpgradeHandler (fromVM : VersionMap) : UM VersionMap := RunMigrations fromVM.
Definition CreateV6_1UpgradeHandler (fromVM : VersionMap) : UM VersionMap := RunMigrations fromVM.
Definition CreateV7UpgradeHandler (fromVM : VersionMap) : UM VersionMap := RunMigrations fromVM.
Definition CreateV7_1UpgradeHandler (fromVM : VersionMap) : UM VersionMap := RunMigrations fromVM.
Definition CreateV82UpgradeHandler (fromVM : VersionMap) : UM VersionMap := RunMigrations fromVM.
Definition CreateV83UpgradeHandler (fromVM : VersionMap) : UM VersionMap := RunMigrations fromVM.
Definition CreateV11UpgradeHandler (fromVM : VersionMap) : UM VersionMap := RunMigrations fromVM.
Definition CreateV111UpgradeHandler (fromVM : VersionMap) : UM VersionMap := RunMigrations fromVM.
Definition CreateV112UpgradeHandler (fromVM : VersionMap) : UM VersionMap := RunMigrations fromVM.

Definition v8_table (name : string) : KeyTable :=
  if String.eqb name authName then AuthTable
  else if String.eqb name bankName then BankTable
  else if String.eqb name stakingName then StakingTable
  else if String.eqb name mintName then MintTable
  else if String.eqb name distributionName then DistrTable
  else if String.eqb name slashingName then SlashingTable
  else if String.eqb name govName then GovTable
  else if String.eqb name wasmName then WasmTable
  else if String.eqb name crisisName then CrisisTable
  else EmptyTable.

Definition CreateV8UpgradeHandler (fromVM : VersionMap) : UM VersionMap :=
  let* s := gets id in
  do* mfor (GetSubspaces (others s)) (fun subspace =>
        let keyTable := v8_table subspace in
        let* s := gets id in
        if negb (HasKeyTable (others s) subspace) then on_others (WithKeyTable subspace keyTable)
        else ret tt) in
  do* on_others (NewSubspace baseappParamspace) in
  do* on_others (WithKeyTable baseappParamspace ConsensusTable) in
  do* on_others (MigrateParams baseappParamspace) in
  do* on_others (modify (fun x => SetAllowedClients (AllowedClients x ++ [localhostClient]) x)) in
  RunMigrations fromVM.

(** [DefaultOracleSplit] is one. *)
Definition CreateV81UpgradeHandler (fromVM : VersionMap) : UM VersionMap :=
  do* on_treasury (fun t => Ok (Treasury.SetOracleSplitRate OneDec t)) in
  RunMigrations fromVM.

(** The treasury's own tax ends, and the tax module gets its parameters. *)
Definition zero_tax_policy (p : TreasuryTypes.Params) : TreasuryTypes.Params :=
  let tp := TreasuryTypes.TaxPolicy p in
  TreasuryTypes.mkParams
    (TreasuryTypes.mkPolicy ZeroDec ZeroDec (TreasuryTypes.Cap tp) (TreasuryTypes.ChangeRateMax tp))
    (TreasuryTypes.RewardPolicy p) (TreasuryTypes.SeigniorageBurdenTarget p)
    (TreasuryTypes.MiningIncrement p) (TreasuryTypes.WindowShort p) (TreasuryTypes.WindowLong p)
    (TreasuryTypes.WindowProbation p) (TreasuryTypes.BurnTaxSplit p)
    (TreasuryTypes.MinInitialDepositRatio p) (TreasuryTypes.OracleSplit p).

Definition CreateV101UpgradeHandler (fromVM : VersionMap) : UM VersionMap :=
  do* on_treasury (fun t => Ok (Treasury.SetTaxRate ZeroDec t)) in
  do* on_treasury (fun t => Treasury.SetParams (zero_tax_policy (Treasury.KParams t)) t) in
  do* modify (fun s => mkUState (treasury s) Tax.DefaultParams (zones s) (market s) (others s)) in
  RunMigrations fromVM.

Definition intoZone : string := "Binance".

(** The keys of the exemption list in store order; they are only read. *)
Definition exemption_keys (t : Treasury.Store) : list string :=
  (kv_iter id (gset_to_gmap tt (Treasury.Exemptions t))).*1.

Definition CreateV12UpgradeHandler (fromVM : VersionMap) : UM VersionMap :=
  let* addresses := gets (fun s => exemption_keys (treasury s)) in
  let* versionMap := RunMigrations fromVM in
  do* on_zones (TaxExemption.AddTaxExemptionZone (TaxExemption.mkZone intoZone false false false)) in
  do* mfor addresses (fun address => on_zones (TaxExemption.AddTaxExemptionAddress intoZone address)) in
  ret versionMap.

(** ** Forks ([forks.go]) *)

Definition ColumbusChainID : string := "columbus-5".
Definition SwapDisableHeight : Z := 7607790.
Definition IbcEnableHeight : Z := 10542500.
Definition VersionMapEnableHeight : Z := 11543150.
Definition channelIDs : list string := ["channel-1"; "channel-49"; "channel-20"].

Definition set_channel (st : ChannelState) (channelID : string) : UM unit :=
  let* s := gets id in
  match GetChannel (others s) transferPort channelID with
  | None => panic
  | Some channel => on_others (modify (SetChannel transferPort channelID (mkChannel st (CRest channel))))
  end.

(** All of the minimal spread is charged. *)
Definition full_spread (p : Market.Params) : Market.Params :=
  Market.mkParams (Market.BasePool p) (Market.PoolRecoveryPeriod p) OneDec.

Definition runForkLogicSwapDisable (ctx : Ctx) : UM unit :=
  if String.eqb (ChainID ctx) ColumbusChainID then
    do* modify (fun s => mkUState (treasury s) (tax_params s) (zones s)
          (Market.SetParams (full_spread (Market.KParams (market s))) (market s)) (others s)) in
    mfor channelIDs (set_channel CLOSED)
  else ret tt.

Definition runForkLogicIbcEnable (ctx : Ctx) : UM unit :=
  if String.eqb (ChainID ctx) ColumbusChainID then mfor channelIDs (set_channel OPEN)
  else ret tt.

Definition runForkLogicVersionMapEnable (ctx : Ctx) : UM unit :=
  if String.eqb (ChainID ctx) ColumbusChainID
  then on_others (modify (SetModuleVersionMap GetVersionMap)) else ret tt.

(** The forks ([constants.go]); the application's list of forks is empty by now. *)
Record Fork := mkFork { ForkName : string; ForkHeight : Z; BeginForkLogic : Ctx -> UM unit }.
Definition DisableSwapFork : Fork := mkFork "v0.5.20" SwapDisableHeight runForkLogicSwapDisable.
Definition IbcEnableFork : Fork := mkFork "v0.5.23" IbcEnableHeight runForkLogicIbcEnable.
Definition VersionMapEnableFork : Fork := mkFork "v1.0.5" VersionMapEnableHeight runForkLogicVersionMapEnable.
End Handlers.

(** ** The exemption list moves into a zone *)

(** The rule that the list served, all addresses are on it: the reference for the
    zones.  ([x/treasury/keeper/keeper.go] keeps the check as a comment.) *)
Definition HasBurnTaxExemptionAddress (t : Treasury.Store) (addresses : list string) : bool :=
  forallb (fun a => bool_decide (a ∈ Treasury.Exemptions t)) addresses.

Section Exemptions.
Context {X : Type} `{HM : SdkMath, HC : SdkCoins, HA : Bech32, HN : SdkNames, HU : UpgradeKeepers X}.
Import TaxExemption TaxExemptionFacts.

Definition valid_address (a : string) : Prop := exists b, AccAddressFromBech32 a = Ok b.

Lemma elem_of_exemption_keys t a : a ∈ exemption_keys t <-> a ∈ Treasury.Exemptions t.
Proof using Type.
  unfold exemption_keys. rewrite list_elem_of_fmap. split.
  - intros ([k []] & -> & Hin). apply elem_of_kv_iter, lookup_gset_to_gmap_Some in Hin. tauto.
  - intros Ha. exists (a, tt). split; [done|]. apply elem_of_kv_iter. by apply lookup_gset_to_gmap_Some.
Qed.

(** Adding valid addresses to an existing zone succeeds as long as no address
    belongs to another one. *)
Lemma add_to_zone n l : Forall valid_address l -> forall s, is_Some (Zones s !! n) ->
  map_Forall (fun _ z => z = n) (Members s) ->
  exists s', mfor l (AddTaxExemptionAddress n) s = Ret tt s' /\ Zones s' = Zones s /\
    forall a, Members s' !! a = if decide (a ∈ l) then Some n else Members s !! a.
Proof using Type.
  induction 1 as [|a l [b Hb] _ IH]; intros s [z Hz] Hm.
  { exists s. split_and!; [done|done|]. intros a. rewrite decide_False; [done|apply not_elem_of_nil]. }
  assert (AddTaxExemptionAddress n a s = Ret tt (set_members (<[a := n]> (Members s)) s)) as E.
  { unfold AddTaxExemptionAddress, bind, lift, gets. rewrite Hb. cbn. rewrite Hz.
    destruct (Members s !! a) as [n'|] eqn:Ea; [|done]. pose proof (Hm a n' Ea) as ->.
    rewrite String.eqb_refl. destruct s as [zs ms]. unfold set_members. cbn in *. by rewrite insert_id. }
  destruct (IH (set_members (<[a := n]> (Members s)) s)) as (s' & R & Ez & Em).
  - by exists z.
  - by apply map_Forall_insert_2.
  - exists s'. split; [|split; [done|]].
    + cbn [mfor]. unfold bind. rewrite E. exact R.
    + intros a'. rewrite Em. cbn. destruct (decide (a' = a)) as [->|Hne].
      * rewrite lookup_insert_eq, (decide_True (P := a ∈ a :: l)) by left. by destruct (decide _).
      * rewrite lookup_insert_ne by done. destruct (decide (a' ∈ l)).
        -- by rewrite decide_True by (by right).
        -- by rewrite decide_False by (rewrite elem_of_cons; tauto).
Qed.

Lemma mfor_on_zones {A} (f : A -> M Store unit) l (s : UState X) :
  mfor l (fun x => on_zones (f x)) s = on_zones (mfor l f) s.
Proof using Type.
  revert s. induction l as [|x l IH]; intros s; [by destruct s|]. cbn [mfor].
  unfold bind, on_zones, zoom. cbn. destruct (f x (zones s)) as [[] z|e z|]; [|done|done].
  specialize (IH (mkUState (treasury s) (tax_params s) z (market s) (others s))).
  unfold on_zones, zoom in IH. cbn in IH. rewrite IH. by destruct (mfor l f z).
Qed.

(** C21. The v12 upgrade keeps every exemption.  When all listed addresses are
    valid and the new module starts without members, the handler succeeds, and
    from then on a transfer is exempt from the burn tax exactly when the old list
    exempted it, that is, when sender and all recipients are listed.  The old
    list itself is neither read afterwards nor removed. *)
Theorem v12_keeps_exemptions fromVM vm (s s1 : UState X) :
  (forall a, a ∈ Treasury.Exemptions (treasury s) -> valid_address a) ->
  RunMigrations fromVM s = Ret vm s1 -> Members (zones s1) = ∅ ->
  exists s', CreateV12UpgradeHandler fromVM s = Ret vm s' /\ treasury s' = treasury s1 /\
    forall sender recipients, recipients <> [] ->
      IsExemptedFromTax (zones s') sender recipients =
      HasBurnTaxExemptionAddress (treasury s) (sender :: recipients).
Proof using Type.
  intros Hv Rm He. set (binance := mkZone intoZone false false false).
  destruct (add_to_zone intoZone (exemption_keys (treasury s))
    ltac:(apply Forall_forall; intros a Ha%elem_of_exemption_keys; by apply Hv)
    (set_zones (<[intoZone := binance]> (Zones (zones s1))) (zones s1))) as (z & Rz & Ez & Em).
  { by exists binance; apply lookup_insert_eq. }
  { cbn. rewrite He. apply map_Forall_empty. }
  exists (mkUState (treasury s1) (tax_params s1) z (market s1) (others s1)). split; [|split; [done|]].
  - unfold CreateV12UpgradeHandler, bind, gets. rewrite Rm. cbn. rewrite mfor_on_zones.
    unfold on_zones, zoom. cbn [zones]. fold binance.
    match goal with |- context [mfor ?l ?f ?z0] => replace (mfor l f z0) with (Ret tt z) by (symmetry; exact Rz) end.
    done.
  - assert (forall a, zone_of z a = if bool_decide (a ∈ Treasury.Exemptions (treasury s))
                                    then Some binance else None) as Hz.
    { intros a. unfold zone_of. rewrite Em. cbn [Members set_zones]. rewrite He, lookup_empty.
      destruct (decide (a ∈ exemption_keys (treasury s))) as [Ha|Ha]; rewrite elem_of_exemption_keys in Ha.
      - rewrite bool_decide_eq_true_2 by done. cbn. rewrite Ez. apply lookup_insert_eq.
      - by rewrite bool_decide_eq_false_2. }
    intros sender rs Hne. cbn [zones]. rewrite IsExemptedFromTax_eq. cbn [HasBurnTaxExemptionAddress forallb].
    destruct (bool_decide (sender ∈ _)) eqn:Es.
    + rewrite andb_true_l. clear Hne. induction rs as [|r rs IH]; [done|]. cbn [forallb]. rewrite IH, !Hz, Es.
      f_equal. by destruct (bool_decide (r ∈ _)).
    + rewrite andb_false_l. destruct rs as [|r rs]; [done|]. cbn [forallb]. rewrite !Hz, Es.
      by destruct (bool_decide (r ∈ _)).
Qed.
End Exemptions.

(** ** The treasury's own tax ends *)

(** The migrations the treasury registers, from a recorded version of it to its
    current version, 3. *)
Definition migrate_treasury `{Bech32} (fromVersion : Z) (t : Treasury.Store) : res Treasury.Store :=
  let! t := if fromVersion =? 1 then Treasury.Migrate1to2 t else Ok t in
  Ok (if fromVersion <=? 2 then Treasury.Migrate2to3 t else t).

Definition taxModuleName : string := "tax".

(** What the module manager documents of [RunMigrations], for the two modules of
    the v10.1 upgrade: a module with a recorded version runs the migrations it
    registered from that version on, and a module without one is initialised with
    its default genesis. *)
Class MigrationLaws (X B DS : Type) `{SdkFees, Bech32, UpgradeKeepers X} : Prop := {
  RunMigrations_recorded fromVM vm (s s' : UState X) v : RunMigrations fromVM s = Ret vm s' ->
    fromVM !! TreasuryTypes.ModuleName = Some v -> 1 <= v <= 3 ->
    migrate_treasury v (treasury s) = Ok (treasury s');
  RunMigrations_new fromVM vm (s s' : UState X) : RunMigrations fromVM s = Ret vm s' ->
    fromVM !! taxModuleName = None ->
    exists x x' : Tax.State unit B DS,
      Tax.InitGenesis Tax.DefaultGenesisState x = Ret tt x' /\ Tax.params x' = Some (tax_params s');
}.

Section TaxOff.
Context {X E B SS DS : Type}.
Context `{HM : SdkMath, HC : SdkCoins, HF : SdkFees, HA : Bech32, HN : SdkNames, HU : UpgradeKeepers X,
  HE : Treasury.MarketView E, HB : BankKeeper B, HS : StakingKeeper SS, HD : DistrKeeper DS}.
Context `{!SdkMathLaws, !SdkCoinsLaws, !BankLaws B, !DistrLaws DS, !TreasuryEpoch.MarketViewLaws E,
  !MigrationLaws X B DS}.
Abbreviation TSt := (Treasury.State E B SS DS).

(** The treasury asks for no tax, and its policy allows none. *)
Definition tax_off (st : Treasury.Store) : Prop :=
  let tp := TreasuryTypes.TaxPolicy (Treasury.KParams st) in
  Treasury.GetTaxRate st = 0 /\ TreasuryTypes.RateMin tp = 0 /\ TreasuryTypes.RateMax tp = 0 /\
  0 <= TreasuryTypes.ChangeRateMax tp.

Lemma EndBlocker_tax_off ctx (t t' : TSt) : tax_off (Treasury.store t) ->
  Treasury.EndBlocker ctx t = Ret tt t' -> tax_off (Treasury.store t').
Proof using Type*.
  intros (Hr & Hmin & Hmax & Hch) R. destruct (IsPeriodLastBlock ctx BlocksPerWeek) as [[]| |] eqn:El.
  - apply TreasuryEpoch.EndBlocker_last in R as (t1 & R1 & R2); [|done].
    apply TreasuryEpoch.BurnCoinsFromBurnAccount_burned in R1 as [_ _ (Est & _)].
    apply TreasuryEpoch.end_epoch_Ret in R2 as (tr & sr & st & [_ Hp -> _]). rewrite Est in Hp.
    unfold TreasuryEpoch.policies in Hp. destruct (TreasuryEpoch.probation _ _); [by subst st|].
    destruct Hp as (rate & weight & caps & Hrate & _ & -> & _).
    apply TreasuryEpoch.next_tax_rate_clamped in Hrate as (n & ->); [|by split; cbn; rewrite ?Hmin, ?Hmax].
    unfold tax_off. cbn. split_and!; [|done..]. unfold TreasuryFacts.clamped. rewrite Hmin, Hmax. lia.
  - rewrite TreasuryEpoch.EndBlocker_mid in R by done.
    apply TreasuryEpoch.BurnCoinsFromBurnAccount_burned in R as [_ _ (Est & _)]. by rewrite Est.
  - unfold Treasury.EndBlocker in R. apply bind_Ret in R as ([] & ? & _ & R). by rewrite El in R.
  - unfold Treasury.EndBlocker in R. apply bind_Ret in R as ([] & ? & _ & R). by rewrite El in R.
Qed.

Definition end_step (t t' : TSt) : Prop := exists ctx, Treasury.EndBlocker ctx t = Ret tt t'.

(** The treasury's migrations write the exemption list and two parameters, none
    of them of its tax. *)
Lemma migrate_tax_off v st st' : migrate_treasury v st = Ok st' -> tax_off st -> tax_off st'.
Proof using Type.
  unfold migrate_treasury. intros R Ho.
  apply rbind_Ok in R as (t & R & [= <-]).
  assert (tax_off t).
  { destruct (v =? 1); [|by injection R as <-]. revert R. unfold Treasury.Migrate1to2.
    generalize Treasury.burnTaxExcemptionAddressList.
    assert (tax_off (Treasury.SetBurnSplitRate TreasuryTypes.DefaultBurnTaxSplit st)) as Hb by done.
    revert Hb. generalize (Treasury.SetBurnSplitRate TreasuryTypes.DefaultBurnTaxSplit st) as u. intros u Hu l. revert u Hu.
    induction l as [|a l IH]; intros u Hu Rl; [by injection Rl as <-|]. cbn in Rl.
    apply rbind_Ok in Rl as (u1 & R1 & Rl). apply (IH u1); [|done].
    unfold Treasury.AddBurnTaxExemptionAddress in R1. by destruct (AccAddressFromBech32 a); [injection R1 as <-|..]. }
  by destruct (v <=? 2).
Qed.

(** C22. The v10.1 upgrade ends the treasury's own tax for good. Suppose the
    upgrade runs, the maximal change of the tax policy is not negative, the
    treasury was recorded at one of its versions and the tax module is new, so
    that the module manager then initialises it with its default genesis and runs
    the migrations the treasury registered. Then the tax module has the default
    burn tax, the treasury's tax rate and both bounds of its policy are zero, and
    however many blocks the treasury ends afterwards, its tax rate stays zero, as
    long as nobody changes the parameters. *)
Theorem v101_ends_treasury_tax fromVM vm v (s s' : UState X) (t t' : TSt) :
  fromVM !! TreasuryTypes.ModuleName = Some v -> 1 <= v <= 3 -> fromVM !! taxModuleName = None ->
  0 <= TreasuryTypes.ChangeRateMax (TreasuryTypes.TaxPolicy (Treasury.KParams (treasury s))) ->
  CreateV101UpgradeHandler fromVM s = Ret vm s' ->
  Treasury.store t = treasury s' -> rtc end_step t t' ->
  tax_params s' = Tax.DefaultParams /\ tax_off (treasury s') /\ Treasury.GetTaxRate (Treasury.store t') = 0.
Proof using Type*.
  intros Hv Hv3 Hn Hch R Et Hs. unfold CreateV101UpgradeHandler in R.
  apply bind_Ret in R as ([] & s1 & [= <-] & R). apply bind_Ret in R as ([] & s2 & R2 & R).
  unfold on_treasury in R2. cbn [treasury] in R2. unfold Treasury.SetParams in R2.
  destruct (TreasuryTypes.validate_param_set _); [|done..]. injection R2 as <-.
  apply bind_Ret in R as ([] & s3 & [= <-] & R).
  pose proof (RunMigrations_recorded (B := B) (DS := DS) _ _ _ _ _ R Hv Hv3) as Rt.
  destruct (RunMigrations_new (B := B) (DS := DS) _ _ _ _ R Hn) as (x & x' & [= <-] & [= <-]).
  apply migrate_tax_off in Rt; [|by split_and!].
  split; [done|]. split; [done|].
  assert (tax_off (Treasury.store t)) as Ho by by rewrite Et.
  clear Et Rt.
  induction Hs as [t|t1 t2 t3 [ctx Re] _ IH]; [apply Ho|]. apply IH. by eapply EndBlocker_tax_off.
Qed.
End TaxOff.

(** ** Swaps of Luna stop *)

Section SwapsOff.
Context {X O B : Type}.
Context `{HM : SdkMath, HC : SdkCoins, HA : Bech32, HN : SdkNames, HU : UpgradeKeepers X,
  HO : Market.OracleReader O, HB : BankKeeper B}.
Context `{!SdkMathLaws, !SdkCoinsLaws, !BankLaws B}.

Lemma full_fee spread gross : OneDec <= spread -> 0 <= gross -> gross <= MarketSwap.fee_of spread gross.
Proof using Type*.
  intros Hs Hg. unfold MarketSwap.fee_of. rewrite (proj2 (Z.ltb_lt _ _)) by (unfold OneDec, P18 in *; lia).
  rewrite <- (dec_round_mul gross) at 1. apply dec_round_mono. unfold OneDec in *. nia.
Qed.

(** C33. The fork that disables swaps does so for Luna: once it has run on the main
    network, no swap that offers or asks for Luna succeeds, whoever trades and
    whoever receives, for every positive amount, whatever the oracle, the pools and
    the bank, as long as the market keeps the parameters the fork left.  (Swaps
    between two other denoms pay their tobin tax and are not affected.) *)
Theorem fork_stops_luna_swaps ctx (s s' : UState X) (m m' : Market.State O B) trader receiver offer ask resp :
  ChainID ctx = ColumbusChainID -> runForkLogicSwapDisable ctx s = Ret tt s' ->
  Market.KParams (Market.keeper m) = Market.KParams (market s') ->
  0 < Amount offer -> Denom offer = MicroLunaDenom \/ ask = MicroLunaDenom ->
  Market.handleSwapRequest trader receiver offer ask m <> Ret resp m'.
Proof using Type*.
  intros Hc R Ep Ha Hl Rs. unfold runForkLogicSwapDisable in R. rewrite Hc, String.eqb_refl in R.
  apply bind_Ret in R as ([] & s1 & [= <-] & R).
  assert (Market.MinStabilitySpread (Market.KParams (Market.keeper m)) = OneDec) as Hmin.
  { rewrite Ep. revert R. generalize channelIDs.
    match goal with |- forall l, mfor l _ ?u = _ -> _ =>
      assert (Market.MinStabilitySpread (Market.KParams (market u)) = OneDec) as Hu by done;
      revert Hu; generalize u end.
    intros u Hu l. revert u Hu. induction l as [|c l IH]; intros u Hu Rl; [by injection Rl as <-|].
    apply bind_Ret in Rl as ([] & u1 & Rc & Rl). apply (IH u1); [|done].
    unfold set_channel in Rc. apply bind_Ret in Rc as (? & ? & [= <- <-] & Rc).
    destruct (GetChannel _ _ _); [|done]. by injection Rc as <-. }
  apply MarketSwap.handleSwap_settles in Rs as (gross & spread & Hcs & [(_ & Ea & Hp) _ _ _ _ _ _]); [|done].
  apply MarketFacts.ComputeSwap_Ok in Hcs as (_ & _ & base & _ & _ & _ & _ & Hg & Hs); [|done].
  destruct Hs as [(? & ? & _)|(_ & sp & _ & ->)]; [tauto|]. rewrite Hmin in Ea.
  pose proof (full_fee (Z.max OneDec sp) (DAmount gross) ltac:(lia) ltac:(lia)) as Hf.
  assert ((DAmount gross - MarketSwap.fee_of (Z.max OneDec sp) (DAmount gross)) / P18 <= 0); [|lia].
  apply Z.div_le_upper_bound; [done|]. lia.
Qed.
End SwapsOff.

(** ** Concrete upgrades *)

Import Ref TaxRef OracleRef MarketOracle TreasuryOracle.

#[local] Instance demo_names : SdkNames := {|
  authName := "auth"; bankName := "bank"; stakingName := "staking"; mintName := "mint";
  distributionName := "distribution"; slashingName := "slashing"; govName := "gov"; wasmName := "wasm";
  crisisName := "crisis"; baseappParamspace := "baseapp"; localhostClient := "09-localhost";
  transferPort := "transfer" |}.

(** The other modules as the channels they keep.  Migrations are the treasury's;
    a tax module without a version is initialised. *)
Definition new_tax_params (u : UState (gmap string Channel)) : Tax.Params :=
  let x : Tax.State unit RefBank RefDistr :=
    Tax.mkState None (treasury u) (zones u) tax_bank (mkDistr ∅ []) tt [] in
  match Tax.InitGenesis Tax.DefaultGenesisState x with
  | Ret _ x' => default (Upgrades.tax_params u) (Tax.params x')
  | _ => Upgrades.tax_params u
  end.
Definition run_migrations (vm : VersionMap) : M (UState (gmap string Channel)) VersionMap := fun u =>
  match migrate_treasury (default 3 (vm !! TreasuryTypes.ModuleName)) (treasury u) with
  | Ok t => Ret (<[taxModuleName := 1]> (<[TreasuryTypes.ModuleName := 3]> vm))
      (mkUState t (if vm !! taxModuleName is Some _ then Upgrades.tax_params u else new_tax_params u)
        (zones u) (market u) (others u))
  | Err e => Fail e u
  | Panic => Halt
  end.
#[local] Instance demo_keepers : UpgradeKeepers (gmap string Channel) := {|
  RunMigrations := run_migrations;
  GetSubspaces _ := []; HasKeyTable _ _ := true; WithKeyTable _ _ := ret tt; NewSubspace _ := ret tt;
  MigrateParams _ := ret tt; AllowedClients _ := []; SetAllowedClients _ x := x;
  GetChannel x _ c := x !! c; SetChannel _ c ch x := <[c := ch]> x;
  SetModuleVersionMap _ x := x; GetVersionMap := ∅ |}.

#[local] Instance demo_migrations : MigrationLaws (gmap string Channel) RefBank RefDistr.
Proof.
  split; cbn; unfold run_migrations.
  - intros vm vm' s s' v R Hv Hr. rewrite Hv in R. cbn in R.
    by destruct (migrate_treasury v (treasury s)); [injection R as <- <-|..].
  - intros vm vm' s s' R Hn. rewrite Hn in R.
    destruct (migrate_treasury _ _); [injection R as <- <-|done..]. 
    eexists (Tax.mkState None (treasury s) (zones s) tax_bank (mkDistr ∅ []) tt []), _.
    split; [reflexivity|done].
Qed.

Definition listed : Treasury.Store := Treasury.set_exemptions {[ acc alice; acc bob ]} tax_treasury.
Definition demo_channels : gmap string Channel :=
  {[ "channel-1" := mkChannel OPEN ""; "channel-49" := mkChannel OPEN ""; "channel-20" := mkChannel OPEN "" ]}.
Definition demo_upgrade : UState (gmap string Channel) :=
  mkUState listed tax_params (TaxExemption.mkStore ∅ ∅) demo_keeper demo_channels.

Definition v11_versions : VersionMap :=
  <[taxModuleName := 1]> (<[TreasuryTypes.ModuleName := 3]> ∅).

Lemma v12_keeps_exemptions_witness : exists s',
  CreateV12UpgradeHandler v11_versions demo_upgrade = Ret v11_versions s' /\
  TaxExemption.IsExemptedFromTax (zones s') (acc alice) [acc bob] = true /\
  TaxExemption.IsExemptedFromTax (zones s') (acc alice) [acc bob; acc carol] = false.
Proof.
  destruct (v12_keeps_exemptions v11_versions v11_versions demo_upgrade demo_upgrade) as (s' & R & _ & Hx).
  - intros a Ha. unfold demo_upgrade in Ha. cbn [treasury listed Treasury.set_exemptions Treasury.Exemptions] in Ha.
    apply elem_of_union in Ha as [->%elem_of_singleton| ->%elem_of_singleton];
      [exists alice|exists bob]; by vm_compute.
  - done.
  - done.
  - exists s'. split; [exact R|]. rewrite !Hx by done. clear. split; vm_compute; reflexivity.
Defined.

(** The treasury has not been migrated for a while. *)
Definition v10_versions : VersionMap := <[TreasuryTypes.ModuleName := 2]> ∅.
Definition demo_v101 : UState (gmap string Channel) :=
  final (CreateV101UpgradeHandler v10_versions demo_upgrade) demo_upgrade.
Definition off_state : Treasury.State OracleKeeper.Store RefBank RefStaking RefDistr :=
  Treasury.mkState (treasury demo_v101) demo_oracle treasury_bank demo_staking (mkDistr ∅ []) [].
Definition off_after : Treasury.State OracleKeeper.Store RefBank RefStaking RefDistr :=
  final (Treasury.EndBlocker last_ctx off_state) off_state.

Lemma v101_ends_treasury_tax_witness :
  Upgrades.tax_params demo_v101 = Tax.DefaultParams /\ Treasury.GetTaxRate (Treasury.store off_after) = 0.
Proof.
  destruct (v101_ends_treasury_tax v10_versions v11_versions 2 demo_upgrade demo_v101 off_state off_after)
    as (Hp & _ & Hr); [done|lia|done|..].
  - vm_compute. discriminate.
  - by vm_compute.
  - done.
  - apply rtc_once. exists last_ctx. apply returned_final. by vm_compute.
  - by split.
Defined.

Definition after_fork : UState (gmap string Channel) :=
  final (runForkLogicSwapDisable (mkCtx SwapDisableHeight 0 ColumbusChainID) demo_upgrade) demo_upgrade.

Definition late_swap :=
  Market.handleSwapRequest alice alice (mkCoin MicroLunaDenom 1000) MicroSDRDenom
    (Market.mkState (market after_fork) demo_oracle tax_bank []).

Lemma fork_stops_luna_swaps_witness : returned late_swap = false.
Proof.
  destruct late_swap as [resp m'| |] eqn:R; [|done..]. exfalso.
  refine (fork_stops_luna_swaps (mkCtx SwapDisableHeight 0 ColumbusChainID) demo_upgrade after_fork
    _ m' alice alice (mkCoin MicroLunaDenom 1000) MicroSDRDenom resp _ _ _ _ _ R).
  - done.
  - apply returned_final. by vm_compute.
  - done.
  - done.
  - by left.
Defined.
End Upgrades.
