(* ===== verification/AppExport.v ===== *)
(** * Export of the application for a fresh start

    [ExportAppStateAndValidators] and [prepForZeroHeightGenesis]
    ([app/export.go]): withdrawals, the reset of heights, the jailing of
    validators that are not on the allow list, and the cleared votes, rates and
    pools.  The keepers of the SDK are parameters. *)

From S2P Require Import Prelude Sdk SdkRef Core OracleTypes OracleKeeper OracleTally OracleTallyFacts OracleRef Market.

Module AppExport.
Import OracleTypes OracleKeeper.

(** ** Records of the SDK's keepers that the export rewrites *)

Record Delegation := mkDelegation { DelegatorAddress : string; ValidatorAddress : string }.
(** The entries of a redelegation or an unbonding delegation by their creation
    height and all else. *)
Record Entry := mkEntry { CreationHeight : Z; ERest : string }.
Record Unbonding := mkUnbonding { UKey : string; Entries : list Entry }.
Record Validator := mkValidator { Jailed : bool; UnbondingHeight : Z; VRest : string }.
Record SigningInfo := mkSigning { StartHeight : Z; SRest : string }.

(** The keepers on their state [X].  A context is the height that the hooks of
    the distribution see. *)
Class ExportKeepers (X : Type) := {
  AssertInvariants : M X unit;
  IterateValidators : X -> list string;
  WithdrawValidatorCommission : string -> M X unit;
  GetAllDelegations : X -> list Delegation;
  WithdrawDelegationRewards : string -> string -> M X unit;
  DeleteAllValidatorSlashEvents : X -> X;
  DeleteAllValidatorHistoricalRewards : X -> X;
  GetValidatorOutstandingRewardsCoins : X -> string -> DecCoins;
  CommunityPool : X -> DecCoins;
  SetCommunityPool : DecCoins -> X -> X;
  AfterValidatorCreated : Z -> string -> M X unit;
  BeforeDelegationCreated : Z -> string -> string -> M X unit;
  AfterDelegationModified : Z -> string -> string -> M X unit;
  IterateRedelegations : X -> list Unbonding;
  SetRedelegation : Unbonding -> X -> X;
  IterateUnbondingDelegations : X -> list Unbonding;
  SetUnbondingDelegation : Unbonding -> X -> X;
  (** the addresses in the keys under [ValidatorsKey], in reverse order *)
  ValidatorsKeys : X -> list string;
  GetValidator : X -> string -> option Validator;
  SetValidator : string -> Validator -> X -> X;
  ApplyAndReturnValidatorSetUpdates : M X unit;
  IterateValidatorSigningInfos : X -> list (string * SigningInfo);
  SetValidatorSigningInfo : string -> SigningInfo -> X -> X;
}.

Record State (X : Type) := mkState { store : Store; market : Market.Keeper; keepers : X }.
Arguments mkState {X} _ _ _.
Arguments store {X} _.
Arguments market {X} _.
Arguments keepers {X} _.

Section Export.
Context {X : Type} `{HM : SdkMath, HC : SdkCoins, HA : Bech32, HK : ExportKeepers X}.
Abbreviation EM := (M (State X)).

Definition on_keepers {A} (c : M X A) : EM A :=
  zoom keepers (fun x s => mkState (store s) (market s) x) c.
Definition on_oracle (f : Store -> Store) : EM unit :=
  modify (fun s => mkState (f (store s)) (market s) (keepers s)).

(** [_, _ = f(...)]: the error is dropped, a panic is not. *)
Definition dropped (c : M X unit) : M X unit := fun x =>
  match c x with Fail _ x' => Ret tt x' | o => o end.

(** [log.Fatal] ends the process. *)
Definition must_addr (r : res string) : EM string :=
  match r with Ok a => ret a | _ => panic end.

(** ** The distribution *)

Definition withdraw_commissions : EM unit :=
  let* s := gets id in
  mfor (IterateValidators (keepers s)) (fun val => on_keepers (dropped (WithdrawValidatorCommission val))).

Definition with_addresses (k : string -> string -> EM unit) (d : Delegation) : EM unit :=
  let* valAddr := must_addr (ValAddressFromBech32 (ValidatorAddress d)) in
  let* delAddr := must_addr (AccAddressFromBech32 (DelegatorAddress d)) in
  k delAddr valAddr.

Definition withdraw_rewards (dels : list Delegation) : EM unit :=
  mfor dels (with_addresses (fun delAddr valAddr =>
    on_keepers (dropped (WithdrawDelegationRewards delAddr valAddr)))).

(** What is left of the rewards goes to the community pool. *)
Definition reinit_validator (val : string) : EM unit :=
  let* s := gets id in
  let scraps := GetValidatorOutstandingRewardsCoins (keepers s) val in
  let* pool := lift (DecCoins_Add (CommunityPool (keepers s)) scraps) in
  do* on_keepers (modify (SetCommunityPool pool)) in
  on_keepers (dropped (AfterValidatorCreated 0 val)).

Definition reinit_delegations (dels : list Delegation) : EM unit :=
  mfor dels (with_addresses (fun delAddr valAddr =>
    do* on_keepers (dropped (BeforeDelegationCreated 0 delAddr valAddr)) in
    on_keepers (dropped (AfterDelegationModified 0 delAddr valAddr)))).

(** ** Staking and slashing *)

Definition zero_entries (u : Unbonding) : Unbonding :=
  mkUnbonding (UKey u) ((fun e => mkEntry 0 (ERest e)) <$> Entries u).
Definition reset_redelegations : EM unit :=
  let* s := gets id in
  mfor (IterateRedelegations (keepers s)) (fun red =>
    on_keepers (modify (SetRedelegation (zero_entries red)))).
Definition reset_unbondings : EM unit :=
  let* s := gets id in
  mfor (IterateUnbondingDelegations (keepers s)) (fun ubd =>
    on_keepers (modify (SetUnbondingDelegation (zero_entries ubd)))).

Definition reset_validator (applyAllowedAddrs : bool) (allowedAddrsMap : gset string) (addr : string)
    : EM unit :=
  let* s := gets id in
  match GetValidator (keepers s) addr with
  | None => panic
  | Some v =>
      let jailed := if applyAllowedAddrs && negb (bool_decide (ValString addr ∈ allowedAddrsMap))
                    then true else Jailed v in
      on_keepers (modify (SetValidator addr (mkValidator jailed 0 (VRest v))))
  end.
Definition reset_validators (applyAllowedAddrs : bool) (allowedAddrsMap : gset string) : EM unit :=
  let* s := gets id in
  do* mfor (ValidatorsKeys (keepers s)) (reset_validator applyAllowedAddrs allowedAddrsMap) in
  must (on_keepers ApplyAndReturnValidatorSetUpdates).

Definition reset_signing_infos : EM unit :=
  let* s := gets id in
  mfor (IterateValidatorSigningInfos (keepers s)) (fun p =>
    on_keepers (modify (SetValidatorSigningInfo p.1 (mkSigning 0 (SRest p.2))))).

(** ** Oracle and market *)

Definition reset_oracle : EM unit :=
  do* on_oracle (fun s => foldl (fun s p => DeleteLunaExchangeRate p.1 s) s (IterateLunaExchangeRates s)) in
  do* on_oracle (fun s => foldl (fun s p => SetMissCounter p.1 0 s) s (IterateMissCounters s)) in
  do* on_oracle (fun s => foldl (fun s p => DeleteAggregateExchangeRatePrevote p.1 s) s
        (IterateAggregateExchangeRatePrevotes s)) in
  on_oracle (fun s => foldl (fun s p => DeleteAggregateExchangeRateVote p.1 s) s
        (IterateAggregateExchangeRateVotes s)).
Definition reset_market : EM unit :=
  modify (fun s => mkState (store s) (Market.SetTerraPoolDelta ZeroDec (market s)) (keepers s)).

Definition prepForZeroHeightGenesis (jailAllowedAddrs : list string) : EM unit :=
  let applyAllowedAddrs := negb (length jailAllowedAddrs =? 0)%nat in
  let* allowedAddrsMap := mfold (fun m addr =>
    let* _ := must_addr (ValAddressFromBech32 addr) in ret ({[addr]} ∪ m)) (∅ : gset string) jailAllowedAddrs in
  do* on_keepers AssertInvariants in
  do* withdraw_commissions in
  let* dels := gets (fun s => GetAllDelegations (keepers s)) in
  do* withdraw_rewards dels in
  do* on_keepers (modify DeleteAllValidatorSlashEvents) in
  do* on_keepers (modify DeleteAllValidatorHistoricalRewards) in
  let* vals := gets (fun s => IterateValidators (keepers s)) in
  do* mfor vals reinit_validator in
  do* reinit_delegations dels in
  do* reset_redelegations in
  do* reset_unbondings in
  do* reset_validators applyAllowedAddrs allowedAddrsMap in
  do* reset_signing_infos in
  do* reset_oracle in
  reset_market.

(** The whole export: the height is one more than the last one, or zero.
    Marshalling and the validator set are the SDK's. *)
Record ExportedApp := mkExported { AppState : string; ExportValidators : list string; EHeight : Z }.
Definition ExportAppStateAndValidators (marshal : State X -> res string)
    (writeValidators : X -> res (list string)) (lastBlockHeight : Z) (forZeroHeight : bool)
    (jailAllowedAddrs : list string) : EM ExportedApp :=
  do* (if forZeroHeight then prepForZeroHeightGenesis jailAllowedAddrs else ret tt) in
  let height := if forZeroHeight then 0 else int64 (lastBlockHeight + 1) in
  let* appState := gets marshal in
  let* appState := lift appState in
  let* validators := gets (fun s => writeValidators (keepers s)) in
  let* validators := lift validators in
  ret (mkExported appState validators height).
End Export.

(** ** What the keepers promise *)

Definition keeps_validators {X A} `{ExportKeepers X} (c : M X A) : Prop := forall x a x',
  c x = Ret a x' \/ (exists e, c x = Fail e x') -> forall addr, GetValidator x' addr = GetValidator x addr.

(** Only [SetValidator] and the update of the validator set write validators, and
    the update neither jails, frees nor creates one; the keys of the store list
    the validators. *)
Class ExportLaws (X : Type) `{ExportKeepers X} : Prop := {
  keeps_invariants : keeps_validators AssertInvariants;
  keeps_commission v : keeps_validators (WithdrawValidatorCommission v);
  keeps_rewards d v : keeps_validators (WithdrawDelegationRewards d v);
  keeps_slash_events : keeps_validators (modify DeleteAllValidatorSlashEvents);
  keeps_historical : keeps_validators (modify DeleteAllValidatorHistoricalRewards);
  keeps_pool p : keeps_validators (modify (SetCommunityPool p));
  keeps_created h v : keeps_validators (AfterValidatorCreated h v);
  keeps_before h d v : keeps_validators (BeforeDelegationCreated h d v);
  keeps_modified h d v : keeps_validators (AfterDelegationModified h d v);
  keeps_redelegation r : keeps_validators (modify (SetRedelegation r));
  keeps_unbonding u : keeps_validators (modify (SetUnbondingDelegation u));
  keeps_signing a i : keeps_validators (modify (SetValidatorSigningInfo a i));
  GetValidator_set a v x b :
    GetValidator (SetValidator a v x) b = if decide (a = b) then Some v else GetValidator x b;
  ValidatorsKeys_spec x a : a ∈ ValidatorsKeys x <-> is_Some (GetValidator x a);
  update_jailed x x' : ApplyAndReturnValidatorSetUpdates x = Ret tt x' ->
    forall a, Jailed <$> GetValidator x' a = Jailed <$> GetValidator x a;
}.

Create HintDb export.
#[export] Hint Resolve keeps_invariants keeps_commission keeps_rewards keeps_slash_events keeps_historical
  keeps_pool keeps_created keeps_before keeps_modified keeps_redelegation keeps_unbonding keeps_signing : export.

Section Facts.
Context {X : Type} `{HM : SdkMath, HC : SdkCoins, HA : Bech32, HK : ExportKeepers X, !ExportLaws X}.
Abbreviation St := (State X).

(** What most of the export does not change. *)
Definition frame (s s' : St) : Prop :=
  store s' = store s /\ market s' = market s /\
  forall a, GetValidator (keepers s') a = GetValidator (keepers s) a.
#[local] Instance frame_preorder : PreOrder frame.
Proof using Type.
  split; [done|]. intros s1 s2 s3 (S1 & M1 & V1) (S2 & M2 & V2).
  split_and!; [congruence..|]. intros a. by rewrite V2, V1.
Qed.

Definition kept {A} (c : M St A) : Prop := forall s a s', c s = Ret a s' -> frame s s'.

Lemma kept_bind {A B} (c : M St A) (k : A -> M St B) : kept c -> (forall a, kept (k a)) -> kept (bind c k).
Proof using Type. intros Hc Hk s b s' (a & s1 & R1 & R2)%bind_Ret. transitivity s1; [by eapply Hc|by eapply Hk]. Qed.
Lemma kept_ret {A} (a : A) : kept (ret a).
Proof using Type. by intros s b s' [= <- <-]. Qed.
Lemma kept_gets {A} (f : St -> A) : kept (gets f).
Proof using Type. by intros s b s' [= <- <-]. Qed.
Lemma kept_lift {A} (r : res A) : kept (lift r).
Proof using Type. by intros s b s' [_ ->]%lift_Ret. Qed.
Lemma kept_must_addr r : kept (must_addr r).
Proof using Type. intros s b s' R. destruct r; [|done..]. by injection R as <- <-. Qed.
Lemma kept_mfor {A} (l : list A) (f : A -> M St unit) : (forall x, kept (f x)) -> kept (mfor l f).
Proof using Type. intros Hf. induction l as [|x l IH]; [apply kept_ret|]. apply kept_bind; [apply Hf|done]. Qed.
Lemma kept_mfold {A B} (f : B -> A -> M St B) l : (forall b x, kept (f b x)) -> forall b, kept (mfold f b l).
Proof using Type. intros Hf. induction l as [|x l IH]; intros b; [apply kept_ret|]. apply kept_bind; [apply Hf|done]. Qed.
Lemma kept_on_keepers {A} (c : M X A) : keeps_validators c -> kept (on_keepers c).
Proof using Type. intros Hc s a s' (x & R & ->)%zoom_Ret. split_and!; [done|done|]. eapply Hc. by left. Qed.
Lemma keeps_dropped c : keeps_validators c -> keeps_validators (dropped c).
Proof using Type.
  intros Hc x a x' R. unfold dropped in R. destruct (c x) as [[] y|e y|] eqn:E.
  - destruct R as [R|[e R]]; [|done]. injection R as _ <-. apply (Hc x tt). by left.
  - destruct R as [R|[e' R]]; [|done]. injection R as _ <-. apply (Hc x tt). right. by exists e.
  - by destruct R as [R|[e' R]].
Qed.
#[local] Hint Resolve kept_ret kept_gets kept_lift kept_must_addr kept_on_keepers keeps_dropped : export.
Ltac keep := repeat first [apply kept_bind; [|intros ?] | apply kept_mfor; intros ? | apply kept_mfold; intros ? ?
  | solve [eauto with export] | progress unfold with_addresses, reinit_validator].

Lemma kept_front : kept withdraw_commissions /\ (forall d, kept (withdraw_rewards d)) /\
  (forall v, kept (mfor v reinit_validator)) /\ (forall d, kept (reinit_delegations d)) /\
  kept reset_redelegations /\ kept reset_unbondings /\ kept reset_signing_infos.
Proof using Type*.
  split_and!; intros; unfold withdraw_commissions, withdraw_rewards, reinit_delegations, reset_redelegations,
    reset_unbondings, reset_signing_infos; keep.
Qed.

(** ** The oracle *)

Definition zeroed (o : Store) : Store :=
  set_votes ∅ (set_prevotes ∅ (set_misses ((fun _ => 0) <$> MissCounters o) (set_rates ∅ o))).

Lemma reset_oracle_run (s : St) : reset_oracle s = Ret tt (mkState (zeroed (store s)) (market s) (keepers s)).
Proof using Type.
  unfold reset_oracle, on_oracle, modify, bind. cbn [store market keepers]. repeat f_equal.
  assert (forall (l : list (string * Dec)) o, foldl (fun s p => DeleteLunaExchangeRate p.1 s) o l =
    set_rates (foldl (fun m p => delete p.1 m) (ExchangeRates o) l) o) as E1.
  { induction l as [|p l IH]; intros o; [by destruct o|]. cbn [foldl]. by rewrite IH. }
  assert (forall (l : list (string * Z)) o, foldl (fun s p => SetMissCounter p.1 0 s) o l =
    set_misses (foldl (fun m p => <[p.1 := (fun _ => 0) p.2]> m) (MissCounters o) l) o) as E2.
  { induction l as [|p l IH]; intros o; [by destruct o|]. cbn [foldl]. by rewrite IH. }
  assert (forall (l : list (string * AggregateExchangeRatePrevote)) o, foldl (fun s p => DeleteAggregateExchangeRatePrevote p.1 s) o l =
    set_prevotes (foldl (fun m p => delete p.1 m) (Prevotes o) l) o) as E3.
  { induction l as [|p l IH]; intros o; [by destruct o|]. cbn [foldl]. by rewrite IH. }
  assert (forall (l : list (string * AggregateExchangeRateVote)) o, foldl (fun s p => DeleteAggregateExchangeRateVote p.1 s) o l =
    set_votes (foldl (fun m p => delete p.1 m) (Votes o) l) o) as E4.
  { induction l as [|p l IH]; intros o; [by destruct o|]. cbn [foldl]. by rewrite IH. }
  rewrite E4, E3, E2, E1. unfold zeroed.
  rewrite (foldl_delete_map _ (ExchangeRates (store s))) by apply kv_iter_perm.
  rewrite (foldl_update_map (fun _ => 0)) by apply kv_iter_perm.
  rewrite (foldl_delete_map _ (Prevotes _)) by apply kv_iter_perm.
  by rewrite (foldl_delete_map _ (Votes _)) by apply kv_iter_perm.
Qed.

(** ** Jailing *)

Definition jail_rule (apply : bool) (allowed : gset string) (a : string) (j : bool) : bool :=
  j || apply && negb (bool_decide (ValString a ∈ allowed)).

Lemma reset_validator_run apply allowed a (s s' : St) : reset_validator apply allowed a s = Ret tt s' ->
  store s' = store s /\ market s' = market s /\
  exists v, GetValidator (keepers s) a = Some v /\ forall b, GetValidator (keepers s') b =
    if decide (a = b) then Some (mkValidator (jail_rule apply allowed a (Jailed v)) 0 (VRest v))
    else GetValidator (keepers s) b.
Proof using Type*.
  unfold reset_validator. intros (? & ? & [= <- <-] & R)%bind_Ret. change (id s) with s in R.
  destruct (GetValidator (keepers s) a) as [v|] eqn:Ev; [|done].
  apply zoom_Ret in R as (x & [= <-] & ->). split_and!; [done|done|]. exists v. split; [done|].
  intros b. cbn [keepers]. rewrite GetValidator_set. unfold jail_rule.
  destruct (decide (a = b)); [|done]. do 2 f_equal. destruct (apply && _); [by rewrite orb_true_r|by rewrite orb_false_r].
Qed.

Lemma jail_rule_idem apply allowed a j : jail_rule apply allowed a (jail_rule apply allowed a j) = jail_rule apply allowed a j.
Proof using Type. unfold jail_rule. destruct j, (apply && _); done. Qed.

Lemma reset_loop apply allowed l : forall (s s' : St),
  mfor l (reset_validator apply allowed) s = Ret tt s' ->
  store s' = store s /\ market s' = market s /\
  forall a, Jailed <$> GetValidator (keepers s') a =
    (fun v => if decide (a ∈ l) then jail_rule apply allowed a (Jailed v) else Jailed v) <$>
    GetValidator (keepers s) a.
Proof using Type*.
  induction l as [|x l IH]; intros s s' R.
  { injection R as <-. split_and!; [done|done|]. intros a.
    destruct (GetValidator _ a); [|done]. cbn. by rewrite decide_False by apply not_elem_of_nil. }
  cbn [mfor] in R. apply bind_Ret in R as ([] & s1 & R1 & R2).
  apply reset_validator_run in R1 as (S1 & M1 & v & Hv & Hset). apply IH in R2 as (S2 & M2 & Hj).
  split_and!; [congruence..|]. intros a. rewrite Hj, Hset. destruct (decide (x = a)) as [->|Hne].
  - rewrite Hv. cbn. f_equal. rewrite (decide_True (P := a ∈ a :: l)) by left.
    destruct (decide (a ∈ l)); [apply jail_rule_idem|done].
  - destruct (GetValidator _ a) as [w|]; [|done]. cbn. f_equal.
    destruct (decide (a ∈ l)); [by rewrite decide_True by (by right)|].
    rewrite decide_False; [done|]. intros [->|?]%elem_of_cons; done.
Qed.

Lemma reset_validators_run apply allowed (s s' : St) : reset_validators apply allowed s = Ret tt s' ->
  store s' = store s /\ market s' = market s /\
  forall a, Jailed <$> GetValidator (keepers s') a =
    (fun v => jail_rule apply allowed a (Jailed v)) <$> GetValidator (keepers s) a.
Proof using Type*.
  unfold reset_validators. intros (? & ? & [= <- <-] & R)%bind_Ret. change (id s) with s in R.
  apply bind_Ret in R as ([] & s1 & R1 & R2). apply reset_loop in R1 as (S1 & M1 & Hj).
  rewrite must_Ret in R2. apply zoom_Ret in R2 as (x & Ru & ->).
  split_and!; [done|done|]. intros a. cbn [keepers]. rewrite (update_jailed _ _ Ru), Hj.
  destruct (GetValidator (keepers s) a) as [v|] eqn:Ev; [|done]. cbn. f_equal.
  rewrite decide_True; [done|]. apply ValidatorsKeys_spec. by exists v.
Qed.

Lemma allowed_map_run l : forall (m m' : gset string) (s s' : St),
  mfold (fun m addr => let* _ := must_addr (ValAddressFromBech32 addr) in ret ({[addr]} ∪ m)) m l s = Ret m' s' ->
  s' = s /\ (forall a, a ∈ m' <-> a ∈ m \/ a ∈ l) /\ Forall (fun a => exists v, ValAddressFromBech32 a = Ok v) l.
Proof using Type.
  induction l as [|x l IH]; intros m m' s s' R.
  { injection R as <- <-. split_and!; [done| |constructor]. intros a.
    split; [by left|]. intros [?|Hn]; [done|]. by apply not_elem_of_nil in Hn. }
  cbn [mfold] in R. apply bind_Ret in R as (m1 & s1 & R1 & R2). apply bind_Ret in R1 as (a & s2 & R1 & [= <- <-]).
  unfold must_addr in R1. destruct (ValAddressFromBech32 x) as [v| |] eqn:Ex; [|done..]. injection R1 as <- <-.
  apply IH in R2 as (-> & Hm & Hf). split_and!; [done| |].
  - intros b. rewrite Hm, elem_of_union, elem_of_singleton, elem_of_cons. tauto.
  - constructor; [by exists v|done].
Qed.

(** C20. The preparation for a fresh start.  When it succeeds, the oracle has no
    rates, prevotes and votes left, every miss counter is zero and none is lost,
    delegations of feeders, tobin taxes and parameters stay, and the market's
    pools are even.  With an allow list, every address on it is valid and a
    validator ends up jailed exactly when it was jailed before or is not on the
    list; without one, nobody is jailed or freed. *)
Theorem zero_height_reset jailAllowedAddrs (s s' : St) :
  prepForZeroHeightGenesis jailAllowedAddrs s = Ret tt s' ->
  store s' = zeroed (store s) /\
  Market.GetTerraPoolDelta (market s') = 0 /\ Market.KParams (market s') = Market.KParams (market s) /\
  Forall (fun a => exists v, ValAddressFromBech32 a = Ok v) jailAllowedAddrs /\
  forall a, Jailed <$> GetValidator (keepers s') a =
    (fun v => Jailed v || negb (length jailAllowedAddrs =? 0)%nat &&
                negb (bool_decide (ValString a ∈ jailAllowedAddrs))) <$> GetValidator (keepers s) a.
Proof using Type*.
  unfold prepForZeroHeightGenesis. intros (m & s0 & R0 & R)%bind_Ret.
  apply allowed_map_run in R0 as (-> & Hm & Hvalid).
  destruct kept_front as (K1 & K2 & K3 & K4 & K5 & K6 & K7).
  assert (forall c k s1 s2, kept c -> bind c (fun _ : unit => k) s1 = Ret tt s2 ->
    exists s3, frame s1 s3 /\ k s3 = Ret tt s2) as step.
  { intros c k s1 s2 Hc ([] & s3 & R1 & R2)%bind_Ret. exists s3. split; [by eapply Hc|done]. }
  apply step in R as (s1 & F1 & R); [|apply kept_on_keepers; auto with export].
  apply step in R as (s2 & F2 & R); [|done]. apply bind_Ret in R as (dels & ? & [= <- <-] & R).
  apply step in R as (s3 & F3 & R); [|apply K2].
  apply step in R as (s4 & F4 & R); [|apply kept_on_keepers; auto with export].
  apply step in R as (s5 & F5 & R); [|apply kept_on_keepers; auto with export].
  apply bind_Ret in R as (vals & ? & [= <- <-] & R).
  apply step in R as (s6 & F6 & R); [|apply K3]. apply step in R as (s7 & F7 & R); [|apply K4].
  apply step in R as (s8 & F8 & R); [|done]. apply step in R as (s9 & F9 & R); [|done].
  assert (frame s s9) as (S9 & M9 & V9) by (repeat (etransitivity; [eassumption|]); reflexivity).
  clear - Hm Hvalid S9 M9 V9 R K7 step ExportLaws0.
  apply bind_Ret in R as ([] & t1 & (S1 & M1 & J1)%reset_validators_run & R).
  apply step in R as (t2 & (S2 & M2 & V2) & R); [|done].
  unfold bind in R. rewrite reset_oracle_run in R. injection R as <-. cbn [store market keepers].
  split_and!; [congruence|done|simpl; congruence|done|]. intros a. rewrite V2, J1, V9.
  destruct (GetValidator (keepers s) a) as [v|]; [|done]. cbn. f_equal. unfold jail_rule. do 3 f_equal.
  apply bool_decide_ext. rewrite Hm. split; [|by right]. intros [Hn|?]; [|done]. by apply not_elem_of_empty in Hn.
Qed.
End Facts.

(** ** A concrete export *)

Import Ref OracleRef.

(** Keepers with nothing but validators. *)
#[local] Instance demo_export : ExportKeepers (gmap string Validator) := {|
  AssertInvariants := ret tt; IterateValidators x := (map_to_list x).*1;
  WithdrawValidatorCommission _ := ret tt; GetAllDelegations _ := [];
  WithdrawDelegationRewards _ _ := fail (Errorf "no delegation distribution info");
  DeleteAllValidatorSlashEvents x := x; DeleteAllValidatorHistoricalRewards x := x;
  GetValidatorOutstandingRewardsCoins _ _ := []; CommunityPool _ := []; SetCommunityPool _ x := x;
  AfterValidatorCreated _ _ := ret tt; BeforeDelegationCreated _ _ _ := ret tt;
  AfterDelegationModified _ _ _ := ret tt; IterateRedelegations _ := []; SetRedelegation _ x := x;
  IterateUnbondingDelegations _ := []; SetUnbondingDelegation _ x := x;
  ValidatorsKeys x := (map_to_list x).*1; GetValidator x a := x !! a; SetValidator a v x := <[a := v]> x;
  ApplyAndReturnValidatorSetUpdates := ret tt;
  IterateValidatorSigningInfos _ := []; SetValidatorSigningInfo _ _ x := x |}.

#[local] Instance demo_export_laws : ExportLaws (gmap string Validator).
Proof.
  split; unfold keeps_validators, modify; cbn; try (intros;
    match goal with Hx : _ \/ _ |- _ => destruct Hx as [Hx|[? Hx]]; by inversion Hx end).
  - intros a v x b. cbn. destruct (decide (a = b)) as [->|]; [apply lookup_insert_eq|by apply lookup_insert_ne].
  - intros x a. cbn. rewrite list_elem_of_fmap. split.
    + intros ([k v] & -> & Hin). apply elem_of_map_to_list in Hin. by exists v.
    + intros [v Hv]. exists (a, v). split; [done|]. by apply elem_of_map_to_list.
  - by intros x x' [= <-].
Qed.

Definition demo_vals : gmap string Validator :=
  {[ valA := mkValidator false 7 ""; valB := mkValidator false 9 "" ]}.
Definition export_state : State (gmap string Validator) :=
  mkState (OracleKeeper.store demo_state) (Market.mkKeeper (Some 5) Market.DefaultParams) demo_vals.
Definition exported : State (gmap string Validator) :=
  final (prepForZeroHeightGenesis [ValString valA] export_state) export_state.

Lemma zero_height_reset_witness :
  Votes (store exported) = ∅ /\ Jailed <$> GetValidator (keepers exported) valA = Some false /\
  Jailed <$> GetValidator (keepers exported) valB = Some true.
Proof.
  destruct (zero_height_reset [ValString valA] export_state exported) as (Ho & _ & _ & _ & Hj).
  - apply returned_final. by vm_compute.
  - split; [by rewrite Ho|]. rewrite !Hj. clear. split; vm_compute; reflexivity.
Defined.
End AppExport.
