(* ===== verification/LegacyGenesis.v ===== *)
(** * Migration of an old genesis file

    The [migrate] command ([app/legacy/migrate.go]): new consensus limits, bank
    metadata for Luna and every whitelisted denom, fresh IBC modules; and the
    replacement of consensus keys ([app/legacy/pubkey_replacement.go]) in the
    staking, slashing and consensus parts of the file. *)

From S2P Require Import Prelude Sdk SdkRef Core OracleTypes OracleKeeper OracleRef.

Module LegacyGenesis.

(** ** The genesis document *)

Record GenValidator := mkGenValidator { GAddress : string; GPubKey : string; GPower : Z; GName : string }.
Record GenDoc := mkGenDoc {
  BlockMaxBytes : Z;
  BlockMaxGas : Z;
  EvidenceMaxBytes : Z;
  AppState : string;                 (* JSON *)
  GValidators : list GenValidator;
  GenesisTime : string;
  GChainID : string;
  InitialHeight : Z }.

(** The parts of the modules' genesis states that the command reads or writes;
    all else of a state is carried along. *)
Record BankGenesis := mkBankGenesis { DenomMetadata : list Metadata; BankRest : string }.
Record StakingValidator := mkStakingValidator {
  OperatorAddress : string; ConsensusPubkey : string; ValRest : string }.
Record StakingGenesis := mkStakingGenesis {
  HistoricalEntries : Z; StakingValidators : list StakingValidator; StakingRest : string }.
(** A signing info has its address twice, in the list's entry and inside. *)
Record SigningInfo := mkSigningInfo { SAddress : string; InfoAddress : string; InfoRest : string }.
Record MissedBlocks := mkMissed { MAddress : string; MRest : string }.
Record SlashingGenesis := mkSlashingGenesis {
  SigningInfos : list SigningInfo; Missed : list MissedBlocks; SlashingRest : string }.
Record TransferGenesis := mkTransfer { ReceiveEnabled : bool; SendEnabled : bool; TransferRest : string }.

Abbreviation AppMap := (gmap string string).

(** JSON, the codec, module names and default states of other projects. *)
Class GenesisCodec := {
  UnmarshalApp : string -> res AppMap;
  MarshalApp : AppMap -> res string;
  bankKey : string; oracleKey : string; stakingKey : string; slashingKey : string;
  transferKey : string; ibcKey : string; capabilityKey : string; evidenceKey : string;
  UnmarshalBank : string -> option BankGenesis;
  MarshalBank : BankGenesis -> string;
  (** the names of the oracle's whitelist *)
  UnmarshalWhitelist : string -> option (list string);
  UnmarshalStaking : string -> option StakingGenesis;
  MarshalStaking : StakingGenesis -> string;
  UnmarshalSlashing : string -> option SlashingGenesis;
  MarshalSlashing : SlashingGenesis -> string;
  DefaultTransfer : TransferGenesis;
  MarshalTransfer : TransferGenesis -> string;
  (** the default IBC state with the given allowed clients *)
  MarshalIbc : list string -> string;
  TendermintClient : string;
  DefaultCapability : string;
  DefaultEvidence : string;
  ParseTime : string -> res string;
  (** decode a consensus key, and the address of a key *)
  DecodeKey : string -> res string;
  ConsAddress : string -> string;
  (** the bech32 form that slashing uses *)
  ConsString : string -> string;
}.

Section Migrate.
Context `{HG : GoStrings, HC : GenesisCodec}.

(** [MustUnmarshalJSON(state[name], &v)]; a missing state is no JSON. *)
Definition must_state {A} (state : AppMap) (name : string) (unmarshal : string -> option A) : res A :=
  match state !! name ≫= unmarshal with Some a => Ok a | None => Panic end.

(** ** Metadata *)

Definition luna_metadata : Metadata := {|
  Description := "The native staking token of the Terra Columbus.";
  DenomUnits := [mkUnit "uluna" 0 ["microluna"]; mkUnit "mluna" 3 ["milliluna"]; mkUnit "luna" 6 []];
  Base := "uluna"; Display := "luna"; MName := "LUNA"; Symbol := "LUNA" |}.

Definition denom_metadatas (whitelist : list string) : res (list Metadata) :=
  let! ms := rmap OracleKeeper.denom_metadata whitelist in
  Ok (luna_metadata :: ms).

(** ** Replacing consensus keys *)

Record replacementConfig := mkReplacement {
  ValidatorName : string; RValidatorAddress : string; RConsensusPubkey : string }.

(** The first entry of the validator. *)
Definition isReplacedValidator (r : list replacementConfig) (validatorAddress : string)
    : option replacementConfig :=
  List.find (fun c => String.eqb (RValidatorAddress c) validatorAddress) r.

(** The three places that know a validator by its consensus address. *)
Record Keyed := mkKeyed { KInfos : list SigningInfo; KMissed : list MissedBlocks; KGen : list GenValidator }.

Definition replace_info (old new : string) (i : SigningInfo) : SigningInfo :=
  if String.eqb (SAddress i) (ConsString old) then mkSigningInfo (ConsString new) (ConsString new) (InfoRest i)
  else i.
Definition replace_missed (old new : string) (m : MissedBlocks) : MissedBlocks :=
  if String.eqb (MAddress m) (ConsString old) then mkMissed (ConsString new) (MRest m) else m.
Definition replace_gen (old new newKey : string) (v : GenValidator) : GenValidator :=
  if String.eqb (GAddress v) old then mkGenValidator new newKey (GPower v) (GName v) else v.

Definition replace_keyed (old new newKey : string) (k : Keyed) : Keyed :=
  mkKeyed (replace_info old new <$> KInfos k) (replace_missed old new <$> KMissed k)
    (replace_gen old new newKey <$> KGen k).

(** One validator of the staking module: with a replacement it gets the new key,
    and everything filed under the address of the old key moves to the address
    of the new one. *)
Definition replace_validator (r : list replacementConfig) (acc : list StakingValidator * Keyed)
    (val : StakingValidator) : res (list StakingValidator * Keyed) :=
  let '(vals, k) := acc in
  match isReplacedValidator r (OperatorAddress val) with
  | None => Ok (vals ++ [val], k)
  | Some replacement =>
      match DecodeKey (RConsensusPubkey replacement) with
      | Ok key =>
          let old := ConsAddress (ConsensusPubkey val) in
          Ok (vals ++ [mkStakingValidator (OperatorAddress val) key (ValRest val)],
              replace_keyed old (ConsAddress key) key k)
      | _ => Panic                     (* log.Fatal *)
      end
  end.

Definition replace_all (r : list replacementConfig) (vals : list StakingValidator) (k : Keyed)
    : res (list StakingValidator * Keyed) :=
  rfold (replace_validator r) ([], k) vals.

Definition loadKeydataFromFile (replacementKeys : list replacementConfig) (genDoc : GenDoc) : res GenDoc :=
  let! state := match UnmarshalApp (AppState genDoc) with Ok s => Ok s | _ => Panic end in
  let! stakingGenesis := must_state state stakingKey UnmarshalStaking in
  let! slashingGenesis := must_state state slashingKey UnmarshalSlashing in
  let! replaced := replace_all replacementKeys (StakingValidators stakingGenesis)
    (mkKeyed (SigningInfos slashingGenesis) (Missed slashingGenesis) (GValidators genDoc)) in
  let '(vals, k) := replaced in
  let state := <[stakingKey := MarshalStaking (mkStakingGenesis (HistoricalEntries stakingGenesis) vals
                                 (StakingRest stakingGenesis))]> state in
  let state := <[slashingKey := MarshalSlashing (mkSlashingGenesis (KInfos k) (KMissed k)
                                  (SlashingRest slashingGenesis))]> state in
  match MarshalApp state with
  | Ok s => Ok (mkGenDoc (BlockMaxBytes genDoc) (BlockMaxGas genDoc) (EvidenceMaxBytes genDoc) s
                  (KGen k) (GenesisTime genDoc) (GChainID genDoc) (InitialHeight genDoc))
  | _ => Panic
  end.

(** ** The command *)

Record Flags := mkFlags {
  fGenesisTime : string; fChainID : string; fInitialHeight : Z;
  (** the parsed replacement file; none without the flag *)
  fReplacementKeys : option (list replacementConfig) }.

(** The migrated application state. *)
Definition migrate_app (state : AppMap) : res AppMap :=
  let! bankGenesis := must_state state bankKey UnmarshalBank in
  let! whitelist := must_state state oracleKey UnmarshalWhitelist in
  let! denomMetadata := denom_metadatas whitelist in
  let state := <[bankKey := MarshalBank (mkBankGenesis denomMetadata (BankRest bankGenesis))]> state in
  let! stakingGenesis := must_state state stakingKey UnmarshalStaking in
  let state := <[transferKey := MarshalTransfer (mkTransfer false false (TransferRest DefaultTransfer))]> state in
  let state := <[ibcKey := MarshalIbc [TendermintClient]]> state in
  let state := <[capabilityKey := DefaultCapability]> state in
  let state := <[evidenceKey := DefaultEvidence]> state in
  Ok (<[stakingKey := MarshalStaking (mkStakingGenesis 10000 (StakingValidators stakingGenesis)
                        (StakingRest stakingGenesis))]> state).

Definition MigrateGenesis (flags : Flags) (genDoc : GenDoc) : res GenDoc :=
  let! initialState := UnmarshalApp (AppState genDoc) in
  let! newGenState := migrate_app initialState in
  let! appState := MarshalApp newGenState in
  let! time := if negb (String.eqb (fGenesisTime flags) "") then ParseTime (fGenesisTime flags)
               else Ok (GenesisTime genDoc) in
  let chainID := if negb (String.eqb (fChainID flags) "") then fChainID flags else GChainID genDoc in
  let genDoc := mkGenDoc 5000000 1000000000 50000 appState (GValidators genDoc) time chainID
                  (fInitialHeight flags) in
  match fReplacementKeys flags with
  | Some keys => loadKeydataFromFile keys genDoc
  | None => Ok genDoc
  end.
End Migrate.

(** ** The metadata is well-formed *)

Section Metadatas.
Context `{HG : GoStrings}.

(** The base denom is the first unit, with exponent zero; the display denom is
    one of the units; exponents grow. *)
Definition metadata_wf (m : Metadata) : Prop :=
  (exists u us, DenomUnits m = u :: us /\ unit_denom u = Base m /\ exponent u = 0) /\
  Display m ∈ unit_denom <$> DenomUnits m /\
  StronglySorted Z.lt (exponent <$> DenomUnits m).

Definition starts_with_u (name : string) : Prop := exists rest, name = "u" +:+ rest.

Lemma denom_metadata_total name :
  (exists m, OracleKeeper.denom_metadata name = Ok m) <-> (2 <= String.length name)%nat.
Proof using Type.
  unfold OracleKeeper.denom_metadata. destruct name as [|c [|d rest]]; simpl.
  - split; [by intros [m ?]|lia].
  - split; [by intros [m ?]|lia].
  - split; [lia|]. intros _. by eexists.
Qed.

Lemma denom_metadata_wf name m : OracleKeeper.denom_metadata name = Ok m ->
  Base m = name /\ (metadata_wf m <-> starts_with_u name).
Proof using Type.
  unfold OracleKeeper.denom_metadata. destruct name as [|c [|d rest]]; [done..|]. intros [= <-]. split; [done|].
  unfold metadata_wf, starts_with_u. cbn [DenomUnits Base Display]. split.
  - intros [(u & us & [= <- _] & Hu & _) _]. cbn in Hu. injection Hu as <-. by eexists.
  - intros [rest' E]. cbn in E. injection E as -> _. split_and!.
    + do 2 eexists. by split_and!.
    + cbn. right; right; left.
    + cbn. repeat constructor.
Qed.

Lemma rmap_total {A B} (f : A -> res B) l :
  (exists ys, rmap f l = Ok ys) <-> Forall (fun x => exists y, f x = Ok y) l.
Proof using Type.
  split.
  - intros [ys R%rmap_Forall2]. induction R as [|x y l ys Hxy _ IH]; constructor; [by exists y|done].
  - induction 1 as [|x l [y Hy] _ [ys IH]]; [by exists []|]. exists (y :: ys).
    change (rmap f (x :: l)) with (let! y := f x in let! ys := rmap f l in Ok (y :: ys)). by rewrite Hy, IH.
Qed.

(** Nor does it report an error: the slice of a name too short is a panic. *)
Lemma denom_metadata_no_err name e : OracleKeeper.denom_metadata name <> Err e.
Proof using Type. by destruct name as [|c [|d rest]]. Qed.
Lemma rmap_no_err {T U} (f : T -> res U) l e : (forall x e, f x <> Err e) -> rmap f l <> Err e.
Proof using Type.
  intros Hf. induction l as [|x l IH]; [done|].
  change (rmap f (x :: l)) with (let! y := f x in let! ys := rmap f l in Ok (y :: ys)).
  destruct (f x) as [y|e'|] eqn:Ex; [|by destruct (Hf x e')|done]. cbn [rbind]. by destruct (rmap f l).
Qed.

(** C38. The metadata that the migration registers.  It is built exactly when every
    whitelisted name has at least two characters, and is a panic, never an error,
    otherwise; Luna comes
    first and then one entry per name, in order, whose base is the name.  Luna's
    entry is well-formed, and so is the one of a denom exactly when its name
    starts with the micro prefix. *)
Theorem migrated_metadata whitelist :
  match denom_metadatas whitelist with
  | Ok ms => Forall (fun n => (2 <= String.length n)%nat) whitelist /\
      exists ms', ms = luna_metadata :: ms' /\ metadata_wf luna_metadata /\
        Forall2 (fun n m => Base m = n /\ (metadata_wf m <-> starts_with_u n)) whitelist ms'
  | Panic => ~ Forall (fun n => (2 <= String.length n)%nat) whitelist
  | Err _ => False
  end.
Proof using Type.
  unfold denom_metadatas.
  assert (Forall (fun n => (2 <= String.length n)%nat) whitelist <->
    exists ys, rmap OracleKeeper.denom_metadata whitelist = Ok ys) as Ht.
  { rewrite rmap_total. apply Forall_iff. intros n. symmetry. apply denom_metadata_total. }
  destruct (rmap _ whitelist) as [ms'|e|] eqn:E; cbn [rbind];
    [|by eapply rmap_no_err, E; apply denom_metadata_no_err|rewrite Ht; by intros [ys ?]].
  rewrite Ht.
  split; [by exists ms'|]. exists ms'. split_and!; [done| |].
  - split_and!; [by do 2 eexists|right; right; left|]. cbn. repeat constructor.
  - apply rmap_Forall2 in E. eapply Forall2_impl; [exact E|]. intros n m. apply denom_metadata_wf.
Qed.
End Metadatas.

(** ** Keys are replaced everywhere *)

Section Replace.
Context `{HG : GoStrings, HC : GenesisCodec}.
Variable r : list replacementConfig.

(** The key a validator gets, if any. *)
Definition new_key (v : StakingValidator) : option string :=
  c ← isReplacedValidator r (OperatorAddress v);
  match DecodeKey (RConsensusPubkey c) with Ok key => Some key | _ => None end.
Definition new_val (v : StakingValidator) : StakingValidator :=
  match new_key v with
  | Some key => mkStakingValidator (OperatorAddress v) key (ValRest v)
  | None => v
  end.

(** The old address, and the key, of each replaced validator. *)
Definition moves (vals : list StakingValidator) : list (string * string) :=
  omap (fun v => (fun key => (ConsAddress (ConsensusPubkey v), key)) <$> new_key v) vals.

(** All moves at once: an address goes where the first move from it leads. *)
Definition moved (ms : list (string * string)) (a : string) : option string :=
  snd <$> List.find (fun m => String.eqb a m.1) ms.
Definition move_info (ms : list (string * string)) (i : SigningInfo) : SigningInfo :=
  match List.find (fun m => String.eqb (SAddress i) (ConsString m.1)) ms with
  | Some m => let new := ConsString (ConsAddress m.2) in mkSigningInfo new new (InfoRest i)
  | None => i
  end.
Definition move_missed (ms : list (string * string)) (b : MissedBlocks) : MissedBlocks :=
  match List.find (fun m => String.eqb (MAddress b) (ConsString m.1)) ms with
  | Some m => mkMissed (ConsString (ConsAddress m.2)) (MRest b)
  | None => b
  end.
Definition move_gen (ms : list (string * string)) (g : GenValidator) : GenValidator :=
  match moved ms (GAddress g) with
  | Some key => mkGenValidator (ConsAddress key) key (GPower g) (GName g)
  | None => g
  end.
Definition move_all (ms : list (string * string)) (k : Keyed) : Keyed :=
  mkKeyed (move_info ms <$> KInfos k) (move_missed ms <$> KMissed k) (move_gen ms <$> KGen k).

(** Doing the moves one after the other. *)
Definition move_one (k : Keyed) (m : string * string) : Keyed :=
  replace_keyed m.1 (ConsAddress m.2) m.2 k.

Lemma replace_all_run vals k : Forall (fun v => forall c, isReplacedValidator r (OperatorAddress v) = Some c ->
    exists key, DecodeKey (RConsensusPubkey c) = Ok key) vals ->
  replace_all r vals k = Ok (new_val <$> vals, foldl move_one k (moves vals)).
Proof using Type.
  unfold replace_all. change (new_val <$> vals) with ([] ++ (new_val <$> vals)).
  generalize (@nil StakingValidator) as acc. revert k.
  induction vals as [|v vals IH]; intros k acc Hd; [by rewrite app_nil_r|].
  apply Forall_cons in Hd as [Hv Hd]. cbn [rfold moves omap list_omap fmap list_fmap].
  unfold replace_validator at 1, new_val at 1, new_key.
  destruct (isReplacedValidator r (OperatorAddress v)) as [c|]; cbn.
  - destruct (Hv c eq_refl) as [key ->]. cbn. rewrite IH by done. by rewrite <- app_assoc.
  - rewrite IH by done. by rewrite <- app_assoc.
Qed.

(** No validator takes the key that a later one gives up. *)
Definition apart (ms : list (string * string)) : Prop :=
  ForallOrdPairs (fun m m' => ConsAddress m.2 <> m'.1) ms.
Definition cons_injective : Prop := forall a b, ConsString a = ConsString b -> a = b.

Lemma find_none (ms : list (string * string)) (p : string * string -> bool) :
  Forall (fun m => p m = false) ms -> List.find p ms = None.
Proof using Type. induction 1 as [|m ms Hm _ IH]; [done|]. cbn. by rewrite Hm. Qed.

Lemma moves_at_once ms : cons_injective -> apart ms -> forall k, foldl move_one k ms = move_all ms k.
Proof using Type.
  intros Hinj. induction 1 as [|m ms Hm _ IH]; intros k.
  { destruct k. unfold move_all. cbn. by rewrite !list_fmap_id. }
  assert (forall a, a = ConsAddress m.2 -> Forall (fun m' : string * string => String.eqb a m'.1 = false) ms) as F1.
  { intros a ->. eapply Forall_impl; [exact Hm|]. intros m' Hne. by apply String.eqb_neq. }
  assert (forall a, a = ConsString (ConsAddress m.2) ->
    Forall (fun m' : string * string => String.eqb a (ConsString m'.1) = false) ms) as F2.
  { intros a ->. eapply Forall_impl; [exact Hm|]. intros m' Hne. apply String.eqb_neq. intros E. by apply Hne, Hinj. }
  cbn [foldl]. rewrite IH. unfold move_all, move_one, replace_keyed. cbn [KInfos KMissed KGen].
  rewrite <- !list_fmap_compose. f_equal; apply list_fmap_ext; intros j x _; unfold compose.
  - unfold replace_info, move_info at 2. cbn [List.find]. destruct (String.eqb (SAddress x) (ConsString m.1)) eqn:E; [|done].
    unfold move_info. cbn [SAddress]. by rewrite find_none by (by apply F2).
  - unfold replace_missed, move_missed at 2. cbn [List.find]. destruct (String.eqb (MAddress x) (ConsString m.1)) eqn:E; [|done].
    unfold move_missed. cbn [MAddress]. by rewrite find_none by (by apply F2).
  - unfold replace_gen, move_gen at 2, moved. cbn [List.find]. destruct (String.eqb (GAddress x) m.1) eqn:E; [|done].
    cbn. unfold move_gen, moved. cbn [GAddress]. by rewrite find_none by (by apply F1).
Qed.

(** Each validator's own address is moved to that of its new key. *)
Lemma moved_own vals v : NoDup ((fun v => ConsAddress (ConsensusPubkey v)) <$> vals) -> v ∈ vals ->
  moved (moves vals) (ConsAddress (ConsensusPubkey v)) = new_key v.
Proof using Type.
  induction vals as [|w vals IH]; intros Hnd Hv; [by apply not_elem_of_nil in Hv|].
  cbn in Hnd. apply NoDup_cons in Hnd as [Hni Hnd]. apply elem_of_cons in Hv as [->|Hv].
  - unfold moves, moved. cbn [omap list_omap]. destruct (new_key w) as [key|] eqn:Ek; cbn.
    + by rewrite String.eqb_refl.
    + rewrite find_none; [done|]. apply Forall_forall. intros m (u & Hu & Em)%list_elem_of_omap.
      destruct (new_key u); [|done]. injection Em as <-. apply String.eqb_neq. cbn. intros E.
      apply Hni. apply list_elem_of_fmap. by exists u.
  - unfold moves, moved. cbn [omap list_omap]. destruct (new_key w) as [key|]; [|by apply IH]. cbn.
    destruct (String.eqb_spec (ConsAddress (ConsensusPubkey v)) (ConsAddress (ConsensusPubkey w))) as [E|_].
    + exfalso. apply Hni. rewrite <- E. apply list_elem_of_fmap. by exists v.
    + by apply IH.
Qed.

(** Replacing consensus keys.  When the new keys can be decoded, the
    validators' addresses differ and nobody takes a key that a later validator
    gives up, the replacement succeeds and is simultaneous: each listed validator
    gets its key and nothing else of it changes, every signing info, every record
    of missed blocks and every genesis validator filed under the address of a
    replaced key moves to the address of that validator's new key and keeps its
    power, name and counters, and all others stay as they are. *)
Theorem keys_replaced vals k : cons_injective ->
  Forall (fun v => forall c, isReplacedValidator r (OperatorAddress v) = Some c ->
    exists key, DecodeKey (RConsensusPubkey c) = Ok key) vals ->
  NoDup ((fun v => ConsAddress (ConsensusPubkey v)) <$> vals) -> apart (moves vals) ->
  replace_all r vals k = Ok (new_val <$> vals, move_all (moves vals) k) /\
  (forall v, v ∈ vals -> moved (moves vals) (ConsAddress (ConsensusPubkey v)) = new_key v) /\
  (forall a, a ∉ (fun v => ConsAddress (ConsensusPubkey v)) <$> vals -> moved (moves vals) a = None).
Proof using Type.
  intros Hinj Hd Hnd Ha. split_and!.
  - rewrite replace_all_run by done. by rewrite moves_at_once.
  - intros v Hv. by apply moved_own.
  - intros a Hna. unfold moved. rewrite find_none; [done|]. apply Forall_forall.
    intros m (u & Hu & Em)%list_elem_of_omap. destruct (new_key u); [|done]. injection Em as <-.
    apply String.eqb_neq. cbn. intros ->. apply Hna. apply list_elem_of_fmap. by exists u.
Qed.
End Replace.

(** ** The whole command *)

(** What is marshalled can be read again. *)
Class GenesisCodecLaws `{GenesisCodec} : Prop := {
  App_roundtrip m s : MarshalApp m = Ok s -> UnmarshalApp s = Ok m;
  Staking_roundtrip g : UnmarshalStaking (MarshalStaking g) = Some g;
  keys_distinct : NoDup [bankKey; oracleKey; stakingKey; slashingKey; transferKey; ibcKey; capabilityKey; evidenceKey];
}.

Section Command.
Context `{HG : GoStrings, HC : GenesisCodec, !GenesisCodecLaws}.

(** A migration without key replacement: consensus limits are the new ones, IBC
    starts with transfers off, staking keeps its validators with a longer
    history, the bank has the metadata, and the states of all other modules are
    untouched. *)
Theorem migration_result flags doc doc' : fReplacementKeys flags = None ->
  MigrateGenesis flags doc = Ok doc' ->
  BlockMaxBytes doc' = 5000000 /\ BlockMaxGas doc' = 1000000000 /\ EvidenceMaxBytes doc' = 50000 /\
  GValidators doc' = GValidators doc /\
  exists st st' bank whitelist ms staking,
    UnmarshalApp (AppState doc) = Ok st /\ UnmarshalApp (AppState doc') = Ok st' /\
    st !! bankKey ≫= UnmarshalBank = Some bank /\ st !! oracleKey ≫= UnmarshalWhitelist = Some whitelist /\
    denom_metadatas whitelist = Ok ms /\ st' !! bankKey = Some (MarshalBank (mkBankGenesis ms (BankRest bank))) /\
    st !! stakingKey ≫= UnmarshalStaking = Some staking /\
    st' !! stakingKey ≫= UnmarshalStaking = Some (mkStakingGenesis 10000 (StakingValidators staking) (StakingRest staking)) /\
    (forall m, m ∉ [bankKey; stakingKey; transferKey; ibcKey; capabilityKey; evidenceKey] -> st' !! m = st !! m).
Proof using Type*.
  intros Hk. unfold MigrateGenesis, migrate_app, must_state. intros (st & Hst & R)%rbind_Ok.
  apply rbind_Ok in R as (st' & R' & R). apply rbind_Ok in R as (app & Happ & R).
  apply rbind_Ok in R as (time & _ & R). rewrite Hk in R. injection R as <-. cbn.
  split_and!; [done..|]. destruct (st !! bankKey ≫= UnmarshalBank) as [bank|] eqn:Eb; [|done].
  cbn [rbind] in R'. destruct (st !! oracleKey ≫= UnmarshalWhitelist) as [whitelist|] eqn:Eo; [|done].
  cbn [rbind] in R'. apply rbind_Ok in R' as (ms & Hms & R').
  pose proof keys_distinct as Hd. rewrite !NoDup_cons in Hd.
  rewrite !not_elem_of_cons in Hd. destruct Hd as (B & O & S & L & T & I & C & E).
  rewrite lookup_insert_ne in R' by (apply not_eq_sym, S || intuition congruence).
  destruct (st !! stakingKey ≫= UnmarshalStaking) as [staking|] eqn:Es; [|done]. cbn [rbind] in R'.
  injection R' as <-. exists st. eexists. exists bank, whitelist, ms, staking.
  split_and!; [done|by apply App_roundtrip|done|done|done| |done| |].
  - rewrite !lookup_insert_ne by intuition congruence. apply lookup_insert_eq.
  - rewrite lookup_insert_eq. cbn. apply Staking_roundtrip.
  - intros m Hm. rewrite !not_elem_of_cons in Hm. by rewrite !lookup_insert_ne by intuition congruence.
Qed.
End Command.

(** ** Concrete keys *)

Section Demo.
(** Keys are their own addresses; the codec is not used. *)
#[local] Instance demo_codec : GenesisCodec := {|
  UnmarshalApp _ := Panic; MarshalApp _ := Panic;
  bankKey := "bank"; oracleKey := "oracle"; stakingKey := "staking"; slashingKey := "slashing";
  transferKey := "transfer"; ibcKey := "ibc"; capabilityKey := "capability"; evidenceKey := "evidence";
  UnmarshalBank _ := None; MarshalBank _ := ""; UnmarshalWhitelist _ := None;
  UnmarshalStaking _ := None; MarshalStaking _ := ""; UnmarshalSlashing _ := None; MarshalSlashing _ := "";
  DefaultTransfer := mkTransfer true true ""; MarshalTransfer _ := ""; MarshalIbc _ := "";
  TendermintClient := "07-tendermint"; DefaultCapability := ""; DefaultEvidence := "";
  ParseTime s := Ok s; DecodeKey s := Ok s; ConsAddress s := s; ConsString s := "terravalcons1" +:+ s |}.

Definition demo_vals : list StakingValidator :=
  [mkStakingValidator "op1" "keyA" ""; mkStakingValidator "op2" "keyB" ""].
Definition demo_keyed : Keyed := mkKeyed
  [mkSigningInfo (ConsString "keyA") (ConsString "keyA") "i1"; mkSigningInfo (ConsString "keyB") (ConsString "keyB") "i2"]
  [mkMissed (ConsString "keyB") "m2"]
  [mkGenValidator "keyA" "keyA" 10 "one"; mkGenValidator "keyB" "keyB" 20 "two"].
Definition one_new : list replacementConfig := [mkReplacement "two" "op2" "keyC"].

Lemma keys_replaced_witness :
  replace_all one_new demo_vals demo_keyed =
  Ok ([mkStakingValidator "op1" "keyA" ""; mkStakingValidator "op2" "keyC" ""],
      mkKeyed
        [mkSigningInfo (ConsString "keyA") (ConsString "keyA") "i1"; mkSigningInfo (ConsString "keyC") (ConsString "keyC") "i2"]
        [mkMissed (ConsString "keyC") "m2"]
        [mkGenValidator "keyA" "keyA" 10 "one"; mkGenValidator "keyC" "keyC" 20 "two"]).
Proof.
  destruct (keys_replaced one_new demo_vals demo_keyed) as [R _].
  - intros a b. apply str_app_inj_l.
  - apply Forall_forall. intros v _ c _. by exists (RConsensusPubkey c).
  - apply (bool_decide_unpack _). by vm_compute.
  - repeat constructor.
  - rewrite R. by vm_compute.
Defined.

(** Two validators that exchange their keys end up with the same one. *)
Example exchanged_keys_collide :
  replace_all [mkReplacement "one" "op1" "keyB"; mkReplacement "two" "op2" "keyA"] demo_vals demo_keyed =
  Ok ([mkStakingValidator "op1" "keyB" ""; mkStakingValidator "op2" "keyA" ""],
      mkKeyed
        [mkSigningInfo (ConsString "keyA") (ConsString "keyA") "i1"; mkSigningInfo (ConsString "keyA") (ConsString "keyA") "i2"]
        [mkMissed (ConsString "keyA") "m2"]
        [mkGenValidator "keyA" "keyA" 10 "one"; mkGenValidator "keyA" "keyA" 20 "two"]).
Proof. by vm_compute. Qed.
End Demo.
End LegacyGenesis.
