(* ===== verification/LegacyWasm.v ===== *)
(** * Messages of the old wasm module

    The messages kept for old transactions ([custom/wasm/types/legacy/msgs.go]):
    constructors, stateless validation and signers.  What a validated message may
    hold is stated in full, and no validated message panics when its signers are
    read. *)

From S2P Require Import Prelude Sdk SdkRef.

(** [json.Valid] *)
Class JsonSyntax := json_Valid : string -> bool.

Module LegacyWasm.

Definition EnforcedMaxContractSize : Z := 3000 * 1024.
Definition EnforcedMaxContractMsgSize : Z := 20 * 1024.

Definition ErrInvalidAddress := SdkError "invalid address".
Definition ErrInvalidRequest := SdkError "invalid request".
Definition ErrInvalidCoins := SdkError "invalid coins".

Inductive Msg :=
  | MsgStoreCode (Sender WASMByteCode : string)
  | MsgMigrateCode (CodeID : Z) (Sender WASMByteCode : string)
  | MsgInstantiateContract (Sender Admin : string) (CodeID : Z) (InitMsg : string) (InitCoins : Coins)
  | MsgExecuteContract (Sender Contract ExecuteMsg : string) (funds : Coins)
  | MsgMigrateContract (Admin Contract : string) (NewCodeID : Z) (MigrateMsg : string)
  | MsgUpdateContractAdmin (Admin NewAdmin Contract : string)
  | MsgClearContractAdmin (Admin Contract : string).

Section Msgs.
Context `{HA : Bech32, HC : SdkCoins, HJ : JsonSyntax}.

(** The constructors take address bytes; an empty admin stays the empty string. *)
Definition NewMsgStoreCode (sender wasmByteCode : string) : Msg :=
  MsgStoreCode (AccString sender) wasmByteCode.
Definition NewMsgMigrateCode (codeID : Z) (sender wasmByteCode : string) : Msg :=
  MsgMigrateCode codeID (AccString sender) wasmByteCode.
Definition NewMsgInstantiateContract (sender admin : string) (codeID : Z) (initMsg : string)
    (initCoins : Coins) : Msg :=
  MsgInstantiateContract (AccString sender) (if String.eqb admin "" then "" else AccString admin)
    codeID initMsg initCoins.
Definition NewMsgExecuteContract (sender contract execMsg : string) (coins : Coins) : Msg :=
  MsgExecuteContract (AccString sender) (AccString contract) execMsg coins.
Definition NewMsgMigrateContract (admin contract : string) (newCodeID : Z) (migrateMsg : string) : Msg :=
  MsgMigrateContract (AccString admin) (AccString contract) newCodeID migrateMsg.
Definition NewMsgUpdateContractAdmin (admin newAdmin contract : string) : Msg :=
  MsgUpdateContractAdmin (AccString admin) (AccString newAdmin) (AccString contract).
Definition NewMsgClearContractAdmin (admin contract : string) : Msg :=
  MsgClearContractAdmin (AccString admin) (AccString contract).

(** An address, with the error wrapped. *)
Definition check_address (a : string) : res unit :=
  match AccAddressFromBech32 a with Ok _ => Ok tt | Err _ => Err ErrInvalidAddress | Panic => Panic end.
Definition require (b : bool) (e : error) : res unit := if b then Ok tt else Err e.

Definition check_code (code : string) : res unit :=
  let! _ := require (negb (Z.of_nat (String.length code) =? 0)) ErrInvalidRequest in
  require (negb (EnforcedMaxContractSize <? Z.of_nat (String.length code))) ErrInvalidRequest.
Definition check_payload (msg : string) : res unit :=
  let! _ := require (negb (EnforcedMaxContractMsgSize <? Z.of_nat (String.length msg))) ErrInvalidRequest in
  require (json_Valid msg) ErrInvalidRequest.

Definition StoreCode_ValidateBasic (Sender WASMByteCode : string) : res unit :=
  let! _ := check_address Sender in
  check_code WASMByteCode.
Definition MigrateCode_ValidateBasic (Sender WASMByteCode : string) : res unit :=
  let! _ := check_address Sender in
  check_code WASMByteCode.
Definition InstantiateContract_ValidateBasic (Sender Admin InitMsg : string) (InitCoins : Coins) : res unit :=
  let! _ := check_address Sender in
  let! _ := if negb (String.length Admin =? 0)%nat then check_address Admin else Ok tt in
  let! _ := require (Coins_IsValid InitCoins) ErrInvalidCoins in
  check_payload InitMsg.
Definition ExecuteContract_ValidateBasic (Sender Contract ExecuteMsg : string) (coins : Coins) : res unit :=
  let! _ := check_address Sender in
  let! _ := check_address Contract in
  let! _ := require (Coins_IsValid coins) ErrInvalidCoins in
  check_payload ExecuteMsg.
Definition MigrateContract_ValidateBasic (Admin Contract : string) (NewCodeID : Z) (MigrateMsg : string) : res unit :=
  let! _ := require (negb (NewCodeID =? 0)) ErrInvalidRequest in
  let! _ := check_address Admin in
  let! _ := check_address Contract in
  check_payload MigrateMsg.
Definition UpdateContractAdmin_ValidateBasic (Admin NewAdmin Contract : string) : res unit :=
  let! _ := check_address Admin in
  let! _ := check_address NewAdmin in
  check_address Contract.
Definition ClearContractAdmin_ValidateBasic (Admin Contract : string) : res unit :=
  let! _ := check_address Admin in
  check_address Contract.

Definition ValidateBasic (msg : Msg) : res unit :=
  match msg with
  | MsgStoreCode sender code => StoreCode_ValidateBasic sender code
  | MsgMigrateCode _ sender code => MigrateCode_ValidateBasic sender code
  | MsgInstantiateContract sender admin _ initMsg initCoins =>
      InstantiateContract_ValidateBasic sender admin initMsg initCoins
  | MsgExecuteContract sender contract execMsg coins =>
      ExecuteContract_ValidateBasic sender contract execMsg coins
  | MsgMigrateContract admin contract newCodeID migrateMsg =>
      MigrateContract_ValidateBasic admin contract newCodeID migrateMsg
  | MsgUpdateContractAdmin admin newAdmin contract =>
      UpdateContractAdmin_ValidateBasic admin newAdmin contract
  | MsgClearContractAdmin admin contract => ClearContractAdmin_ValidateBasic admin contract
  end.

(** The account that signs: the sender, or the admin. *)
Definition signer (msg : Msg) : string :=
  match msg with
  | MsgStoreCode sender _ | MsgMigrateCode _ sender _ | MsgInstantiateContract sender _ _ _ _
  | MsgExecuteContract sender _ _ _ => sender
  | MsgMigrateContract admin _ _ _ | MsgUpdateContractAdmin admin _ _
  | MsgClearContractAdmin admin _ => admin
  end.

(** The seven [GetSigners] are alike; a bad address is a panic. *)
Definition GetSigners (msg : Msg) : res (list string) :=
  match AccAddressFromBech32 (signer msg) with Ok a => Ok [a] | _ => Panic end.
End Msgs.

(** ** What validation promises *)

Section Spec.
Context `{HA : Bech32, HC : SdkCoins, HJ : JsonSyntax}.

Definition valid_address (a : string) : Prop := exists b, AccAddressFromBech32 a = Ok b.
Definition code_ok (code : string) : Prop := 0 < Z.of_nat (String.length code) <= 3072000.
Definition payload_ok (msg : string) : Prop :=
  Z.of_nat (String.length msg) <= 20480 /\ json_Valid msg = true.

Definition accepted (msg : Msg) : Prop :=
  match msg with
  | MsgStoreCode sender code | MsgMigrateCode _ sender code => valid_address sender /\ code_ok code
  | MsgInstantiateContract sender admin _ initMsg initCoins =>
      valid_address sender /\ (admin = "" \/ valid_address admin) /\ coins_ok initCoins /\ payload_ok initMsg
  | MsgExecuteContract sender contract execMsg coins =>
      valid_address sender /\ valid_address contract /\ coins_ok coins /\ payload_ok execMsg
  | MsgMigrateContract admin contract newCodeID migrateMsg =>
      newCodeID <> 0 /\ valid_address admin /\ valid_address contract /\ payload_ok migrateMsg
  | MsgUpdateContractAdmin admin newAdmin contract =>
      valid_address admin /\ valid_address newAdmin /\ valid_address contract
  | MsgClearContractAdmin admin contract => valid_address admin /\ valid_address contract
  end.

Lemma rbind_unit (c k : res unit) : (let! _ := c in k) = Ok tt <-> c = Ok tt /\ k = Ok tt.
Proof using Type. destruct c as [[]| |]; simpl; intuition congruence. Qed.

Lemma require_spec b e : require b e = Ok tt <-> b = true.
Proof using Type. by destruct b. Qed.

Lemma check_address_spec a : check_address a = Ok tt <-> valid_address a.
Proof using Type.
  unfold check_address, valid_address. destruct (AccAddressFromBech32 a) as [b| |];
    [split; eauto | split; [done|]; by intros [] ..].
Qed.

Lemma check_code_spec code : check_code code = Ok tt <-> code_ok code.
Proof using Type.
  unfold check_code, code_ok, EnforcedMaxContractSize. rewrite rbind_unit, !require_spec, !negb_true_iff,
    Z.eqb_neq, Z.ltb_ge. lia.
Qed.

Lemma check_payload_spec msg : check_payload msg = Ok tt <-> payload_ok msg.
Proof using Type.
  unfold check_payload, payload_ok, EnforcedMaxContractMsgSize.
  rewrite rbind_unit, !require_spec, negb_true_iff, Z.ltb_ge. done.
Qed.

Lemma optional_address a :
  (if negb (String.length a =? 0)%nat then check_address a else Ok tt) = Ok tt <-> a = "" \/ valid_address a.
Proof using Type.
  destruct a as [|c a]; simpl; [intuition|]. rewrite check_address_spec. intuition discriminate.
Qed.
End Spec.

Ltac unfold_messages := unfold StoreCode_ValidateBasic, MigrateCode_ValidateBasic,
  InstantiateContract_ValidateBasic, ExecuteContract_ValidateBasic, MigrateContract_ValidateBasic,
  UpdateContractAdmin_ValidateBasic, ClearContractAdmin_ValidateBasic.

Create Rewrite HintDb messages.
#[export] Hint Rewrite @rbind_unit @require_spec @check_address_spec @check_code_spec @check_payload_spec
  @optional_address negb_true_iff Z.eqb_neq : messages.

Section Theorems.
Context `{HM : SdkMath, HA : Bech32, HC : SdkCoins, HJ : JsonSyntax, !Bech32Laws, !SdkCoinsLaws}.

Lemma accepted_iff msg : ValidateBasic msg = Ok tt <-> accepted msg.
Proof using Type*.
  destruct msg; cbv [accepted ValidateBasic]; unfold_messages; autorewrite with messages; rewrite ?Coins_IsValid_spec; tauto.
Qed.

Lemma accepted_signer msg : accepted msg -> valid_address (signer msg).
Proof using Type. destruct msg; simpl; tauto. Qed.

Lemma validate_no_panic msg : ValidateBasic msg <> Panic.
Proof using Type*.
  assert (Ha : forall a, check_address a <> Panic).
  { intros a. unfold check_address. pose proof (AccAddress_no_panic a). by destruct (AccAddressFromBech32 a). }
  assert (Hr : forall b e, require b e <> Panic) by (intros []; done).
  assert (Hb : forall c k : res unit, c <> Panic -> k <> Panic -> (let! _ := c in k) <> Panic)
    by (intros [[]| |]; done).
  destruct msg; cbv [ValidateBasic]; unfold_messages; unfold check_code, check_payload; repeat (apply Hb; [auto|]); auto.
  case_match; auto.
Qed.

(** Validation of the old wasm messages accepts exactly the messages with
    valid addresses, valid coins, code of 1 to 3,072,000 bytes and JSON payloads
    of at most 20,480 bytes, and never panics; the signers of an accepted message
    can be read without a panic and are exactly the address of its sender or
    admin; and what the constructors build from proper addresses has that
    address as its signer. *)
Theorem legacy_messages_checked (msg : Msg) :
  (ValidateBasic msg = Ok tt <-> accepted msg) /\ ValidateBasic msg <> Panic /\
  (ValidateBasic msg = Ok tt -> exists a, GetSigners msg = Ok [a] /\ AccAddressFromBech32 (signer msg) = Ok a) /\
  (forall a, addr_ok a = true ->
    (forall code, GetSigners (NewMsgStoreCode a code) = Ok [a]) /\
    (forall n code, GetSigners (NewMsgMigrateCode n a code) = Ok [a]) /\
    (forall adm n m cs, GetSigners (NewMsgInstantiateContract a adm n m cs) = Ok [a]) /\
    (forall c m cs, GetSigners (NewMsgExecuteContract a c m cs) = Ok [a]) /\
    (forall c n m, GetSigners (NewMsgMigrateContract a c n m) = Ok [a]) /\
    (forall b c, GetSigners (NewMsgUpdateContractAdmin a b c) = Ok [a]) /\
    (forall c, GetSigners (NewMsgClearContractAdmin a c) = Ok [a])).
Proof using Type*.
  split; [apply accepted_iff|]. split; [apply validate_no_panic|]. split.
  - intros Hok. apply accepted_iff, accepted_signer in Hok as [a Ha]. exists a. unfold GetSigners. by rewrite Ha.
  - intros a Ha. unfold GetSigners. repeat split; intros; simpl; by rewrite AccAddress_roundtrip.
Qed.

(** A message built from proper addresses is accepted when its payload is. *)
Lemma built_messages_accepted sender admin n m cs : addr_ok sender = true ->
  (admin = "" \/ addr_ok admin = true) -> coins_ok cs -> payload_ok m ->
  ValidateBasic (NewMsgInstantiateContract sender admin n m cs) = Ok tt.
Proof using Type*.
  intros Hs Had Hc Hp. apply accepted_iff. simpl. split; [by eexists; apply AccAddress_roundtrip|].
  split; [|done]. destruct (String.eqb_spec admin "") as [|Hne]; [by left|]. right.
  destruct Had as [|Had]; [done|]. by eexists; apply AccAddress_roundtrip.
Qed.
End Theorems.
End LegacyWasm.
