(* ===== verification/ExemptionMsgs.v ===== *)
(** * Messages, proposals and lists of the exemption module

    The rest of [x/taxexemption]: constructors and signers of the messages
    ([types/msgs.go]), the governance proposals ([types/proposal.go]) and the two
    paginated lists ([keeper.go], [querier.go]).  Only messages that governance
    signs change the zones, and reading a list page by page yields every entry
    exactly once. *)

From S2P Require Import Prelude Sdk SdkRef Core Pagination TaxExemption TaxExemptionFacts.

Module ExemptionMsgs.
Import Pagination TaxExemption TaxExemptionFacts.

Definition RouterKey : string := ModuleName.
Definition ErrUnknownAddress := SdkError "unknown address".

(** ** Messages *)

Section Messages.
Context `{HA : Bech32}.

(** Title and description are taken and dropped. *)
Definition NewMsgAddTaxExemptionZone (title description zone : string) (outgoing incoming crossZone : bool)
    (addresses : list string) (authority : string) : Msg :=
  MsgAddTaxExemptionZone (AccString authority) zone outgoing incoming crossZone addresses.
Definition NewMsgRemoveTaxExemptionZone (title description zone authority : string) : Msg :=
  MsgRemoveTaxExemptionZone (AccString authority) zone.
Definition NewMsgModifyTaxExemptionZone (title description zone : string)
    (outgoing incoming crossZone : bool) (authority : string) : Msg :=
  MsgModifyTaxExemptionZone (AccString authority) zone outgoing incoming crossZone.
Definition NewMsgAddTaxExemptionAddress (title description zone : string) (addresses : list string)
    (authority : string) : Msg :=
  MsgAddTaxExemptionAddress (AccString authority) zone addresses.
Definition NewMsgRemoveTaxExemptionAddress (title description zone : string) (addresses : list string)
    (authority : string) : Msg :=
  MsgRemoveTaxExemptionAddress (AccString authority) zone addresses.

Definition Type_ (msg : Msg) : string :=
  match msg with
  | MsgAddTaxExemptionZone _ _ _ _ _ _ => "AddTaxExemptionZone"
  | MsgRemoveTaxExemptionZone _ _ => "RemoveTaxExemptionZone"
  | MsgModifyTaxExemptionZone _ _ _ _ _ => "ModifyTaxExemptionZone"
  | MsgAddTaxExemptionAddress _ _ _ => "AddTaxExemptionAddress"
  | MsgRemoveTaxExemptionAddress _ _ _ => "RemoveTaxExemptionAddress"
  end.

Definition msg_authority (msg : Msg) : string :=
  match msg with
  | MsgAddTaxExemptionZone a _ _ _ _ _ | MsgRemoveTaxExemptionZone a _
  | MsgModifyTaxExemptionZone a _ _ _ _ | MsgAddTaxExemptionAddress a _ _
  | MsgRemoveTaxExemptionAddress a _ _ => a
  end.

(** A bad authority gives no signers, not a panic. *)
Definition GetSigners (msg : Msg) : res (list string) :=
  match AccAddressFromBech32 (msg_authority msg) with
  | Ok addr => Ok [addr]
  | Err _ => Ok []
  | Panic => Panic
  end.

(** ** Proposals *)

Inductive Proposal :=
  | AddTaxExemptionZoneProposal (Title Description Zone : string) (Outgoing Incoming CrossZone : bool)
      (Addresses : list string) (Authority : string)
  | RemoveTaxExemptionZoneProposal (Title Description Zone Authority : string)
  | ModifyTaxExemptionZoneProposal (Title Description Zone : string) (Outgoing Incoming CrossZone : bool)
      (Authority : string)
  | AddTaxExemptionAddressProposal (Title Description Zone : string) (Addresses : list string)
      (Authority : string)
  | RemoveTaxExemptionAddressProposal (Title Description Zone : string) (Addresses : list string)
      (Authority : string).

Definition GetTitle (p : Proposal) : string :=
  match p with
  | AddTaxExemptionZoneProposal t _ _ _ _ _ _ _ | RemoveTaxExemptionZoneProposal t _ _ _
  | ModifyTaxExemptionZoneProposal t _ _ _ _ _ _ | AddTaxExemptionAddressProposal t _ _ _ _
  | RemoveTaxExemptionAddressProposal t _ _ _ _ => t
  end.
Definition GetDescription (p : Proposal) : string :=
  match p with
  | AddTaxExemptionZoneProposal _ d _ _ _ _ _ _ | RemoveTaxExemptionZoneProposal _ d _ _
  | ModifyTaxExemptionZoneProposal _ d _ _ _ _ _ | AddTaxExemptionAddressProposal _ d _ _ _
  | RemoveTaxExemptionAddressProposal _ d _ _ _ => d
  end.
Definition ProposalRoute (p : Proposal) : string := RouterKey.
Definition ProposalType (p : Proposal) : string :=
  match p with
  | AddTaxExemptionZoneProposal _ _ _ _ _ _ _ _ => "AddTaxExemptionZone"
  | RemoveTaxExemptionZoneProposal _ _ _ _ => "RemoveTaxExemptionZone"
  | ModifyTaxExemptionZoneProposal _ _ _ _ _ _ _ => "ModifyTaxExemptionZone"
  | AddTaxExemptionAddressProposal _ _ _ _ _ => "AddTaxExemptionAddress"
  | RemoveTaxExemptionAddressProposal _ _ _ _ _ => "RemoveTaxExemptionAddress"
  end.

Definition proposal_zone (zone : string) : res unit :=
  if String.eqb zone "" then Err ErrUnknownAddress else Ok tt.
Definition proposal_addresses (addresses : list string) : res unit :=
  rfold (fun _ address =>
    match AccAddressFromBech32 address with
    | Ok _ => Ok tt | Err _ => Err ErrInvalidAddress | Panic => Panic
    end) tt addresses.

(** [validateAbstract] is [govv1beta1.ValidateAbstract] of title and description. *)
Section Validate.
Context (validateAbstract : string -> string -> res unit).

Definition AddZoneProposal_ValidateBasic (title description zone : string) (addresses : list string) : res unit :=
  let! _ := validateAbstract title description in
  let! _ := proposal_zone zone in
  proposal_addresses addresses.
Definition RemoveZoneProposal_ValidateBasic (title description zone : string) : res unit :=
  let! _ := validateAbstract title description in
  proposal_zone zone.
Definition ModifyZoneProposal_ValidateBasic (title description zone : string) : res unit :=
  let! _ := validateAbstract title description in
  proposal_zone zone.
Definition AddAddressProposal_ValidateBasic (title description : string) (addresses : list string) : res unit :=
  let! _ := validateAbstract title description in
  proposal_addresses addresses.
Definition RemoveAddressProposal_ValidateBasic (title description : string) (addresses : list string) : res unit :=
  let! _ := validateAbstract title description in
  proposal_addresses addresses.

Definition Proposal_ValidateBasic (p : Proposal) : res unit :=
  match p with
  | AddTaxExemptionZoneProposal t d zone _ _ _ addresses _ => AddZoneProposal_ValidateBasic t d zone addresses
  | RemoveTaxExemptionZoneProposal t d zone _ => RemoveZoneProposal_ValidateBasic t d zone
  | ModifyTaxExemptionZoneProposal t d zone _ _ _ _ => ModifyZoneProposal_ValidateBasic t d zone
  | AddTaxExemptionAddressProposal t d _ addresses _ => AddAddressProposal_ValidateBasic t d addresses
  | RemoveTaxExemptionAddressProposal t d _ addresses _ => RemoveAddressProposal_ValidateBasic t d addresses
  end.
End Validate.

(** The message that does what a proposal asks for. *)
Definition message_of (p : Proposal) : Msg :=
  match p with
  | AddTaxExemptionZoneProposal _ _ z o i x l a => MsgAddTaxExemptionZone a z o i x l
  | RemoveTaxExemptionZoneProposal _ _ z a => MsgRemoveTaxExemptionZone a z
  | ModifyTaxExemptionZoneProposal _ _ z o i x a => MsgModifyTaxExemptionZone a z o i x
  | AddTaxExemptionAddressProposal _ _ z l a => MsgAddTaxExemptionAddress a z l
  | RemoveTaxExemptionAddressProposal _ _ z l a => MsgRemoveTaxExemptionAddress a z l
  end.
End Messages.

(** ** Paginated lists *)

Section Lists.
Context `{HP : Paginator}.

Definition ListTaxExemptionZones (s : Store) (page : PageRequest) : res (list Zone * PageResponse) :=
  let! r := FilteredPaginate (kv_iter id (Zones s)) page (fun _ zone accumulate zones =>
    Ok (true, if accumulate then zones ++ [zone] else zones)) [] in
  Ok (r.2, r.1).

Definition ListTaxExemptionAddresses (s : Store) (ZoneName : string) (page : PageRequest)
    : res (list string * PageResponse) :=
  let! r := FilteredPaginate (kv_iter id (Members s)) page (fun key value accumulate addresses =>
    if String.eqb ZoneName "" || String.eqb value ZoneName
    then Ok (true, if accumulate then addresses ++ [key] else addresses)
    else Ok (false, addresses)) [] in
  Ok (r.2, r.1).

(** [TaxExemptionZonesList] and [TaxExemptionAddressList] hand the lists on. *)
Definition query_zones (s : Store) (page : PageRequest) : res (list Zone * PageResponse) :=
  ListTaxExemptionZones s page.
Definition query_addresses (s : Store) (ZoneName : string) (page : PageRequest)
    : res (list string * PageResponse) := ListTaxExemptionAddresses s ZoneName page.
End Lists.

(** ** Theorems *)

Section Facts.
Context `{HA : Bech32, HP : Paginator, !PaginatorLaws}.

(** What a message that changed the store was signed with. *)
Lemma governed authority gov msg s s' : AccAddressFromBech32 authority = Ok gov ->
  handle authority msg s = Ret tt s' -> GetSigners msg = Ok [gov].
Proof using Type.
  intros Hg R. unfold GetSigners.
  assert (msg_authority msg = authority) as ->; [|by rewrite Hg].
  destruct msg; simpl in R; by apply authorized_run in R as [-> _].
Qed.

(** Any other authority is refused before the store is touched. *)
Lemma foreign_refused authority msg s : msg_authority msg <> authority ->
  handle authority msg s = Fail ErrInvalidSigner s.
Proof using Type.
  intros Hne. destruct msg; simpl in *; unfold server_AddTaxExemptionZone, server_RemoveTaxExemptionZone,
    server_ModifyTaxExemptionZone, server_AddTaxExemptionAddress, server_RemoveTaxExemptionAddress, authorized;
    by destruct (String.eqb_spec authority Authority) as [->|].
Qed.

Definition valid_address (a : string) : Prop := exists b, AccAddressFromBech32 a = Ok b.

Lemma proposal_addresses_spec l : proposal_addresses l = Ok tt <-> Forall valid_address l.
Proof using Type.
  unfold proposal_addresses. induction l as [|a l IH]; [by split|].
  rewrite Forall_cons, <- IH. unfold valid_address. cbn. destruct (AccAddressFromBech32 a) as [b| |]; cbn;
    split; try done; [by eauto|by intros [_ ?]|by intros [[] _]..].
Qed.

(** What a validated proposal may hold. *)
Definition proposal_ok (p : Proposal) : Prop :=
  match p with
  | AddTaxExemptionZoneProposal _ _ zone _ _ _ addresses _ => zone <> "" /\ Forall valid_address addresses
  | RemoveTaxExemptionZoneProposal _ _ zone _ | ModifyTaxExemptionZoneProposal _ _ zone _ _ _ _ => zone <> ""
  | AddTaxExemptionAddressProposal _ _ _ addresses _
  | RemoveTaxExemptionAddressProposal _ _ _ addresses _ => Forall valid_address addresses
  end.

Lemma Proposal_ValidateBasic_spec va p : Proposal_ValidateBasic va p = Ok tt <->
  va (GetTitle p) (GetDescription p) = Ok tt /\ proposal_ok p.
Proof using Type.
  assert (Hz : forall z, proposal_zone z = Ok tt <-> z <> "").
  { intros z. unfold proposal_zone. by destruct (String.eqb_spec z ""). }
  assert (Hb : forall c k : res unit, (let! _ := c in k) = Ok tt <-> c = Ok tt /\ k = Ok tt).
  { intros [[]| |] k; simpl; intuition congruence. }
  destruct p; cbn [Proposal_ValidateBasic proposal_ok GetTitle GetDescription];
    unfold AddZoneProposal_ValidateBasic, RemoveZoneProposal_ValidateBasic, ModifyZoneProposal_ValidateBasic,
      AddAddressProposal_ValidateBasic, RemoveAddressProposal_ValidateBasic;
    rewrite !Hb, ?Hz, ?proposal_addresses_spec; done.
Qed.

(** The members of a zone, or of all zones, in the order of the store. *)
Definition members_of (s : Store) (zone : string) : list string :=
  (filter (fun e => (String.eqb zone "" || String.eqb e.2 zone) = true) (kv_iter id (Members s))).*1.

Lemma address_page s zone offset limit total : (0 < limit)%nat -> Z.of_nat (offset + limit) < 2 ^ 63 ->
  exists res, query_addresses s zone (mkPage "" offset limit total false)
    = Ok (take limit (drop offset (members_of s zone)), res).
Proof using Type*.
  intros Hl Hb. unfold query_addresses, ListTaxExemptionAddresses.
  destruct (collected_page (fun _ v => String.eqb zone "" || String.eqb v zone) (fun k _ => k)
    (kv_iter id (Members s)) offset limit total Hl Hb) as [r Hr].
  unfold collect in Hr. rewrite Hr. by exists r.
Qed.

Lemma zone_page s offset limit total : (0 < limit)%nat -> Z.of_nat (offset + limit) < 2 ^ 63 ->
  exists res, query_zones s (mkPage "" offset limit total false)
    = Ok (take limit (drop offset ((kv_iter id (Zones s)).*2)), res).
Proof using Type*.
  intros Hl Hb. unfold query_zones, ListTaxExemptionZones.
  destruct (collected_page (fun _ _ => true) (fun _ z => z) (kv_iter id (Zones s)) offset limit total Hl Hb) as [r Hr].
  unfold collect in Hr. rewrite Hr. exists r. cbn. do 4 f_equal. clear Hr.
  rewrite filter_every. by apply list_fmap_ext; intros ? [].
Qed.

(** Page [i] of size [limit]. *)
Definition page_of (s : Store) (zone : string) (limit i : nat) : list string :=
  match query_addresses s zone (mkPage "" (i * limit) limit false false) with Ok r => r.1 | _ => [] end.

Lemma pages_take s zone limit n : (0 < limit)%nat -> Z.of_nat (n * limit) < 2 ^ 63 ->
  concat (page_of s zone limit <$> seq 0 n) = take (n * limit) (members_of s zone).
Proof using Type*.
  intros Hl. induction n as [|n IH]; intros Hb; [done|].
  rewrite seq_S, fmap_app, concat_app, IH by lia. cbn. rewrite app_nil_r. unfold page_of.
  destruct (address_page s zone (n * limit) limit false Hl) as [r ->]; [lia|]. cbn.
  rewrite take_take_drop. f_equal. lia.
Qed.

Lemma members_of_spec s zone a : a ∈ members_of s zone <->
  exists z, Members s !! a = Some z /\ (zone = "" \/ z = zone).
Proof using Type.
  unfold members_of. rewrite list_elem_of_fmap. split.
  - intros ([k v] & -> & Hin). apply list_elem_of_filter in Hin as [Hf Hin]. cbn in *.
    apply elem_of_kv_iter in Hin. apply orb_true_iff in Hf. rewrite !String.eqb_eq in Hf. by exists v.
  - intros (z & Hz & Hf). exists (a, z). split; [done|]. apply list_elem_of_filter.
    split; [|by apply elem_of_kv_iter]. apply orb_true_iff. by rewrite !String.eqb_eq.
Qed.

Lemma members_of_nodup s zone : NoDup (members_of s zone).
Proof using Type.
  unfold members_of. eapply sublist_NoDup; [apply (kv_iter_NoDup id (Members s))|].
  apply fmap_sublist, sublist_filter.
Qed.

(** The list of exempt addresses can be read page by page: with pages of any
    size, the pages up to one that covers the list hold every address of the
    zone asked for (of every zone when none is given) exactly once, and nothing
    else. *)
Theorem address_pages s zone limit n : (0 < limit)%nat ->
  (length (members_of s zone) <= n * limit)%nat -> Z.of_nat (n * limit) < 2 ^ 63 ->
  NoDup (concat (page_of s zone limit <$> seq 0 n)) /\
  forall a, a ∈ concat (page_of s zone limit <$> seq 0 n) <->
    exists z, Members s !! a = Some z /\ (zone = "" \/ z = zone).
Proof using Type*.
  intros Hl Hn Hb. rewrite pages_take by done. rewrite take_ge by done.
  split; [apply members_of_nodup|]. intros a. apply members_of_spec.
Qed.
End Facts.

(** ** A run *)

Import Ref RefPaginator.

Definition listed : Store := mkStore ∅
  (<["terra1a" := "one"]> (<["terra1b" := "two"]> (<["terra1c" := "one"]> ∅))).

Lemma address_pages_witness :
  concat (page_of listed "one" 1 <$> seq 0 2) = ["terra1a"; "terra1c"] /\
  NoDup (concat (page_of listed "one" 1 <$> seq 0 2)).
Proof.
  split; [by vm_compute|]. apply (address_pages listed "one" 1 2); [lia| |done].
  replace (members_of listed "one") with ["terra1a"; "terra1c"] by by vm_compute. cbn. lia.
Defined.

(** The message accepts an address that the proposal refuses. *)
Example message_unchecked :
  ValidateBasic (MsgAddTaxExemptionAddress "terra1gov" "zone" ["nonsense"]) = Ok tt /\
  Proposal_ValidateBasic (fun _ _ => Ok tt) (AddTaxExemptionAddressProposal "t" "d" "zone" ["nonsense"] "terra1gov")
    = Err ErrInvalidAddress.
Proof. by vm_compute. Qed.
End ExemptionMsgs.
