(* ===== verification/AppWiring.v ===== *)
(** * How the application is put together

    The module accounts and who may receive coins ([app/modules.go], [app/app.go],
    [app/keepers/keepers.go]), the registered upgrades with their stores
    ([app/app.go], [app/upgrades/*/constants.go]), the stores that are mounted, the
    order of genesis and the routes of governance proposals
    ([app/keepers/routers.go]). *)

From S2P Require Import Prelude Sdk SdkRef SdkFees Core OracleKeeper OracleRef Market Treasury TaxExemption Tax TaxRef Upgrades AppBlock ExemptionMsgs.

Module AppWiring.
Import AppBlock Upgrades.

(** ** Module accounts *)

Inductive ModAcc :=
  | FeeCollectorName | BurnModuleName | MintModule | MarketModule | OracleModule | DistrModule
  | TreasuryModule | BondedPoolName | NotBondedPoolName | GovModule | TransferModule | IbcFeeModule
  | IcaModule | WasmModule | IbcHooksModule | AllianceModule | AllianceRewardsPool.
Inductive Perm := Minter | Burner | Staking.

#[export] Instance ModAcc_eq_dec : EqDecision ModAcc.
Proof. solve_decision. Defined.
#[export] Instance Perm_eq_dec : EqDecision Perm.
Proof. solve_decision. Defined.

Definition maccPerms : list (ModAcc * list Perm) := [
  (FeeCollectorName, []); (BurnModuleName, [Burner]); (MintModule, [Minter]);
  (MarketModule, [Minter; Burner]); (OracleModule, []); (DistrModule, []);
  (TreasuryModule, [Minter; Burner]); (BondedPoolName, [Burner; Staking]);
  (NotBondedPoolName, [Burner; Staking]); (GovModule, [Burner]);
  (TransferModule, [Minter; Burner]); (IbcFeeModule, []); (IcaModule, []);
  (WasmModule, [Burner]); (IbcHooksModule, []); (AllianceModule, [Minter; Burner]);
  (AllianceRewardsPool, []) ].

(** A key that is not in the map reads as [false]. *)
Definition allowedReceivingModAcc (acc : ModAcc) : bool :=
  match acc with OracleModule | BurnModuleName => true | _ => false end.

(** [authtypes.NewModuleAddress(name).String()], a hash of the name *)
Class ModuleAddresses := ModuleAddress : ModAcc -> string.

Section Accounts.
Context `{HMA : ModuleAddresses}.

(** [perms] is [maccPerms] in the order in which Go ranges over it. *)
Definition ModuleAccountAddrs (perms : list (ModAcc * list Perm)) : gmap string bool :=
  foldl (fun m e => <[ModuleAddress e.1 := true]> m) ∅ perms.
Definition BlacklistedAccAddrs (perms : list (ModAcc * list Perm)) : gmap string bool :=
  foldl (fun m e => <[ModuleAddress e.1 := negb (allowedReceivingModAcc e.1)]> m) ∅ perms.
Definition BlockedModuleAccAddrs (perms : list (ModAcc * list Perm)) : gmap string bool :=
  delete (ModuleAddress AllianceModule) (delete (ModuleAddress GovModule) (ModuleAccountAddrs perms)).

(** [BlockedAddr] of the bank keeper looks its map up. *)
Definition BlockedAddr (blocked : gmap string bool) (addr : string) : bool := default false (blocked !! addr).
End Accounts.

(** ** Genesis order *)

Definition orderInitGenesis : list AppModule := [
  capabilitytypes; authtypes; banktypes; distrtypes; stakingtypes; slashingtypes; govtypes; minttypes;
  crisistypes; genutiltypes; evidencetypes; authz; paramstypes; upgradetypes; feegrant;
  ibcexported; ibctransfertypes; icatypes; ibcfeetypes; ibchookstypes;
  markettypes; oracletypes; treasurytypes; taxexemptiontypes; wasmtypes; dyncommtypes;
  taxtypes; alliancetypes; consensusparamtypes ].

(** The modules of the manager. *)
Definition appModules : list AppModule := [
  genutiltypes; authtypes; banktypes; capabilitytypes; feegrant; govtypes; minttypes; slashingtypes;
  distrtypes; stakingtypes; upgradetypes; evidencetypes; paramstypes; authz; ibcexported;
  ibctransfertypes; ibcfeetypes; icatypes; markettypes; oracletypes; treasurytypes;
  taxexemptiontypes; wasmtypes; dyncommtypes; ibchookstypes; consensusparamtypes; taxtypes;
  alliancetypes; crisistypes ].

(** ** Stores *)

Inductive StoreKey := KeyOf (m : AppModule) | IcaControllerKey | IcaHostKey.
#[export] Instance StoreKey_eq_dec : EqDecision StoreKey.
Proof. solve_decision. Defined.

(** [sdk.NewKVStoreKeys] of [NewAppKeepers] *)
Definition kvStoreKeys : list StoreKey := [
  KeyOf crisistypes; KeyOf authtypes; KeyOf banktypes; KeyOf stakingtypes; KeyOf minttypes;
  KeyOf distrtypes; KeyOf slashingtypes; KeyOf govtypes; KeyOf paramstypes;
  KeyOf consensusparamtypes; KeyOf upgradetypes; KeyOf feegrant; KeyOf evidencetypes;
  KeyOf capabilitytypes; KeyOf authz; KeyOf ibcexported; KeyOf ibctransfertypes;
  KeyOf ibcfeetypes; IcaControllerKey; IcaHostKey; KeyOf ibchookstypes; KeyOf oracletypes;
  KeyOf markettypes; KeyOf treasurytypes; KeyOf taxexemptiontypes; KeyOf wasmtypes;
  KeyOf dyncommtypes; KeyOf taxtypes; KeyOf alliancetypes ].

(** ** Upgrades *)

Section Registry.
Context {X : Type} `{HM : SdkMath, HC : SdkCoins, HF : SdkFees, HA : Bech32, HN : SdkNames,
  HU : UpgradeKeepers X}.

Definition UpgradeHandler : Type := VersionMap -> M (UState X) VersionMap.
Record Upgrade := mkUpgrade {
  UpgradeName : string; CreateUpgradeHandler : UpgradeHandler; StoreAdded : list StoreKey }.

(** The [Upgrade] variables of the version packages. *)
Definition v2_Upgrade := mkUpgrade "v2" CreateV2UpgradeHandler [].
Definition v3_Upgrade := mkUpgrade "v3" CreateV3UpgradeHandler [].
Definition v4_Upgrade := mkUpgrade "v4" CreateV4UpgradeHandler [IcaHostKey].
Definition v5_Upgrade := mkUpgrade "v5" CreateV5UpgradeHandler [KeyOf ibcfeetypes; IcaControllerKey].
Definition v6_Upgrade := mkUpgrade "v6" CreateV6UpgradeHandler [KeyOf dyncommtypes].
Definition v6_1_Upgrade := mkUpgrade "v6_1" CreateV6_1UpgradeHandler [].
Definition v7_Upgrade := mkUpgrade "v7" CreateV7UpgradeHandler [KeyOf ibchookstypes].
Definition v7_1_Upgrade := mkUpgrade "v7_1" CreateV7_1UpgradeHandler [].
Definition v8_Upgrade :=
  mkUpgrade "v8" CreateV8UpgradeHandler [KeyOf consensusparamtypes; KeyOf crisistypes].
Definition v8_1_Upgrade := mkUpgrade "v8_1" CreateV81UpgradeHandler [].
Definition v8_2_Upgrade := mkUpgrade "v8_2" CreateV82UpgradeHandler [].
Definition v8_3_Upgrade := mkUpgrade "v8_3" CreateV83UpgradeHandler [].
Definition v10_1_Upgrade := mkUpgrade "v10_1" CreateV101UpgradeHandler [KeyOf taxtypes].
Definition v11_Upgrade := mkUpgrade "v11" CreateV11UpgradeHandler [].
Definition v11_1_Upgrade := mkUpgrade "v11_1" CreateV111UpgradeHandler [].
Definition v11_2_Upgrade := mkUpgrade "v11_2" CreateV112UpgradeHandler [].
Definition v12_Upgrade := mkUpgrade "v12" CreateV12UpgradeHandler [KeyOf taxexemptiontypes].

Definition Upgrades : list Upgrade := [
  v2_Upgrade; v3_Upgrade; v4_Upgrade; v5_Upgrade; v6_Upgrade; v6_1_Upgrade; v7_Upgrade;
  v7_1_Upgrade; v8_Upgrade; v8_1_Upgrade; v8_2_Upgrade; v8_3_Upgrade; v10_1_Upgrade;
  v11_Upgrade; v11_1_Upgrade; v11_2_Upgrade; v12_Upgrade ].

(** The handlers by name; a later one of the same name would replace it. *)
Definition setupUpgradeHandlers : gmap string UpgradeHandler :=
  foldl (fun m u => <[UpgradeName u := CreateUpgradeHandler u]> m) ∅ Upgrades.

(** The store loader of the upgrade found on disk, if one is to be set. *)
Definition setupUpgradeStoreLoaders (readInfo : res (string * Z)) (isSkipHeight : Z -> bool)
    : res (option (Z * list StoreKey)) :=
  match readInfo with
  | Ok (name, height) =>
      if isSkipHeight height then Ok None
      else Ok (foldl (fun loader u =>
             if String.eqb name (UpgradeName u) then Some (height, StoreAdded u) else loader) None Upgrades)
  | _ => Panic
  end.
End Registry.

(** ** Governance routes *)

(** [RouterKey] of each package, as the name of its module; the IBC client's is
    its own. *)
Inductive Route := RouteOf (m : AppModule) | IbcClientRoute.
#[export] Instance Route_eq_dec : EqDecision Route.
Proof. solve_decision. Defined.

Definition newGovRouter : list Route := [
  RouteOf govtypes; RouteOf paramstypes; RouteOf upgradetypes; IbcClientRoute;
  RouteOf treasurytypes; RouteOf alliancetypes ].

(** A legacy proposal is accepted only when its route has a handler. *)
Definition HasRoute (r : Route) : bool := bool_decide (r ∈ newGovRouter).

(** The proposals of this repository and the modules that name their routes. *)
Definition treasury_route : Route := RouteOf treasurytypes.
Definition exemption_route (p : ExemptionMsgs.Proposal) : Route := RouteOf taxexemptiontypes.

(** ** Theorems *)

(** A loop that fills a map under distinct keys stores every entry. *)
Lemma foldl_insert_fresh {A V} (k : A -> string) (v : A -> V) l :
  forall m : gmap string V, NoDup (k <$> l) ->
  forall key, foldl (fun m x => <[k x := v x]> m) m l !! key =
    match List.find (fun x => String.eqb (k x) key) l with Some x => Some (v x) | None => m !! key end.
Proof.
  induction l as [|x l IH]; intros m Hn key; [done|]. cbn in Hn. apply NoDup_cons in Hn as [Hx Hn]. cbn.
  rewrite IH by done. destruct (String.eqb_spec (k x) key) as [<-|Hne].
  - destruct (List.find _ l) as [y|] eqn:E; [|by rewrite lookup_insert_eq].
    apply List.find_some in E as [Hy Hk]. apply String.eqb_eq in Hk. destruct Hx. rewrite <- Hk.
    apply list_elem_of_fmap. exists y. split; [done|by apply list_elem_of_In].
  - destruct (List.find _ l); [done|]. by rewrite lookup_insert_ne.
Qed.

Lemma find_unique {A} (k : A -> string) l x : NoDup (k <$> l) -> x ∈ l ->
  List.find (fun y => String.eqb (k y) (k x)) l = Some x.
Proof.
  induction l as [|y l IH]; intros Hn Hx; [by apply not_elem_of_nil in Hx|].
  cbn in Hn. apply NoDup_cons in Hn as [Hy Hn]. cbn. apply elem_of_cons in Hx as [<-|Hx].
  - by rewrite String.eqb_refl.
  - destruct (String.eqb_spec (k y) (k x)) as [E|]; [|by apply IH].
    destruct Hy. rewrite E. by apply list_elem_of_fmap_2.
Qed.

Section Accounts.
Context `{HMA : ModuleAddresses}.

Lemma every_account acc : acc ∈ maccPerms.*1.
Proof using Type. destruct acc; apply list_elem_of_In; cbn; tauto. Qed.

Lemma perms_distinct : NoDup maccPerms.*1.
Proof using Type. apply (bool_decide_unpack _). by vm_compute. Qed.

Lemma addresses_distinct perms : Inj eq eq ModuleAddress -> perms ≡ₚ maccPerms ->
  NoDup ((fun e => ModuleAddress e.1) <$> perms).
Proof using Type.
  intros Hi Hp. rewrite Hp. pose proof (NoDup_fmap_2 ModuleAddress _ perms_distinct) as Hn.
  by rewrite <- list_fmap_compose in Hn.
Qed.

(** The maps of module accounts, whatever order they were filled in. *)
Lemma address_map (f : ModAcc -> bool) perms addr : Inj eq eq ModuleAddress -> perms ≡ₚ maccPerms ->
  (forall acc, addr = ModuleAddress acc ->
    foldl (fun m e => <[ModuleAddress e.1 := f e.1]> m) (∅ : gmap string bool) perms !! addr = Some (f acc)) /\
  ((forall acc, addr <> ModuleAddress acc) ->
    foldl (fun m e => <[ModuleAddress e.1 := f e.1]> m) (∅ : gmap string bool) perms !! addr = None).
Proof using Type.
  intros Hi Hp. pose proof (addresses_distinct perms Hi Hp) as Hn.
  rewrite (foldl_insert_fresh (fun e => ModuleAddress e.1) (fun e => f e.1)) by done. split.
  - intros acc ->. pose proof (every_account acc) as Ha. rewrite <- Hp in Ha.
    apply list_elem_of_fmap in Ha as (e & -> & He).
    by rewrite (find_unique (fun e => ModuleAddress e.1) perms e Hn He).
  - intros Hno. destruct (List.find _ perms) as [e|] eqn:E; [|done].
    apply List.find_some in E as [_ E]. apply String.eqb_eq in E. by destruct (Hno e.1).
Qed.

(** Of all addresses, the bank refuses to deliver coins to exactly the module
    accounts other than the oracle's reward pool and the burn account, in
    whatever order the permissions are ranged over; every module account is
    known to the account keeper. *)
Theorem blocked_accounts perms addr : Inj eq eq ModuleAddress -> perms ≡ₚ maccPerms ->
  (BlockedAddr (BlacklistedAccAddrs perms) addr = true <->
   exists acc, addr = ModuleAddress acc /\ acc <> OracleModule /\ acc <> BurnModuleName) /\
  (ModuleAccountAddrs perms !! addr = Some true <-> exists acc, addr = ModuleAddress acc).
Proof using Type.
  intros Hi Hp. unfold BlockedAddr, BlacklistedAccAddrs, ModuleAccountAddrs.
  destruct (address_map (fun acc => negb (allowedReceivingModAcc acc)) perms addr Hi Hp) as [H1 H2].
  destruct (address_map (fun _ => true) perms addr Hi Hp) as [T1 T2].
  destruct (decide (addr ∈ ModuleAddress <$> maccPerms.*1)) as [Hin|Hno].
  - apply list_elem_of_fmap in Hin as (acc & Ha & _). rewrite (H1 acc Ha), (T1 acc Ha). split; [|by split; eauto]. split.
    + intros Hb. exists acc. split; [done|]. by destruct acc.
    + intros (acc' & Ha' & Ho & Hu). rewrite Ha in Ha'. apply Hi in Ha' as ->. by destruct acc'.
  - assert (forall acc, addr <> ModuleAddress acc) as Hne.
    { intros acc ->. apply Hno, list_elem_of_fmap_2, every_account. }
    rewrite (H2 Hne), (T2 Hne). split; (split; [done|]).
    + intros (acc & Ha & _). by destruct (Hne acc).
    + intros (acc & Ha). by destruct (Hne acc).
Qed.
End Accounts.

(** The four orders list the same modules, each once, so that the manager finds
    none forgotten; genesis starts with the capabilities, takes bank before
    treasury and staking before the genesis transactions. *)
Lemma orders_agree :
  NoDup appModules /\ orderInitGenesis ≡ₚ appModules /\ orderEndBlockers ≡ₚ appModules /\
  orderBeginBlockers ≡ₚ appModules /\ head orderInitGenesis = Some capabilitytypes /\
  sublist [banktypes; treasurytypes] orderInitGenesis /\ sublist [stakingtypes; genutiltypes] orderInitGenesis /\
  sublist [distrtypes; slashingtypes] orderBeginBlockers.
Proof.
  assert (Hd : NoDup appModules) by (apply (bool_decide_unpack _); by vm_compute).
  assert (Hp : forall l, bool_decide (NoDup l) = true -> bool_decide (length l = length appModules) = true ->
    bool_decide (Forall (fun m => m ∈ appModules) l) = true -> l ≡ₚ appModules).
  { intros l H1%bool_decide_eq_true_1 H2%bool_decide_eq_true_1 H3%bool_decide_eq_true_1.
    rewrite Forall_forall in H3. apply submseteq_length_Permutation; [|lia].
    by apply NoDup_submseteq. }
  split_and!; [done|apply Hp; by vm_compute..|done| | |];
    unfold orderInitGenesis, orderBeginBlockers; repeat first [apply sublist_nil_l|apply sublist_skip|apply sublist_cons].
Qed.

Section Registered.
Context {X : Type} `{HM : SdkMath, HC : SdkCoins, HF : SdkFees, HA : Bech32, HN : SdkNames,
  HU : UpgradeKeepers X}.
Abbreviation Up := (@Upgrade X).

Lemma upgrade_names : UpgradeName <$> (Upgrades : list Up) =
  ["v2"; "v3"; "v4"; "v5"; "v6"; "v6_1"; "v7"; "v7_1"; "v8"; "v8_1"; "v8_2"; "v8_3"; "v10_1";
   "v11"; "v11_1"; "v11_2"; "v12"].
Proof using Type. done. Qed.

Lemma names_distinct : NoDup (UpgradeName <$> (Upgrades : list Up)).
Proof using Type. rewrite upgrade_names. apply (bool_decide_unpack _). by vm_compute. Qed.

Lemma stores_added : concat (StoreAdded <$> (Upgrades : list Up)) =
  [IcaHostKey; KeyOf ibcfeetypes; IcaControllerKey; KeyOf dyncommtypes; KeyOf ibchookstypes;
   KeyOf consensusparamtypes; KeyOf crisistypes; KeyOf taxtypes; KeyOf taxexemptiontypes].
Proof using Type. done. Qed.

(** The loop without a break ends with the last match, which is the only one. *)
Lemma loader_last (h : Z) name (us : list Up) acc : NoDup (UpgradeName <$> us) ->
  foldl (fun loader u => if String.eqb name (UpgradeName u) then Some (h, StoreAdded u) else loader) acc us =
  match List.find (fun u => String.eqb (UpgradeName u) name) us with
  | Some u => Some (h, StoreAdded u) | None => acc end.
Proof using Type.
  revert acc. induction us as [|u us IH]; intros acc Hn; [done|]. cbn in Hn. apply NoDup_cons in Hn as [Hu Hn].
  cbn. rewrite IH by done. rewrite (String.eqb_sym name). destruct (String.eqb_spec (UpgradeName u) name) as [<-|]; [|done].
  destruct (List.find _ us) as [v|] eqn:E; [|done]. apply List.find_some in E as [Hv E].
  apply String.eqb_eq in E. destruct Hu. rewrite <- E. by apply list_elem_of_fmap_2, list_elem_of_In.
Qed.

(** Every upgrade is registered under its own name: the plan of that name
    runs its handler and no other, and unless its height is to be skipped the
    node then mounts exactly the stores that the upgrade adds; an unknown plan
    has no handler and changes no store.  Every added store is one the
    application mounts, and none is added twice. *)
Theorem upgrade_registered readInfo name (height : Z) isSkipHeight :
  readInfo = Ok (name, height) ->
  (forall u : Up, u ∈ Upgrades -> UpgradeName u = name ->
    setupUpgradeHandlers !! name = Some (CreateUpgradeHandler u) /\
    setupUpgradeStoreLoaders (X := X) readInfo isSkipHeight =
      Ok (if isSkipHeight height then None else Some (height, StoreAdded u)) /\
    StoreAdded u ⊆ kvStoreKeys) /\
  (name ∉ UpgradeName <$> (Upgrades : list Up) ->
    (setupUpgradeHandlers : gmap string (@UpgradeHandler X)) !! name = None /\
    setupUpgradeStoreLoaders (X := X) readInfo isSkipHeight = Ok None) /\
  NoDup (concat (StoreAdded <$> (Upgrades : list Up))).
Proof using Type.
  intros ->. pose proof names_distinct as Hn.
  assert (Hs : forall u : Up, u ∈ Upgrades -> StoreAdded u ⊆ kvStoreKeys).
  { intros u Hu k Hk. assert (Hc : k ∈ concat (StoreAdded <$> (Upgrades : list Up))).
    { apply list_elem_of_In, in_concat. exists (StoreAdded u).
      split; apply list_elem_of_In; [by apply list_elem_of_fmap_2|done]. }
    rewrite stores_added in Hc. clear Hk. revert k Hc. apply Forall_elem. apply (bool_decide_unpack _). by vm_compute. }
  unfold setupUpgradeHandlers, setupUpgradeStoreLoaders.
  rewrite (foldl_insert_fresh UpgradeName CreateUpgradeHandler _ ∅ Hn), loader_last by done. split_and!.
  - intros u Hu <-. rewrite (find_unique UpgradeName _ u Hn Hu). split_and!; [done| |by apply Hs].
    by destruct (isSkipHeight height).
  - intros Hno. destruct (List.find _ _) as [u|] eqn:E.
    + apply List.find_some in E as [Hu E]. apply String.eqb_eq in E. destruct Hno. rewrite <- E.
      by apply list_elem_of_fmap_2, list_elem_of_In.
    + split; [done|]. by destruct (isSkipHeight height).
  - rewrite stores_added. apply (bool_decide_unpack _). by vm_compute.
Qed.

(** The store of the alliance module is mounted, but no upgrade adds it. *)
Lemma alliance_never_added :
  KeyOf alliancetypes ∈ kvStoreKeys /\ KeyOf alliancetypes ∉ concat (StoreAdded <$> (Upgrades : list Up)).
Proof using Type. rewrite stores_added. split; apply (bool_decide_unpack _); by vm_compute. Qed.
End Registered.

(** Treasury proposals have a handler; no proposal of the exemption module does. *)
Lemma proposals_routed : NoDup newGovRouter /\ HasRoute treasury_route = true /\
  forall p, HasRoute (exemption_route p) = false.
Proof. split; [apply (bool_decide_unpack _); by vm_compute|]. by split. Qed.

(** ** Concrete inputs *)

Section Witnesses.
Import Ref RefFees.

#[local] Instance demo_addresses : ModuleAddresses := fun acc =>
  match acc with
  | FeeCollectorName => "fee_collector" | BurnModuleName => "burn" | MintModule => "mint"
  | MarketModule => "market" | OracleModule => "oracle" | DistrModule => "distribution"
  | TreasuryModule => "treasury" | BondedPoolName => "bonded_tokens_pool"
  | NotBondedPoolName => "not_bonded_tokens_pool" | GovModule => "gov" | TransferModule => "transfer"
  | IbcFeeModule => "feeibc" | IcaModule => "interchainaccounts" | WasmModule => "wasm"
  | IbcHooksModule => "ibchooks" | AllianceModule => "alliance" | AllianceRewardsPool => "alliance_rewards"
  end.

Lemma demo_addresses_inj : Inj eq eq ModuleAddress.
Proof. by intros [] []. Qed.

Lemma blocked_accounts_witness :
  BlockedAddr (BlacklistedAccAddrs (rev maccPerms)) "treasury" = true /\
  BlockedAddr (BlacklistedAccAddrs (rev maccPerms)) "oracle" <> true.
Proof.
  assert (Hp : rev maccPerms ≡ₚ maccPerms) by (symmetry; apply Permutation_rev).
  split.
  - apply (blocked_accounts (rev maccPerms) "treasury" demo_addresses_inj Hp). by exists TreasuryModule.
  - intros Hb. apply (blocked_accounts (rev maccPerms) "oracle" demo_addresses_inj Hp) in Hb as (acc & E & ? & ?).
    by destruct acc.
Defined.

#[local] Existing Instances demo_names demo_keepers.

Lemma upgrade_registered_witness :
  setupUpgradeHandlers (X := gmap string Channel) !! "v12" = Some CreateV12UpgradeHandler /\
  setupUpgradeStoreLoaders (X := gmap string Channel) (Ok ("v12", 100)) (fun _ => false) =
    Ok (Some (100, [KeyOf taxexemptiontypes])).
Proof.
  destruct (upgrade_registered (X := gmap string Channel) (Ok ("v12", 100)) "v12" 100 (fun _ => false) eq_refl)
    as [Hu _].
  destruct (Hu v12_Upgrade) as (Eh & El & _); [apply list_elem_of_In; cbn; tauto|done|].
  split; [exact Eh|exact El].
Defined.
End Witnesses.
End AppWiring.
