(* ===== verification/AppKeepers.v ===== *)
(** * The order in which the keepers are built

    [NewAppKeepers] ([app/keepers/keepers.go]) fills the fields of [AppKeepers]
    one after the other and hands the earlier ones to the constructors of the
    later ones: some by value, some through a pointer.  A copy that is taken too
    early keeps the zero value, or misses what is registered later.  The program
    is the list of its assignments and calls with the fields they read. *)

From S2P Require Import Prelude.

Module AppKeepers.

(** ** Fields and what is read of them *)

Inductive Field :=
  | ParamsKeeper | ConsensusParamsKeeper | CapabilityKeeper | AccountKeeper | BankKeeper
  | AuthzKeeper | FeeGrantKeeper | StakingKeeper | MintKeeper | DistrKeeper | SlashingKeeper
  | CrisisKeeper | UpgradeKeeper | IBCKeeper | IBCFeeKeeper | ICAHostKeeper | ICAControllerKeeper
  | EvidenceKeeper | OracleKeeper | MarketKeeper | TreasuryKeeper | TaxExemptionKeeper
  | AllianceKeeper | IBCHooksKeeper | Ics20WasmHooks | IBCHooksWrapper | TransferKeeper
  | WasmKeeper | GovKeeper | TaxKeeper | DyncommKeeper.

#[export] Instance Field_eq_dec : EqDecision Field.
Proof. solve_decision. Defined.

Definition all_fields : list Field := [
  ParamsKeeper; ConsensusParamsKeeper; CapabilityKeeper; AccountKeeper; BankKeeper; AuthzKeeper;
  FeeGrantKeeper; StakingKeeper; MintKeeper; DistrKeeper; SlashingKeeper; CrisisKeeper;
  UpgradeKeeper; IBCKeeper; IBCFeeKeeper; ICAHostKeeper; ICAControllerKeeper; EvidenceKeeper;
  OracleKeeper; MarketKeeper; TreasuryKeeper; TaxExemptionKeeper; AllianceKeeper; IBCHooksKeeper;
  Ics20WasmHooks; IBCHooksWrapper; TransferKeeper; WasmKeeper; GovKeeper; TaxKeeper; DyncommKeeper ].

(** The fields of pointer type; the others hold the keeper itself. *)
Definition pointer (f : Field) : bool :=
  match f with
  | CapabilityKeeper | StakingKeeper | CrisisKeeper | UpgradeKeeper | IBCKeeper | IBCHooksKeeper
  | Ics20WasmHooks | IBCHooksWrapper => true
  | _ => false
  end.

(** How an argument reads a field: [k.F], [&k.F], [*k.F], or a member of what
    the pointer [k.F] points to. *)
Inductive Arg := Val (f : Field) | Addr (f : Field) | Deref (f : Field) | Part (f : Field).

(** What reads: the constructor of a field, or another call. *)
Inductive Reader :=
  | Into (f : Field) | BaseAppParams | ScopedKeepers | StakingHooks | RegisterKeepers
  | WasmMsgHandler | CustomPlugins | ContractKeeperOf | GovRouter | IBCRouter | QueryRouter.

(** An assignment, a call that changes the keeper in a field, or a call that only
    reads. *)
Inductive Step :=
  | Assign (f : Field) (args : list Arg)
  | Change (f : Field) (by_ : Reader) (args : list Arg)
  | Call (r : Reader) (args : list Arg).

(** ** The program *)

(** [appKeepers.GetSubspace] reads the parameter keeper. *)
Definition base_keepers : list Step := [
  Assign ParamsKeeper [];
  Assign ConsensusParamsKeeper [];
  Call BaseAppParams [Addr ConsensusParamsKeeper];
  Assign CapabilityKeeper [];
  Call ScopedKeepers [Part CapabilityKeeper];
  Assign AccountKeeper [];
  Assign BankKeeper [Val AccountKeeper; Val ParamsKeeper];
  Assign AuthzKeeper [Val AccountKeeper];
  Assign FeeGrantKeeper [Val AccountKeeper];
  Assign StakingKeeper [Val AccountKeeper; Val BankKeeper; Val ParamsKeeper];
  Assign MintKeeper [Val StakingKeeper; Val AccountKeeper; Val BankKeeper];
  Assign DistrKeeper [Val AccountKeeper; Val BankKeeper; Val StakingKeeper];
  Assign SlashingKeeper [Val StakingKeeper];
  Assign CrisisKeeper [Val BankKeeper];
  Assign UpgradeKeeper [];
  Change StakingKeeper StakingHooks
    [Deref StakingKeeper; Val DistrKeeper; Val SlashingKeeper; Val AllianceKeeper] ].

Definition ibc_keepers : list Step := [
  Assign IBCKeeper [Val ParamsKeeper; Val StakingKeeper; Val UpgradeKeeper];
  Assign IBCFeeKeeper [Part IBCKeeper; Val AccountKeeper; Val BankKeeper];
  Assign ICAHostKeeper [Val ParamsKeeper; Val IBCFeeKeeper; Part IBCKeeper; Val AccountKeeper];
  Change ICAHostKeeper QueryRouter [];
  Assign ICAControllerKeeper [Val ParamsKeeper; Val IBCFeeKeeper; Part IBCKeeper];
  Assign EvidenceKeeper [Val StakingKeeper; Val SlashingKeeper] ].

Definition terra_keepers : list Step := [
  Assign OracleKeeper [Val ParamsKeeper; Val AccountKeeper; Val BankKeeper; Val DistrKeeper; Val StakingKeeper];
  Assign MarketKeeper [Val ParamsKeeper; Val AccountKeeper; Val BankKeeper; Val OracleKeeper];
  Assign TreasuryKeeper [Val ParamsKeeper; Val AccountKeeper; Val BankKeeper; Val MarketKeeper;
    Val OracleKeeper; Val StakingKeeper; Val DistrKeeper; Addr WasmKeeper];
  Assign TaxExemptionKeeper [Val ParamsKeeper; Val AccountKeeper];
  Assign AllianceKeeper [Val ParamsKeeper; Val AccountKeeper; Val BankKeeper; Addr StakingKeeper; Val DistrKeeper];
  Change BankKeeper RegisterKeepers [Val AllianceKeeper] ].

Definition wasm_keepers : list Step := [
  Assign IBCHooksKeeper [];
  Assign Ics20WasmHooks [Val IBCHooksKeeper];
  Assign IBCHooksWrapper [Val IBCFeeKeeper; Val Ics20WasmHooks];
  Assign TransferKeeper [Val ParamsKeeper; Val IBCFeeKeeper; Part IBCKeeper; Val AccountKeeper; Val BankKeeper];
  Call WasmMsgHandler [Val IBCFeeKeeper; Part IBCKeeper; Val BankKeeper; Val TaxExemptionKeeper;
    Val TreasuryKeeper; Val AccountKeeper; Val TaxKeeper; Val TransferKeeper];
  Call CustomPlugins [Addr MarketKeeper; Addr OracleKeeper; Addr TreasuryKeeper];
  Assign WasmKeeper [Val AccountKeeper; Val BankKeeper; Val StakingKeeper; Val DistrKeeper;
    Val IBCFeeKeeper; Part IBCKeeper; Val TransferKeeper];
  Change Ics20WasmHooks ContractKeeperOf [Addr WasmKeeper] ].

(** [newGovRouter] and [newIBCRouter] are calls that read. *)
Definition last_keepers : list Step := [
  Call GovRouter [Val ParamsKeeper; Val UpgradeKeeper; Part IBCKeeper; Val TreasuryKeeper; Val AllianceKeeper];
  Assign GovKeeper [Val AccountKeeper; Val BankKeeper; Val StakingKeeper];
  Assign TaxKeeper [Val BankKeeper; Val TreasuryKeeper; Val DistrKeeper];
  Assign DyncommKeeper [Val ParamsKeeper; Val StakingKeeper];
  Change IBCKeeper IBCRouter [Val TransferKeeper; Val IBCHooksWrapper; Val IBCFeeKeeper;
    Val ICAControllerKeeper; Val ICAHostKeeper; Val WasmKeeper; Part IBCKeeper] ].

Definition NewAppKeepers : list Step :=
  base_keepers ++ ibc_keepers ++ terra_keepers ++ wasm_keepers ++ last_keepers.

(** ** Running it *)

(** The assignments and changes so far; the version of a field counts both, and
    the zero value has version 0. *)
Record Heap := mkHeap { sets : list Field; changes : list Field }.
Definition count (f : Field) (l : list Field) : nat := length (filter (f =.) l).
Definition assigned (h : Heap) (f : Field) : nat := count f (sets h).
Definition version (h : Heap) (f : Field) : nat := (count f (sets h) + count f (changes h))%nat.

(** A read with the version it found; following a nil pointer is a panic. *)
Definition read (h : Heap) (r : Reader) (a : Arg) : res (Reader * Arg * nat) :=
  match a with
  | Val f | Addr f => Ok (r, a, version h f)
  | Deref f | Part f => if (version h f =? 0)%nat then Panic else Ok (r, a, version h f)
  end.

Definition step (acc : Heap * list (Reader * Arg * nat)) (s : Step) : res (Heap * list (Reader * Arg * nat)) :=
  let '(h, reads) := acc in
  match s with
  | Assign f args =>
      let! rs := rmap (read h (Into f)) args in
      Ok (mkHeap (f :: sets h) (changes h), reads ++ rs)
  | Change f r args =>
      let! rs := rmap (read h r) args in
      if (version h f =? 0)%nat then Panic
      else Ok (mkHeap (sets h) (f :: changes h), reads ++ rs)
  | Call r args => let! rs := rmap (read h r) args in Ok (h, reads ++ rs)
  end.

Definition run (prog : list Step) : res (Heap * list (Reader * Arg * nat)) :=
  rfold step (mkHeap [] [], []) prog.

(** A read is early when it takes the zero value of a field, or a nil pointer. *)
Definition early (x : Reader * Arg * nat) : bool :=
  match x.1.2 with Addr _ => false | _ => (x.2 =? 0)%nat end.

(** A copy is stale when its keeper changed after it was taken; a pointer never
    is. *)
Definition stale (h : Heap) (x : Reader * Arg * nat) : bool :=
  match x.1.2 with
  | Val f => negb (pointer f) && negb (x.2 =? version h f)%nat
  | Deref f => negb (x.2 =? version h f)%nat
  | Addr _ | Part _ => false
  end.

Definition of_bank (x : Reader * Arg * nat) : bool :=
  match x.1.2 with Val BankKeeper => true | _ => false end.

(** ** What holds of it *)

(** Building the keepers follows no nil pointer and assigns every field
    exactly once.  Exactly two reads come before their field is set: the staking
    hooks copy the alliance keeper, and the contract message handler copies the
    tax keeper.  Apart from these and from copies of the bank keeper taken before
    the alliance keeper is registered with it, the only copy that misses a later
    change is the staking keeper inside its own hooks. *)
Theorem keepers_built : exists h reads, run NewAppKeepers = Ok (h, reads) /\
  Forall (fun f => assigned h f = 1%nat) all_fields /\
  (fst <$> List.filter early reads) =
    [(StakingHooks, Val AllianceKeeper); (WasmMsgHandler, Val TaxKeeper)] /\
  (fst <$> List.filter (fun x => stale h x && negb (of_bank x)) reads) =
    [(StakingHooks, Deref StakingKeeper); (StakingHooks, Val AllianceKeeper); (WasmMsgHandler, Val TaxKeeper)] /\
  (fst <$> List.filter (fun x => stale h x && of_bank x) reads) =
    (fun f => (Into f, Val BankKeeper)) <$> [StakingKeeper; MintKeeper; DistrKeeper; CrisisKeeper;
      IBCFeeKeeper; OracleKeeper; MarketKeeper; TreasuryKeeper; AllianceKeeper].
Proof.
  eexists _, _. split; [vm_compute; reflexivity|]. split_and!; [|vm_compute; reflexivity..].
  repeat constructor.
Qed.

(** With the hooks set after the alliance keeper and the tax keeper built before
    the contract handler, no read would be early: the order is the only fault. *)
Definition reordered : list Step :=
  List.removelast base_keepers ++ ibc_keepers ++ terra_keepers ++
  [List.last base_keepers (Assign ParamsKeeper []);
   Assign TaxKeeper [Val BankKeeper; Val TreasuryKeeper; Val DistrKeeper]] ++
  wasm_keepers ++
  List.filter (fun s => match s with Assign TaxKeeper _ => false | _ => true end) last_keepers.

Example reordered_fine : exists h reads, run reordered = Ok (h, reads) /\ List.filter early reads = [].
Proof. eexists _, _. split; vm_compute; reflexivity. Qed.
End AppKeepers.
