(* ===== verification/AppGenesis.v ===== *)
(** * Genesis of the whole application

    [InitChainer] ([app/app.go]) imports the modules' genesis states in the order
    of [orderInitGenesis]; the export collects them.  Importing an export into a
    fresh chain restores the stores of this repository's modules. *)

From S2P Require Import Prelude Sdk SdkRef SdkFees Core OracleTypes OracleKeeper OracleTally OracleGenesis OracleRef Market MarketOracle TreasuryTypes Treasury TreasuryGenesis TreasuryOracle Dyncomm TaxExemption TaxExemptionFacts Tax TaxRef AppBlock AppWiring.

Module AppGenesis.
Import TreasuryOracle MarketOracle AppBlock.

(** ** State *)

(** The stores of the blocks with the two tax modules'. *)
Record State (B SS DS : Type) := mkState {
  app : App B SS DS; zones : TaxExemption.Store; tax_params : option Tax.Params }.
Arguments mkState {B SS DS} _ _ _.
Arguments app {B SS DS} _.
Arguments zones {B SS DS} _.
Arguments tax_params {B SS DS} _.

Record Genesis := mkGenesis {
  g_market : Market.GenesisState;
  g_oracle : OracleGenesis.GenesisState;
  g_treasury : Treasury.GenesisState;
  g_zones : TaxExemption.GenesisState;
  g_dyncomm : Dyncomm.GenesisState;
  g_tax : Tax.GenesisState }.

(** The manager and the other projects' modules, with their own genesis states;
    whether the module accounts exist. *)
Class GenesisManager (B SS DS : Type) := {
  mm_InitGenesis : list AppModule -> (AppModule -> M (State B SS DS) unit) -> M (State B SS DS) unit;
  sdk_InitGenesis : AppModule -> M (State B SS DS) unit;
  SetModuleVersionMap : M (State B SS DS) unit;
  has_module_account : AppModule -> bool;
}.

Section Genesis.
Context {B SS DS : Type}.
Context `{HM : SdkMath, HC : SdkCoins, HF : SdkFees, HA : Bech32, HT : OracleTypes.TmHash,
  HP : OracleTypes.CoinParser, HB : BankKeeper B, HS : StakingKeeper SS, HY : Dyncomm.DynStaking SS,
  HD : DistrKeeper DS, HDP : DistrParams DS, HG : GenesisManager B SS DS}.
Abbreviation St := (State B SS DS).
Abbreviation GM := (M (State B SS DS)).

(** ** Import *)

Definition on_app {T A} (get : App B SS DS -> T) (set : T -> App B SS DS -> App B SS DS) (c : M T A) : GM A :=
  zoom (fun s => get (app s)) (fun t s => mkState (set t (app s)) (zones s) (tax_params s)) c.
Definition import {T} (r : T -> res T) : M T unit := fun t =>
  match r t with Ok t' => Ret tt t' | Err e => Fail e t | Panic => Halt end.

(** The tax keeper's view; its genesis writes the parameters only. *)
Definition tax_view (s : St) : Tax.State unit B DS :=
  Tax.mkState (tax_params s) (treasury (app s)) (zones s) (bank (app s)) (distr (app s)) tt [].

Definition InitGenesis (g : Genesis) (m : AppModule) : GM unit :=
  match m with
  | markettypes =>
      on_app market set_market (import (Market.InitGenesis (has_module_account markettypes) (g_market g)))
  | oracletypes =>
      on_app oracle (fun o s => mkApp o (market s) (treasury s) (rates s) (rate_params s) (bank s)
          (staking s) (distr s) (oracle_events s) (treasury_events s))
        (import (OracleGenesis.InitGenesis (has_module_account oracletypes) (g_oracle g)))
  | treasurytypes =>
      on_app treasury_view set_treasury
        (Treasury.InitGenesis (has_module_account treasurytypes) (g_treasury g))
  | taxexemptiontypes =>
      zoom zones (fun z s => mkState (app s) z (tax_params s)) (TaxExemption.InitGenesis (g_zones g))
  | dyncommtypes => on_app dyncomm_view set_dyncomm (Dyncomm.InitGenesis (g_dyncomm g))
  | taxtypes =>
      zoom tax_view (fun t s => mkState (app s) (zones s) (Tax.params t)) (Tax.InitGenesis (g_tax g))
  | _ => sdk_InitGenesis m
  end.

(** [InitChainer], after the JSON has been decoded *)
Definition InitChainer (g : Genesis) : GM unit :=
  do* SetModuleVersionMap in
  mm_InitGenesis AppWiring.orderInitGenesis (InitGenesis g).

(** ** Export *)

(** [ExportGenesisForModules] *)
Definition ExportGenesis (ctx : Ctx) (s : St) : res Genesis :=
  let! t := Treasury.ExportGenesis ctx (treasury (app s)) in
  let! z := TaxExemption.ExportGenesis (zones s) in
  Ok (mkGenesis (Market.ExportGenesis (market (app s))) (OracleGenesis.ExportGenesis (oracle (app s))) t z
        (Dyncomm.ExportGenesis (dyncomm_view (app s))) (Tax.ExportGenesis (tax_view s))).
End Genesis.

(** ** What the other modules leave alone *)

Definition keeps {B SS DS} (s s' : State B SS DS) : Prop :=
  oracle (app s') = oracle (app s) /\ market (app s') = market (app s) /\
  treasury (app s') = treasury (app s) /\ rate_params (app s') = rate_params (app s) /\
  zones s' = zones s /\ tax_params s' = tax_params s.

(** The manager imports in the given order.  The other modules write their own
    stores; the commission rates may change with the genesis transactions. *)
Class GenesisManagerLaws (B SS DS : Type) `{GenesisManager B SS DS} : Prop := {
  mm_InitGenesis_order order f s : mm_InitGenesis order f s = mfor order f s;
  sdk_init_keeps m s s' : sdk_InitGenesis m s = Ret tt s' -> keeps s s';
  version_map_keeps s s' : SetModuleVersionMap s = Ret tt s' -> keeps s s';
}.

Section RoundTrip.
Context {B SS DS : Type}.
Context `{HM : SdkMath, HC : SdkCoins, HF : SdkFees, HA : Bech32, HT : OracleTypes.TmHash,
  HP : OracleTypes.CoinParser, HB : BankKeeper B, HS : StakingKeeper SS, HY : Dyncomm.DynStaking SS,
  HD : DistrKeeper DS, HDP : DistrParams DS, HG : GenesisManager B SS DS}.
Context `{!SdkMathLaws, !Bech32Laws, !GenesisManagerLaws B SS DS}.
Abbreviation St := (State B SS DS).

#[local] Instance keeps_preorder : PreOrder (@keeps B SS DS).
Proof.
  split; [by intros s; split_and!|].
  intros s t u (? & ? & ? & ? & ? & ?) (? & ? & ? & ? & ? & ?). split_and!; congruence.
Qed.

(** A state that exports: what the modules' invariants give, and an issuance that
    was recorded. *)
Record exportable (s : St) : Prop := {
  ex_oracle : OracleGenesis.store_wf (oracle (app s));
  ex_market : Market.validate_param_set (Market.KParams (market (app s))) = Ok tt;
  ex_treasury : TreasuryTypes.validate_param_set (Treasury.KParams (treasury (app s))) = Ok tt;
  ex_issuance : Coins_IsZero (Treasury.GetEpochInitialIssuance (treasury (app s))) = false;
  ex_zones : TaxExemptionFacts.inv (zones s);
  ex_tax : exists p r, tax_params s = Some p /\ Tax.BurnTaxRate p = Some r /\ Tax.Validate p = Ok tt }.

Record fresh (s : St) : Prop := {
  fr_oracle : exists p, oracle (app s) = OracleGenesis.empty_store p;
  fr_zones : zones s = TaxExemption.mkStore ∅ ∅;
  fr_caps : Treasury.TaxCaps (treasury (app s)) = ∅ }.

Lemma fresh_keeps s s' : keeps s s' -> fresh s -> fresh s'.
Proof using Type. intros (Eo & _ & Et & _ & Ez & _) [Ho Hz Hc]. split; [by rewrite Eo|by rewrite Ez|by rewrite Et]. Qed.

(** Commission rates change; the parameters are those of the genesis. *)
Lemma dyncomm_params (g : Dyncomm.GenesisState) d d' : Dyncomm.InitGenesis g d = Ret tt d' ->
  Dyncomm.params d' = Dyncomm.GParams g.
Proof using Type.
  unfold Dyncomm.InitGenesis. intros ([] & d1 & R1 & R)%bind_Ret.
  destruct (Dyncomm.validate_param_set _) as [[]| |]; [|done..]. injection R1 as <-.
  apply bind_Ret in R as (? & ? & [= <- <-] & R). apply bind_Ret in R as ([] & d2 & R2 & R).
  apply bind_Ret in R as (? & ? & [= <- <-] & R).
  set (P := fun x : Dyncomm.State SS => Dyncomm.params x = Dyncomm.GParams g).
  assert (P d2) as H2.
  { eapply (mfor_keeps P); [|exact R2|done]. by intros v x x' _ [= <-]. }
  eapply (mfor_keeps P); [|exact R|exact H2]. intros v x x' _ Rv Hx. cbn beta in Rv. destruct (negb _); [by injection Rv as <-|].
  unfold Dyncomm.UpdateValidatorMinRates in Rv. apply bind_Ret in Rv as (? & ? & [= <- <-] & Rv).
  apply bind_Ret in Rv as (? & ? & [_ ->]%lift_Ret & Rv). apply bind_Ret in Rv as ([] & ? & [= <-] & [= <-]). done.
Qed.

Definition first_modules : list AppModule := take 20 AppWiring.orderInitGenesis.
Definition own_modules : list AppModule := drop 20 AppWiring.orderInitGenesis.

Lemma first_keep g m s s' : m ∈ first_modules -> InitGenesis g m s = Ret tt s' -> keeps s s'.
Proof using Type*.
  intros Hm. assert (E : InitGenesis g m = sdk_InitGenesis m).
  { apply list_elem_of_In in Hm. cbn in Hm. by repeat destruct Hm as [<-|Hm]. }
  rewrite E. apply sdk_init_keeps.
Qed.

Lemma import_Ret {T} (r : T -> res T) t t' : import r t = Ret tt t' -> r t = Ok t'.
Proof using Type. unfold import. destruct (r t); [by intros [= <-]|done..]. Qed.

(** What the seven imports at the end of genesis leave. *)
Lemma own_run g (s s' : St) : mfor own_modules (InitGenesis g) s = Ret tt s' ->
  Market.InitGenesis (has_module_account markettypes) (g_market g) (market (app s)) = Ok (market (app s')) /\
  OracleGenesis.InitGenesis (has_module_account oracletypes) (g_oracle g) (oracle (app s)) = Ok (oracle (app s')) /\
  (exists u t : Treasury.State OracleKeeper.Store B SS DS,
     Treasury.InitGenesis (has_module_account treasurytypes) (g_treasury g) u = Ret tt t /\
     Treasury.store u = treasury (app s) /\ Treasury.store t = treasury (app s')) /\
  TaxExemption.InitGenesis (g_zones g) (zones s) = Ret tt (zones s') /\
  (exists v x : Tax.State unit B DS,
     Tax.InitGenesis (g_tax g) v = Ret tt x /\ Tax.params x = tax_params s') /\
  rate_params (app s') = Dyncomm.GParams (g_dyncomm g).
Proof using Type*.
  change own_modules with [markettypes; oracletypes; treasurytypes; taxexemptiontypes; wasmtypes; dyncommtypes;
    taxtypes; alliancetypes; consensusparamtypes]. cbn [mfor InitGenesis]. intros R.
  apply bind_Ret in R as ([] & s1 & (k & Rk%import_Ret & ->)%zoom_Ret & R).
  apply bind_Ret in R as ([] & s2 & (o & Ro%import_Ret & ->)%zoom_Ret & R).
  apply bind_Ret in R as ([] & s3 & (t & Rt & ->)%zoom_Ret & R).
  apply bind_Ret in R as ([] & s4 & (z & Rz & ->)%zoom_Ret & R).
  apply bind_Ret in R as ([] & s5 & Rw%sdk_init_keeps & R).
  apply bind_Ret in R as ([] & s6 & (d & Rd%dyncomm_params & ->)%zoom_Ret & R).
  apply bind_Ret in R as ([] & s7 & (x & Rx & ->)%zoom_Ret & R).
  apply bind_Ret in R as ([] & s8 & Ra%sdk_init_keeps & R).
  apply bind_Ret in R as ([] & s9 & Rc%sdk_init_keeps & [= <-]).
  destruct Rw as (Wo & Wm & Wt & Wp & Wz & Wx), Ra as (Ao & Am & At & Ap & Az & Ax), Rc as (Co & Cm & Ct & Cp & Cz & Cx).
  simpl in *. split_and!; try congruence.
  - eexists _, t. split_and!; [exact Rt|done|congruence].
  - eexists _, x. split; [exact Rx|congruence].
Qed.

(** The imports of the other projects come first. *)
Lemma InitChainer_run g (s0 s' : St) : InitChainer g s0 = Ret tt s' ->
  exists s2, keeps s0 s2 /\ mfor own_modules (InitGenesis g) s2 = Ret tt s'.
Proof using Type*.
  intros R. unfold InitChainer in R. apply bind_Ret in R as ([] & s1 & R1%version_map_keeps & R).
  rewrite mm_InitGenesis_order in R.
  change AppWiring.orderInitGenesis with (first_modules ++ own_modules) in R. rewrite mfor_app in R.
  apply bind_Ret in R as ([] & s2 & R2 & R). exists s2. split; [|done].
  etrans; [exact R1|]. eapply (mfor_keeps (keeps s1)); [|exact R2|done].
  intros m x x' Hin Rm Hx. etrans; [exact Hx|]. by eapply first_keep.
Qed.

(** ** The import cannot fail in a module that exported *)

Definition restored_modules : list AppModule :=
  [markettypes; oracletypes; treasurytypes; taxexemptiontypes; taxtypes].

(** What the import of a module relies on in the chain it starts from. *)
Definition ready (m : AppModule) (s : St) : Prop :=
  match m with
  | oracletypes => exists p, oracle (app s) = OracleGenesis.empty_store p
  | taxexemptiontypes => zones s = TaxExemption.mkStore ∅ ∅
  | treasurytypes => Treasury.TaxCaps (treasury (app s)) = ∅
  | _ => True
  end.

Lemma fresh_ready m s : fresh s -> ready m s.
Proof using Type. intros [Ho Hz Hc]. by destruct m. Qed.

Lemma keeps_ready m s s' : keeps s s' -> ready m s -> ready m s'.
Proof using Type. intros (Eo & _ & Et & _ & Ez & _). destruct m; cbn; by rewrite ?Eo, ?Et, ?Ez. Qed.

(** The imports of the other modules leave a module ready. *)
Lemma import_ready g m m' s s' : m' <> m -> InitGenesis g m' s = Ret tt s' -> ready m s -> ready m s'.
Proof using Type*.
  intros Hne R. destruct m'; cbn [InitGenesis] in R; try (apply sdk_init_keeps in R; by apply keeps_ready);
    apply zoom_Ret in R as (x & _ & ->); by destruct m.
Qed.

(** A run over a list of modules returns, or stops at one of them. *)
Lemma mfor_stops {T A} (l : list A) (f : A -> M T unit) s :
  (exists s', mfor l f s = Ret tt s') \/
  exists l1 x l2 s1, l = l1 ++ x :: l2 /\ mfor l1 f s = Ret tt s1 /\ returned (f x s1) = false.
Proof using Type.
  revert s. induction l as [|x l IH]; intros s; [by left; exists s|].
  destruct (f x s) as [[] s1| |] eqn:E.
  - destruct (IH s1) as [(s' & R)|(l1 & y & l2 & s2 & -> & R & Ey)].
    + left. exists s'. cbn [mfor]. unfold bind. by rewrite E.
    + right. exists (x :: l1), y, l2, s2. split_and!; [done| |done]. cbn [mfor]. unfold bind. by rewrite E.
  - right. exists [], x, l, s. by rewrite E.
  - right. exists [], x, l, s. by rewrite E.
Qed.

(** A module of this repository accepts its own export. *)
Lemma own_export_accepted ctx (s s1 : St) g m : 0 <= BlockHeight ctx < 2 ^ 62 -> exportable s ->
  (forall m, has_module_account m = true) -> ExportGenesis ctx s = Ok g ->
  m ∈ restored_modules -> ready m s1 -> returned (InitGenesis g m s1) = true.
Proof using Type*.
  intros Hh [Ho Hm Ht Hi Hz (p & r & Ep & Er & Ev)] Hacc Eg Hin Hr.
  destruct (TaxExemptionFacts.zones_genesis_roundtrip _ Hz) as (gz & Ez & Rz).
  unfold ExportGenesis in Eg. rewrite TreasuryGenesis.ExportGenesis_Ok, Ez in Eg. cbn [rbind] in Eg. injection Eg as <-.
  apply list_elem_of_In in Hin. cbn in Hin. destruct Hin as [<-|[<-|[<-|[<-|[<-|[]]]]]];
    cbn [InitGenesis g_market g_oracle g_treasury g_zones g_tax]; rewrite ?Hacc; unfold on_app, zoom.
  - unfold import, Market.InitGenesis. cbn [Market.ExportGenesis Market.GParams]. by rewrite Hm.
  - destruct Hr as (q & Eo). unfold import. by rewrite Eo, OracleGenesis.oracle_genesis_roundtrip.
  - destruct (TreasuryGenesis.treasury_genesis_roundtrip ctx (treasury (app s)) (treasury_view (app s1)) Hh Ht Hi Hr)
      as (g & t' & Eg & Rg & _).
    rewrite TreasuryGenesis.ExportGenesis_Ok in Eg. injection Eg as <-. by rewrite Rg.
  - cbn in Hr. by rewrite Hr, Rz.
  - unfold Tax.InitGenesis, Tax.ValidateGenesis, Tax.ExportGenesis, Tax.GetParams.
    cbn [Tax.GParams tax_view Tax.params]. rewrite Ep. cbn [default id]. rewrite Ev.
    unfold Tax.SetParams, bind. cbn [lift]. by rewrite Ev.
Qed.

(** Where a genesis import stops: recording the module versions, or in a module
    other than those above, after all the imports before it. *)
Definition stops_elsewhere (g : Genesis) (s0 : St) : Prop :=
  returned (SetModuleVersionMap s0) = false \/
  exists l1 m l2 s1, AppWiring.orderInitGenesis = l1 ++ m :: l2 /\ ~ (m ∈ restored_modules) /\
    bind SetModuleVersionMap (fun _ => mfor l1 (InitGenesis g)) s0 = Ret tt s1 /\
    returned (InitGenesis g m s1) = false.

Lemma orderInitGenesis_nodup : NoDup AppWiring.orderInitGenesis.
Proof using Type. apply (bool_decide_unpack (NoDup AppWiring.orderInitGenesis)). by vm_compute. Qed.

Lemma InitChainer_stops ctx (s s0 : St) g : 0 <= BlockHeight ctx < 2 ^ 62 -> exportable s ->
  (forall m, has_module_account m = true) -> ExportGenesis ctx s = Ok g -> fresh s0 ->
  (exists s', InitChainer g s0 = Ret tt s') \/ stops_elsewhere g s0.
Proof using Type*.
  intros Hh He Hacc Eg Hf. unfold InitChainer, stops_elsewhere, bind.
  destruct (SetModuleVersionMap s0) as [[] s1| |] eqn:E1; [|by right; left|by right; left].
  rewrite mm_InitGenesis_order.
  destruct (mfor_stops AppWiring.orderInitGenesis (InitGenesis g) s1)
    as [?|(l1 & m & l2 & s2 & El & R & Hn)]; [by left|].
  right. right. exists l1, m, l2, s2. split_and!; [done| |done|done]. intros Hin.
  assert (m ∉ l1) as Hm.
  { pose proof orderInitGenesis_nodup as Hd. rewrite El in Hd.
    apply NoDup_app in Hd as (_ & Hd & _). intros Hx. apply (Hd _ Hx). left. }
  enough (returned (InitGenesis g m s2) = true) by congruence.
  eapply own_export_accepted; [exact Hh|exact He|done|exact Eg|exact Hin|].
  eapply (mfor_keeps (ready m)); [|exact R|].
  - intros m' x x' Hx. apply import_ready. by intros ->.
  - apply version_map_keeps in E1. eapply keeps_ready; [exact E1|]. by apply fresh_ready.
Qed.

End RoundTrip.

(** ** A concrete chain *)

Section Demo.
Import OracleRef Ref RefFees TaxRef.

#[local] Existing Instance demo_dyn_staking.
#[local] Instance demo_genesis : GenesisManager RefBank RefStaking RefDistr := {|
  mm_InitGenesis order f := mfor order f;
  sdk_InitGenesis _ := ret tt;
  SetModuleVersionMap := ret tt;
  has_module_account _ := true |}.
#[local] Instance demo_genesis_laws : GenesisManagerLaws RefBank RefStaking RefDistr.
Proof. split; [done|intros m s s' [= <-]; by split_and!|intros s s' [= <-]; by split_and!]. Qed.

Definition old_chain : State RefBank RefStaking RefDistr :=
  mkState demo_app TaxExemptionFacts.demo_zones
    (Some (Tax.mkParams [] (Some (NewDecWithPrec 5 3)))).
Definition new_chain : State RefBank RefStaking RefDistr :=
  mkState (mkApp (OracleGenesis.empty_store OracleTypes.DefaultParams) (Market.mkKeeper None Market.DefaultParams)
      (Treasury.mkStore None None ∅ None None ∅ ∅ ∅ ∅ TreasuryTypes.DefaultParams) ∅ Dyncomm.DefaultParams
      (bank demo_app) (staking demo_app) (distr demo_app) [] [])
    (TaxExemption.mkStore ∅ ∅) None.

Lemma old_chain_exportable : exportable old_chain.
Proof.
  split; [exact OracleGenesis.demo_store_wf|by vm_compute..|exact TaxExemptionFacts.demo_zones_inv|].
  eexists _, _. split_and!; by vm_compute.
Qed.

Definition restart : out (State RefBank RefStaking RefDistr) unit :=
  match ExportGenesis last_ctx old_chain with
  | Ok g => InitChainer g new_chain
  | _ => Halt
  end.
Definition restarted : State RefBank RefStaking RefDistr := final restart new_chain.

Lemma restart_returns : restart = Ret tt restarted.
Proof. apply returned_final. by vm_compute. Qed.

End Demo.
End AppGenesis.
