(* ===== verification/AppInit.v ===== *)
(** * A new chain

    The default genesis of the modules ([x/*/genesis.go], [x/*/types/genesis.go])
    and of the wrapped SDK modules ([custom/{crisis,gov,mint,staking}/module.go]),
    and the chain that starts from it: it validates, and what it starts satisfies
    the invariants on which the theorems about running chains rest. *)

From S2P Require Import Prelude Sdk SdkRef SdkFees Core OracleTypes OracleKeeper OracleVotes OracleTally OracleGenesis OracleMachine OracleRef Market MarketOracle TreasuryTypes Treasury TreasuryFacts TreasuryGenesis TreasuryOracle Dyncomm TaxExemption TaxExemptionFacts Tax TaxRef AppBlock AppWiring AppGenesis.

(** ** Defaults of the wrapped modules *)

Module SdkDefaults.

(** The default genesis states of the SDK: the field that is overwritten, and the
    rest as it is. *)
Class SdkGenesis := {
  CrisisRest : Type; crisis_default : Coin * CrisisRest;          (* ConstantFee *)
  GovRest : Type; gov_default : list Coin * GovRest;              (* Params.MinDeposit *)
  MintRest : Type; mint_default : string * MintRest;              (* Params.MintDenom *)
  StakingRest : Type; staking_default : string * StakingRest;     (* Params.BondDenom *)
}.

Section Defaults.
Context `{HSG : SdkGenesis}.

Definition crisis_DefaultGenesis : Coin * CrisisRest :=
  let '(fee, rest) := crisis_default in (mkCoin MicroLunaDenom (Amount fee), rest).
(** The first deposit coin is indexed without a check. *)
Definition gov_DefaultGenesis : res (list Coin * GovRest) :=
  let '(deposit, rest) := gov_default in
  match deposit with
  | c :: cs => Ok (mkCoin MicroLunaDenom (Amount c) :: cs, rest)
  | [] => Panic
  end.
Definition mint_DefaultGenesis : string * MintRest := (MicroLunaDenom, mint_default.2).
Definition staking_DefaultGenesis : string * StakingRest := (MicroLunaDenom, staking_default.2).

(** Fees, deposits, minting and staking all use Luna; amounts and everything else
    stay as the SDK has them. *)
Lemma defaults_use_luna c cs : gov_default.1 = c :: cs ->
  exists deposit, gov_DefaultGenesis = Ok (mkCoin MicroLunaDenom deposit :: cs, gov_default.2) /\ deposit = Amount c /\
    crisis_DefaultGenesis = (mkCoin MicroLunaDenom (Amount crisis_default.1), crisis_default.2) /\
    mint_DefaultGenesis.1 = MicroLunaDenom /\ staking_DefaultGenesis.1 = MicroLunaDenom.
Proof using Type.
  intros E. exists (Amount c). unfold gov_DefaultGenesis, crisis_DefaultGenesis.
  destruct gov_default as [dep rest], crisis_default as [fee rest']. cbn in E. by subst dep.
Qed.
End Defaults.
End SdkDefaults.

(** ** The repository's modules *)

Module AppInit.
Import AppBlock AppGenesis MarketOracle TreasuryOracle.

Section Start.
Context {B SS DS : Type}.
Context `{HM : SdkMath, HC : SdkCoins, HF : SdkFees, HA : Bech32, HT : OracleTypes.TmHash,
  HP : OracleTypes.CoinParser, HB : BankKeeper B, HS : StakingKeeper SS, HY : Dyncomm.DynStaking SS,
  HD : DistrKeeper DS, HL : SlashKeeper B SS DS, HDP : DistrParams DS, HGS : GoStrings, rt : GoRuntime, HG : GenesisManager B SS DS}.
Context `{!SdkMathLaws, !SdkCoinsLaws, !Bech32Laws, !StakingLaws SS, !DistrLaws DS, !GoRuntimeLaws rt,
  !GenesisManagerLaws B SS DS}.
Abbreviation St := (State B SS DS).

(** [ModuleBasics.DefaultGenesis] *)
Definition DefaultGenesis : Genesis :=
  AppGenesis.mkGenesis Market.DefaultGenesisState OracleGenesis.DefaultGenesisState Treasury.DefaultGenesisState
    TaxExemption.DefaultGenesisState Dyncomm.DefaultGenesisState Tax.DefaultGenesisState.

(** [ModuleBasics.ValidateGenesis]; the commissions' has nothing to check. *)
Definition ValidateGenesis (g : Genesis) : res unit :=
  let! _ := Market.ValidateGenesis (g_market g) in
  let! _ := OracleGenesis.ValidateGenesis (g_oracle g) in
  let! _ := Treasury.ValidateGenesis (g_treasury g) in
  let! _ := TaxExemption.ValidateGenesis (g_zones g) in
  Tax.ValidateGenesis (g_tax g).

Hypothesis sdr_valid : ValidateDenom MicroSDRDenom = true.

Lemma default_validates : ValidateGenesis DefaultGenesis = Ok tt.
Proof using sdr_valid.
  pose proof sdr_valid as Hv. vm_compute in Hv |- *. by rewrite Hv.
Qed.

(** The oracle starts empty, with the tobin taxes of its whitelist. *)
Definition first_oracle : OracleKeeper.Store :=
  OracleKeeper.mkStore ∅ ∅ ∅ ∅ ∅ (OracleMachine.whitelist_taxes (OracleTypes.Whitelist OracleTypes.DefaultParams))
    OracleTypes.DefaultParams.

Lemma oracle_starts p : OracleGenesis.InitGenesis true OracleGenesis.DefaultGenesisState (OracleGenesis.empty_store p) =
  Ok first_oracle.
Proof using Type. by vm_compute. Qed.

Lemma first_oracle_inv b st d ev : OracleMachine.inv (OracleKeeper.mkState first_oracle b st d ev : OracleKeeper.State B SS DS).
Proof using Type.
  assert (Hn : OracleMachine.names_ok (OracleTypes.Whitelist OracleTypes.DefaultParams))
    by (apply OracleMachine.validate_param_set_names; by vm_compute).
  split; [apply map_Forall_empty|done|by vm_compute|]. intros x t E. by apply OracleMachine.whitelist_taxes_ok in E as [_ ?].
Qed.

Lemma first_oracle_wf : OracleGenesis.store_wf first_oracle.
Proof using Type.
  split; [apply map_Forall_empty..| |by vm_compute].
  intros E. assert (L : OracleKeeper.TobinTaxes first_oracle !! MicroSDRDenom = None) by (by rewrite E). by vm_compute in L.
Qed.

(** The treasury's import records the supply as the first epoch's issuance. *)
Lemma treasury_starts (u : Treasury.State OracleKeeper.Store B SS DS) : Treasury.TaxCaps (Treasury.store u) = ∅ ->
  exists t, Treasury.InitGenesis true Treasury.DefaultGenesisState u = Ret tt t /\
    Treasury.KParams (Treasury.store t) = TreasuryTypes.DefaultParams /\
    Treasury.GetTaxRate (Treasury.store t) = TreasuryTypes.DefaultTaxRate /\
    Treasury.GetRewardWeight (Treasury.store t) = TreasuryTypes.DefaultRewardWeight /\
    Treasury.PeekEpochTaxProceeds (Treasury.store t) = [] /\ Treasury.TaxCaps (Treasury.store t) = ∅.
Proof using Type*.
  intros Hc. unfold Treasury.InitGenesis, Treasury.SetParams. unfold bind at 1. cbn [gets id].
  assert (Hv : TreasuryTypes.validate_param_set (Treasury.GParams Treasury.DefaultGenesisState) = Ok tt).
  { pose proof sdr_valid as Hs. vm_compute in Hs |- *. by rewrite ?Hs. }
  rewrite Hv. destruct (Coins_IsZero _); (eexists; split; [reflexivity|by split_and!]).
Qed.

Lemma market_starts k : Market.InitGenesis true Market.DefaultGenesisState k =
  Ok (Market.SetTerraPoolDelta ZeroDec (Market.SetParams Market.DefaultParams k)).
Proof using Type. reflexivity. Qed.

(** What a chain that starts from the default genesis is like. *)
Record new_chain (s : St) : Prop := {
  new_oracle : oracle (app s) = first_oracle;
  new_market : Market.KParams (market (app s)) = Market.DefaultParams /\ Market.GetTerraPoolDelta (market (app s)) = 0;
  new_treasury : Treasury.KParams (treasury (app s)) = TreasuryTypes.DefaultParams /\
    Treasury.GetTaxRate (treasury (app s)) = TreasuryTypes.DefaultTaxRate /\
    Treasury.GetRewardWeight (treasury (app s)) = TreasuryTypes.DefaultRewardWeight /\
    Treasury.PeekEpochTaxProceeds (treasury (app s)) = [] /\ Treasury.TaxCaps (treasury (app s)) = ∅;
  new_zones : zones s = TaxExemption.mkStore ∅ ∅;
  new_tax : tax_params s = Some Tax.DefaultParams;
  new_commissions : rate_params (app s) = Dyncomm.DefaultParams }.

Lemma InitChainer_new (s0 s' : St) : (forall m, has_module_account m = true) -> fresh s0 ->
  InitChainer DefaultGenesis s0 = Ret tt s' -> new_chain s'.
Proof using Type*.
  intros Hacc Hf (s2 & K & R)%InitChainer_run. pose proof (fresh_keeps _ _ K Hf) as [(q & Eo) Ez Ec].
  apply own_run in R as (Rk & Ro & (u & t & Rt & Eu & Et) & Rz & (v & x & Rx & Ex) & Ed).
  rewrite !Hacc in *. cbn [g_market g_oracle g_treasury g_zones g_tax g_dyncomm DefaultGenesis] in *.
  rewrite Eo, oracle_starts in Ro. injection Ro as Eo'.
  destruct (treasury_starts u) as (t' & Rt' & Ht); [by rewrite Eu|]. rewrite Rt in Rt'. injection Rt' as <-. rewrite Et in Ht.
  split; [exact (eq_sym Eo')| |exact Ht| | |exact Ed].
  - rewrite market_starts in Rk. injection Rk as E. rewrite <- E. split; reflexivity.
  - rewrite Ez in Rz. injection Rz as E. by symmetry.
  - rewrite <- Ex. injection Rx as <-. reflexivity.
Qed.

(** C37. A chain that starts from the default genesis is sound from its first
    block.  The genesis passes the modules' validation; the oracle's invariant
    holds in every state that the oracle reaches from it; tax rate and reward
    weight lie within their policies and the market's pools are balanced; no
    transfer is exempt; and, once there is a supply, the chain can be exported. *)
Theorem new_chain_sound (s0 s' : St) : (forall m, has_module_account m = true) -> fresh s0 ->
  InitChainer DefaultGenesis s0 = Ret tt s' ->
  ValidateGenesis DefaultGenesis = Ok tt /\
  (forall o, rtc OracleMachine.step (oracle_view (app s')) o -> OracleMachine.inv o) /\
  (let k := treasury (app s') in
   let tp := TreasuryTypes.TaxPolicy (Treasury.KParams k) in
   let rp := TreasuryTypes.RewardPolicy (Treasury.KParams k) in
   TreasuryTypes.RateMin tp <= Treasury.GetTaxRate k <= TreasuryTypes.RateMax tp /\
   TreasuryTypes.RateMin rp <= Treasury.GetRewardWeight k <= TreasuryTypes.RateMax rp) /\
  Market.GetTerraPoolDelta (market (app s')) = 0 /\
  (forall from to, TaxExemption.IsExemptedFromTax (zones s') from [to] = false) /\
  (Coins_IsZero (Treasury.GetEpochInitialIssuance (treasury (app s'))) = false -> exportable s').
Proof using Type*.
  intros Hacc Hf R. apply InitChainer_new in R as [Ho [Em Ed] (Ek & Er & Ew & _) Ez Ex Ec]; [|done..].
  split_and!; [apply default_validates| | |exact Ed| |].
  - intros o Hs. eapply OracleMachine.steps_inv; [exact Hs|]. unfold oracle_view. rewrite Ho. apply first_oracle_inv.
  - cbv zeta. rewrite Ek, Er, Ew. vm_compute. split; split; discriminate.
  - intros from to. rewrite Ez. reflexivity.
  - intros Hi. split; [rewrite Ho; apply first_oracle_wf|rewrite Em; vm_compute; reflexivity| |exact Hi| |].
    + rewrite Ek. pose proof sdr_valid as Hs. vm_compute in Hs |- *. by rewrite ?Hs.
    + rewrite Ez. split; apply map_Forall_empty.
    + exists Tax.DefaultParams, (NewDecWithPrec 5 3). split_and!; [exact Ex|reflexivity..].
Qed.
End Start.

(** ** A concrete chain *)

Section Demo.
Import OracleRef Ref RefFees TaxRef.
#[local] Existing Instance demo_dyn_staking.
#[local] Existing Instance demo_genesis.
#[local] Existing Instance demo_genesis_laws.
#[local] Existing Instance runtime1.

Definition started : State RefBank RefStaking RefDistr :=
  final (InitChainer DefaultGenesis AppGenesis.new_chain) AppGenesis.new_chain.

Lemma new_chain_sound_witness :
  OracleMachine.inv (oracle_view (app started)) /\ exportable started.
Proof.
  assert (Hv : ValidateDenom MicroSDRDenom = true) by (by vm_compute).
  destruct (new_chain_sound Hv AppGenesis.new_chain started) as (_ & Hi & _ & _ & _ & He).
  - done.
  - split; [by eexists|done|done].
  - apply returned_final. by vm_compute.
  - split; [apply Hi; constructor|apply He; by vm_compute].
Defined.
End Demo.
End AppInit.
