(* ===== verification/AppServices.v ===== *)
(** * Services and migrations of the modules

    [RegisterServices] of the repository's modules ([x/*/module.go],
    [x/tax/module/module.go] and the wrappers of bank, market and wasm in
    [x/tax/modules]): the server that answers each message, and the migrations
    that take a module from an older version to its own.  A module is represented
    by the calls it makes on the configurator, in order. *)

From S2P Require Import Prelude Sdk AppBlock AppWiring.

Module AppServices.
Import AppBlock AppWiring.

(** ** Messages and their servers *)

(** The methods of the message services of the modules ([_Msg_serviceDesc] of
    their [tx.pb.go]; the first four are the bank's). *)
Inductive Method :=
  | Bank_Send | Bank_MultiSend | Bank_UpdateParams | Bank_SetSendEnabled
  | AggregateExchangeRatePrevote | AggregateExchangeRateVote | DelegateFeedConsent
  | Swap | SwapSend
  | UpdateParams
  | AddTaxExemptionZone | RemoveTaxExemptionZone | ModifyTaxExemptionZone
  | AddTaxExemptionAddress | RemoveTaxExemptionAddress.

Definition methods : list Method :=
  [Bank_Send; Bank_MultiSend; Bank_UpdateParams; Bank_SetSendEnabled; AggregateExchangeRatePrevote;
   AggregateExchangeRateVote; DelegateFeedConsent; Swap; SwapSend; UpdateParams; AddTaxExemptionZone;
   RemoveTaxExemptionZone; ModifyTaxExemptionZone; AddTaxExemptionAddress; RemoveTaxExemptionAddress].

Definition service_of (m : Method) : AppModule :=
  match m with
  | Bank_Send | Bank_MultiSend | Bank_UpdateParams | Bank_SetSendEnabled => banktypes
  | AggregateExchangeRatePrevote | AggregateExchangeRateVote | DelegateFeedConsent => oracletypes
  | Swap | SwapSend => markettypes
  | UpdateParams => taxtypes
  | _ => taxexemptiontypes
  end.

(** [NewMsgServerImpl] of a module's keeper, and the servers of
    [x/tax/handlers], which embed [UnimplementedMsgServer]. *)
Inductive Server := MsgServerImpl (m : AppModule) | BankMsgServer | MarketMsgServer | WasmMsgServer.

Definition implements (s : Server) (m : Method) : bool :=
  match s with
  | MsgServerImpl svc => bool_decide (service_of m = svc)
  | BankMsgServer => match m with Bank_Send | Bank_MultiSend => true | _ => false end
  | MarketMsgServer => match m with SwapSend => true | _ => false end
  | WasmMsgServer => false
  end.

(** ** What the modules register *)

Inductive Call :=
  | RegisterMsgServer (svc : AppModule) (s : Server)
  | RegisterQueryServer (svc : AppModule)
  | RegisterMigration (svc : AppModule) (fromVersion : Z).

(** The dynamic type of the bank keeper that a module is given. *)
Inductive BankKeeperType := BaseKeeper | CustomKeeper.

(** The type assertion to the SDK's [BaseKeeper] panics for any other keeper. *)
Definition bank_RegisterServices (keeper : BankKeeperType) : res (list Call) :=
  match keeper with
  | BaseKeeper => Ok [
      RegisterMsgServer banktypes BankMsgServer; RegisterQueryServer banktypes;
      RegisterMigration banktypes 1; RegisterMigration banktypes 2; RegisterMigration banktypes 3]
  | CustomKeeper => Panic
  end.
Definition market_RegisterServices : list Call :=
  [RegisterMsgServer markettypes MarketMsgServer; RegisterQueryServer markettypes].
(** The wrapper of wasm, which the application does not use. *)
Definition wasm_RegisterServices : list Call :=
  [RegisterMsgServer wasmtypes WasmMsgServer; RegisterQueryServer wasmtypes;
   RegisterMigration wasmtypes 1; RegisterMigration wasmtypes 2; RegisterMigration wasmtypes 3].
(** [x/market/module.go] on its own, of which the wrapper overrides this. *)
Definition plain_market_RegisterServices : list Call :=
  [RegisterMsgServer markettypes (MsgServerImpl markettypes); RegisterQueryServer markettypes].
Definition oracle_RegisterServices : list Call :=
  [RegisterMsgServer oracletypes (MsgServerImpl oracletypes); RegisterQueryServer oracletypes].
Definition treasury_RegisterServices : list Call :=
  [RegisterQueryServer treasurytypes; RegisterMigration treasurytypes 1; RegisterMigration treasurytypes 2].
Definition taxexemption_RegisterServices : list Call :=
  [RegisterQueryServer taxexemptiontypes; RegisterMsgServer taxexemptiontypes (MsgServerImpl taxexemptiontypes)].
Definition dyncomm_RegisterServices : list Call := [RegisterQueryServer dyncommtypes].
Definition tax_RegisterServices : list Call :=
  [RegisterMsgServer taxtypes (MsgServerImpl taxtypes); RegisterQueryServer taxtypes].

(** What the application's modules register; those of other projects register
    nothing here. *)
Definition RegisterServices (keeper : BankKeeperType) (m : AppModule) : res (list Call) :=
  match m with
  | banktypes => bank_RegisterServices keeper
  | markettypes => Ok market_RegisterServices
  | oracletypes => Ok oracle_RegisterServices
  | treasurytypes => Ok treasury_RegisterServices
  | taxexemptiontypes => Ok taxexemption_RegisterServices
  | dyncommtypes => Ok dyncomm_RegisterServices
  | taxtypes => Ok tax_RegisterServices
  | _ => Ok []
  end.

Definition ConsensusVersion (m : AppModule) : option Z :=
  match m with
  | treasurytypes => Some 3
  | markettypes | oracletypes | taxexemptiontypes | dyncommtypes | taxtypes => Some 1
  | _ => None
  end.

(** The manager ranges over a map of its modules: [order] is any order of them. *)
Definition register_all (keeper : BankKeeperType) (order : list AppModule) : res (list Call) :=
  let! calls := rmap (RegisterServices keeper) order in Ok (concat calls).

Definition msg_servers (calls : list Call) : list (AppModule * Server) :=
  omap (fun c => match c with RegisterMsgServer svc s => Some (svc, s) | _ => None end) calls.
Definition query_servers (calls : list Call) : list AppModule :=
  omap (fun c => match c with RegisterQueryServer svc => Some svc | _ => None end) calls.
Definition migrations (calls : list Call) : list (AppModule * Z) :=
  omap (fun c => match c with RegisterMigration svc v => Some (svc, v) | _ => None end) calls.

(** The server of a method, if the router has one. *)
Definition answers (calls : list Call) (m : Method) (s : Server) : Prop := (service_of m, s) ∈ msg_servers calls.

#[local] Instance Server_eq_dec : EqDecision Server.
Proof. solve_decision. Defined.

(** ** Theorems *)

Definition all_calls : list Call :=
  match register_all BaseKeeper appModules with Ok calls => calls | _ => [] end.

Lemma rmap_Permutation {A B} (f : A -> res B) l l' ys : l ≡ₚ l' -> rmap f l = Ok ys ->
  exists ys', rmap f l' = Ok ys' /\ ys ≡ₚ ys'.
Proof.
  intros Hp. revert ys. induction Hp as [|x l l' _ IH|x y l|l l' l'' _ IH1 _ IH2]; intros ys R.
  - exists []. injection R as <-. done.
  - cbn in R. apply rbind_Ok in R as (y & Hy & (zs & Hz & [= <-])%rbind_Ok).
    apply IH in Hz as (zs' & Hz' & Hperm). exists (y :: zs'). cbn. rewrite Hy. cbn. rewrite Hz'. cbn. split; [done|by constructor].
  - cbn in R. apply rbind_Ok in R as (b & Hb & (zs & (c & Hc & (ws & Hw & [= <-])%rbind_Ok)%rbind_Ok & [= <-])%rbind_Ok).
    exists (c :: b :: ws). cbn. rewrite Hc, Hb. cbn. rewrite Hw. cbn. split; [done|constructor].
  - apply IH1 in R as (ys1 & R1 & P1). apply IH2 in R1 as (ys2 & R2 & P2). exists ys2. split; [done|by etrans].
Qed.

Lemma registered_once order calls : order ≡ₚ appModules -> register_all BaseKeeper order = Ok calls ->
  calls ≡ₚ all_calls.
Proof.
  intros Hp (cs & R & [= <-])%rbind_Ok. apply (rmap_Permutation _ _ appModules) in R as (cs' & R' & Hcs); [|done].
  assert (E : register_all BaseKeeper appModules = Ok (concat cs')) by (unfold register_all; by rewrite R').
  unfold all_calls. rewrite E. by rewrite Hcs.
Qed.

(** In whatever order the modules register, registration goes through when the
    bank keeper is the SDK's; every service is registered once; every module of
    the repository answers queries and, exactly for the versions below its own,
    has the migration to the next one. *)
Lemma services_registered order : order ≡ₚ appModules ->
  exists calls, register_all BaseKeeper order = Ok calls /\
    NoDup (msg_servers calls).*1 /\ NoDup (query_servers calls) /\ NoDup (migrations calls) /\
    forall m v, ConsensusVersion m = Some v ->
      m ∈ query_servers calls /\ forall from, (m, from) ∈ migrations calls <-> 1 <= from < v.
Proof.
  intros Hp. assert (R : exists cs, rmap (RegisterServices BaseKeeper) appModules = Ok cs) by (by eexists).
  destruct R as [cs R]. apply (rmap_Permutation _ _ order) in R as (cs' & R & _); [|done].
  exists (concat cs'). assert (E : register_all BaseKeeper order = Ok (concat cs')) by (unfold register_all; by rewrite R).
  split; [done|]. apply registered_once in E; [|done]. unfold msg_servers, query_servers, migrations. rewrite !E.
  split_and!; [apply (bool_decide_unpack _); by vm_compute..|].
  intros m v Hv. assert (Hq : m ∈ query_servers all_calls) by (destruct m; try done; apply (bool_decide_unpack _); by vm_compute).
  rewrite E. split; [done|]. intros from. rewrite E.
  change (omap _ all_calls) with [(banktypes, 1); (banktypes, 2); (banktypes, 3); (treasurytypes, 1); (treasurytypes, 2)].
  rewrite !elem_of_cons, elem_of_nil.
  split.
  - intros Hin. destruct m; try done; injection Hv as <-; destruct_or? Hin; simplify_eq; lia.
  - intros Hf. destruct m; try done; injection Hv as <-; try lia.
    assert (from = 1 \/ from = 2) as [->| ->] by lia; tauto.
Qed.

(** In whatever order the modules register, exactly one server answers each
    method, and it implements all of them but three: the bank's own [UpdateParams]
    and [SetSendEnabled], and [Swap]. *)
Lemma messages_answered order calls m : order ≡ₚ appModules -> register_all BaseKeeper order = Ok calls ->
  exists s, answers calls m s /\ (forall s', answers calls m s' -> s' = s) /\
    (implements s m = false <-> m = Bank_UpdateParams \/ m = Bank_SetSendEnabled \/ m = Swap).
Proof.
  intros Hp R. apply registered_once in R; [|done]. unfold answers, msg_servers. setoid_rewrite R.
  change (omap _ all_calls) with [(banktypes, BankMsgServer); (markettypes, MarketMsgServer);
    (oracletypes, MsgServerImpl oracletypes); (taxexemptiontypes, MsgServerImpl taxexemptiontypes);
    (taxtypes, MsgServerImpl taxtypes)].
  setoid_rewrite elem_of_cons. setoid_rewrite elem_of_cons. setoid_rewrite elem_of_cons.
  setoid_rewrite elem_of_cons. setoid_rewrite elem_of_cons. setoid_rewrite elem_of_nil.
  destruct m; cbn [service_of]; eexists; (split; [by naive_solver|]); (split; [naive_solver|]); cbn; naive_solver.
Qed.

(** The bank keeper of the application is its own ([app/keepers/keepers.go]), so
    registration panics. *)
Lemma custom_keeper_panics order : banktypes ∈ order -> register_all CustomKeeper order = Panic.
Proof.
  intros Hin. unfold register_all. assert (R : rmap (RegisterServices CustomKeeper) order = Panic); [|by rewrite R].
  induction order as [|m order IH]; [by apply elem_of_nil in Hin|]. cbn.
  apply elem_of_cons in Hin as [<-|Hin]; [done|]. rewrite IH by done. by destruct m.
Qed.
End AppServices.
